(* ===== verification/_CoqProject ===== *)
-Q . S2P
Prelude.v
Status.v
CString.v
Pmem.v
FreeList.v
LbaAlloc.v
PoolAlloc.v
PoolBucket.v
GeneralPool.v
MemMgr.v
ARTree.v
DhtCore.v
Poller.v
PrimaryKey.v
RTreeEngine.v
Rqst.v
PmemPoller.v
SpdkIoBuf.v
SpdkDevice.v
SpdkBdev.v
FinalizePoller.v
OffloadPath.v
BdevSystem.v
BdevErrors.v
OffloadPoller.v
KVStore.v
KVMap.v
DhtRpc.v
DhtServing.v
DhtConnect.v
SpdkConf.v
SpdkInit.v
SpdkJBOD.v
JbodOpen.v
SpdkCore.v
KVAsync.v
KVStoreThin.v
Configuration.v
KVStoreBase.v
MinidaqKey.v
MinidaqNode.v
MinidaqStats.v
MinidaqExec.v
StoreOpen.v
MinidaqApp.v
DaqdbTop.v
AllocClass.v
Singleton.v
StatusText.v
RTree.v
StoreClose.v
DevThreads.v
DhtCall.v
PoolDump.v
Raid0.v
StoreProps.v
TreeThreads.v
NodeCli.v
NodeMain.v
MinidaqReport.v
