(* ===== verification/Prelude.v ===== *)
(** * A verification development for DaqDB: guide and prelude

    DaqDB is a key-value store for data acquisition.  Values are first kept in
    persistent memory, under a radix tree, and later moved to NVMe disks through
    SPDK; keys are spread over nodes by a distributed hash table.  This library
    models the code that carries that logic and proves what makes it correct.

    ** The program

    A client calls [KVStore] ([src/lib/core]) through [KVStoreBase].  The store asks
    [DhtCore] ([src/lib/dht]) whether a key is local; a local key is looked up in the
    tree [ARTree] ([src/lib/pmem]), whose leaves say whether the value is in persistent
    memory or on disk, and the primary part of a new key is queued for [GetAny]
    ([src/lib/primary]).  Asynchronous calls become requests ([Rqst]) in the ring of
    a [PmemPoller] thread.  What concerns the disk goes to the [OffloadPoller]
    thread ([src/lib/offload]), which hands tasks to a device ([src/lib/spdk]): one
    [SpdkBdev] with an I/O thread and a finalizer, or a JBOD of several.  A key
    of another node goes through [DhtClient] to that node's [DhtServer], whose
    handlers call its store; a satellite node has only the client ([src/lib/thin]).
    Disk addresses (LBAs) come from [OffloadLbaAlloc], which takes blocks of them
    from the persistent list [OffloadFreeList].  Requests and buffers come from
    [GeneralPool]s ([src/lib/common]), and [MemMgr] serves raw memory from them.
    [minidaq] ([src/apps/minidaq]) is the benchmark that drives a store: readout threads
    put fragments of events, filtering threads get them back.

    ** The files

    - [Prelude] (this file): outcomes of C++ code, the monad [M], machine integers,
      tactics, the hint database, lemmas on lists.
    - [Status]: [include/daqdb/Status.h] and [Types.h], codes and exceptions.
      [CString]: characters and the number scanners of the C library.
    - [Pmem]: libpmemobj transactions and allocation as type classes.
    - [FreeList]: [OffloadFreeList], the list of free LBAs and its eight slots.
    - [LbaAlloc]: [OffloadLbaAlloc], the caches of LBAs by size.
    - [PoolAlloc], [PoolBucket], [GeneralPool], [MemMgr]: the memory pools, from the
      allocators and stamps to the bucket's ring of buffers, the pool of 64 buckets
      with the registry of pools, and [getMem] and [putMem]; [PoolDump] prints a bucket.
    - [ARTree]: the tree with its wrappers; [RTreeEngine]: what clients may rely on,
      as a type class that [ARTree] implements; [TreeThreads]: searches by several threads.
      [RTree]: the tree that came before.
    - [DhtCore]: node tables and routing.  [DhtConnect]: the clients of threads, their
      eRPC endpoints and sessions.  [DhtServing]: the server's threads.
    - [Poller]: [Poller] over an SPDK ring, [BlockingPoller] over a bounded buffer.
    - [PrimaryKey]: key layout, ownership, [PrimaryKeyNextQueue].
    - [Rqst], [PmemPoller], [OffloadPoller]: requests and the threads that serve them.
    - [SpdkIoBuf], [SpdkDevice], [SpdkBdev], [FinalizePoller]: DMA buffers, tasks, the
      I/O thread of a device and the thread that finishes I/Os; [OffloadPath] composes
      them along the way of one value, [BdevSystem] in all interleavings, [BdevErrors]
      has the error paths.
    - [SpdkConf], [SpdkInit], [SpdkJBOD], [JbodOpen], [SpdkCore]: configuring, opening
      and starting devices, and several devices as one; [DevThreads]: stopping their threads;
      [Raid0]: the device of that name, which is a stub.
    - [KVStore]: the synchronous operations of the store; [KVMap]: the store against the
      specification of a map; [KVAsync]: the asynchronous calls; [KVStoreThin]: the store
      of a satellite; [KVStoreBase]: the interface of stores; [StoreOpen], [StoreClose]:
      opening and closing a store; [StoreProps]: what it tells of itself.
    - [DhtRpc]: the calls of [DhtClient], the messages and the handlers of
      [DhtServer] that run them on a store; [DhtCall]: waiting for a response.
    - [Configuration]: reading the options from a configuration file.
    - [MinidaqKey], [MinidaqNode], [MinidaqStats], [MinidaqReport], [MinidaqExec],
      [MinidaqApp]: keys and data of the benchmark, its nodes over the interface of stores,
      its statistics and reports, the loop of a thread, and the program.  [DaqdbTop]: producer and consumer of [daqdb-top].
    - [NodeCli], [NodeMain]: the shell of a node ([src/examples/clinode]) and its program.
    - [AllocClass]: the allocation classes of the tree; [Singleton]: the objects that are
      made once; [StatusText]: the texts of statuses.

    A class of the source is a [Record] of its fields, a method is a [Definition] of
    the method's name on that record, and an enumeration is an [Inductive].  Where a
    name is taken by another class it has a prefix ([o_process], [engine_enqueueNext]).

    ** How code is modelled

    Code that may fail has type [M exn S A]: it maps a state to an outcome and a
    state.  The outcome is a value, a C++ exception, the end of the process, or
    undefined behaviour; the state is kept in each case, since C++ does not undo
    writes on a [throw].  Integers are [Z] with their wrap-around written out.
    Objects that are shared or can dangle (list nodes, wrappers, pool objects,
    callers' keys, values, I/O buffers) live in finite maps from addresses, so that a use
    after free is visible; objects that are never shared are plain values.  Libraries that
    are not in the repository are type classes with their documented behaviour as laws:
    PMDK ([PmemTx], [PmemHeap], [PmemPool]), SPDK ([SpdkRing], [SpdkNvme], [SpdkBdevLib],
    [DmaAlloc]), eRPC ([ErpcRpc], and the parameter [remote] with the hypothesis
    [delivers]), HdrHistogram ([HdrHistogram]).  Each class has a small
    implementation that shows the laws can hold and lets the model run.  The
    interfaces inside the program are type classes too: [RTreeEngine] is implemented
    by [ARTree], [SpdkDevice] by [SpdkBdev] and by the JBOD, [KVStoreBase] with the laws
    [KVStoreMap] by [KVStore]; clients are proved against the class.  Most classes have one
    mutex or one thread, and an operation is one step; where threads interact ([BdevSystem],
    [TreeThreads], [DhtServing], [StoreClose], [DevThreads], [Singleton]) the steps of the threads interleave
    in any order.

    ** What is proved

    - LBAs: a new free list never hands out an LBA that is held, and fails exactly
      when all are held; [push], [get], [clear] refine queues; [getBlock] counts on
      from the generator; a refilled bucket serves its block.  That the slots share
      LBAs, that a block repeats its head and that a returned LBA shadows a held one
      is proved as the code does it.
    - Pools: a bucket refines a FIFO queue in every shape of its ring; a pool never
      hands out an object twice and a held object can be put back; the registry is
      exact, and there is one manager; [getMem] and [putMem] are inverse when stamps precede the objects, and
      [putMem] reads before the block otherwise.
    - Tree: in every state clients can reach without removing a value from
      persistent memory, [Get] is safe and returns what was put; allocation, update
      and restart do what they should to every key.  Removal leaves a dangling leaf.  Threads
      that allocate different keys at once agree with the tree and never block each other for
      good; two that allocate one key can lose a wrapper.  The earlier tree leads keys to the value that their first three bytes number.  Which
      allocation classes the tree uses.
    - DHT: a key goes to the one node that serves it, for masks of up to four bytes; wider
      masks are undefined, and a local range above [2^31] owns nothing.  A new client reaches
      its neighbours, and one that could not connect is kept and used; waiting for a response
      gives what the call promises.  The server's threads all end before its destructor
      returns, also when handlers throw, which leaves the endpoint of a worker behind and
      ends the process in the server thread; closing returns unless it starts before the
      server's loop.
    - Queues: both kinds are FIFOs; the queue of ready keys yields local keys in
      order; every key has one owner.
    - Requests: each request of a batch is answered exactly once by [PmemPoller], up to the
      null pointer that a store without offload follows for a value on disk, and
      has one fate at [OffloadPoller]; which requests own their key.
    - Devices: a value that is offloaded and read again comes back unchanged, also after
      other I/Os, as long as their blocks do not overlap its own; in every interleaving the
      I/Os in flight, the waiting writes and the finished reads have buffers of their own, up
      to the first read that is refused; after the start which LBAs of the allocator are on
      the device; a JBOD writes to its devices in turn and reads from the device that has
      the value.  Of the error paths: quiescing never succeeds, a refused read is retried
      as a write, no PCI address can be parsed without writing behind it.  The channel of a
      device is closed after its last poll, but the tree is deleted and the offload poller is
      freed while the threads of the device use them.
    - Store: the store refines a map with a bounded queue of ready keys for every
      interleaving of clients' allocations, writes, puts and gets, up to a put that the full
      queue refuses, and what is put is what is read over the network,
      asynchronously and from a satellite; a store that opens has keys of the tree's
      size; a store without requests closes safely, and one with requests may use the deleted
      tree; a refused put dangles; an error of the disk is not reported; a remote put of an
      existing key leaves the handler by an exception.
    - Configuration: the key layout and the devices are exactly those of the file.
    - Benchmark: events are divided among the threads and have keys of their own; what
      readout threads put is what filtering threads get, on any store that is a map; the
      integrity check is exact; threads stop at their limits; which cores threads get.  What
      the producer of [daqdb-top] finishes the consumer reads, and which events they skip.
    - Shell: what is put in the shell is what the shell gets; its loop over options is that
      of a simple function, up to the number of words at which it never ends.

    Every claim has a doc comment that starts with its number, and every claim with
    hypotheses a [_witness] that applies it to a concrete run.

    ** Fuel and bounds

    [findValueInNode] of [ARTree] runs on fuel 9, the number of levels: each round goes down
    one level, and [find_lookup] and [find_allocate] show that the fuel is enough on
    every well-formed tree; that of [RTree] on the 24 bits of a key.  [clear] runs on one
    more than the number of nodes, [getBlock] on one more than the number of LBAs asked for,
    and [popBackVector] on the bound of its own loop; the theorems about them state the
    result, so the fuel is enough.  The loops of a benchmark thread run on fuel, and with a
    limit of [n] iterations [n + 2] turns are shown to be enough; its retry loops answer
    false while they still retry.  Waiting loops on other threads are runs of steps.  All
    other recursion is on lists or counters of the code.  Sizes are bounded only where the
    code overflows, and each such bound is a hypothesis of the theorem.

    ** Not modelled

    Interleavings inside an operation other than in the files named above;
    logging, statistics of devices and most text output; parsing of command lines; the calls
    that only throw.  The monitor [mist], the example
    [basic] and the tests are outside the library. *)

From stdpp Require Export base list gmap fin_maps sets.
From Stdlib Require Export ZArith Lia.

#[global] Open Scope Z_scope.

(** ** Outcomes of C++ code

    A call returns, throws a C++ exception, never comes back ([abort()], a failed
    [assert], a loop that waits for its own thread) or runs into behaviour the language leaves undefined
    (a null or dangling pointer, an index out of range, a division by zero).
    The state after the call is kept in every case: C++ does not undo the
    writes made before a [throw]. *)
Inductive outcome (E A : Type) : Type :=
| Ret (a : A)
| Throw (e : E)
| Crash
| Undef.
Arguments Ret {E A} a.
Arguments Throw {E A} e.
Arguments Crash {E A}.
Arguments Undef {E A}.

(** Stateful code: the state is threaded through, errors included. *)
Definition M (E S A : Type) : Type := S -> outcome E A * S.

Definition cret {E S A} (a : A) : M E S A := fun s => (Ret a, s).
Definition cthrow {E S A} (e : E) : M E S A := fun s => (Throw e, s).
Definition ccrash {E S A} : M E S A := fun s => (Crash, s).
Definition cundef {E S A} : M E S A := fun s => (Undef, s).
Definition cget {E S} : M E S S := fun s => (Ret s, s).
Definition cput {E S} (s' : S) : M E S unit := fun _ => (Ret tt, s').
Definition cmod {E S} (f : S -> S) : M E S unit := fun s => (Ret tt, f s).

Definition cbind {E S A B} (m : M E S A) (k : A -> M E S B) : M E S B :=
  fun s => match m s with
           | (Ret a, s') => k a s'
           | (Throw e, s') => (Throw e, s')
           | (Crash, s') => (Crash, s')
           | (Undef, s') => (Undef, s')
           end.

(** Sequencing of code without state. *)
Definition obind {E A B} (o : outcome E A) (k : A -> outcome E B) : outcome E B :=
  match o with Ret a => k a | Throw e => Throw e | Crash => Crash | Undef => Undef end.

(** [try { m } catch (...) { h }]: only exceptions are caught. *)
Definition ccatch {E S A} (m : M E S A) (h : E -> M E S A) : M E S A :=
  fun s => match m s with
           | (Throw e, s') => h e s'
           | r => r
           end.

(** Runs a component's operation on the part of the state it owns. *)
Definition czoom {E S T A} (get : S -> T) (set : T -> S -> S)
    (m : M E T A) : M E S A :=
  fun s => let r := m (get s) in (fst r, set (snd r) s).

Declare Scope cpp_scope.
Delimit Scope cpp_scope with cpp.
Notation "'let!' x ':=' m 'in' k" := (cbind m (fun x => k))
  (at level 10, x pattern, m at level 100, k at level 200) : cpp_scope.
Notation "'let?' x ':=' m 'in' k" := (obind m (fun x => k))
  (at level 10, x pattern, m at level 100, k at level 200) : cpp_scope.
Notation "m1 ';;;' m2" := (cbind m1 (fun _ => m2))
  (at level 199, right associativity) : cpp_scope.
#[global] Open Scope cpp_scope.

(** ** Machine integers

    An unsigned [w]-bit value is a [Z] in [0, 2^w); arithmetic wraps with
    [uwrap].  A signed one is a [Z] in [-2^(w-1), 2^(w-1)), and converting to
    it wraps with [swrap] (two's complement). *)
Definition uwrap (w : Z) (z : Z) : Z := z mod 2 ^ w.
Definition swrap (w : Z) (z : Z) : Z :=
  (z + 2 ^ (w - 1)) mod 2 ^ w - 2 ^ (w - 1).

Abbreviation u8 := (uwrap 8).
Abbreviation u16 := (uwrap 16).
Abbreviation u32 := (uwrap 32).
Abbreviation u64 := (uwrap 64).
Abbreviation s32 := (swrap 32).
Abbreviation s64 := (swrap 64).

Lemma uwrap_id w z : 0 <= z < 2 ^ w -> uwrap w z = z.
Proof. intros. by apply Z.mod_small. Qed.

Lemma uwrap_range w z : 0 <= w -> 0 <= uwrap w z < 2 ^ w.
Proof. intros. apply Z.mod_pos_bound. by apply Z.pow_pos_nonneg. Qed.

Lemma swrap_id w z : - 2 ^ (w - 1) <= z < 2 ^ (w - 1) -> 0 < w -> swrap w z = z.
Proof.
  intros H Hw. unfold swrap.
  assert (2 ^ w = 2 * 2 ^ (w - 1)) as E.
  { replace w with (Z.succ (w - 1)) at 1 by lia. apply Z.pow_succ_r. lia. }
  rewrite Z.mod_small; lia.
Qed.

(** ** Tactics of the development *)

Create HintDb daqdb.
Create Rewrite HintDb daqdb.

(** Splits the scrutinee of the first [match] of the goal, with its equation. *)
Ltac case_scrut :=
  match goal with
  | |- context [match ?x with _ => _ end] =>
      lazymatch x with context [match _ with _ => _ end] => fail | _ => destruct x eqn:? end
  end.

(** The same in the hypotheses. *)
Ltac case_hyp :=
  match goal with
  | H : context [match ?x with _ => _ end] |- _ =>
      lazymatch x with context [match _ with _ => _ end] => fail | _ => destruct x eqn:? end
  end.

(** Turns boolean comparisons on [Z] and [nat] into propositions. *)
Ltac b2p :=
  repeat match goal with
  | H : (_ <? _) = true |- _ => apply Z.ltb_lt in H
  | H : (_ <? _) = false |- _ => apply Z.ltb_ge in H
  | H : (_ <=? _) = true |- _ => apply Z.leb_le in H
  | H : (_ <=? _) = false |- _ => apply Z.leb_gt in H
  | H : (_ =? _) = true |- _ => apply Z.eqb_eq in H
  | H : (_ =? _) = false |- _ => apply Z.eqb_neq in H
  | H : (_ <? _)%nat = true |- _ => apply Nat.ltb_lt in H
  | H : (_ <? _)%nat = false |- _ => apply Nat.ltb_ge in H
  | H : (_ <=? _)%nat = true |- _ => apply Nat.leb_le in H
  | H : (_ <=? _)%nat = false |- _ => apply Nat.leb_gt in H
  | H : (_ =? _)%nat = true |- _ => apply Nat.eqb_eq in H
  | H : (_ =? _)%nat = false |- _ => apply Nat.eqb_neq in H
  | H : _ && _ = true |- _ => apply andb_true_iff in H as [? ?]
  | H : _ || _ = false |- _ => apply orb_false_iff in H as [? ?]
  | H : negb _ = true |- _ => apply negb_true_iff in H
  | H : negb _ = false |- _ => apply negb_false_iff in H
  end.

(** Case analysis on the comparison in the goal, closed by [lia] where the
    branch is impossible. *)
Ltac zcase :=
  match goal with
  | |- context [?a <? ?b] => destruct (Z.ltb_spec a b); try lia
  | |- context [?a <=? ?b] => destruct (Z.leb_spec a b); try lia
  | |- context [?a =? ?b] => destruct (Z.eqb_spec a b); try lia
  end.

(** ** Running monadic code *)

Lemma cbind_ret {E S A B} (m : M E S A) (k : A -> M E S B) s a s' :
  m s = (Ret a, s') -> cbind m k s = k a s'.
Proof. intros H. unfold cbind. by rewrite H. Qed.

Lemma cbind_throw {E S A B} (m : M E S A) (k : A -> M E S B) s e s' :
  m s = (Throw e, s') -> cbind m k s = (Throw e, s').
Proof. intros H. unfold cbind. by rewrite H. Qed.

(** A call that returned did so through both halves of a sequence. *)
Lemma cbind_inv {E S A B} (m : M E S A) (k : A -> M E S B) s b s'' :
  cbind m k s = (Ret b, s'') ->
  exists a s', m s = (Ret a, s') /\ k a s' = (Ret b, s'').
Proof. unfold cbind. destruct (m s) as [[]?]; naive_solver. Qed.

Lemma ccatch_ret {E S A} (m : M E S A) h s a s' :
  m s = (Ret a, s') -> ccatch m h s = (Ret a, s').
Proof. intros H. unfold ccatch. by rewrite H. Qed.

Lemma ccatch_throw {E S A} (m : M E S A) (h : E -> M E S A) s e s' :
  m s = (Throw e, s') -> ccatch m h s = h e s'.
Proof. intros H. unfold ccatch. by rewrite H. Qed.

(** Code that leaves a part of the state alone, whatever its outcome. *)
Definition keeps {E S A B} (f : S -> B) (m : M E S A) : Prop := forall s, f (snd (m s)) = f s.

Lemma keeps_bind {E S A A' B} (f : S -> B) (m : M E S A) (k : A -> M E S A') :
  keeps f m -> (forall a, keeps f (k a)) -> keeps f (cbind m k).
Proof.
  intros Hm Hk s. unfold cbind. specialize (Hm s). destruct (m s) as [[a|e| |] s']; cbn [snd] in *; try done.
  by rewrite Hk.
Qed.

Lemma keeps_catch {E S A B} (f : S -> B) (m : M E S A) (h : E -> M E S A) :
  keeps f m -> (forall e, keeps f (h e)) -> keeps f (ccatch m h).
Proof.
  intros Hm Hk s. unfold ccatch. specialize (Hm s). destruct (m s) as [[a|e| |] s']; cbn [snd] in *; try done.
  by rewrite Hk.
Qed.

Lemma keeps_zoom {E S T A B} (f : S -> B) (get : S -> T) (set : T -> S -> S) (m : M E T A) :
  (forall t s, f (set t s) = f s) -> keeps f (czoom get set m).
Proof. intros Hs s. apply Hs. Qed.

Lemma keeps_mod {E S B} (f : S -> B) (g : S -> S) : (forall s, f (g s) = f s) -> keeps f (cmod (E := E) g).
Proof. intros Hg s. apply Hg. Qed.

(** Goes through monadic code; what is left are the basic operations. *)
Ltac keeps_step :=
  lazymatch goal with
  | |- keeps _ (cbind _ _) => apply keeps_bind; [|intros ?]
  | |- keeps _ (ccatch _ _) => apply keeps_catch; [|intros ?]
  | |- keeps _ (czoom _ _ _) => apply keeps_zoom; intros ? ?; reflexivity
  | |- keeps _ (cmod _) => apply keeps_mod; intros ?; reflexivity
  | |- keeps _ (cret _) => intros ?; reflexivity
  | |- keeps _ cget => intros ?; reflexivity
  | |- keeps _ cundef => intros ?; reflexivity
  | |- keeps _ (match ?x with _ => _ end) => destruct x
  end.

(** ** Lists *)

Lemma take_insert_nth {A} (l : list A) (i : nat) (x : A) :
  (i < length l)%nat -> take (S i) (<[i:=x]> l) = take i l ++ [x].
Proof.
  intros H. rewrite (take_S_r _ i x).
  - by rewrite take_insert_ge.
  - by apply list_lookup_insert_eq.
Qed.

Lemma Forall_insert_list {A} (P : A -> Prop) (l : list A) i x :
  Forall P l -> P x -> Forall P (<[i:=x]> l).
Proof. intros. by apply Forall_insert. Qed.

#[export] Hint Resolve Forall_insert_list : daqdb.

Lemma snoc_cases {A} (l : list A) : l = [] \/ exists l' x, l = l' ++ [x].
Proof. destruct l as [|x l _] using rev_ind; eauto. Qed.

Lemma lookup_mjoin {A} (l : list (option A)) (i : nat) (o : option A) :
  (i < length l)%nat -> mjoin (l !! i) = o -> l !! i = Some o.
Proof. intros H <-. destruct (lookup_lt_is_Some_2 l i H) as [x Hx]. by rewrite Hx. Qed.

Lemma lookup_snoc {A} (l : list A) x : (l ++ [x]) !! length l = Some x.
Proof. rewrite lookup_app_r, Nat.sub_diag by done. done. Qed.
Lemma delete_snoc {A} (l : list A) x : delete (length l) (l ++ [x]) = l.
Proof. induction l as [|y l IH]; [done|]. simpl. by rewrite IH. Qed.
