(* ===== verification/Status.v ===== *)
(** * Status codes and exceptions

    [include/daqdb/Status.h] and [include/daqdb/Types.h]: the [StatusCode]
    enumeration and the exceptions that DaqDB code throws, with the exceptions
    of the libraries it calls that it lets through. *)

From S2P Require Import Prelude.

(** [enum StatusCode : long]: [OK] is 0, [_MAX_ERRNO] is the largest [int] and
    the named codes follow it.  A [Status] holds any [long], because it is also
    built from an [errno]. *)
Definition OK : Z := 0.
Definition _MAX_ERRNO : Z := 2147483647.
Definition KEY_NOT_FOUND : Z := _MAX_ERRNO + 1.
Definition BAD_KEY_FORMAT : Z := _MAX_ERRNO + 2.
Definition PMEM_ALLOCATION_ERROR : Z := _MAX_ERRNO + 3.
Definition DHT_ALLOCATION_ERROR : Z := _MAX_ERRNO + 4.
Definition SPDK_ALLOCATION_ERROR : Z := _MAX_ERRNO + 5.
Definition OFFLOAD_DISABLED_ERROR : Z := _MAX_ERRNO + 6.
Definition QUEUE_FULL_ERROR : Z := _MAX_ERRNO + 7.
Definition DHT_DISABLED_ERROR : Z := _MAX_ERRNO + 8.
Definition TIME_OUT : Z := _MAX_ERRNO + 9.
Definition DHT_CONNECT_ERROR : Z := _MAX_ERRNO + 10.
Definition NOT_IMPLEMENTED : Z := _MAX_ERRNO + 11.
Definition NOT_SUPPORTED : Z := _MAX_ERRNO + 12.
Definition UNKNOWN_ERROR : Z := _MAX_ERRNO + 13.

(** The [errno] values the sources name. *)
Definition ENOMEM : Z := 12.
Definition EINVAL : Z := 22.

(** [OperationFailedException(int errnum)]: the constructor that a [StatusCode]
    which is not wrapped in a [Status] goes to, because the conversion of the
    enumeration to [int] is preferred to the one to [Status].  The named codes do not
    fit an [int]. *)
Definition errnum (code : Z) : Z := s32 code.

(** [Status::ok]. *)
Definition ok (code : Z) : bool := code =? OK.

(** The exceptions: the classes of [Types.h], then
    [pmem::manual_tx_abort] thrown by [transaction::abort],
    [pmem::transaction_alloc_error] thrown by a failed [make_persistent],
    [std::out_of_range] thrown by [vector::at], and
    [std::invalid_argument] and [std::out_of_range] thrown by [std::stoi], and
    [std::bad_alloc] thrown by [operator new], and [pmem::pool_error] thrown when a
    pool cannot be opened or created, and libconfig's [SettingNotFoundException], and
    [std::system_error], and [boost::bad_lexical_cast]. *)
Inductive exn : Type :=
| OperationFailedException (status : Z)
| QueueFullException
| NotImplementedException
| NotSupportedFuncException
| manual_tx_abort (err : Z)
| transaction_alloc_error
| out_of_range
| invalid_argument
| bad_alloc
| pool_error
| SettingNotFoundException
| system_error
| bad_lexical_cast.

#[export] Instance exn_eq_dec : EqDecision exn.
Proof. solve_decision. Defined.
