(* ===== verification/CString.v ===== *)
(** * Text: characters and the number scanners of the C library

    The parts that [std::stoi] and [sscanf] share. *)

From Stdlib Require Import Ascii String.
From S2P Require Import Prelude.

#[local] Open Scope Z_scope.

Definition code (c : ascii) : Z := Z.of_N (N_of_ascii c).
Definition isspace (c : ascii) : bool :=
  (code c =? 32) || ((9 <=? code c) && (code c <=? 13)).
Definition isdigit (c : ascii) : bool := (48 <=? code c) && (code c <=? 57).

Fixpoint skip_space (s : string) : string :=
  match s with
  | String c s' => if isspace c then skip_space s' else s
  | EmptyString => s
  end.

(** ** [%x] of [sscanf] *)

Definition hexval (c : ascii) : option Z :=
  let n := code c in
  if isdigit c then Some (n - 48)
  else if (97 <=? n) && (n <=? 102) then Some (n - 87)
  else if (65 <=? n) && (n <=? 70) then Some (n - 55)
  else None.

(** The value of the leading hexadecimal digits and what follows them. *)
Fixpoint hex_digits (acc : option Z) (s : string) : option Z * string :=
  match s with
  | String c s' =>
      match hexval c with
      | Some d => hex_digits (Some (16 * default 0 acc + d)) s'
      | None => (acc, s)
      end
  | EmptyString => (acc, s)
  end.

(** [0x] may precede the digits. *)
Definition hex_number (s : string) : option Z * string :=
  match s with
  | String z (String x s') =>
      if (code z =? 48) && ((code x =? 120) || (code x =? 88)) then hex_digits None s' else hex_digits None s
  | _ => hex_digits None s
  end.

(** One conversion: white space, a sign, the number, which saturates at [2^64 - 1]
    and is stored as [unsigned int]. *)
Definition scan_hex (s : string) : option (Z * string) :=
  let number (neg : bool) (s : string) :=
    match hex_number s with
    | (Some v, s') => let v := Z.min v (2 ^ 64 - 1) in Some (uwrap 32 (if neg then - v else v), s')
    | (None, _) => None
    end in
  match skip_space s with
  | String c s' => if code c =? 45 then number true s' else if code c =? 43 then number false s' else number false (String c s')
  | EmptyString => None
  end.

(** A character of the format that is not a conversion. *)
Definition scan_char (c : ascii) (s : string) : option string :=
  match s with
  | String c' s' => if Ascii.eqb c c' then Some s' else None
  | EmptyString => None
  end.
