(* ===== verification/Pmem.v ===== *)
(** * The interface of libpmemobj++ that DaqDB relies on

    PMDK is not part of the repository.  What the sources use of it is stated
    here as two type classes, with the documented behaviour as their laws:
    every theorem about code that calls PMDK is proved for an arbitrary
    implementation of these classes.  [simple_tx] and [simple_heap] are small
    implementations that show the laws can hold and that let the model run. *)

From S2P Require Import Prelude Status.

(** [transaction::exec_tx(pop, body)] on a state made of a persistent part [P]
    and a volatile part [V] (locals captured by reference, DRAM).  When the body
    returns, its effects stay.  When it throws, the persistent part is rolled
    back, the volatile part is not, and the exception propagates. *)
Class PmemTx : Type := {
  exec_tx : forall {P V A : Type}, M exn (P * V) A -> M exn (P * V) A;
  exec_tx_commit : forall {P V A} (body : M exn (P * V) A) s a s',
    body s = (Ret a, s') -> exec_tx body s = (Ret a, s');
  exec_tx_abort : forall {P V A} (body : M exn (P * V) A) p v e p' v',
    body (p, v) = (Throw e, (p', v')) ->
    exec_tx body (p, v) = (Throw e, (p, v'))
}.

Definition simple_exec_tx {P V A} (body : M exn (P * V) A) : M exn (P * V) A :=
  fun s => match body s with
           | (Throw e, (_, v')) => (Throw e, (fst s, v'))
           | r => r
           end.

#[refine] Definition simple_tx : PmemTx :=
  {| exec_tx := @simple_exec_tx |}.
Proof.
  - intros P V A body s a s' H. unfold simple_exec_tx. by rewrite H.
  - intros P V A body p v e p' v' H. unfold simple_exec_tx. by rewrite H.
Defined.

(** Allocation of persistent objects of one type: given the live objects,
    [pm_alloc] picks an address for a new one, or fails when the pool is
    exhausted.  A new object never overlaps a live one. *)
Class PmemHeap (T : Type) : Type := {
  pm_alloc : gmap positive T -> option positive;
  pm_alloc_fresh : forall h a, pm_alloc h = Some a -> h !! a = None
}.

#[refine] Definition simple_heap (T : Type) : PmemHeap T :=
  {| pm_alloc := fun h => Some (fresh (dom h)) |}.
Proof.
  intros h a [= <-]. apply not_elem_of_dom. apply is_fresh.
Defined.
