(* ===== verification/FreeList.v ===== *)
(** * The persistent free list of LBAs ([lib/offload/OffloadFreeList])

    A persistent singly linked queue of LBA numbers, with one main queue
    ([_head], [_tail]) and [numSlots] block queues ([_heads], [_tails]).  A
    negative entry [-k] at the head of a queue is a generator: it stands for
    the LBAs from [k] on that were never handed out.

    The file models every operation on the pointer level, gives the queues an
    abstract value (a list of numbers), proves that the operations refine the
    abstract ones, and from that the safety of the allocator built from [push]
    and [get]. *)

From S2P Require Import Prelude Status Pmem.

Definition numSlots : nat := 8.

(** [struct FreeLba]. *)
Record FreeLba : Type := mkFreeLba { next : option positive; lba : Z }.

(** [class OffloadFreeList]; [nodes] are the live [FreeLba] objects of the
    pool, [None] is the null [persistent_ptr]. *)
Record OffloadFreeList : Type := mkOffloadFreeList {
  maxLba : Z;
  _head : option positive;
  _tail : option positive;
  _heads : list (option positive);
  _tails : list (option positive);
  nodes : gmap positive FreeLba
}.

Definition set_nodes (h : gmap positive FreeLba) (s : OffloadFreeList) :=
  mkOffloadFreeList (maxLba s) (_head s) (_tail s) (_heads s) (_tails s) h.
Definition set_main (hd tl : option positive) (s : OffloadFreeList) :=
  mkOffloadFreeList (maxLba s) hd tl (_heads s) (_tails s) (nodes s).
Definition set_slot (i : nat) (hd tl : option positive) (s : OffloadFreeList) :=
  mkOffloadFreeList (maxLba s) (_head s) (_tail s)
    (<[i:=hd]> (_heads s)) (<[i:=tl]> (_tails s)) (nodes s).

(** A queue inside the free list: how to read and write its two pointers. *)
Inductive queue_id : Type := Main | Slot (i : nat).

Definition q_head (q : queue_id) (s : OffloadFreeList) : option positive :=
  match q with Main => _head s | Slot i => mjoin (_heads s !! i) end.
Definition q_tail (q : queue_id) (s : OffloadFreeList) : option positive :=
  match q with Main => _tail s | Slot i => mjoin (_tails s !! i) end.
Definition set_queue (q : queue_id) (hd tl : option positive) (s : OffloadFreeList) :=
  match q with Main => set_main hd tl s | Slot i => set_slot i hd tl s end.

Section Operations.
Context `{PmemTx} `{PmemHeap FreeLba}.

(** The operations run in a transaction over the list and the captured
    locals [V]. *)
Section Accessors.
Context {V : Type}.
Abbreviation TX A := (M exn (OffloadFreeList * V) A).

Definition get_list : TX OffloadFreeList := fun s => (Ret (fst s), s).
Definition upd_list (f : OffloadFreeList -> OffloadFreeList) : TX unit :=
  fun s => (Ret tt, (f (fst s), snd s)).
Definition get_local : TX V := fun s => (Ret (snd s), s).
Definition set_local (v : V) : TX unit := fun s => (Ret tt, (fst s, v)).

(** [p->field] for a [persistent_ptr<FreeLba>]: undefined for a null or
    dangling pointer. *)
Definition deref (p : option positive) : TX (positive * FreeLba) := fun s =>
  match p with
  | None => (Undef, s)
  | Some a => match nodes (fst s) !! a with
              | None => (Undef, s)
              | Some n => (Ret (a, n), s)
              end
  end.

Definition write_node (a : positive) (n : FreeLba) : TX unit :=
  upd_list (fun s => set_nodes (<[a:=n]> (nodes s)) s).

(** [make_persistent<FreeLba>()]. *)
Definition new_node (n : FreeLba) : TX positive := fun s =>
  match pm_alloc (nodes (fst s)) with
  | None => (Throw transaction_alloc_error, s)
  | Some a => (Ret a, (set_nodes (<[a:=n]> (nodes (fst s))) (fst s), snd s))
  end.

(** [delete_persistent<FreeLba>(p)]. *)
Definition free_node (a : positive) : TX unit :=
  upd_list (fun s => set_nodes (delete a (nodes s)) s).

(** The body that [push] and [pushBlock] share. *)
Definition push_body (q : queue_id) (value : Z) : TX unit :=
  let! n := new_node (mkFreeLba None value) in
  let! s := get_list in
  match q_head q s, q_tail q s with
  | None, None => upd_list (set_queue q (Some n) (Some n))
  | hd, tl =>
      let! (t, tn) := deref tl in
      write_node t (mkFreeLba (Some n) (lba tn)) ;;;
      upd_list (set_queue q hd (Some n))
  end.

(** [auto n = head->next; delete_persistent(head); head = n;
     if (head == nullptr) tail = nullptr;] *)
Definition pop_body (q : queue_id) : TX unit :=
  let! s := get_list in
  let! (a, n) := deref (q_head q s) in
  free_node a ;;;
  upd_list (set_queue q (next n)
    (match next n with None => None | Some _ => q_tail q s end)).

Fixpoint clear_loop (fuel : nat) (q : queue_id) : TX unit :=
  match fuel with
  | O => cundef
  | S fuel =>
      let! s := get_list in
      match q_head q s with
      | None => cret tt
      | Some _ => pop_body q ;;; clear_loop fuel q
      end
  end.

End Accessors.

(** Runs a transaction whose locals start as [v] and that is not observed
    outside. *)
Definition run_tx {V A B} (v : V) (body : M exn (OffloadFreeList * V) A)
    (k : V -> B) : M exn OffloadFreeList B := fun s =>
  match exec_tx body (s, v) with
  | (Ret _, (s', v')) => (Ret (k v'), s')
  | (Throw e, (s', _)) => (Throw e, s')
  | (Crash, (s', _)) => (Crash, s')
  | (Undef, (s', _)) => (Undef, s')
  end.

Definition push (value : Z) : M exn OffloadFreeList unit :=
  run_tx tt (push_body Main value) id.

Definition pushBlock (value : Z) (slot : nat) : M exn OffloadFreeList unit :=
  if (slot <? numSlots)%nat
  then run_tx tt (push_body (Slot slot) value) id
  else cundef.

(** [OffloadFreeList::get]; the local is [ret].  [ret] is an [int64_t] and
    [maxLba] a [uint64_t], so both comparisons are unsigned.  [abs] is taken to be
    the 64-bit overload, as [<cstdlib>] declares it (the headers of libpmemobj++ and
    [<iostream>] bring it in); with [abs(int)] it would be the same up to [2^31 - 1]
    LBAs. *)
Definition get_body : M exn (OffloadFreeList * Z) unit :=
  let! s := get_list in
  (if (bool_decide (_head s = None) || (maxLba s =? 0))
   then cthrow (manual_tx_abort EINVAL) else cret tt) ;;;
  let! (a, n) := deref (_head s) in
  set_local (lba n) ;;;
  if 0 <=? lba n then pop_body Main
  else
    let ret := Z.abs (lba n) in
    set_local ret ;;;
    if u64 ret <? u64 (maxLba s - 1) then
      write_node a (mkFreeLba (next n) (lba n - 1))
    else if u64 ret =? u64 (maxLba s - 1) then
      write_node a (mkFreeLba (next n) 0)
    else set_local (-1) ;;; cthrow (manual_tx_abort EINVAL).

Definition get : M exn OffloadFreeList Z := run_tx (-1) get_body id.

(** The locals of [getBlock]: the caller's array, [cnt] and [ret]. *)
Record block_locals : Type := mkBlockLocals {
  bl_lbas : list Z; bl_cnt : Z; bl_ret : Z }.

(** [lbas[i] = v], undefined out of the array. *)
Definition write_lba (i : Z) (v : Z) : M exn (OffloadFreeList * block_locals) unit :=
  let! l := get_local in
  if (0 <=? i) && (i <? Z.of_nat (length (bl_lbas l)))
  then set_local (mkBlockLocals (<[Z.to_nat i:=v]> (bl_lbas l)) (bl_cnt l) (bl_ret l))
  else cundef.

Definition set_cnt (c : Z) : M exn (OffloadFreeList * block_locals) unit :=
  let! l := get_local in set_local (mkBlockLocals (bl_lbas l) c (bl_ret l)).
Definition set_ret (r : Z) : M exn (OffloadFreeList * block_locals) unit :=
  let! l := get_local in set_local (mkBlockLocals (bl_lbas l) (bl_cnt l) r).

(** [for (ret = _heads[slot]->lba;;) { ... }]: [ret] is read once, before the
    first iteration. *)
Fixpoint getBlock_pop_loop (fuel : nat) (lbasSize : Z) (slot : nat) :
    M exn (OffloadFreeList * block_locals) unit :=
  match fuel with
  | O => cundef
  | S fuel =>
      let! l := get_local in
      if (bl_ret l <? 0) || (lbasSize <=? bl_cnt l) then cret tt
      else
        write_lba (bl_cnt l) (bl_ret l) ;;;
        set_cnt (bl_cnt l + 1) ;;;
        pop_body (Slot slot) ;;;
        let! s := get_list in
        match q_head (Slot slot) s with
        | None => cret tt
        | Some _ => getBlock_pop_loop fuel lbasSize slot
        end
  end.

(** [for (; cnt < lbasSize; cnt++) { ... if (!ret) break; }]. *)
Fixpoint getBlock_gen_loop (fuel : nat) (lbasSize : Z) (slot : nat) :
    M exn (OffloadFreeList * block_locals) unit :=
  match fuel with
  | O => cundef
  | S fuel =>
      let! l := get_local in
      if bl_cnt l <? lbasSize then
        let! s := get_list in
        let! (a, n) := deref (q_head (Slot slot) s) in
        let lba' := lba n - (Z.of_nat slot + 1) in
        write_node a (mkFreeLba (next n) lba') ;;;
        set_ret (Z.abs lba') ;;;
        write_lba (bl_cnt l) (Z.abs lba') ;;;
        if Z.abs lba' =? 0 then cret tt
        else set_cnt (bl_cnt l + 1) ;;; getBlock_gen_loop fuel lbasSize slot
      else cret tt
  end.

(** What follows the first loop: the generator branch. *)
Definition getBlock_finish (lbasSize : Z) (slot : nat) :
    M exn (OffloadFreeList * block_locals) unit :=
  let! l := get_local in
  let! s := get_list in
  if (bl_cnt l <? lbasSize) && (bl_ret l <? 0)
     && bool_decide (q_head (Slot slot) s <> None) then
    let ret := Z.abs (bl_ret l) in
    set_ret ret ;;;
    if u64 ret <=? u64 (maxLba s - (Z.of_nat slot + 1)) then
      write_lba (bl_cnt l) ret ;;;
      getBlock_gen_loop (S (Z.to_nat lbasSize)) lbasSize slot
    else set_ret (-1) ;;; cthrow (manual_tx_abort EINVAL)
  else cret tt.

Definition getBlock_body (lbasSize : Z) (slot : nat) :
    M exn (OffloadFreeList * block_locals) unit :=
  let! s := get_list in
  (if (bool_decide (q_head (Slot slot) s = None) || (maxLba s =? 0))
   then cthrow (manual_tx_abort EINVAL) else cret tt) ;;;
  let! (_, n) := deref (q_head (Slot slot) s) in
  set_ret (lba n) ;;;
  getBlock_pop_loop (S (Z.to_nat lbasSize)) lbasSize slot ;;;
  getBlock_finish lbasSize slot.

(** [OffloadFreeList::getBlock]: fills the caller's [lbas] and returns [cnt].
    The array is volatile: a rolled back transaction leaves it written. *)
Definition getBlock (lbasSize : Z) (slot : nat) :
    M exn (OffloadFreeList * list Z) Z := fun '(s, lbas) =>
  if negb (slot <? numSlots)%nat then (Crash, (s, lbas)) else
  match exec_tx (getBlock_body lbasSize slot) (s, mkBlockLocals lbas 0 (-1)) with
  | (Ret _, (s', l)) => (Ret (bl_cnt l), (s', bl_lbas l))
  | (Throw e, (s', l)) => (Throw e, (s', bl_lbas l))
  | (Crash, (s', l)) => (Crash, (s', bl_lbas l))
  | (Undef, (s', l)) => (Undef, (s', bl_lbas l))
  end.

(** [putBlock]: one transaction per element. *)
Fixpoint putBlock (lbas : list Z) (slot : nat) : M exn OffloadFreeList unit :=
  match lbas with
  | [] => cret tt
  | v :: lbas => pushBlock v slot ;;; putBlock lbas slot
  end.

(** The [while] loops of [clear] and [clearBlock] run once per node; the fuel
    is the number of live nodes plus one for the exit test. *)
Definition clear : M exn OffloadFreeList unit := fun s =>
  run_tx tt (clear_loop (S (size (nodes s))) Main) id s.

Definition clearBlock (slot : nat) : M exn OffloadFreeList unit := fun s =>
  if (slot <? numSlots)%nat
  then run_tx tt (clear_loop (S (size (nodes s))) (Slot slot)) id s
  else (Undef, s).

End Operations.

(** [show] and [showBlock] print the LBAs from the head on. *)
Fixpoint walk (fuel : nat) (h : gmap positive FreeLba) (p : option positive) :
    list Z :=
  match fuel, p with
  | S fuel, Some a => match h !! a with
                      | Some n => lba n :: walk fuel h (next n)
                      | None => []
                      end
  | _, _ => []
  end.

Definition show (s : OffloadFreeList) : list Z :=
  walk (S (size (nodes s))) (nodes s) (_head s).
Definition showBlock (slot : nat) (s : OffloadFreeList) : list Z :=
  walk (S (size (nodes s))) (nodes s) (q_head (Slot slot) s).

#[local] Arguments deref : simpl never.
#[local] Arguments pop_body : simpl never.
#[local] Arguments write_node : simpl never.

(** ** The abstract value of a queue

    [chain h p l]: following [next] from [p] visits exactly the nodes [l] (their
    addresses and LBAs) and ends in a null pointer. *)
Fixpoint chain (h : gmap positive FreeLba) (p : option positive)
    (l : list (positive * Z)) : Prop :=
  match l with
  | [] => p = None
  | (a, v) :: l' => p = Some a /\
      exists nx, h !! a = Some (mkFreeLba nx v) /\ chain h nx l'
  end.

Lemma chain_frame h h' p l :
  (forall a, a ∈ l.*1 -> h' !! a = h !! a) -> chain h p l -> chain h' p l.
Proof.
  revert p. induction l as [|[a v] l IH]; intros p Hf; [done|].
  intros [-> (nx & Ha & Hc)]. split; [done|]. exists nx.
  rewrite Hf by set_solver. split; [done|]. apply IH; set_solver.
Qed.

(** Linking a fresh node behind the last one. *)
Lemma chain_snoc h p l t tv n v :
  chain h p (l ++ [(t, tv)]) -> NoDup (l ++ [(t, tv)]).*1 ->
  n ∉ (l ++ [(t, tv)]).*1 ->
  chain (<[t:=mkFreeLba (Some n) tv]> (<[n:=mkFreeLba None v]> h)) p
        ((l ++ [(t, tv)]) ++ [(n, v)]).
Proof.
  revert p. induction l as [|[a w] l IH]; intros p Hc Hnd Hn; simpl in *.
  - destruct Hc as [-> (nx & Ht & ->)]. split; [done|].
    exists (Some n). rewrite lookup_insert_eq. split; [done|].
    split; [done|]. exists None.
    rewrite lookup_insert_ne by set_solver. by rewrite lookup_insert_eq.
  - destruct Hc as [-> (nx & Ha & Hc)]. apply NoDup_cons in Hnd as [Hna Hnd].
    split; [done|]. exists nx. rewrite fmap_app in Hna, Hn. simpl in *. split.
    + rewrite lookup_insert_ne by set_solver. by rewrite lookup_insert_ne by set_solver.
    + apply IH; [done|done|]. rewrite fmap_app. set_solver.
Qed.

Lemma chain_last h p l t tv :
  chain h p (l ++ [(t, tv)]) ->
  exists hd nt, p = Some hd /\ h !! t = Some (mkFreeLba nt tv).
Proof.
  revert p. induction l as [|[b w] l IH]; intros p [-> (nx & Hb & Hc)]; [eauto|].
  destruct (IH _ Hc) as (? & nt & _ & ?). eauto.
Qed.

(** One queue: its chain, and its tail pointer is the last node. *)
Definition queue_rep (h : gmap positive FreeLba) (hd tl : option positive)
    (l : list (positive * Z)) : Prop :=
  chain h hd l /\ tl = fst <$> last l.

#[export] Instance queue_id_eq_dec : EqDecision queue_id.
Proof. solve_decision. Defined.

Definition valid_q (q : queue_id) : Prop :=
  match q with Main => True | Slot i => (i < numSlots)%nat end.

Definition upd {A} (q : queue_id) (l : A) (f : queue_id -> A) : queue_id -> A :=
  fun q' => if decide (q' = q) then l else f q'.

Lemma upd_eq {A} q (l : A) f : upd q l f q = l.
Proof. unfold upd. by rewrite decide_True. Qed.
Lemma upd_ne {A} q q' (l : A) f : q' <> q -> upd q l f q' = f q'.
Proof. intros. unfold upd. by rewrite decide_False. Qed.

(** The whole free list: every queue has its chain and the chains share no
    node. *)
Record rep (s : OffloadFreeList) (f : queue_id -> list (positive * Z)) : Prop := {
  rep_heads : length (_heads s) = numSlots;
  rep_tails : length (_tails s) = numSlots;
  rep_queue : forall q, valid_q q ->
    queue_rep (nodes s) (q_head q s) (q_tail q s) (f q);
  rep_nodup : forall q, valid_q q -> NoDup (f q).*1;
  rep_disj : forall q q' a, valid_q q -> valid_q q' -> q <> q' ->
    a ∈ (f q).*1 -> a ∈ (f q').*1 -> False
}.

(** The value of the list: what each queue holds. *)
Definition Rep (s : OffloadFreeList) (g : queue_id -> list Z) : Prop :=
  exists f, rep s f /\ forall q, valid_q q -> (f q).*2 = g q.

Lemma q_head_set q hd tl s :
  length (_heads s) = numSlots -> valid_q q -> q_head q (set_queue q hd tl s) = hd.
Proof.
  intros Hh Hq. destruct q; simpl in *; [done|].
  rewrite list_lookup_insert_eq by lia. done.
Qed.
Lemma q_tail_set q hd tl s :
  length (_tails s) = numSlots -> valid_q q -> q_tail q (set_queue q hd tl s) = tl.
Proof.
  intros Hh Hq. destruct q; simpl in *; [done|].
  rewrite list_lookup_insert_eq by lia. done.
Qed.
Lemma q_head_set_ne q q' hd tl s :
  q' <> q -> q_head q' (set_queue q hd tl s) = q_head q' s.
Proof.
  intros Hne. destruct q, q'; simpl in *; try done.
  rewrite list_lookup_insert_ne by congruence. done.
Qed.
Lemma q_tail_set_ne q q' hd tl s :
  q' <> q -> q_tail q' (set_queue q hd tl s) = q_tail q' s.
Proof.
  intros Hne. destruct q, q'; simpl in *; try done.
  rewrite list_lookup_insert_ne by congruence. done.
Qed.
Lemma nodes_set_queue q hd tl s : nodes (set_queue q hd tl s) = nodes s.
Proof. by destruct q. Qed.
Lemma maxLba_set_queue q hd tl s : maxLba (set_queue q hd tl s) = maxLba s.
Proof. by destruct q. Qed.
Lemma heads_set_queue q hd tl s :
  length (_heads (set_queue q hd tl s)) = length (_heads s).
Proof. destruct q; simpl; [done|]. by rewrite length_insert. Qed.
Lemma tails_set_queue q hd tl s :
  length (_tails (set_queue q hd tl s)) = length (_tails s).
Proof. destruct q; simpl; [done|]. by rewrite length_insert. Qed.

Lemma q_head_set_nodes q h s : q_head q (set_nodes h s) = q_head q s.
Proof. by destruct q. Qed.
Lemma q_tail_set_nodes q h s : q_tail q (set_nodes h s) = q_tail q s.
Proof. by destruct q. Qed.

#[export] Hint Rewrite @nodes_set_queue @maxLba_set_queue q_head_set_nodes
  q_tail_set_nodes : daqdb.

Lemma chain_in h p l a : chain h p l -> a ∈ l.*1 -> is_Some (h !! a).
Proof.
  revert p. induction l as [|[b v] l IH]; intros p; [set_solver|].
  intros [-> (nx & Hb & Hc)]. simpl. rewrite elem_of_cons.
  intros [->|Hin]; [by eexists|by eapply IH].
Qed.

(** The one step every update goes through: queue [q] gets a new chain, the
    nodes of the other queues keep their contents. *)
Lemma rep_update s f q hd tl h l :
  rep s f -> valid_q q ->
  queue_rep h hd tl l -> NoDup l.*1 ->
  (forall q' a, valid_q q' -> q' <> q -> a ∈ (f q').*1 ->
     h !! a = nodes s !! a /\ a ∉ l.*1) ->
  rep (set_queue q hd tl (set_nodes h s)) (upd q l f).
Proof.
  intros [R1 R2 R3 R4 R5] Hq Hl Hnd Hf. split.
  - by rewrite heads_set_queue.
  - by rewrite tails_set_queue.
  - intros q' Hq'. autorewrite with daqdb. destruct (decide (q' = q)) as [->|Hne].
    + by rewrite upd_eq, q_head_set, q_tail_set.
    + rewrite upd_ne, q_head_set_ne, q_tail_set_ne by done.
      autorewrite with daqdb. destruct (R3 q' Hq') as [Hc Ht]. split; [|done].
      eapply chain_frame; [|done]. intros a Ha. by apply Hf with q'.
  - intros q' Hq'. destruct (decide (q' = q)) as [->|Hne];
      rewrite ?upd_eq, ?upd_ne by done; auto.
  - intros q1 q2 a H1 H2 Hne. unfold upd.
    destruct (decide (q1 = q)) as [->|], (decide (q2 = q)) as [->|]; intros A1 A2.
    + done.
    + by apply (Hf q2 a).
    + by apply (Hf q1 a).
    + by apply (R5 q1 q2 a).
Qed.

Lemma deref_some {V} a n s (v : V) :
  nodes s !! a = Some n -> deref (Some a) (s, v) = (Ret (a, n), (s, v)).
Proof. intros H. unfold deref. simpl. by rewrite H. Qed.

Section Bodies.
Context `{PmemTx} `{PmemHeap FreeLba} {V : Type}.
Implicit Types (s : OffloadFreeList) (loc : V).

(** The head of a non-empty queue can be read. *)
Lemma rep_head s f q a v l :
  rep s f -> valid_q q -> f q = (a, v) :: l ->
  q_head q s = Some a /\
  exists nx, nodes s !! a = Some (mkFreeLba nx v) /\ chain (nodes s) nx l.
Proof. intros R Hq E. destruct (rep_queue _ _ R q Hq) as [Hc _]. by rewrite E in Hc. Qed.

Lemma rep_head_nil s f q :
  rep s f -> valid_q q -> f q = [] -> q_head q s = None /\ q_tail q s = None.
Proof.
  intros R Hq E. destruct (rep_queue _ _ R q Hq) as [Hc Ht]. rewrite E in *. done.
Qed.

(** Nodes of other queues differ from the nodes of queue [q]. *)
Lemma rep_other s f q q' a b v :
  rep s f -> valid_q q -> valid_q q' -> q' <> q ->
  a ∈ (f q').*1 -> (b, v) ∈ f q -> a <> b.
Proof.
  intros R Hq Hq' Hne Ha Hb <-. apply (rep_disj _ _ R q' q a Hq' Hq Hne Ha).
  apply (list_elem_of_fmap_2 fst) in Hb. done.
Qed.

(** [push_body] appends to the queue. *)
Lemma push_body_rep s f q v loc a :
  rep s f -> valid_q q -> pm_alloc (nodes s) = Some a ->
  exists s', push_body q v (s, loc) = (Ret tt, (s', loc)) /\
    rep s' (upd q (f q ++ [(a, v)]) f) /\ maxLba s' = maxLba s.
Proof.
  intros R Hq Ha. pose proof (pm_alloc_fresh _ _ Ha) as Hfr.
  assert (Hout : forall q', valid_q q' -> a ∉ (f q').*1).
  { intros q' Hq' Hin. destruct (rep_queue _ _ R q' Hq') as [Hc _].
    destruct (chain_in _ _ _ _ Hc Hin). congruence. }
  unfold push_body, cbind, new_node, get_list. simpl. rewrite Ha. simpl.
  autorewrite with daqdb.
  destruct (snoc_cases (f q)) as [E|(l0 & (t & tv) & E)].
  - destruct (rep_head_nil _ _ _ R Hq E) as [-> ->].
    unfold upd_list. simpl. eexists. split_and!; [reflexivity| |by autorewrite with daqdb].
    rewrite E. apply rep_update; [done|done| | |].
    + split; [|done]. simpl. split; [done|]. exists None. by rewrite lookup_insert_eq.
    + apply NoDup_singleton.
    + intros q' b Hq' Hne Hb. assert (b <> a) by (intros ->; by eapply Hout).
      rewrite lookup_insert_ne by done. simpl. set_solver.
  - destruct (rep_queue _ _ R q Hq) as [Hc Ht]. rewrite E in Hc, Ht.
    rewrite last_snoc in Ht. simpl in Ht.
    assert (Htin : (t, tv) ∈ f q) by (rewrite E; set_solver).
    destruct (chain_last _ _ _ _ _ Hc) as (hd & nt & Ehd & Hnt).
    assert (t <> a) by congruence.
    rewrite Ehd in *. rewrite Ht. erewrite deref_some by (simpl; rewrite lookup_insert_ne; done).
    unfold write_node, upd_list. simpl.
    eexists. split_and!; [reflexivity| |by autorewrite with daqdb].
    apply (rep_update s f q); [done|done| | |].
    + split; [|by rewrite last_snoc].
      rewrite E. apply chain_snoc; [done| |]; rewrite <- E; [|by apply Hout].
      by apply (rep_nodup _ _ R).
    + rewrite fmap_app. apply NoDup_app. split_and!; [..|apply NoDup_singleton].
      * by apply (rep_nodup _ _ R).
      * intros b Hb. simpl. intros ->%list_elem_of_singleton. by eapply Hout.
    + intros q' b Hq' Hne Hb. assert (b <> a) by (intros ->; by eapply Hout).
      assert (b <> t) by exact (rep_other s f q q' b t tv R Hq Hq' Hne Hb Htin).
      rewrite !lookup_insert_ne by done. split; [done|].
      rewrite fmap_app. simpl. rewrite elem_of_app, list_elem_of_singleton.
      intros [Hin|?]; [|done]. by apply (rep_disj _ _ R q' q b).
Qed.
End Bodies.

(** [pop_body] removes the head. *)
Lemma pop_body_rep {V} s f q (loc : V) a v l :
  rep s f -> valid_q q -> f q = (a, v) :: l ->
  exists s', pop_body q (s, loc) = (Ret tt, (s', loc)) /\
    rep s' (upd q l f) /\ maxLba s' = maxLba s.
Proof.
  intros R Hq E. destruct (rep_head _ _ _ _ _ _ R Hq E) as (Ehd & nx & Ha & Hc).
  destruct (rep_queue _ _ R q Hq) as [_ Ht]. rewrite E in Ht.
  pose proof (rep_nodup _ _ R q Hq) as Hnd. rewrite E in Hnd.
  simpl in Hnd. apply NoDup_cons in Hnd as [Hna Hnd].
  unfold pop_body, cbind, get_list. simpl. rewrite Ehd.
  rewrite (deref_some _ _ _ _ Ha). unfold free_node, upd_list. simpl.
  eexists. split_and!; [reflexivity| |by autorewrite with daqdb].
  apply (rep_update s f q); [done|done| |done|].
  - split.
    + eapply chain_frame; [|done]. intros b Hb. rewrite lookup_delete_ne; [done|].
      intros ->. done.
    + destruct l as [|[b w] l]; simpl in Hc; [by subst nx|].
      destruct Hc as [-> _]. by rewrite Ht.
  - intros q' b Hq' Hne Hb.
    assert (b <> a) by (apply (rep_other s f q q' b a v R Hq Hq' Hne Hb); rewrite E; set_solver).
    rewrite lookup_delete_ne by done. split; [done|]. intros Hin.
    apply (rep_disj _ _ R q' q b Hq' Hq Hne Hb). rewrite E. set_solver.
Qed.

(** Rewriting the LBA of the head node. *)
Lemma write_head_rep {V} s f q (loc : V) a v v' l nx :
  rep s f -> valid_q q -> f q = (a, v) :: l ->
  nodes s !! a = Some (mkFreeLba nx v) ->
  exists s', write_node a (mkFreeLba nx v') (s, loc) = (Ret tt, (s', loc)) /\
    rep s' (upd q ((a, v') :: l) f) /\ maxLba s' = maxLba s.
Proof.
  intros R Hq E Ha. destruct (rep_head _ _ _ _ _ _ R Hq E) as (Ehd & nx' & Ha' & Hc).
  rewrite Ha in Ha'. injection Ha' as <-.
  pose proof (rep_nodup _ _ R q Hq) as Hnd. rewrite E in Hnd.
  destruct (rep_queue _ _ R q Hq) as [_ Ht]. rewrite E in Ht.
  unfold write_node, upd_list. simpl. eexists. split_and!; [reflexivity| |done].
  assert (Hs : set_nodes (<[a:=mkFreeLba nx v']> (nodes s)) s =
    set_queue q (Some a) (q_tail q s) (set_nodes (<[a:=mkFreeLba nx v']> (nodes s)) s)).
  { destruct R as [R1 R2 _ _ _]. destruct s, q; simpl in *; [by subst|].
    unfold set_slot, set_nodes; simpl. f_equal; symmetry; apply list_insert_id; apply lookup_mjoin; try done; lia. }
  rewrite Hs. apply rep_update; [done|done| |exact Hnd|].
  - split.
    + split; [done|]. exists nx. rewrite lookup_insert_eq. split; [done|].
      eapply chain_frame; [|done]. intros b Hb. rewrite lookup_insert_ne; [done|].
      intros ->. simpl in Hnd. apply NoDup_cons in Hnd as [? _]. done.
    + rewrite Ht. by destruct l.
  - intros q' b Hq' Hne Hb.
    assert (b <> a) by (apply (rep_other s f q q' b a v R Hq Hq' Hne Hb); rewrite E; set_solver).
    rewrite lookup_insert_ne by done. split; [done|]. intros Hin.
    apply (rep_disj _ _ R q' q b Hq' Hq Hne Hb). by rewrite E.
Qed.

(** ** The operations refine operations on lists *)

(** [get] on the value of the main queue. *)
Definition spec_get (max : Z) (q : list Z) : option (Z * list Z) :=
  match q with
  | [] => None
  | v :: q' =>
      if max =? 0 then None
      else if 0 <=? v then Some (v, q')
      else if - v <? max - 1 then Some (- v, (v - 1) :: q')
      else if - v =? max - 1 then Some (- v, 0 :: q')
      else None
  end.

(** The numbers a queue holds are [int64_t] values. *)
Definition int64_lba (v : Z) : Prop := - 2 ^ 63 < v < 2 ^ 63.

Lemma fmap_cons_inv_snd (l : list (positive * Z)) v q :
  l.*2 = v :: q -> exists a l', l = (a, v) :: l' /\ l'.*2 = q.
Proof. destruct l as [|[a w] l]; [done|]. intros [= -> <-]. eauto. Qed.

Lemma Rep_upd s f g q l :
  rep s (upd q l f) -> (forall q', valid_q q' -> (f q').*2 = g q') ->
  Rep s (upd q l.*2 g).
Proof.
  intros R Hg. exists (upd q l f). split; [done|]. intros q' Hq'.
  unfold upd. case_decide; auto.
Qed.

Section Refinement.
Context `{PmemTx} `{PmemHeap FreeLba}.

Lemma push_queue_refines s g q v :
  Rep s g -> valid_q q ->
  match pm_alloc (nodes s) with
  | None => run_tx tt (push_body q v) id s = (Throw transaction_alloc_error, s)
  | Some _ => exists s', run_tx tt (push_body q v) id s = (Ret tt, s') /\
      Rep s' (upd q (g q ++ [v]) g) /\ maxLba s' = maxLba s
  end.
Proof.
  intros (f & R & Hg) Hq. unfold run_tx. destruct (pm_alloc (nodes s)) as [a|] eqn:Ha.
  - destruct (push_body_rep s f q v tt a R Hq Ha) as (s' & E & R' & Hm).
    rewrite (exec_tx_commit _ _ _ _ E). exists s'. split_and!; [done| |done].
    replace (g q ++ [v]) with (f q ++ [(a, v)]).*2.
    + by eapply Rep_upd.
    + rewrite fmap_app. simpl. by rewrite Hg.
  - erewrite exec_tx_abort; [done|]. unfold push_body, cbind, new_node. simpl.
    rewrite Ha. done.
Qed.

Lemma get_body_head s f a v l :
  rep s f -> f Main = (a, v) :: l -> maxLba s <> 0 ->
  exists nx, nodes s !! a = Some (mkFreeLba nx v) /\ _head s = Some a /\
  get_body (s, -1) =
   (if 0 <=? v then pop_body Main (s, v)
    else if u64 (Z.abs v) <? u64 (maxLba s - 1) then
      write_node a (mkFreeLba nx (v - 1)) (s, Z.abs v)
    else if u64 (Z.abs v) =? u64 (maxLba s - 1) then
      write_node a (mkFreeLba nx 0) (s, Z.abs v)
    else (Throw (manual_tx_abort EINVAL), (s, -1))).
Proof.
  intros R E Hm. destruct (rep_head _ _ Main _ _ _ R I E) as (Ehd & nx & Ha & Hc).
  simpl in Ehd. exists nx. split_and!; [done|done|].
  unfold get_body, cbind, get_list. simpl. rewrite Ehd.
  rewrite bool_decide_false by done. simpl. destruct (Z.eqb_spec (maxLba s) 0); [done|].
  simpl. rewrite (deref_some _ _ _ _ Ha). unfold set_local. simpl.
  repeat case_match; done.
Qed.

Lemma get_main_refines s g :
  Rep s g -> 0 <= maxLba s < 2 ^ 63 -> Forall int64_lba (g Main) ->
  match spec_get (maxLba s) (g Main) with
  | None => get s = (Throw (manual_tx_abort EINVAL), s)
  | Some (v, q') => exists s', get s = (Ret v, s') /\
      Rep s' (upd Main q' g) /\ maxLba s' = maxLba s
  end.
Proof.
  intros (f & R & Hg) Hmax Hr. unfold spec_get, get, run_tx.
  destruct (g Main) as [|v q'] eqn:Eg.
  - pose proof (Hg Main I) as E. rewrite Eg in E. apply fmap_nil_inv in E.
    destruct (rep_head_nil _ _ Main R I E) as [Ehd _]. simpl in Ehd.
    erewrite exec_tx_abort; [done|]. unfold get_body, cbind, get_list. simpl.
    rewrite Ehd. done.
  - destruct (fmap_cons_inv_snd (f Main) v q') as (a & l & E & El).
    { by rewrite Hg. }
    apply Forall_cons in Hr as [Hv _]. unfold int64_lba in Hv.
    destruct (Z.eqb_spec (maxLba s) 0) as [Hz|Hz].
    { erewrite exec_tx_abort; [done|]. unfold get_body, cbind, get_list. simpl.
      rewrite Hz, orb_true_r. done. }
    destruct (get_body_head s f a v l R E Hz) as (nx & Ha & Ehd & Eb).
    assert (Hw : forall w (loc : Z), exists s',
      write_node a (mkFreeLba nx w) (s, loc) = (Ret tt, (s', loc)) /\
      Rep s' (upd Main (w :: q') g) /\ maxLba s' = maxLba s).
    { intros w loc. destruct (write_head_rep s f Main loc a v w l nx R I E Ha)
        as (s' & E' & R' & Hm). exists s'. split_and!; [done| |done].
      rewrite <- El. change (w :: l.*2) with ((a, w) :: l).*2. by eapply Rep_upd. }
    rewrite !uwrap_id in Eb by lia.
    destruct (Z.leb_spec 0 v) as [Hpos|Hneg].
    + destruct (pop_body_rep s f Main v a v l R I E) as (s' & E' & R' & Hm).
      rewrite E' in Eb. rewrite (exec_tx_commit _ _ _ _ Eb).
      exists s'. split_and!; [done| |done]. rewrite <- El. by eapply Rep_upd.
    + rewrite (Z.abs_neq v) in Eb by lia.
      destruct (- v <? maxLba s - 1); [|destruct (- v =? maxLba s - 1)].
      * destruct (Hw (v - 1) (- v)) as (s' & E' & HR). rewrite E' in Eb.
        rewrite (exec_tx_commit _ _ _ _ Eb). eauto.
      * destruct (Hw 0 (- v)) as (s' & E' & HR). rewrite E' in Eb.
        rewrite (exec_tx_commit _ _ _ _ Eb). eauto.
      * by rewrite (exec_tx_abort _ _ _ _ _ _ Eb).
Qed.
End Refinement.

(** ** Allocation safety of [push] and [get] *)

(** The LBAs a main queue can still hand out, in the order [get] does. *)
Definition free_lbas (max : Z) (q : list Z) : list Z :=
  match q with
  | [] => []
  | v :: q' => if v <? 0 then seqZ (- v) (max + v) ++ 0 :: q' else q
  end.

(** Only the head may be a generator, and it stays below [max]. *)
Definition gen_ok (max : Z) (q : list Z) : Prop :=
  match q with
  | [] => True
  | v :: q' => - (max - 1) <= v < max /\ Forall (fun w => 0 <= w < max) q'
  end.

Lemma spec_get_free max q v q' :
  2 <= max -> gen_ok max q -> spec_get max q = Some (v, q') ->
  free_lbas max q = v :: free_lbas max q' /\ gen_ok max q'.
Proof.
  intros Hmax Hg. destruct q as [|w q]; [done|]. simpl in *. destruct Hg as [Hw Hq].
  destruct (Z.eqb_spec max 0); [lia|].
  destruct (Z.leb_spec 0 w) as [Hp|Hn], (Z.ltb_spec w 0) as [?|?]; try lia.
  - intros [= <- <-]. destruct q as [|x q]; [done|].
    apply Forall_cons in Hq as [Hx Hq]. simpl. destruct (Z.ltb_spec x 0); [lia|].
    split; [done|]. split; [lia|done].
  - destruct (Z.ltb_spec (- w) (max - 1)); [|destruct (Z.eqb_spec (- w) (max - 1)); [|done]];
      intros [= <- <-]; simpl; rewrite seqZ_cons by lia; simpl.
    + destruct (Z.ltb_spec (w - 1) 0); [|lia]. simpl. split; [|split; [lia|done]].
      do 3 f_equal; lia.
    + replace (Z.pred (max + w)) with 0 by lia. simpl. split; [done|split; [lia|done]].
Qed.

Lemma spec_get_none max q :
  2 <= max -> gen_ok max q -> spec_get max q = None -> free_lbas max q = [].
Proof.
  intros Hmax Hg. destruct q as [|w q]; [done|]. simpl in *. destruct Hg as [Hw Hq].
  repeat zcase; done.
Qed.

Lemma free_lbas_snoc max q v :
  0 <= v -> free_lbas max (q ++ [v]) = free_lbas max q ++ [v].
Proof.
  intros Hv. destruct q as [|w q]; simpl.
  - zcase. done.
  - zcase; [|done]. by rewrite <- app_assoc.
Qed.

Lemma gen_ok_snoc max q v :
  0 <= v < max -> gen_ok max q -> gen_ok max (q ++ [v]).
Proof.
  intros Hv. destruct q as [|w q]; simpl.
  - split; [lia|by apply Forall_nil].
  - intros [? ?]. split; [done|]. apply Forall_app. split; [done|]. by apply Forall_singleton.
Qed.

Lemma gen_ok_int64 max q : max < 2 ^ 63 -> gen_ok max q -> Forall int64_lba q.
Proof.
  intros Hm. destruct q as [|w q]; [constructor|]. simpl. intros [Hw Hq]. unfold int64_lba.
  constructor; [lia|]. eapply Forall_impl; [done|]. simpl. lia.
Qed.

Definition empty_list (max : Z) : OffloadFreeList :=
  mkOffloadFreeList max None None (replicate numSlots None) (replicate numSlots None) ∅.

Lemma empty_list_Rep max : Rep (empty_list max) (fun _ => []).
Proof.
  exists (fun _ => []). split; [|done]. split; simpl; try done.
  - intros [|i] Hi; [done|]. split; cbn [q_head q_tail empty_list _heads _tails];
      by rewrite lookup_replicate_2.
  - intros. apply NoDup_nil_2.
  - set_solver.
Qed.

Section AllocationSafety.
Context `{PmemTx} `{PmemHeap FreeLba} (max : Z) (Hmax : 2 <= max < 2 ^ 63).

(** A user of the list that returns only LBAs it holds: the list and the LBAs
    handed out and not returned. *)
Inductive fl_step : OffloadFreeList * list Z -> OffloadFreeList * list Z -> Prop :=
| step_get s s' v out : get s = (Ret v, s') -> fl_step (s, out) (s', v :: out)
| step_get_fail s s' e out : get s = (Throw e, s') -> fl_step (s, out) (s', out)
| step_push s s' v out1 out2 : push v s = (Ret tt, s') ->
    fl_step (s, out1 ++ v :: out2) (s', out1 ++ out2)
| step_push_fail s s' v e out : push v s = (Throw e, s') -> fl_step (s, out) (s', out).

Definition fl_inv (st : OffloadFreeList * list Z) : Prop :=
  exists g, Rep (fst st) g /\ maxLba (fst st) = max /\ gen_ok max (g Main) /\
    free_lbas max (g Main) ++ snd st ≡ₚ seqZ 0 max.

Lemma fl_inv_out st v : fl_inv st -> v ∈ snd st -> 0 <= v < max.
Proof.
  intros (g & _ & _ & _ & Hp) Hv. assert (v ∈ seqZ 0 max) as Hin.
  { rewrite <- Hp. set_solver. }
  apply elem_of_seqZ in Hin. lia.
Qed.

Lemma fl_inv_get s out :
  fl_inv (s, out) ->
  match get s with
  | (Ret v, s') => (v ∉ out) /\ 0 <= v < max /\ fl_inv (s', v :: out)
  | (Throw e, s') => s' = s /\ Z.of_nat (length out) = max
  | _ => False
  end.
Proof.
  intros (g & R & Hm & Hok & Hp). simpl in *.
  pose proof (get_main_refines s g R) as HG. rewrite Hm in HG.
  specialize (HG ltac:(lia) (gen_ok_int64 max _ ltac:(lia) Hok)).
  destruct (spec_get max (g Main)) as [[v q']|] eqn:Es.
  - destruct HG as (s' & -> & R' & Hm').
    destruct (spec_get_free max _ _ _ ltac:(lia) Hok Es) as [Hf Hok'].
    rewrite Hf in Hp. simpl in Hp.
    assert (Hinv : fl_inv (s', v :: out)).
    { exists (upd Main q' g). simpl. rewrite upd_eq. split_and!; [done|congruence|done|].
      by rewrite <- Permutation_middle. }
    split_and!; [|by apply (fl_inv_out _ v Hinv); set_solver..|done].
    assert (Hnd : NoDup (v :: free_lbas max q' ++ out)) by (rewrite Hp; apply NoDup_seqZ).
    apply NoDup_cons in Hnd. set_solver.
  - rewrite HG. split; [done|]. rewrite (spec_get_none max _ ltac:(lia) Hok Es) in Hp.
    simpl in Hp. rewrite Hp, length_seqZ. lia.
Qed.

Lemma fl_inv_step st st' : fl_inv st -> fl_step st st' -> fl_inv st'.
Proof.
  intros Hi Hst. destruct Hst as [s s' v out E|s s' e out E|s s' v o1 o2 E|s s' v e out E].
  - pose proof (fl_inv_get _ _ Hi) as HG. rewrite E in HG. tauto.
  - pose proof (fl_inv_get _ _ Hi) as HG. rewrite E in HG. by destruct HG as [-> _].
  - pose proof (fl_inv_out _ v Hi ltac:(set_solver)) as Hv.
    destruct Hi as (g & R & Hm & Hok & Hp). simpl in *.
    pose proof (push_queue_refines s g Main v R I) as HP.
    unfold push in E. destruct (pm_alloc (nodes s)); [|congruence].
    destruct HP as (s'' & E' & R' & Hm'). rewrite E in E'. injection E' as <-.
    exists (upd Main (g Main ++ [v]) g). simpl. rewrite upd_eq.
    split_and!; [done|congruence|by apply gen_ok_snoc|].
    rewrite free_lbas_snoc by lia. rewrite <- app_assoc. simpl.
    etransitivity; [|exact Hp]. by rewrite (Permutation_middle o1 o2 v).
  - destruct Hi as (g & R & Hi). pose proof (push_queue_refines s g Main v R I) as HP.
    unfold push in E. destruct (pm_alloc (nodes s)).
    + destruct HP as (s'' & E' & _). congruence.
    + rewrite E in HP. injection HP as _ ->. by exists g.
Qed.

Lemma fl_inv_init s0 : push (-1) (empty_list max) = (Ret tt, s0) -> fl_inv (s0, []).
Proof.
  intros E. pose proof (push_queue_refines _ _ Main (-1) (empty_list_Rep max) I) as HP.
  unfold push in E. destruct (pm_alloc _); [|congruence].
  destruct HP as (s'' & E' & R' & Hm'). rewrite E in E'. injection E' as <-.
  eexists. split_and!; [exact R'|done|..]; rewrite upd_eq; simpl.
  - split; [lia|by apply Forall_nil].
  - rewrite app_nil_r, (seqZ_cons 0) by lia. rewrite <- Permutation_cons_append.
    by replace (max + -1) with (Z.pred max) by lia.
Qed.

Lemma fl_inv_reach s0 st :
  push (-1) (empty_list max) = (Ret tt, s0) -> rtc fl_step (s0, []) st -> fl_inv st.
Proof.
  intros E Hr. apply fl_inv_init in E. revert E.
  induction Hr; eauto using fl_inv_step.
Qed.
End AllocationSafety.

(** ** Blocks *)

(** Two contents functions that differ in queue [q] only. *)
Definition same_but {A} (q : queue_id) (f' f : queue_id -> A) : Prop :=
  forall q', q' <> q -> f' q' = f q'.

Lemma same_but_trans {A} q (f1 f2 f3 : queue_id -> A) :
  same_but q f1 f2 -> same_but q f2 f3 -> same_but q f1 f3.
Proof. intros H1 H2 q' Hq. by rewrite H1, H2. Qed.

Lemma same_but_upd {A} q (l : A) f : same_but q (upd q l f) f.
Proof. intros q' Hq. by apply upd_ne. Qed.

Lemma same_but_refl {A} q (f : queue_id -> A) : same_but q f f.
Proof. done. Qed.

#[export] Hint Resolve same_but_refl same_but_upd same_but_trans : daqdb.

Lemma write_lba_run s pre x suf c r v :
  c = Z.of_nat (length pre) ->
  write_lba c v (s, mkBlockLocals (pre ++ x :: suf) c r) =
    (Ret tt, (s, mkBlockLocals (pre ++ v :: suf) c r)).
Proof.
  intros ->. unfold write_lba, cbind, get_local, set_local. simpl.
  rewrite length_app. simpl.
  destruct (Z.leb_spec 0 (Z.of_nat (length pre))); [|lia].
  destruct (Z.ltb_spec (Z.of_nat (length pre)) (Z.of_nat (length pre + S (length suf)))); [|lia].
  simpl.
  do 3 f_equal. rewrite Nat2Z.id. rewrite <- (Nat.add_0_r (length pre)).
  by rewrite insert_app_r.
Qed.

(** The pop loop copies the one number it read, once per node it frees. *)
Lemma getBlock_pop_loop_rep q slot l : q = Slot slot -> valid_q q ->
  forall fuel size s f pre suf v, rep s f -> f q = l -> l <> [] -> 0 <= v ->
  (size <= length pre + length suf)%nat -> (length pre <= size)%nat ->
  (size - length pre < fuel)%nat ->
  let n := Nat.min (length l) (size - length pre) in
  exists s' f',
    getBlock_pop_loop fuel (Z.of_nat size) slot
      (s, mkBlockLocals (pre ++ suf) (Z.of_nat (length pre)) v) =
    (Ret tt, (s', mkBlockLocals (pre ++ replicate n v ++ drop n suf)
                   (Z.of_nat (length pre + n)) v)) /\
    rep s' f' /\ f' q = drop n l /\ same_but q f' f /\ maxLba s' = maxLba s.
Proof.
  intros -> Hq. induction l as [|[a w] l IH]; [done|].
  intros fuel size s f pre suf v R El _ Hv Hs Hp Hfuel n.
  destruct fuel as [|fuel]; [lia|]. cbn [getBlock_pop_loop].
  unfold cbind at 1, get_local at 1. cbn [fst snd bl_ret bl_cnt].
  destruct (Z.ltb_spec v 0); [lia|]. destruct (Z.leb_spec (Z.of_nat size) (Z.of_nat (length pre))) as [Hz|Hz]; simpl.
  { assert (n = 0)%nat as E by (subst n; lia). clearbody n. subst n. simpl.
    rewrite Nat.add_0_r. exists s, f. split_and!; eauto with daqdb. }
  destruct suf as [|x suf]; [simpl in Hs; lia|].
  erewrite cbind_ret by (by apply write_lba_run).
  unfold cbind at 1, set_cnt at 1, cbind at 1, get_local, set_local. cbn [fst snd bl_lbas bl_cnt bl_ret].
  destruct (pop_body_rep s f (Slot slot) (mkBlockLocals (pre ++ v :: suf) (Z.of_nat (length pre) + 1) v)
    a w l R Hq El) as (s1 & E1 & R1 & Hm1).
  erewrite cbind_ret by exact E1. unfold cbind at 1, get_list. cbn [fst snd].
  destruct l as [|[b u] l].
  - destruct (rep_head_nil _ _ (Slot slot) R1 Hq (upd_eq _ _ _)) as [Eh _].
    simpl in Eh. rewrite Eh. assert (n = 1)%nat as -> by (subst n; cbn [length]; lia).
    exists s1, (upd (Slot slot) [] f). rewrite Nat2Z.inj_add, upd_eq. simpl. 
    split_and!; eauto with daqdb. 
  - destruct (rep_head _ _ (Slot slot) _ _ _ R1 Hq (upd_eq _ _ _)) as [Eh _].
    simpl in Eh. rewrite Eh.
    specialize (IH fuel size s1 _ (pre ++ [v]) suf v R1 (upd_eq _ _ _) ltac:(done) Hv).
    rewrite length_app in IH. cbn [length] in IH, Hs.
    specialize (IH ltac:(lia) ltac:(lia) ltac:(lia)).
    destruct IH as (s' & f' & E' & R' & Ef & Hb & Hm'). exists s', f'.
    rewrite <- app_assoc in E'. simpl in E'.
    replace (Z.of_nat (length pre) + 1) with (Z.of_nat (length pre + 1)) by lia.
    rewrite E'.
    assert (n = S (Nat.min (length ((b, u) :: l)) (size - (length pre + 1)))) as -> by (subst n; cbn [length]; lia).
    split_and!; [|done|done|eauto with daqdb|congruence].
    rewrite <- app_assoc. simpl. do 3 f_equal. lia.
Qed.

(** The numbers the generator loop writes for a generator [-k] with step [d]. *)
Fixpoint gen_lbas (k d : Z) (m : nat) : list Z :=
  match m with O => [] | S m => (k + d) :: gen_lbas (k + d) d m end.

Lemma getBlock_gen_loop_rep q slot : q = Slot slot -> valid_q q ->
  forall m fuel size s f pre suf k a l r, rep s f -> f q = (a, - k) :: l -> 0 < k ->
  (size <= length pre + length suf)%nat -> (m = size - length pre)%nat -> (m < fuel)%nat ->
  (length pre <= size)%nat ->
  exists s' f' r',
    getBlock_gen_loop fuel (Z.of_nat size) slot
      (s, mkBlockLocals (pre ++ suf) (Z.of_nat (length pre)) r) =
    (Ret tt, (s', mkBlockLocals (pre ++ gen_lbas k (Z.of_nat slot + 1) m ++ drop m suf)
                   (Z.of_nat size) r')) /\
    rep s' f' /\ f' q = (a, - (k + Z.of_nat m * (Z.of_nat slot + 1))) :: l /\
    same_but q f' f /\ maxLba s' = maxLba s.
Proof.
  intros -> Hq. induction m as [|m IH];
    intros [|fuel] size s f pre suf k a l r R El Hk Hs Hm Hf Hp; try lia;
    cbn [getBlock_gen_loop]; unfold cbind at 1, get_local at 1; cbn [fst snd bl_cnt].
  - destruct (Z.ltb_spec (Z.of_nat (length pre)) (Z.of_nat size)); [lia|].
    exists s, f, r. simpl. split_and!; eauto with daqdb; [do 4 f_equal; lia|].
    rewrite El. do 2 f_equal. lia.
  - destruct (Z.ltb_spec (Z.of_nat (length pre)) (Z.of_nat size)); [|lia].
    destruct (rep_head _ _ (Slot slot) _ _ _ R Hq El) as (Eh & nx & Ha & _).
    unfold cbind at 1, get_list at 1. cbn [fst snd]. rewrite Eh.
    erewrite cbind_ret by (by apply deref_some). cbn [lba next].
    destruct suf as [|x suf]; [simpl in Hs; lia|]. cbn [length] in Hs.
    set (d := Z.of_nat slot + 1). replace (- k - d) with (- (k + d)) by lia.
    destruct (write_head_rep s f (Slot slot)
      (mkBlockLocals (pre ++ x :: suf) (Z.of_nat (length pre)) r) a (- k) (- (k + d)) l nx R Hq El Ha)
      as (s1 & E1 & R1 & Hm1).
    erewrite cbind_ret by exact E1.
    rewrite Z.abs_opp, Z.abs_eq by lia.
    unfold cbind at 1, set_ret at 1, cbind at 1, get_local, set_local.
    cbn [fst snd bl_lbas bl_cnt bl_ret].
    erewrite cbind_ret by (by apply write_lba_run).
    destruct (Z.eqb_spec (k + d) 0); [lia|].
    unfold cbind at 1, set_cnt, cbind at 1, get_local, set_local.
    cbn [fst snd bl_lbas bl_cnt bl_ret].
    specialize (IH fuel size s1 _ (pre ++ [k + d]) suf (k + d) a l (k + d) R1 (upd_eq _ _ _)
      ltac:(lia)). rewrite length_app in IH. cbn [length] in IH.
    destruct (IH ltac:(lia) ltac:(lia) ltac:(lia) ltac:(lia))
      as (s' & f' & r' & E' & R' & Ef & Hb & Hm'). exists s', f', r'.
    replace (Z.of_nat (length pre) + 1) with (Z.of_nat (length pre + 1)) by lia.
    rewrite <- app_assoc in E'. simpl in E'. rewrite E'. rewrite <- app_assoc. simpl.
    split_and!; [done|done| |eauto with daqdb|congruence].
    rewrite Ef. do 2 f_equal. lia.
Qed.

(** [clear_loop] empties the queue. *)
Lemma clear_loop_rep {V} q l : valid_q q ->
  forall fuel s f (loc : V), rep s f -> f q = l -> (length l < fuel)%nat ->
  exists s' f', clear_loop fuel q (s, loc) = (Ret tt, (s', loc)) /\
    rep s' f' /\ f' q = [] /\ same_but q f' f /\ maxLba s' = maxLba s.
Proof.
  intros Hq. induction l as [|[a v] l IH]; intros [|fuel] s f loc R El Hf; simpl in Hf; try lia;
    cbn [clear_loop]; unfold cbind at 1, get_list; cbn [fst].
  - destruct (rep_head_nil _ _ q R Hq El) as [-> _]. exists s, f. eauto with daqdb.
  - destruct (rep_head _ _ q _ _ _ R Hq El) as [-> _].
    destruct (pop_body_rep s f q loc a v l R Hq El) as (s1 & E1 & R1 & Hm1).
    erewrite cbind_ret by exact E1.
    destruct (IH fuel s1 _ loc R1 (upd_eq _ _ _) ltac:(lia)) as (s' & f' & -> & R' & Ef & Hb & Hm').
    exists s', f'. split_and!; eauto with daqdb. congruence.
Qed.

(** A queue never has more nodes than the pool: the fuel of the loops is
    enough. *)
Lemma rep_length s f q :
  rep s f -> valid_q q -> (length (f q) <= size (nodes s))%nat.
Proof.
  intros R Hq. destruct (rep_queue _ _ R q Hq) as [Hc _].
  rewrite <- (length_fmap fst), <- size_dom.
  rewrite <- (size_list_to_set (C := gset positive)) by (by apply (rep_nodup _ _ R)).
  apply subseteq_size. intros a Ha. apply elem_of_list_to_set in Ha.
  apply elem_of_dom. by eapply chain_in.
Qed.

Lemma walk_chain h l : forall fuel p,
  chain h p l -> (length l < fuel)%nat -> walk fuel h p = l.*2.
Proof.
  induction l as [|[a v] l IH]; intros [|fuel] p Hc Hf; simpl in *; try lia.
  - by rewrite Hc.
  - destruct Hc as [-> (nx & -> & Hc)]. simpl. rewrite (IH fuel); [done|done|lia].
Qed.

(** [getBlock_body] up to its first loop. *)
Lemma getBlock_body_head s f slot a v l size lbas :
  rep s f -> valid_q (Slot slot) -> f (Slot slot) = (a, v) :: l -> maxLba s <> 0 ->
  getBlock_body size slot (s, mkBlockLocals lbas 0 (-1)) =
  (getBlock_pop_loop (S (Z.to_nat size)) size slot ;;; getBlock_finish size slot)
    (s, mkBlockLocals lbas 0 v).
Proof.
  intros R Hs E Hm. destruct (rep_head _ _ (Slot slot) _ _ _ R Hs E) as (Eh & nx & Ha & _).
  unfold getBlock_body. unfold cbind at 1, get_list at 1. cbn [fst].
  rewrite Eh, bool_decide_false by done. destruct (Z.eqb_spec (maxLba s) 0); [lia|].
  cbn [orb]. unfold cbind at 1, cret at 1. erewrite cbind_ret by (by apply deref_some). done.
Qed.

(** From the body of [getBlock] to the call. *)
Lemma getBlock_run `{PmemTx} s g f slot size lbas s' f' l' lbas' cnt r :
  valid_q (Slot slot) -> (forall q, valid_q q -> (f q).*2 = g q) ->
  getBlock_body size slot (s, mkBlockLocals lbas 0 (-1)) =
    (Ret tt, (s', mkBlockLocals lbas' cnt r)) ->
  rep s' f' -> (f' (Slot slot)).*2 = l' -> same_but (Slot slot) f' f ->
  maxLba s' = maxLba s ->
  exists s', getBlock size slot (s, lbas) = (Ret cnt, (s', lbas')) /\
    Rep s' (upd (Slot slot) l' g) /\ maxLba s' = maxLba s.
Proof.
  intros Hs Hg EB R' <- Hb Hm. unfold getBlock. simpl in Hs.
  destruct (Nat.ltb_spec slot numSlots); [|lia]. cbn [negb].
  rewrite (exec_tx_commit _ _ _ _ EB). exists s'. split_and!; [done| |done].
  exists f'. split; [done|]. intros q' Hq'. unfold upd. case_decide as Hd.
  - by subst.
  - by rewrite Hb, Hg.
Qed.

(** ** Theorems *)

Section Theorems.
Context `{PmemTx} `{PmemHeap FreeLba}.

(** [getBlock] on a generator. *)
Lemma getBlock_generator_run s g slot k l size lbas :
  Rep s g -> (slot < numSlots)%nat -> g (Slot slot) = - k :: l ->
  0 < k <= maxLba s - (Z.of_nat slot + 1) -> maxLba s < 2 ^ 63 ->
  (size <= length lbas)%nat ->
  exists s', getBlock (Z.of_nat size) slot (s, lbas) =
    (Ret (Z.of_nat size),
      (s', gen_lbas k (Z.of_nat slot + 1) size ++ drop size lbas)) /\
    Rep s' (upd (Slot slot) (- (k + Z.of_nat size * (Z.of_nat slot + 1)) :: l) g) /\
    maxLba s' = maxLba s.
Proof.
  intros (f & R & Hg) Hs Eg Hk Hm Hl.
  destruct (fmap_cons_inv_snd (f (Slot slot)) (- k) l) as (a & fl & E & <-).
  { by rewrite Hg. }
  destruct (rep_head _ _ (Slot slot) _ _ _ R Hs E) as (Eh & nx & Ha & _).
  pose proof (getBlock_body_head s f slot a (- k) fl (Z.of_nat size) lbas R Hs E ltac:(lia)) as EB.
  unfold cbind at 1 in EB. cbn [getBlock_pop_loop] in EB. unfold cbind at 1, get_local in EB.
  cbn [fst snd bl_ret bl_cnt] in EB. destruct (Z.ltb_spec (- k) 0) as [Hn|]; [|lia].
  cbn [orb] in EB. unfold cret at 1, getBlock_finish, cbind at 1 2, get_local, get_list in EB.
  cbn [fst snd bl_cnt bl_ret] in EB.
  destruct (Z.ltb_spec 0 (Z.of_nat size)) as [Hz|Hz]; cbn [andb] in EB.
  2:{ assert (size = 0)%nat as -> by lia. eapply getBlock_run; [done|done|exact EB|done| |done|done].
      rewrite E. simpl. f_equal. lia. }
  destruct (Z.ltb_spec (- k) 0) as [_|]; [|lia]. rewrite Eh, bool_decide_true in EB by done.
  cbn [andb] in EB. rewrite Z.abs_opp, Z.abs_eq, !uwrap_id in EB by lia.
  unfold cbind at 1, set_ret at 1, cbind at 1, get_local, set_local in EB.
  cbn [fst snd bl_lbas bl_cnt bl_ret] in EB.
  destruct (Z.leb_spec k (maxLba s - (Z.of_nat slot + 1))); [|lia].
  destruct lbas as [|x lbas]; [simpl in Hl; lia|].
  erewrite cbind_ret in EB by (apply (write_lba_run s [] x lbas 0 k k); done).
  destruct (getBlock_gen_loop_rep (Slot slot) slot eq_refl Hs size
    (S (Z.to_nat (Z.of_nat size))) size s f [] (k :: lbas) k a fl k R E)
    as (s' & f' & r' & E' & R' & Ef & Hb & Hm'); try (simpl in *; lia).
  cbn [app length] in E', EB. change (Z.of_nat 0) with 0 in E'. rewrite E' in EB.
  destruct size as [|size]; [lia|].
  eapply getBlock_run; [done|done|exact EB|done|by rewrite Ef|done|done].
Qed.

(** C1. Safety of the LBA allocator.  Start from a new list with [push(-1)] and
    run any sequence of [get]s and of [push]es of LBAs that are held.  Whatever
    [get] returns next is an LBA below [maxLba] that nobody holds. *)
Theorem freelist_no_double_allocation max s0 s out v s' :
  2 <= max < 2 ^ 63 ->
  push (-1) (empty_list max) = (Ret tt, s0) ->
  rtc fl_step (s0, []) (s, out) ->
  get s = (Ret v, s') ->
  0 <= v < max /\ (v ∉ out).
Proof.
  intros Hmax E Hr Eg. pose proof (fl_inv_get max Hmax _ _ (fl_inv_reach max Hmax _ _ E Hr)) as HG.
  rewrite Eg in HG. tauto.
Qed.

(** C3. Exhaustion.  In every state so reached [get] either returns or throws;
    it throws exactly when all [maxLba] LBAs are held, and then leaves the list
    as it was. *)
Theorem freelist_get_fails_only_when_full max s0 s out :
  2 <= max < 2 ^ 63 ->
  push (-1) (empty_list max) = (Ret tt, s0) ->
  rtc fl_step (s0, []) (s, out) ->
  (exists v s', get s = (Ret v, s') /\ Z.of_nat (length out) < max) \/
  (exists e, get s = (Throw e, s) /\ Z.of_nat (length out) = max).
Proof.
  intros Hmax E Hr. pose proof (fl_inv_get max Hmax _ _ (fl_inv_reach max Hmax _ _ E Hr)) as HG.
  destruct (get s) as [[v|e| |] s'] eqn:Eg; [left|right|done|done].
  - exists v, s'. split; [done|]. destruct HG as (_ & _ & g & _ & _ & _ & Hp).
    apply Permutation_length in Hp. rewrite length_app, length_seqZ in Hp. simpl in Hp. lia.
  - destruct HG as [-> Hl]. eauto.
Qed.

(** Refinement of queues, writing side: [push] and [pushBlock] append to
    their queue and leave the others alone; when the pool is exhausted they
    throw and nothing changes. *)
Theorem push_refines s g v slot :
  Rep s g -> (slot < numSlots)%nat ->
  (pm_alloc (nodes s) = None /\
     push v s = (Throw transaction_alloc_error, s) /\
     pushBlock v slot s = (Throw transaction_alloc_error, s)) \/
  ((exists s', push v s = (Ret tt, s') /\ Rep s' (upd Main (g Main ++ [v]) g)) /\
   (exists s', pushBlock v slot s = (Ret tt, s') /\
      Rep s' (upd (Slot slot) (g (Slot slot) ++ [v]) g))).
Proof.
  intros R Hs. pose proof (push_queue_refines s g Main v R I) as HM.
  pose proof (push_queue_refines s g (Slot slot) v R Hs) as HS.
  unfold push, pushBlock. destruct (Nat.ltb_spec slot numSlots) as [_|]; [|lia].
  destruct (pm_alloc (nodes s)); [right|left]; naive_solver.
Qed.

(** C32. Refinement of queues, reading side: [get] is [spec_get] on the value of
    the main queue, errors included. *)
Theorem get_refines s g :
  Rep s g -> 0 <= maxLba s < 2 ^ 63 -> Forall int64_lba (g Main) ->
  match spec_get (maxLba s) (g Main) with
  | None => get s = (Throw (manual_tx_abort EINVAL), s)
  | Some (v, q') => exists s', get s = (Ret v, s') /\ Rep s' (upd Main q' g)
  end.
Proof.
  intros R Hm Hf. pose proof (get_main_refines s g R Hm Hf).
  destruct (spec_get _ _) as [[v q']|]; naive_solver.
Qed.

(** C33. [clear] and [clearBlock] terminate, empty their queue and leave the
    others alone, and [show] and [showBlock] print exactly the queue. *)
Theorem clear_refines s g slot :
  Rep s g -> (slot < numSlots)%nat ->
  show s = g Main /\ showBlock slot s = g (Slot slot) /\
  (exists s', clear s = (Ret tt, s') /\ Rep s' (upd Main [] g)) /\
  (exists s', clearBlock slot s = (Ret tt, s') /\ Rep s' (upd (Slot slot) [] g)).
Proof.
  intros (f & R & Hg) Hs.
  assert (Hw : forall q, valid_q q -> walk (S (size (nodes s))) (nodes s) (q_head q s) = g q).
  { intros q Hq. rewrite <- Hg by done. apply walk_chain; [by apply (rep_queue _ _ R)|].
    pose proof (rep_length _ _ q R Hq). lia. }
  assert (Hc : forall q, valid_q q -> exists s',
    run_tx tt (clear_loop (S (size (nodes s))) q) id s = (Ret tt, s') /\ Rep s' (upd q [] g)).
  { intros q Hq. destruct (clear_loop_rep q _ Hq (S (size (nodes s))) s f tt R eq_refl)
      as (s' & f' & E & R' & E0 & Hb & _). { pose proof (rep_length _ _ q R Hq). lia. }
    exists s'. unfold run_tx. rewrite (exec_tx_commit _ _ _ _ E). split; [done|].
    exists f'. split; [done|]. intros q' Hq'. unfold upd. case_decide as Hd.
    - subst. by rewrite E0.
    - by rewrite Hb, Hg. }
  unfold clearBlock. destruct (Nat.ltb_spec slot numSlots) as [_|]; [|lia].
  split_and!; [apply (Hw Main I)|apply (Hw (Slot slot) Hs)|apply (Hc Main I)|apply (Hc (Slot slot) Hs)].
Qed.

(** [getBlock] on a generator [-k]: the block is filled with the numbers
    [k + d], [k + 2d], ... with [d = slot + 1], whether or not they stay below
    [maxLba] (the bound is tested once, for [k], before the loop), and the
    generator moves past them. *)
Theorem getBlock_generator s g slot k l size lbas :
  Rep s g -> (slot < numSlots)%nat -> g (Slot slot) = - k :: l ->
  0 < k <= maxLba s - (Z.of_nat slot + 1) -> maxLba s < 2 ^ 63 ->
  (size <= length lbas)%nat ->
  exists s', getBlock (Z.of_nat size) slot (s, lbas) =
    (Ret (Z.of_nat size),
      (s', gen_lbas k (Z.of_nat slot + 1) size ++ drop size lbas)) /\
    Rep s' (upd (Slot slot) (- (k + Z.of_nat size * (Z.of_nat slot + 1)) :: l) g).
Proof.
  intros R Hs E Hk Hm Hl.
  destruct (getBlock_generator_run s g slot k l size lbas R Hs E Hk Hm Hl) as (s' & ? & ? & _). eauto.
Qed.

(** [getBlock] on a queue of returned LBAs: the head is read once, before
    the loop, so the block is filled with copies of the first LBA while one
    node per copy is removed from the queue, whatever LBA it held. *)
Theorem getBlock_repeats_head s g slot v l size lbas :
  Rep s g -> (slot < numSlots)%nat -> g (Slot slot) = v :: l ->
  0 <= v -> maxLba s <> 0 -> (size <= length lbas)%nat ->
  let n := Nat.min (length (v :: l)) size in
  exists s', getBlock (Z.of_nat size) slot (s, lbas) =
    (Ret (Z.of_nat n), (s', replicate n v ++ drop n lbas)) /\
    Rep s' (upd (Slot slot) (drop n (v :: l)) g).
Proof.
  intros (f & R & Hg) Hs Eg Hv Hm Hl n.
  destruct (fmap_cons_inv_snd (f (Slot slot)) v l) as (a & fl & E & <-).
  { by rewrite Hg. }
  destruct (getBlock_pop_loop_rep (Slot slot) slot ((a, v) :: fl) eq_refl Hs
    (S (Z.to_nat (Z.of_nat size))) size s f [] lbas v R E) as (s' & f' & E' & R' & Ef & Hb & Hm');
    try (simpl; lia); [done|].
  cbn [length app] in E', Ef. rewrite Nat.sub_0_r, Nat.add_0_l in *.
  change (Z.of_nat 0) with 0 in E'.
  assert (Hn : n = Nat.min (S (length fl)) size) by (subst n; simpl; by rewrite length_fmap).
  rewrite <- Hn in E', Ef.
  pose proof (getBlock_body_head s f slot a v fl (Z.of_nat size) lbas R Hs E Hm) as EB.
  erewrite cbind_ret in EB by exact E'.
  unfold getBlock_finish, cbind at 1 2, get_local, get_list in EB. cbn [fst snd bl_cnt bl_ret] in EB.
  destruct (Z.ltb_spec v 0); [lia|]. rewrite andb_false_r in EB.
  destruct (getBlock_run s g f slot (Z.of_nat size) lbas s' f' (drop n (v :: fl.*2)) _ _ _ Hs Hg EB R')
    as (s1 & ? & ? & _); eauto. rewrite Ef. by rewrite fmap_drop.
Qed.

End Theorems.

(** ** Concrete runs, with the simple implementation of the PMDK interface *)

Section Runs.
#[local] Existing Instance simple_tx.
#[local] Existing Instance simple_heap.

(** The state after an operation that returns. *)
Definition after {A} (m : M exn OffloadFreeList A) (s : OffloadFreeList) :=
  snd (m s).

Definition run0 : OffloadFreeList := after (push (-1)) (empty_list 4).
Definition run_gen : OffloadFreeList := after (pushBlock (-1) 0) (empty_list 4).
Definition run_ret : OffloadFreeList :=
  after (pushBlock 7 0) (after (pushBlock 5 0) (empty_list 4)).

Example run0_gets :
  let g n := Nat.iter n (after get) run0 in
  map (fun n => fst (get (g n))) [0; 1; 2; 3; 4]%nat =
  [Ret 1; Ret 2; Ret 3; Ret 0; Throw (manual_tx_abort EINVAL)].
Proof. vm_compute. reflexivity. Qed.

Lemma push_Rep s g v :
  Rep s g -> fst (push v s) = Ret tt -> Rep (after (push v) s) (upd Main (g Main ++ [v]) g).
Proof.
  intros R E. pose proof (push_queue_refines s g Main v R I) as HP.
  unfold after, push in *. destruct (pm_alloc _).
  - destruct HP as (s' & -> & R' & _). exact R'.
  - rewrite HP in E. done.
Qed.

Lemma pushBlock_Rep s g v slot :
  Rep s g -> (slot <? numSlots)%nat = true -> fst (pushBlock v slot s) = Ret tt ->
  Rep (after (pushBlock v slot) s) (upd (Slot slot) (g (Slot slot) ++ [v]) g).
Proof.
  intros R Hs E. pose proof (push_queue_refines s g (Slot slot) v R) as HP.
  unfold after, pushBlock in *. rewrite Hs in *. apply Nat.ltb_lt in Hs. specialize (HP Hs).
  destruct (pm_alloc _).
  - destruct HP as (s' & -> & R' & _). exact R'.
  - rewrite HP in E. done.
Qed.

Definition w_none : queue_id -> list Z := fun _ => [].
Definition w_main : queue_id -> list Z := upd Main [-1] w_none.
Definition w_gen : queue_id -> list Z := upd (Slot 0) [-1] w_none.
Definition w_ret : queue_id -> list Z := upd (Slot 0) [5; 7] (upd (Slot 0) [5] w_none).

Lemma run0_Rep : Rep run0 w_main.
Proof. apply (push_Rep _ _ (-1) (empty_list_Rep 4)). vm_compute. reflexivity. Qed.
Lemma run_gen_Rep : Rep run_gen w_gen.
Proof. apply (pushBlock_Rep _ _ (-1) 0 (empty_list_Rep 4)); vm_compute; reflexivity. Qed.
Lemma run_ret_Rep : Rep run_ret w_ret.
Proof.
  apply (pushBlock_Rep _ (upd (Slot 0) [5] w_none) 7 0); [|vm_compute; reflexivity..].
  apply (pushBlock_Rep _ _ 5 0 (empty_list_Rep 4)); vm_compute; reflexivity.
Qed.

Lemma freelist_no_double_allocation_witness : 0 <= 2 < 4 /\ (2 ∉ [1]).
Proof.
  apply (freelist_no_double_allocation 4 run0 (after get run0) [1] 2
           (after get (after get run0))); [lia|vm_compute; reflexivity| |vm_compute; reflexivity].
  eapply rtc_l; [|apply rtc_refl]. apply step_get. vm_compute. reflexivity.
Defined.

Lemma freelist_get_fails_only_when_full_witness :
  (exists v s', get (after get run0) = (Ret v, s') /\ Z.of_nat (length [1]) < 4) \/
  (exists e, get (after get run0) = (Throw e, after get run0) /\ Z.of_nat (length [1]) = 4).
Proof.
  apply (freelist_get_fails_only_when_full 4 run0 (after get run0) [1]); [lia|vm_compute; reflexivity|].
  eapply rtc_l; [|apply rtc_refl]. apply step_get. vm_compute. reflexivity.
Defined.

Lemma push_refines_witness :
  exists s', push 3 run0 = (Ret tt, s') /\ Rep s' (upd Main [-1; 3] w_main).
Proof.
  destruct (push_refines run0 w_main 3 0%nat run0_Rep ltac:(vm_compute; lia))
    as [(E & _)|[E _]]; [vm_compute in E; discriminate|exact E].
Defined.

Lemma get_refines_witness :
  exists s', get run0 = (Ret 1, s') /\ Rep s' (upd Main [-2] w_main).
Proof.
  apply (get_refines run0 w_main run0_Rep).
  - vm_compute. split; [discriminate|reflexivity].
  - repeat constructor.
Defined.

Lemma clear_refines_witness :
  show run0 = [-1] /\ exists s', clear run0 = (Ret tt, s') /\ Rep s' (upd Main [] w_main).
Proof.
  destruct (clear_refines run0 w_main 0%nat run0_Rep ltac:(vm_compute; lia)) as (E & _ & E' & _).
  split; [exact E|exact E'].
Defined.

(** The disk has LBAs 0 to 3, the block holds 2, 3, 4, 5, 6, 7. *)
Lemma getBlock_generator_witness :
  exists s', getBlock 6 0 (run_gen, replicate 6 9) = (Ret 6, (s', [2; 3; 4; 5; 6; 7])) /\
    Rep s' (upd (Slot 0) [-7] w_gen).
Proof.
  apply (getBlock_generator run_gen w_gen 0 1 [] 6 (replicate 6 9) run_gen_Rep).
  - vm_compute. lia.
  - reflexivity.
  - vm_compute. split; [reflexivity|discriminate].
  - vm_compute. reflexivity.
  - vm_compute. lia.
Defined.

(** LBAs 5 and 7 were returned; the block holds 5 twice and 7 is lost. *)
Lemma getBlock_repeats_head_witness :
  exists s', getBlock 4 0 (run_ret, replicate 4 9) = (Ret 2, (s', [5; 5; 9; 9])) /\
    Rep s' (upd (Slot 0) [] w_ret).
Proof.
  apply (getBlock_repeats_head run_ret w_ret 0 5 [7] 4 (replicate 4 9) run_ret_Rep).
  - vm_compute. lia.
  - reflexivity.
  - lia.
  - vm_compute. discriminate.
  - vm_compute. lia.
Defined.
End Runs.
