(* ===== verification/LbaAlloc.v ===== *)
(** * The LBA allocator of a block device ([lib/offload/OffloadLbaAlloc])

    One bucket of cached LBAs per size class (4 kB, 8 kB, ...).  An empty bucket
    is refilled with a block from the slot of the free list with its number; a
    full bucket is flushed back to it. *)

From S2P Require Import Prelude Status Pmem FreeList.

Definition lbasSize : nat := 1024.
Definition _maxBuckets : nat := 8.

(** [struct LbaBucket]; [lbas] is not initialised by its constructor. *)
Record LbaBucket : Type := mkLbaBucket {
  sizeBracket : Z; lbas : list Z; level : Z }.

Definition set_lbas (l : list Z) (b : LbaBucket) := mkLbaBucket (sizeBracket b) l (level b).
Definition set_level (n : Z) (b : LbaBucket) := mkLbaBucket (sizeBracket b) (lbas b) n.

(** [class OffloadLbaAlloc]. *)
Record OffloadLbaAlloc : Type := mkLbaAlloc {
  buckets : list LbaBucket; freeLbaList : OffloadFreeList }.

Definition set_bucket (i : nat) (b : LbaBucket) (s : OffloadLbaAlloc) :=
  mkLbaAlloc (<[i:=b]> (buckets s)) (freeLbaList s).
Definition set_list (l : OffloadFreeList) (s : OffloadLbaAlloc) :=
  mkLbaAlloc (buckets s) l.

(** [LbaBucket::get]. *)
Definition bucket_get : M exn LbaBucket Z := fun b =>
  if level b =? 0 then (Ret (-1), b)
  else match lbas b !! Z.to_nat (level b - 1) with
       | Some lba => (Ret lba, set_level (u32 (level b - 1)) b)
       | None => (Undef, b)
       end.

(** [LbaBucket::put]: the level is incremented before it is used as the
    index. *)
Definition bucket_put (lba : Z) : M exn LbaBucket unit := fun b =>
  if Z.of_nat lbasSize <=? level b then (Ret tt, b)
  else
    let b' := set_level (u32 (level b + 1)) b in
    if level b' <? Z.of_nat (length (lbas b'))
    then (Ret tt, set_lbas (<[Z.to_nat (level b') := lba]> (lbas b')) b')
    else (Undef, b').

(** Runs a bucket operation on [buckets[i]]. *)
Definition on_bucket {A} (i : nat) (m : M exn LbaBucket A) : M exn OffloadLbaAlloc A :=
  fun s => match buckets s !! i with
           | None => (Undef, s)
           | Some b => let r := m b in (fst r, set_bucket i (snd r) s)
           end.

Section Operations.
Context `{PmemTx} `{PmemHeap FreeLba}.

(** [OffloadLbaAlloc::getBlock(bucket, ioSize)] for bucket number [i]; the
    caller passes the bucket number as [ioSize]. *)
Definition getBlock (i : nat) : M exn OffloadLbaAlloc Z := fun s =>
  match buckets s !! i with
  | None => (Undef, s)
  | Some b =>
      match FreeList.getBlock (Z.of_nat lbasSize) i (freeLbaList s, lbas b) with
      | (Ret ret, (fl, ls)) =>
          let s' := set_list fl (set_bucket i (set_lbas ls b) s) in
          if ret <? 0 then (Ret ret, s')
          else (Ret ret, set_bucket i (set_level (u32 ret) (set_lbas ls b)) s')
      | (Throw e, (fl, ls)) => (Throw e, set_list fl (set_bucket i (set_lbas ls b) s))
      | (Crash, (fl, ls)) => (Crash, set_list fl (set_bucket i (set_lbas ls b) s))
      | (Undef, (fl, ls)) => (Undef, set_list fl (set_bucket i (set_lbas ls b) s))
      end
  end.

Definition bucketNum (ioSize : Z) : Z := u32 (ioSize / 4096).

(** [OffloadLbaAlloc::getLba]. *)
Definition getLba (ioSize : Z) : M exn OffloadLbaAlloc Z :=
  let n := bucketNum ioSize in
  if Z.of_nat _maxBuckets <=? n then cret (-1)
  else
    let i := Z.to_nat n in
    let! s := cget in
    match buckets s !! i with
    | None => cundef
    | Some b =>
        let! ret := (if level b =? 0 then getBlock i else cret 0) in
        if ret <? 0 then cret ret else on_bucket i bucket_get
    end.

(** [OffloadLbaAlloc::putBlock]. *)
Definition putBlock (i : nat) : M exn OffloadLbaAlloc unit := fun s =>
  match buckets s !! i with
  | None => (Undef, s)
  | Some b =>
      match FreeList.putBlock (lbas b) i (freeLbaList s) with
      | (Ret _, fl) => (Ret tt, set_bucket i (set_level 0 b) (set_list fl s))
      | (Throw e, fl) => (Throw e, set_list fl s)
      | (Crash, fl) => (Crash, set_list fl s)
      | (Undef, fl) => (Undef, set_list fl s)
      end
  end.

(** [OffloadLbaAlloc::putLba]. *)
Definition putLba (lba ioSize : Z) : M exn OffloadLbaAlloc unit :=
  let n := bucketNum ioSize in
  if Z.of_nat _maxBuckets <=? n then cret tt
  else
    let i := Z.to_nat n in
    let! s := cget in
    match buckets s !! i with
    | None => cundef
    | Some b =>
        (if Z.of_nat lbasSize <=? level b then putBlock i else cret tt) ;;;
        on_bucket i (bucket_put lba)
    end.

Fixpoint init_slots (slot : nat) (n : nat) : M exn OffloadFreeList unit :=
  match n with
  | O => cret tt
  | S n => FreeList.pushBlock (-1) slot ;;; init_slots (S slot) n
  end.

(** The root object of the pool that was opened or created: [file] is that of the file
    when it is there, and a new one is zero. *)
Definition open_pool (create : bool) (file : option OffloadFreeList) : outcome exn OffloadFreeList :=
  match create, file with
  | false, Some fl => Ret fl
  | true, None => Ret (empty_list 0)
  | _, _ => Throw pool_error
  end.

(** The constructor; [raw] are the uninitialised arrays of the buckets. *)
Definition OffloadLbaAlloc_init (create : bool) (file : option OffloadFreeList)
    (blockCnt avgBlkPerLba : Z) (raw : list (list Z)) :
    outcome exn OffloadLbaAlloc :=
  match open_pool create file with
  | Ret fl =>
      if avgBlkPerLba =? 0 then Undef else
      let fl := mkOffloadFreeList (blockCnt / avgBlkPerLba) (_head fl) (_tail fl)
                  (_heads fl) (_tails fl) (nodes fl) in
      let r := if create
               then (FreeList.push (-1) ;;; init_slots 0 numSlots) fl
               else (Ret tt, fl) in
      match r with
      | (Ret _, fl) => Ret (mkLbaAlloc (imap (fun i l => mkLbaBucket (Z.of_nat i + 1) l 0) raw) fl)
      | (Throw e, _) => Throw e
      | (Crash, _) => Crash
      | (Undef, _) => Undef
      end
  | Throw e => Throw e
  | Crash => Crash
  | Undef => Undef
  end.

End Operations.

(** ** Lemmas *)

Lemma length_gen_lbas k d m : length (gen_lbas k d m) = m.
Proof. revert k. induction m; intros k; simpl; auto. Qed.

Lemma lookup_gen_lbas k d m j :
  (j < m)%nat -> gen_lbas k d m !! j = Some (k + (Z.of_nat j + 1) * d).
Proof.
  revert k j. induction m as [|m IH]; intros k [|j] Hj; try lia; cbn [gen_lbas lookup list_lookup].
  - f_equal. lia.
  - change ((gen_lbas (k + d) d m) !! j = Some (k + (Z.of_nat (S j) + 1) * d)).
    rewrite IH by lia. f_equal. lia.
Qed.

Lemma elem_of_gen_lbas k d m x :
  x ∈ gen_lbas k d m <-> exists j, (j < m)%nat /\ x = k + (Z.of_nat j + 1) * d.
Proof.
  rewrite list_elem_of_lookup. split.
  - intros [j Hj]. pose proof (lookup_lt_Some _ _ _ Hj) as Hl. rewrite length_gen_lbas in Hl.
    rewrite lookup_gen_lbas in Hj by done. exists j. naive_solver.
  - intros (j & Hj & ->). exists j. by apply lookup_gen_lbas.
Qed.

Lemma gen_lbas_top k d :
  exists out, reverse (gen_lbas k d lbasSize) = k + 1024 * d :: out.
Proof.
  assert (Hs : forall m k, gen_lbas k d (S m) = gen_lbas k d m ++ [k + (Z.of_nat m + 1) * d]).
  { induction m as [|m IH]; intros k'; [simpl; do 2 f_equal; lia|].
    change (gen_lbas k' d (S (S m))) with (k' + d :: gen_lbas (k' + d) d (S m)). rewrite IH. simpl.
    do 3 f_equal. lia. }
  unfold lbasSize. rewrite (Hs 1023%nat k), reverse_snoc. by eexists.
Qed.

Lemma NoDup_gen_lbas k d m : 0 < d -> NoDup (gen_lbas k d m).
Proof.
  intros Hd. apply NoDup_alt. intros i j x Hi Hj.
  pose proof (lookup_lt_Some _ _ _ Hi) as Hil. pose proof (lookup_lt_Some _ _ _ Hj) as Hjl.
  rewrite length_gen_lbas in Hil, Hjl. rewrite lookup_gen_lbas in Hi, Hj by done.
  simplify_eq. nia.
Qed.

(** Taking LBAs out of a bucket, one [getLba] after the other. *)
Fixpoint getLbas `{PmemTx} `{PmemHeap FreeLba} (ioSize : Z) (n : nat) :
    M exn OffloadLbaAlloc (list Z) :=
  match n with
  | O => cret []
  | S n => let! x := getLba ioSize in
           let! xs := getLbas ioSize n in cret (x :: xs)
  end.

(** The size class of a request, when it has one. *)
Definition has_bucket (ioSize : Z) (i : nat) : Prop :=
  bucketNum ioSize = Z.of_nat i /\ (i < _maxBuckets)%nat.

(** A bucket whose first [n] cells are the cached LBAs. *)
Definition cached (s : OffloadLbaAlloc) (i : nat) (b : LbaBucket) (n : nat) : Prop :=
  buckets s !! i = Some b /\ level b = Z.of_nat n /\ (n <= length (lbas b))%nat /\
  length (lbas b) = lbasSize.

#[local] Opaque gen_lbas.

Section Lemmas.
Context `{PmemTx} `{PmemHeap FreeLba}.

Lemma getLba_bucket ioSize i s b :
  has_bucket ioSize i -> buckets s !! i = Some b ->
  getLba ioSize s =
  (let! ret := (if level b =? 0 then getBlock i else cret 0) in
   if ret <? 0 then cret ret else on_bucket i bucket_get) s.
Proof.
  intros [E Hi] Hb. unfold getLba. rewrite E.
  destruct (Z.leb_spec (Z.of_nat _maxBuckets) (Z.of_nat i)); [lia|].
  rewrite Nat2Z.id. unfold cbind at 1, cget. by rewrite Hb.
Qed.

Lemma bucket_get_run b n x :
  level b = Z.of_nat (S n) -> lbas b !! n = Some x -> Z.of_nat n < 2 ^ 32 ->
  bucket_get b = (Ret x, set_level (Z.of_nat n) b).
Proof.
  intros El Hx Hn. unfold bucket_get. rewrite El.
  destruct (Z.eqb_spec (Z.of_nat (S n)) 0); [lia|].
  replace (Z.of_nat (S n) - 1) with (Z.of_nat n) by lia.
  rewrite Nat2Z.id, Hx, uwrap_id by lia. done.
Qed.
Lemma getLba_cached ioSize i s b n x :
  has_bucket ioSize i -> cached s i b (S n) -> lbas b !! n = Some x ->
  getLba ioSize s = (Ret x, set_bucket i (set_level (Z.of_nat n) b) s).
Proof.
  intros Hi (Hb & El & Hn & Hl) Hx. rewrite (getLba_bucket _ _ _ _ Hi Hb), El.
  destruct (Z.eqb_spec (Z.of_nat (S n)) 0); [lia|]. unfold cbind, cret, on_bucket.
  cbn [Z.ltb Z.compare]. unfold lbasSize in *. rewrite Hb, (bucket_get_run _ n x) by (done || lia).
  done.
Qed.

Lemma set_bucket_cached s i b n b' m :
  cached s i b n -> level b' = Z.of_nat m -> (m <= lbasSize)%nat -> length (lbas b') = lbasSize ->
  cached (set_bucket i b' s) i b' m.
Proof.
  intros (Hb & _ & _ & _) El Hm Hl. split_and!; [|done|lia|done].
  simpl. by apply list_lookup_insert_eq, lookup_lt_is_Some.
Qed.

Lemma set_bucket_twice s i b b' : set_bucket i b (set_bucket i b' s) = set_bucket i b s.
Proof. unfold set_bucket. simpl. by rewrite list_insert_insert_eq. Qed.

(** Emptying a bucket: the cached LBAs come out from the top. *)
Lemma getLbas_cached ioSize i n : forall s b,
  has_bucket ioSize i -> cached s i b n ->
  getLbas ioSize n s = (Ret (reverse (take n (lbas b))), set_bucket i (set_level 0 b) s).
Proof.
  induction n as [|n IH]; intros s b Hi Hc.
  - destruct Hc as (Hb & El & _). unfold getLbas, cret. f_equal. destruct s as [bs fl], b as [z l lv].
    unfold set_bucket, set_level. simpl in *. subst. by rewrite list_insert_id.
  - pose proof Hc as (Hb & El & Hn & Hl).
    destruct (lookup_lt_is_Some_2 (lbas b) n ltac:(lia)) as [x Hx].
    cbn [getLbas]. erewrite cbind_ret by (by eapply getLba_cached).
    erewrite cbind_ret.
    2:{ apply IH; [done|]. eapply set_bucket_cached; [done|done| |done]. lia. }
    unfold cret. rewrite set_bucket_twice. cbn [lbas set_level].
    rewrite (take_S_r _ _ _ Hx), reverse_snoc. done.
Qed.

(** A refill of an empty bucket, and the call that follows. *)
Lemma getLba_refill ioSize i s b k l g :
  has_bucket ioSize i -> cached s i b 0 ->
  Rep (freeLbaList s) g -> g (Slot i) = - k :: l ->
  0 < k <= maxLba (freeLbaList s) - (Z.of_nat i + 1) -> maxLba (freeLbaList s) < 2 ^ 63 ->
  exists fl, let b' := set_level 1024 (set_lbas (gen_lbas k (Z.of_nat i + 1) lbasSize) b) in
    let s' := set_list fl (set_bucket i b' s) in
    getLba ioSize s = getLba ioSize s' /\ cached s' i b' lbasSize /\
    Rep fl (upd (Slot i) (- (k + 1024 * (Z.of_nat i + 1)) :: l) g) /\
    maxLba fl = maxLba (freeLbaList s).
Proof.
  intros Hi Hc R Eg Hk Hm. pose proof Hc as (Hb & El & _ & Hl).
  destruct (getBlock_generator_run _ _ i k l lbasSize (lbas b) R (proj2 Hi) Eg Hk Hm) as (fl & E & R' & Em).
  { by rewrite Hl. }
  exists fl. intros b' s'.
  assert (Hc' : cached s' i b' lbasSize).
  { eapply (set_bucket_cached (set_list fl s)); [exact Hc|done|done|apply length_gen_lbas]. }
  split_and!; [|done|by rewrite Z.mul_comm in R' |- *|done].
  rewrite (getLba_bucket _ _ _ _ Hi Hb), (getLba_bucket _ _ _ _ Hi (proj1 Hc')), El.
  etransitivity; [apply (cbind_ret _ _ _ (Z.of_nat lbasSize) s')|by rewrite (proj1 (proj2 Hc'))].
  change (Z.of_nat 0 =? 0) with true.
  unfold getBlock. rewrite Hb, E. change (Z.of_nat lbasSize <? 0) with false.
  rewrite drop_ge, app_nil_r by lia. f_equal. subst s' b'. unfold set_bucket, set_list. simpl.
  by rewrite list_insert_insert_eq.
Qed.
(** [putLba] below the top of the bucket: the LBA is written one cell above the
    cached ones. *)
Lemma putLba_cached ioSize i s b n v :
  has_bucket ioSize i -> cached s i b n -> (n < lbasSize)%nat ->
  putLba v ioSize s =
  if (S n <? lbasSize)%nat
  then (Ret tt, set_bucket i (mkLbaBucket (sizeBracket b) (<[S n:=v]> (lbas b)) (Z.of_nat (S n))) s)
  else (Undef, set_bucket i (set_level (Z.of_nat (S n)) b) s).
Proof.
  intros [E Hi] (Hb & El & _ & Hl) Hn. unfold putLba. rewrite E.
  destruct (Z.leb_spec (Z.of_nat _maxBuckets) (Z.of_nat i)); [lia|].
  rewrite Nat2Z.id. unfold cbind at 1, cget. rewrite Hb, El.
  destruct (Z.leb_spec (Z.of_nat lbasSize) (Z.of_nat n)); [lia|].
  unfold cbind, cret, on_bucket. rewrite Hb. unfold bucket_put. rewrite El.
  destruct (Z.leb_spec (Z.of_nat lbasSize) (Z.of_nat n)); [lia|].
  unfold set_level, set_lbas. cbn [level lbas sizeBracket]. unfold lbasSize in *.
  rewrite uwrap_id by lia. rewrite Hl.
  replace (Z.of_nat n + 1) with (Z.of_nat (S n)) by lia. rewrite Nat2Z.id.
  destruct (Z.ltb_spec (Z.of_nat (S n)) (Z.of_nat 1024)), (Nat.ltb_spec (S n) 1024); done || lia.
Qed.
End Lemmas.

(** The value of the free list that the constructor leaves: the generator [-1]
    in the main queue and in the first [n] slots. *)
Definition fresh_queues (n : nat) : queue_id -> list Z := fun q =>
  match q with
  | Main => [-1]
  | Slot i => if (i <? n)%nat then [-1] else []
  end.

Section InitLemmas.
Context `{PmemTx} `{PmemHeap FreeLba}.

Lemma Rep_ext s g g' : (forall q, valid_q q -> g q = g' q) -> Rep s g -> Rep s g'.
Proof. intros Hg (f & R & Hf). exists f. split; [done|]. intros. by rewrite Hf, Hg. Qed.

Lemma init_slots_Rep n : forall slot s s',
  (slot + n <= numSlots)%nat -> Rep s (fresh_queues slot) ->
  init_slots slot n s = (Ret tt, s') ->
  Rep s' (fresh_queues (slot + n)) /\ maxLba s' = maxLba s.
Proof.
  induction n as [|n IH]; intros slot s s' Hn R E; cbn [init_slots] in E.
  - injection E as <-. by rewrite Nat.add_0_r.
  - apply cbind_inv in E as ([] & s1 & E1 & E). unfold FreeList.pushBlock in E1.
    destruct (Nat.ltb_spec slot numSlots); [|lia].
    pose proof (push_queue_refines s _ (Slot slot) (-1) R ltac:(simpl; lia)) as HP.
    destruct (pm_alloc (nodes s)); [|by rewrite HP in E1].
    destruct HP as (s2 & E2 & R2 & Em). rewrite E1 in E2. injection E2 as <-.
    rewrite <- Em, Nat.add_succ_r, <- Nat.add_succ_l. apply (IH _ s1); [lia| |done].
    eapply Rep_ext; [|exact R2]. intros [|j] Hj; unfold upd; [by rewrite decide_False by done|].
    case_decide as Hd; [injection Hd as ->|assert (j <> slot) by congruence]; simpl;
      repeat case_scrut; b2p; done || lia.
Qed.

(** What the constructor establishes on a new pool. *)
Lemma OffloadLbaAlloc_init_spec blockCnt avg raw s :
  OffloadLbaAlloc_init true None blockCnt avg raw = Ret s ->
  Rep (freeLbaList s) (fresh_queues numSlots) /\
  maxLba (freeLbaList s) = blockCnt / avg /\
  forall i l, raw !! i = Some l -> length l = lbasSize ->
    cached s i (mkLbaBucket (Z.of_nat i + 1) l 0) 0.
Proof.
  unfold OffloadLbaAlloc_init, open_pool. destruct (avg =? 0); [done|].
  change (mkOffloadFreeList _ _ _ _ _ _) with (empty_list (blockCnt / avg)).
  destruct ((_ ;;; _) _) as [[[]| | |] fl] eqn:E; try done. intros [= <-]. simpl.
  apply cbind_inv in E as ([] & s1 & E1 & E).
  pose proof (push_queue_refines _ _ Main (-1) (empty_list_Rep (blockCnt / avg)) I) as HP.
  unfold FreeList.push in E1. destruct (pm_alloc _); [|by rewrite HP in E1].
  destruct HP as (s2 & E2 & R2 & Em). rewrite E1 in E2. injection E2 as <-.
  destruct (init_slots_Rep numSlots 0 s1 fl) as [R Em']; [lia| |done|].
  { eapply Rep_ext; [|exact R2]. by intros [|j] Hj. }
  split_and!; [done|by rewrite Em', Em|].
  intros i l Hi Hl. split_and!; simpl; [|done|lia|done].
  by rewrite list_lookup_imap, Hi.
Qed.
End InitLemmas.

(** ** Theorems *)

(** A whole session on one size class: take two LBAs, give the first back, take
    another one. *)
Definition get_get_put_get `{PmemTx} `{PmemHeap FreeLba} (ioSize : Z) :
    M exn OffloadLbaAlloc (Z * Z * Z) :=
  let! x := getLba ioSize in
  let! y := getLba ioSize in
  putLba x ioSize ;;;
  let! z := getLba ioSize in cret (x, y, z).

Section Theorems.
Context `{PmemTx} `{PmemHeap FreeLba}.

(** One refill and the 1024 calls that it serves. *)
Lemma getLbas_block ioSize i s b k l g :
  has_bucket ioSize i -> cached s i b 0 ->
  Rep (freeLbaList s) g -> g (Slot i) = - k :: l ->
  0 < k <= maxLba (freeLbaList s) - (Z.of_nat i + 1) -> maxLba (freeLbaList s) < 2 ^ 63 ->
  let out := reverse (gen_lbas k (Z.of_nat i + 1) lbasSize) in
  exists s' b', getLbas ioSize lbasSize s = (Ret out, s') /\
    NoDup out /\ Forall (fun x => k < x <= k + 1024 * (Z.of_nat i + 1)) out /\
    cached s' i b' 0 /\
    Rep (freeLbaList s') (upd (Slot i) (- (k + 1024 * (Z.of_nat i + 1)) :: l) g) /\
    maxLba (freeLbaList s') = maxLba (freeLbaList s) /\
    forall j, j <> i -> buckets s' !! j = buckets s !! j.
Proof.
  intros Hi Hc R Eg Hk Hm out.
  destruct (getLba_refill _ _ _ _ _ _ _ Hi Hc R Eg Hk Hm) as (fl & E & Hc' & R' & Em).
  set (b1 := set_level 1024 _) in *. set (s1 := set_list fl _) in *.
  pose proof (getLbas_cached _ _ _ _ _ Hi Hc') as EG.
  exists (set_bucket i (set_level 0 b1) s1), (set_level 0 b1). split_and!; [|subst out; rewrite reverse_Permutation; apply NoDup_gen_lbas; lia| | |exact R'|exact Em|].
  - subst out. change (getLbas ioSize lbasSize) with (getLbas ioSize (S 1023)) in *.
    cbn [getLbas] in *. unfold cbind at 1 in EG. unfold cbind at 1. rewrite E, EG.
    cbn [b1 lbas set_level set_lbas]. by rewrite take_ge by (by rewrite length_gen_lbas).
  - apply Forall_forall. intros x Hx. unfold out in Hx.
    rewrite elem_of_reverse, elem_of_gen_lbas in Hx. destruct Hx as (j & Hj & ->).
    unfold lbasSize in Hj. nia.
  - eapply set_bucket_cached; [exact Hc'|done|unfold lbasSize; lia|apply length_gen_lbas].
  - intros j Hj. simpl. by rewrite !list_lookup_insert_ne by done.
Qed.

(** One refill serves 1024 requests: from an empty bucket in front of the
    generator [-k], 1024 calls of [getLba] return 1024 distinct LBAs, the
    generator's numbers from the largest to the smallest, and the generator has
    moved past all of them. *)
Theorem getLba_serves_block ioSize i s b k l g :
  has_bucket ioSize i -> cached s i b 0 ->
  Rep (freeLbaList s) g -> g (Slot i) = - k :: l ->
  0 < k <= maxLba (freeLbaList s) - (Z.of_nat i + 1) -> maxLba (freeLbaList s) < 2 ^ 63 ->
  let out := reverse (gen_lbas k (Z.of_nat i + 1) lbasSize) in
  exists s' b', getLbas ioSize lbasSize s = (Ret out, s') /\
    NoDup out /\ Forall (fun x => k < x <= k + 1024 * (Z.of_nat i + 1)) out /\
    cached s' i b' 0 /\
    Rep (freeLbaList s') (upd (Slot i) (- (k + 1024 * (Z.of_nat i + 1)) :: l) g).
Proof.
  intros Hi Hc R Eg Hk Hm.
  destruct (getLbas_block _ _ _ _ _ _ _ Hi Hc R Eg Hk Hm) as (s' & b' & ? & ? & ? & ? & ? & _). eauto 10.
Qed.

(** [LbaBucket::put] raises the level before it writes, so the returned LBA
    lands one cell too high: after two LBAs are taken and the first is given
    back, the next [getLba] hands out the second one again, which is still
    held. *)
Theorem lba_given_back_shadows_held ioSize i s b n x y :
  has_bucket ioSize i -> cached s i b (S (S n)) ->
  lbas b !! S n = Some x -> lbas b !! n = Some y ->
  exists s', get_get_put_get ioSize s = (Ret (x, y, y), s').
Proof.
  intros Hi Hc Hx Hy. pose proof Hc as (Hb & El & Hn & Hl). unfold get_get_put_get.
  erewrite cbind_ret by (by eapply getLba_cached).
  assert (Hc1 : cached (set_bucket i (set_level (Z.of_nat (S n)) b) s) i
    (set_level (Z.of_nat (S n)) b) (S n)) by (eapply set_bucket_cached; eauto; lia).
  erewrite cbind_ret by (by eapply getLba_cached).
  rewrite set_bucket_twice. change (set_level _ (set_level _ b)) with (set_level (Z.of_nat n) b).
  assert (Hc2 : cached (set_bucket i (set_level (Z.of_nat n) b) s) i
    (set_level (Z.of_nat n) b) n) by (eapply set_bucket_cached; eauto; lia).
  erewrite cbind_ret.
  2:{ rewrite (putLba_cached _ _ _ _ _ _ Hi Hc2) by lia.
      destruct (Nat.ltb_spec (S n) lbasSize); [done|lia]. }
  rewrite set_bucket_twice. erewrite cbind_ret; [by eexists|].
  eapply getLba_cached; [done|eapply set_bucket_cached; [exact Hc|done|lia|by simpl; rewrite length_insert]|].
  simpl. by rewrite list_lookup_insert_ne by lia.
Qed.

(** [putLba] with 1023 LBAs cached writes past the end of the array. *)
Theorem putLba_overruns ioSize i s b v :
  has_bucket ioSize i -> cached s i b 1023 ->
  exists s', putLba v ioSize s = (Undef, s').
Proof.
  intros Hi Hc. rewrite (putLba_cached _ _ _ _ _ _ Hi Hc) by (unfold lbasSize; lia). by eexists.
Qed.

(** The slots of a new pool generate overlapping blocks: whatever two size
    classes [i] and [j] are used, the first 1024 LBAs of each contain
    [1 + (i + 1) * (j + 1)], so two live values of different sizes get the same
    place on the disk. *)
Theorem size_classes_overlap blockCnt avg raw s io1 io2 i j l1 l2 :
  OffloadLbaAlloc_init true None blockCnt avg raw = Ret s ->
  has_bucket io1 i -> has_bucket io2 j -> i <> j ->
  raw !! i = Some l1 -> length l1 = lbasSize -> raw !! j = Some l2 -> length l2 = lbasSize ->
  9 <= blockCnt / avg < 2 ^ 63 ->
  exists out1 out2 s', (let! a := getLbas io1 lbasSize in
                        let! b := getLbas io2 lbasSize in cret (a, b)) s = (Ret (out1, out2), s') /\
    1 + (Z.of_nat i + 1) * (Z.of_nat j + 1) ∈ out1 /\
    1 + (Z.of_nat i + 1) * (Z.of_nat j + 1) ∈ out2.
Proof.
  intros E Hi Hj Hne Hr1 Hl1 Hr2 Hl2 Hm. apply OffloadLbaAlloc_init_spec in E as (R & Em & HB).
  pose proof (proj2 Hi) as Hi'. pose proof (proj2 Hj) as Hj'. unfold _maxBuckets in Hi', Hj'.
  assert (Hg : forall q, (q < 8)%nat -> fresh_queues numSlots (Slot q) = - 1 :: []).
  { intros q Hq. simpl. destruct (Nat.ltb_spec q numSlots); [done|]. unfold numSlots in *. lia. }
  destruct (getLbas_block _ _ _ _ 1 [] _ Hi (HB _ _ Hr1 Hl1) R) as
    (s1 & b1 & E1 & _ & _ & _ & R1 & Em1 & Hb1); [by apply Hg|lia|lia|].
  assert (Hc2 : cached s1 j (mkLbaBucket (Z.of_nat j + 1) l2 0) 0).
  { destruct (HB _ _ Hr2 Hl2) as (Hb & Hrest). split; [by rewrite Hb1|exact Hrest]. }
  destruct (getLbas_block io2 j s1 _ 1 [] _ Hj Hc2 R1) as (s2 & b2 & E2 & _).
  - rewrite upd_ne by congruence. by apply Hg.
  - lia.
  - lia.
  - eexists _, _, s2. erewrite cbind_ret by exact E1. erewrite cbind_ret by exact E2.
    split; [done|]. rewrite !elem_of_reverse, !elem_of_gen_lbas.
    split; [exists j|exists i]; unfold lbasSize; split; lia.
Qed.

End Theorems.

(** ** Concrete runs *)

Section Runs.
#[local] Existing Instance simple_tx.
#[local] Existing Instance simple_heap.

Definition raw_arrays : list (list Z) := replicate _maxBuckets (replicate lbasSize 0).

(** A new allocator of a disk of 1000 LBAs. *)
Definition run_alloc : OffloadLbaAlloc :=
  match OffloadLbaAlloc_init true None 4000 4 raw_arrays with
  | Ret s => s
  | _ => mkLbaAlloc [] (empty_list 0)
  end.
Definition run_bucket : LbaBucket := mkLbaBucket 1 (replicate lbasSize 0) 0.

Lemma run_alloc_init :
  OffloadLbaAlloc_init true None 4000 4 raw_arrays = Ret run_alloc.
Proof. vm_compute. reflexivity. Qed.

Lemma run_has_bucket : has_bucket 4095 0.
Proof. split; [reflexivity|vm_compute; lia]. Qed.

Lemma getLba_serves_block_witness :
  exists s' b', getLbas 4095 lbasSize run_alloc = (Ret (reverse (gen_lbas 1 1 lbasSize)), s') /\
    cached s' 0 b' 0.
Proof.
  destruct (OffloadLbaAlloc_init_spec _ _ _ _ run_alloc_init) as (R & Em & HB).
  destruct (getLba_serves_block 4095 0 run_alloc run_bucket 1 [] (fresh_queues numSlots)
    run_has_bucket (HB 0%nat (replicate lbasSize 0) eq_refl eq_refl) R eq_refl)
    as (s' & b' & E & _ & _ & Hc & _).
  - rewrite Em. vm_compute. split; [reflexivity|discriminate].
  - rewrite Em. vm_compute. reflexivity.
  - exists s', b'. split; [exact E|exact Hc].
Defined.

(** A bucket with [n] cached LBAs 0, 1, ... *)
Definition run_cached (n : Z) : OffloadLbaAlloc :=
  mkLbaAlloc [mkLbaBucket 1 (seqZ 0 1024) n] (empty_list 0).

Lemma lba_given_back_shadows_held_witness :
  exists s', get_get_put_get 4095 (run_cached 3) = (Ret (2, 1, 1), s').
Proof.
  apply (lba_given_back_shadows_held 4095 0 (run_cached 3) (mkLbaBucket 1 (seqZ 0 1024) 3) 1 2 1
    run_has_bucket); [|reflexivity..].
  split_and!; [reflexivity|reflexivity|vm_compute; lia|reflexivity].
Defined.

Lemma putLba_overruns_witness :
  exists s', putLba 7 4095 (run_cached 1023) = (Undef, s').
Proof.
  apply (putLba_overruns 4095 0 (run_cached 1023) (mkLbaBucket 1 (seqZ 0 1024) 1023) 7 run_has_bucket).
  split_and!; [reflexivity|reflexivity|vm_compute; lia|reflexivity].
Defined.

Lemma size_classes_overlap_witness :
  exists out1 out2 s', (let! a := getLbas 4095 lbasSize in
                        let! b := getLbas 4096 lbasSize in cret (a, b)) run_alloc
                       = (Ret (out1, out2), s') /\
    1 + (Z.of_nat 0 + 1) * (Z.of_nat 1 + 1) ∈ out1 /\ 1 + (Z.of_nat 0 + 1) * (Z.of_nat 1 + 1) ∈ out2.
Proof.
  apply (size_classes_overlap 4000 4 raw_arrays run_alloc 4095 4096 0 1
    (replicate lbasSize 0) (replicate lbasSize 0) run_alloc_init run_has_bucket);
    [split; [reflexivity|vm_compute; lia]|discriminate|reflexivity..|].
  vm_compute. split; [discriminate|reflexivity].
Defined.
End Runs.
