(* ===== verification/PoolAlloc.v ===== *)
(** * Memory, allocators and strategies of the object pools ([lib/common])

    The C++ free store, the three allocators that the pools use
    ([ClassAlloc], [ClassMemoryAlloc], [GlobalMemoryAlloc]), the stamp that
    every pooled object carries behind it (or in front of it, when the library
    is built with [_MM_GMP_ON_]), and the allocation strategies. *)

From S2P Require Import Prelude Status.

(** ** The free store *)

(** A live block: its size, the offset of the object pointer that was handed
    out, and the [unsigned int] words that were written, by their offset from
    the start of the block. *)
Record block : Type := mkBlock {
  b_size : Z; b_obj : Z; b_words : gmap Z Z }.

Abbreviation heap := (gmap positive block).

(** [operator new char[n]] and [malloc(n)]: a new block never overlaps a live
    one; [None] when the request cannot be served. *)
Class Malloc : Type := {
  malloc_addr : heap -> Z -> option positive;
  malloc_fresh : forall h n a, malloc_addr h n = Some a -> h !! a = None
}.

#[refine] Definition simple_malloc : Malloc :=
  {| malloc_addr := fun h _ => Some (fresh (dom h)) |}.
Proof. intros h n a [= <-]. apply not_elem_of_dom. apply is_fresh. Defined.

(** [*(unsigned int * )((char * )obj + off)], read and written.  An access
    outside of the block, or a read of a word nobody wrote, is undefined. *)
Definition in_block (b : block) (off : Z) : bool :=
  (0 <=? b_obj b + off) && (b_obj b + off + 4 <=? b_size b).

Definition read_word (obj : positive) (off : Z) : M exn heap Z := fun h =>
  match h !! obj with
  | Some b =>
      if in_block b off
      then match b_words b !! (b_obj b + off) with
           | Some w => (Ret w, h)
           | None => (Undef, h)
           end
      else (Undef, h)
  | None => (Undef, h)
  end.

Definition write_word (obj : positive) (off : Z) (w : Z) : M exn heap unit := fun h =>
  match h !! obj with
  | Some b =>
      if in_block b off
      then (Ret tt, <[obj := mkBlock (b_size b) (b_obj b) (<[b_obj b + off := w]> (b_words b))]> h)
      else (Undef, h)
  | None => (Undef, h)
  end.

(** ** Stamps *)

Definition OBJ_PADDING : Z := 4.
Definition BUCKET_SIZE_MASK : Z := 0x00FFFFFF.
Definition BUCKET_NUMBER_SHIFT : Z := 24.
Definition BUCKET_NUMBER_MASK : Z := 0x000000FF.

(** [GeneralPoolBucket::makeStamp], and the two fields that [put] decodes. *)
Definition make_stamp (bucketNum objSize : Z) : Z :=
  u32 (u32 (Z.shiftl bucketNum BUCKET_NUMBER_SHIFT) + objSize).
Definition stamp_size (stamp : Z) : Z := Z.land stamp BUCKET_SIZE_MASK.
Definition stamp_number (stamp : Z) : Z :=
  Z.land (Z.shiftr stamp BUCKET_NUMBER_SHIFT) BUCKET_NUMBER_MASK.

(** Where the stamp is, from the object: behind it, or in front of it in a
    build with [_MM_GMP_ON_]. *)
Definition stamp_offset (gmp : bool) (objSize : Z) : Z :=
  if gmp then - OBJ_PADDING else objSize.

(** ** Allocators *)

Section Allocators.
Context `{Malloc} (gmp : bool).

(** Both ways to get raw memory: [::new char[size + inc]], whose pointer is the
    object, and [(char * )::malloc(size + inc) + inc]. *)
Definition raw_new (size inc : Z) : M exn heap positive := fun h =>
  match malloc_addr h (size + inc) with
  | Some a => (Ret a, <[a := mkBlock (size + inc) 0 ∅]> h)
  | None => (Throw bad_alloc, h)
  end.
Definition raw_malloc (size inc : Z) : M exn heap positive := fun h =>
  match malloc_addr h (size + inc) with
  | Some a => (Ret a, <[a := mkBlock (size + inc) inc ∅]> h)
  | None => (Undef, h)
  end.

Definition getNewPtr (size_ inc_ : Z) : M exn heap positive :=
  if gmp then raw_malloc size_ inc_ else raw_new size_ inc_.

(** [New] of each allocator, for a class of [sizeof] bytes. *)
Definition ClassAlloc_New (sizeof padd_ : Z) : M exn heap positive :=
  getNewPtr sizeof padd_.
Definition ClassMemoryAlloc_New (sizeof padd_ : Z) : M exn heap positive :=
  if gmp then raw_malloc sizeof padd_ else raw_new sizeof padd_.
Definition GlobalMemoryAlloc_New (sizeof padd_ : Z) : M exn heap positive :=
  if gmp then raw_malloc sizeof padd_ else raw_new sizeof padd_.

(** The template parameter [Alloc] of a pool. *)
Inductive allocator : Type := ClassAlloc | ClassMemoryAlloc | GlobalMemoryAlloc.

Definition New (al : allocator) (sizeof padd_ : Z) : M exn heap positive :=
  match al with
  | ClassAlloc => ClassAlloc_New sizeof padd_
  | ClassMemoryAlloc => ClassMemoryAlloc_New sizeof padd_
  | GlobalMemoryAlloc => GlobalMemoryAlloc_New sizeof padd_
  end.

End Allocators.

(** ** Strategies *)

(** [class AllocStrategy]: what an implementation answers. *)
Record AllocStrategy : Type := mkAllocStrategy {
  preallocateCount : Z; incrementQuant : Z; decrementQuant : Z;
  minIncQuant : Z; maxIncQuant : Z; minDecQuant : Z; maxDecQuant : Z }.

Definition DefaultAllocStrategy : AllocStrategy :=
  {| preallocateCount := 0; incrementQuant := 320; decrementQuant := 0;
     minIncQuant := 4; maxIncQuant := 10; minDecQuant := 0; maxDecQuant := 0 |}.

(** ** Lemmas *)

Lemma stamp_decode n sz :
  0 <= n < 256 -> 0 <= sz < 2 ^ 24 ->
  stamp_size (make_stamp n sz) = sz /\ stamp_number (make_stamp n sz) = n.
Proof.
  intros Hn Hsz. unfold stamp_size, stamp_number, make_stamp, BUCKET_SIZE_MASK, BUCKET_NUMBER_SHIFT,
    BUCKET_NUMBER_MASK.
  rewrite Z.shiftl_mul_pow2, Z.shiftr_div_pow2 by lia.
  change 0xFFFFFF with (Z.ones 24). change 0xFF with (Z.ones 8). rewrite !Z.land_ones by lia.
  rewrite !uwrap_id by (rewrite ?uwrap_id; lia).
  rewrite Z.add_comm, Z.mod_add, Z.div_add by lia. rewrite Z.mod_small by lia.
  rewrite Z.div_small by lia. rewrite Z.add_0_l, Z.mod_small; lia.
Qed.

Section AllocatorLemmas.
Context `{Malloc}.

(** Where the object starts in its block. *)
Definition obj_offset (gmp : bool) : Z := if gmp then 2 * OBJ_PADDING else 0.

(** The block of an object of class size [sz], with its stamp written: the
    object has [sz] bytes of the block and the stamp lies outside of them. *)
Definition stamped (gmp : bool) (sz w : Z) (b : block) : Prop :=
  in_block b (stamp_offset gmp sz) = true /\
  b_words b !! (b_obj b + stamp_offset gmp sz) = Some w /\
  b_obj b = obj_offset gmp /\ b_obj b + sz <= b_size b.

Lemma read_stamp gmp sz w h a b :
  h !! a = Some b -> stamped gmp sz w b ->
  read_word a (stamp_offset gmp sz) h = (Ret w, h).
Proof. intros Ha (Hi & Hw & _). unfold read_word. by rewrite Ha, Hi, Hw. Qed.

(** Every allocator returns a fresh object with room for the stamp, or fails and
    allocates nothing. *)
Lemma New_spec gmp al sz h :
  0 <= sz ->
  (exists a b, New gmp al sz 8 h = (Ret a, <[a:=b]> h) /\ h !! a = None /\
     b_words b = ∅ /\ in_block b (stamp_offset gmp sz) = true /\
     b_obj b = obj_offset gmp /\ b_obj b + sz <= b_size b) \/
  (malloc_addr h (sz + 8) = None /\
   (New gmp al sz 8 h = (Throw bad_alloc, h) \/ New gmp al sz 8 h = (Undef, h))).
Proof.
  intros Hsz. pose proof (malloc_fresh h (sz + 8)) as Hf.
  unfold New, ClassAlloc_New, ClassMemoryAlloc_New, GlobalMemoryAlloc_New, getNewPtr, raw_new, raw_malloc.
  destruct (malloc_addr h (sz + 8)) as [a|] eqn:E; [left|right].
  - exists a. destruct al, gmp; rewrite E; eexists; (split_and!; [reflexivity|by apply Hf|done|..]);
      cbn [b_obj b_size]; try done; try lia; unfold in_block, stamp_offset, OBJ_PADDING;
      cbn [b_obj b_size]; apply andb_true_iff; split; apply Z.leb_le; lia.
  - split; [done|]. destruct al, gmp; rewrite E; tauto.
Qed.

(** Writing the stamp of a fresh object. *)
Lemma write_stamp gmp sz w h a b :
  h !! a = Some b -> in_block b (stamp_offset gmp sz) = true ->
  b_obj b = obj_offset gmp -> b_obj b + sz <= b_size b ->
  exists b', write_word a (stamp_offset gmp sz) w h = (Ret tt, <[a:=b']> h) /\
    stamped gmp sz w b'.
Proof.
  intros Ha Hi Ho Hs. unfold write_word. rewrite Ha, Hi. eexists. split; [reflexivity|].
  split_and!; [exact Hi|simpl; apply lookup_insert_eq|done|done].
Qed.
End AllocatorLemmas.
