(* ===== verification/PoolBucket.v ===== *)
(** * A bucket of pooled objects ([lib/common/GeneralPoolBucket], [GeneralPoolBuffer])

    A bucket is a ring of object pointers cut into buffers of 1024 slots.  When
    the ring is full, a buffer is inserted at the head, inside the ring.  The
    file models the ring on the level of buffers and slots, and proves that a
    bucket is a FIFO queue of objects that grows up to 256 buffers.

    The optional parts of the sources ([_MEM_STATS_], [_MM_DEBUG_],
    [_MM_DOUBLE_DEL_CHECK_]) are off in every build of the repository and are not
    modelled; [_MM_GMP_ON_] is the parameter [gmp]. *)

From S2P Require Import Prelude Status PoolAlloc.

Definition MAX_BUFFER_SLOTS : nat := 1024.
Definition MAX_BUCKET_BUFFERS : nat := 256.

(** [class GeneralPoolBuffer]; a null slot is [None]. *)
Record GeneralPoolBuffer : Type := mkBuffer {
  slots : list (option positive); buf_bucketNum : Z }.

(** The constructor clears the slots. *)
Definition GeneralPoolBuffer_init (bucketNum : Z) : GeneralPoolBuffer :=
  mkBuffer (replicate MAX_BUFFER_SLOTS None) bucketNum.

(** [rellocate(buf_, howMany_)] and [zeroOut(howMany_)]. *)
Definition rellocate (buf : GeneralPoolBuffer) (howMany : nat) (b : GeneralPoolBuffer) :=
  mkBuffer (take howMany (slots buf) ++ drop howMany (slots b)) (buf_bucketNum b).
Definition zeroOut (howMany : nat) (b : GeneralPoolBuffer) :=
  mkBuffer (replicate howMany None ++ drop howMany (slots b)) (buf_bucketNum b).

(** [class GeneralPoolBucket]; [buffers] holds the entries of the array that
    were set. *)
Record GeneralPoolBucket : Type := mkBucket {
  head : Z; tail : Z; full : bool; empty : bool;
  quantInc : Z; quantDec : Z; numBuffers : Z; bucketNum : Z; stamp : Z;
  totalMax : Z; currentMax : Z; objSize : Z; padding : Z;
  buffers : list GeneralPoolBuffer }.

Definition GeneralPoolBucket_init (objectSize : Z) : GeneralPoolBucket :=
  {| head := 0; tail := 0; full := false; empty := true; quantInc := 0; quantDec := 0;
     numBuffers := 0; bucketNum := 0; stamp := 0;
     totalMax := Z.of_nat MAX_BUCKET_BUFFERS * Z.of_nat MAX_BUFFER_SLOTS; currentMax := 0;
     objSize := objectSize; padding := 2 * OBJ_PADDING; buffers := [] |}.

(** Updates of the ring and of the settings. *)
Definition set_ring (h t : Z) (f e : bool) (bs : list GeneralPoolBuffer) (b : GeneralPoolBucket) :=
  mkBucket h t f e (quantInc b) (quantDec b) (numBuffers b) (bucketNum b) (stamp b)
    (totalMax b) (currentMax b) (objSize b) (padding b) bs.
Definition set_counts (n c : Z) (b : GeneralPoolBucket) :=
  mkBucket (head b) (tail b) (full b) (empty b) (quantInc b) (quantDec b) n (bucketNum b) (stamp b)
    (totalMax b) c (objSize b) (padding b) (buffers b).
Definition set_quants (qi qd : Z) (b : GeneralPoolBucket) :=
  mkBucket (head b) (tail b) (full b) (empty b) qi qd (numBuffers b) (bucketNum b) (stamp b)
    (totalMax b) (currentMax b) (objSize b) (padding b) (buffers b).
Definition setBucketNum (n : Z) (b : GeneralPoolBucket) :=
  mkBucket (head b) (tail b) (full b) (empty b) (quantInc b) (quantDec b) (numBuffers b) n (stamp b)
    (totalMax b) (currentMax b) (objSize b) (padding b) (buffers b).
Definition makeStamp (b : GeneralPoolBucket) :=
  mkBucket (head b) (tail b) (full b) (empty b) (quantInc b) (quantDec b) (numBuffers b) (bucketNum b)
    (make_stamp (bucketNum b) (objSize b))
    (totalMax b) (currentMax b) (objSize b) (padding b) (buffers b).

(** [buffers[i / MAX_BUFFER_SLOTS]->slots[i % MAX_BUFFER_SLOTS]], read and
    written. *)
Definition buf_idx (i : Z) : nat := Z.to_nat (i / Z.of_nat MAX_BUFFER_SLOTS).
Definition slot_idx (i : Z) : nat := Z.to_nat (i mod Z.of_nat MAX_BUFFER_SLOTS).

Definition get_slot (i : Z) (bs : list GeneralPoolBuffer) : option (option positive) :=
  match bs !! buf_idx i with
  | Some b => slots b !! slot_idx i
  | None => None
  end.
Definition set_slot (i : Z) (v : option positive) (bs : list GeneralPoolBuffer) :=
  match bs !! buf_idx i with
  | Some b => <[buf_idx i := mkBuffer (<[slot_idx i := v]> (slots b)) (buf_bucketNum b)]> bs
  | None => bs
  end.

(** [makeBuffer].  The first two lines of the result are the [memmove] and the
    new buffer; [rellocate] and [zeroOut] are called on the moved buffer, which
    does not exist yet for the first buffer: both are then asked for 0 slots,
    which touches nothing. *)
Definition makeBuffer : M exn GeneralPoolBucket unit := fun b =>
  if Z.of_nat MAX_BUCKET_BUFFERS <=? numBuffers b then (Crash, b)
  else
    let insert_pos := buf_idx (head b) in
    let r := slot_idx (head b) in
    let n := Z.to_nat (numBuffers b) in
    if (n <? insert_pos)%nat then (Undef, b) else
    let moved := take (n - insert_pos) (drop insert_pos (buffers b)) in
    let rest := drop (S n) (buffers b) in
    let fresh := GeneralPoolBuffer_init (bucketNum b) in
    let ring :=
      match moved with
      | m :: ms => Some (take insert_pos (buffers b) ++ rellocate m r fresh :: zeroOut r m :: ms ++ rest)
      | [] => if (r =? 0)%nat then Some (take insert_pos (buffers b) ++ fresh :: rest) else None
      end in
    match ring with
    | None => (Undef, b)
    | Some bs =>
        let c := u32 (currentMax b + Z.of_nat MAX_BUFFER_SLOTS) in
        if c =? 0 then (Undef, b) else
        (Ret tt, set_ring (head b) (u32 (tail b + Z.of_nat MAX_BUFFER_SLOTS) mod c) false (empty b) bs
                   (set_counts (u32 (numBuffers b + 1)) c b))
    end.

(** [putNoLock]; [put] is the same under the bucket's mutex. *)
Definition putNoLock (obj : positive) : M exn GeneralPoolBucket unit :=
  let! b := cget in
  (if full b || (numBuffers b =? 0) then makeBuffer else cret tt) ;;;
  let! b := cget in
  if full b then cret tt
  else
    match get_slot (head b) (buffers b) with
    | None => cundef
    | Some (Some _) => ccrash
    | Some None =>
        if currentMax b =? 0 then cundef else
        let head' := u32 (head b + 1) mod currentMax b in
        cput (set_ring head' (tail b) (if head' =? tail b then true else full b) false
                (set_slot (head b) (Some obj) (buffers b)) b)
    end.

Definition put := putNoLock.

(** [size], [isFull], [isEmpty]. *)
Definition size (b : GeneralPoolBucket) : Z :=
  if full b then currentMax b
  else if tail b <=? head b then u32 (head b - tail b)
  else u32 (currentMax b - u32 (tail b - head b)).
Definition isFull (b : GeneralPoolBucket) : bool := full b.
Definition isEmpty (b : GeneralPoolBucket) : bool := empty b.

Section Operations.
Context `{Malloc} (gmp : bool) (al : allocator).

(** The operations that allocate work on the bucket and the free store. *)
Abbreviation BM A := (M exn (GeneralPoolBucket * heap) A).

Definition on_bucket {A} (m : M exn GeneralPoolBucket A) : BM A :=
  czoom fst (fun b s => (b, snd s)) m.
Definition on_heap {A} (m : M exn heap A) : BM A :=
  czoom snd (fun h s => (fst s, h)) m.

(** One iteration of the loop of [make]: a new object, its stamp, and in. *)
Definition make_one : BM unit :=
  let! (b, _) := cget in
  let! obj := on_heap (New gmp al (objSize b) (padding b)) in
  on_heap (write_word obj (stamp_offset gmp (objSize b)) (stamp b)) ;;;
  on_bucket (putNoLock obj).

Fixpoint make (count : nat) : BM unit :=
  match count with
  | O => cret tt
  | S count => make_one ;;; make count
  end.

(** [getNoLock]; [get] is the same under the bucket's mutex. *)
Definition getNoLock : BM positive :=
  let! (b, _) := cget in
  (if empty b then make (Z.to_nat (quantInc b)) else cret tt) ;;;
  let! (b, h) := cget in
  match get_slot (tail b) (buffers b) with
  | None => cundef
  | Some None => ccrash
  | Some (Some obj) =>
      if currentMax b =? 0 then cundef else
      let tail' := u32 (tail b + 1) mod currentMax b in
      cput (set_ring (head b) tail' false (if tail' =? head b then true else empty b)
              (set_slot (tail b) None (buffers b)) b, h) ;;;
      cret obj
  end.

Definition get := getNoLock.

(** [allocate]. *)
Definition allocate (howMany : Z) : BM unit := make (Z.to_nat howMany).

(** The quanta that [setStrategy] computes. *)
Definition clamp_quant (lo hi q : Z) : Z :=
  let q := if q <=? lo then lo else q in
  if hi <=? q then hi else q.

Definition setStrategy (strat : AllocStrategy) : BM unit :=
  let! (b, h) := cget in
  if objSize b =? 0 then cundef
  else
    cput (set_quants
            (clamp_quant (minIncQuant strat) (maxIncQuant strat) (incrementQuant strat / objSize b))
            (clamp_quant (minDecQuant strat) (maxDecQuant strat) (decrementQuant strat / objSize b)) b, h) ;;;
    allocate (preallocateCount strat / objSize b).

End Operations.

(** ** The ring as one array *)

Definition flat (bs : list GeneralPoolBuffer) : list (option positive) := concat (slots <$> bs).

Abbreviation K := MAX_BUFFER_SLOTS.

Definition wf_buffers (bs : list GeneralPoolBuffer) : Prop :=
  Forall (fun b => length (slots b) = K) bs.

#[local] Opaque MAX_BUFFER_SLOTS.

Lemma K_pos : (0 < K)%nat.
Proof. Transparent MAX_BUFFER_SLOTS. unfold MAX_BUFFER_SLOTS. lia. Qed.
#[local] Opaque MAX_BUFFER_SLOTS.

Lemma flat_cons b bs : flat (b :: bs) = slots b ++ flat bs.
Proof. done. Qed.
Lemma flat_app bs bs' : flat (bs ++ bs') = flat bs ++ flat bs'.
Proof. unfold flat. by rewrite fmap_app, concat_app. Qed.

Lemma length_flat bs : wf_buffers bs -> length (flat bs) = (length bs * K)%nat.
Proof.
  induction 1 as [|b bs Hb _ IH]; [done|]. rewrite flat_cons, length_app, IH, Hb. simpl. lia.
Qed.

(** Position [p * K + r] of the array is slot [r] of buffer [p]. *)
Lemma flat_lookup bs p r :
  wf_buffers bs -> (r < K)%nat ->
  flat bs !! (p * K + r)%nat = (b ← bs !! p; slots b !! r).
Proof.
  intros Hw Hr. revert p. induction Hw as [|b bs Hb Hw IH]; intros p; [by destruct p|].
  rewrite flat_cons. destruct p as [|p]; simpl.
  - by rewrite lookup_app_l by lia.
  - rewrite lookup_app_r by lia. rewrite Hb, <- IH. f_equal. lia.
Qed.

Lemma flat_insert bs p r v b :
  wf_buffers bs -> (r < K)%nat -> bs !! p = Some b ->
  flat (<[p := mkBuffer (<[r:=v]> (slots b)) (buf_bucketNum b)]> bs) = <[(p * K + r)%nat := v]> (flat bs).
Proof.
  intros Hw Hr. revert p. induction Hw as [|b0 bs Hb Hw IH]; intros [|p] Hp; try done;
    simpl in *; rewrite !flat_cons.
  - injection Hp as ->. by rewrite insert_app_l by lia.
  - rewrite IH by done. replace (K + p * K + r)%nat with (length (slots b0) + (p * K + r))%nat by lia.
    by rewrite insert_app_r.
Qed.

(** Indices as the code splits them. *)
Lemma idx_split i : 0 <= i -> Z.to_nat i = (buf_idx i * K + slot_idx i)%nat /\ (slot_idx i < K)%nat.
Proof.
  intros Hi. pose proof K_pos. unfold buf_idx, slot_idx.
  pose proof (Z.div_mod i (Z.of_nat K) ltac:(lia)).
  pose proof (Z.mod_pos_bound i (Z.of_nat K) ltac:(lia)).
  assert (0 <= i / Z.of_nat K) by (apply Z.div_pos; lia). split; [|lia].
  apply Nat2Z.inj. rewrite Nat2Z.inj_add, Nat2Z.inj_mul, !Z2Nat.id by lia. lia.
Qed.

Lemma get_slot_flat i bs : 0 <= i -> wf_buffers bs -> get_slot i bs = flat bs !! Z.to_nat i.
Proof.
  intros Hi Hw. destruct (idx_split i Hi) as [E Hr]. rewrite E, flat_lookup by done.
  unfold get_slot. by destruct (bs !! buf_idx i).
Qed.

Lemma set_slot_flat i v bs :
  0 <= i < Z.of_nat (length (flat bs)) -> wf_buffers bs ->
  flat (set_slot i v bs) = <[Z.to_nat i := v]> (flat bs) /\ wf_buffers (set_slot i v bs) /\
  length (set_slot i v bs) = length bs.
Proof.
  intros Hi Hw. destruct (idx_split i ltac:(lia)) as [E Hr]. unfold set_slot.
  destruct (bs !! buf_idx i) as [b|] eqn:Hb.
  - rewrite E, (flat_insert _ _ _ _ _ Hw Hr Hb). split_and!; [done| |by rewrite length_insert].
    apply Forall_insert_list; [done|]. simpl. rewrite length_insert.
    by eapply (Forall_lookup_1 _ _ _ _ Hw).
  - exfalso. assert (Hl : flat bs !! Z.to_nat i = None) by (rewrite E, flat_lookup by done; by rewrite Hb).
    apply lookup_ge_None in Hl. lia.
Qed.

(** Inserting a buffer at the head opens a gap of [K] free slots there. *)
Lemma flat_insert_buffer bs p r m n :
  wf_buffers bs -> (r < K)%nat -> bs !! p = Some m ->
  let bs' := take p bs ++ rellocate m r (GeneralPoolBuffer_init n) :: zeroOut r m :: drop (S p) bs in
  flat bs' = take (p * K + r) (flat bs) ++ replicate K None ++ drop (p * K + r) (flat bs) /\
  wf_buffers bs' /\ length bs' = S (length bs).
Proof.
  intros Hw Hr Hm bs'.
  pose proof (Forall_lookup_1 _ _ _ _ Hw Hm) as Hlm. simpl in Hlm.
  pose proof (take_drop_middle bs p m Hm) as Ebs.
  assert (Hw' : wf_buffers (take p bs ++ m :: drop (S p) bs)) by (by rewrite Ebs).
  apply Forall_app in Hw' as [Hwt Hwd]. apply Forall_cons in Hwd as [_ Hwd].
  assert (Hlt : length (flat (take p bs)) = (p * K)%nat).
  { rewrite length_flat by done. apply lookup_lt_Some in Hm. rewrite length_take_le by lia. done. }
  assert (EF : flat bs = flat (take p bs) ++ slots m ++ flat (drop (S p) bs)).
  { by rewrite <- flat_cons, <- flat_app, Ebs. }
  split_and!.
  - rewrite EF. unfold bs'. rewrite !flat_app, !flat_cons. simpl.
    rewrite drop_replicate, take_app_ge, drop_app_ge by lia. rewrite Hlt.
    replace (p * K + r - p * K)%nat with r by lia. rewrite take_app_le, drop_app_le by lia.
    rewrite <- !app_assoc. do 2 f_equal. rewrite !app_assoc, <- replicate_add. do 3 f_equal. lia.
  - apply Forall_app_2; [done|]. apply Forall_cons_2; [|apply Forall_cons_2; [|done]]; simpl;
      rewrite length_app, ?length_take, ?length_drop, !length_replicate; lia.
  - apply lookup_lt_Some in Hm. unfold bs'. rewrite length_app. simpl.
    rewrite length_take, length_drop. lia.
Qed.

(** ** The FIFO queue that a bucket implements *)

(** Position [i] of a ring of [c] cells, for [i < 2 * c]. *)
Definition wrap (c i : nat) : nat := if (i <? c)%nat then i else (i - c)%nat.

Lemma wrap_lt c i : (i < c + c)%nat -> (wrap c i < c)%nat.
Proof. unfold wrap. destruct (Nat.ltb_spec i c); lia. Qed.

Lemma wrap_mod c i : (0 < c)%nat -> (i < c + c)%nat -> Z.of_nat i mod Z.of_nat c = Z.of_nat (wrap c i).
Proof.
  intros Hc Hi. unfold wrap. destruct (Nat.ltb_spec i c); [apply Z.mod_small; lia|].
  symmetry. apply (Zmod_unique _ _ 1); lia.
Qed.

(** [Rep b q]: the objects [q], oldest first, are the cells from [tail] on, and
    all other cells are free. *)
Record Rep (b : GeneralPoolBucket) (q : list positive) : Prop := {
  r_wf : wf_buffers (buffers b);
  r_num : numBuffers b = Z.of_nat (length (buffers b));
  r_max : (length (buffers b) <= MAX_BUCKET_BUFFERS)%nat;
  r_cur : currentMax b = Z.of_nat (length (flat (buffers b)));
  r_len : (length q <= length (flat (buffers b)))%nat;
  r_tail0 : 0 <= tail b;
  r_tail : (Z.to_nat (tail b) < length (flat (buffers b)))%nat \/ tail b = 0;
  r_head : head b = Z.of_nat (wrap (length (flat (buffers b))) (Z.to_nat (tail b) + length q));
  r_in : forall i x, q !! i = Some x ->
    flat (buffers b) !! wrap (length (flat (buffers b))) (Z.to_nat (tail b) + i) = Some (Some x);
  r_out : forall i, (length q <= i < length (flat (buffers b)))%nat ->
    flat (buffers b) !! wrap (length (flat (buffers b))) (Z.to_nat (tail b) + i) = Some None;
  r_full : full b = bool_decide (length q = length (flat (buffers b)) /\ buffers b <> []);
  r_empty : empty b = bool_decide (q = [])
}.

Definition capacity : nat := (MAX_BUCKET_BUFFERS * K)%nat.

#[local] Opaque MAX_BUCKET_BUFFERS.

Lemma capacity_small : Z.of_nat capacity = 262144 /\ Z.of_nat MAX_BUCKET_BUFFERS = 256 /\ Z.of_nat K = 1024.
Proof. done. Qed.

Lemma Rep_init sz : Rep (GeneralPoolBucket_init sz) [].
Proof.
  split; simpl; try done.
  - apply Forall_nil_2.
  - lia.
  - by right.
  - intros i Hi. unfold flat in Hi. simpl in Hi. lia.
Qed.

Lemma Rep_length b q : Rep b q -> length (flat (buffers b)) = (length (buffers b) * K)%nat.
Proof. intros R. apply length_flat, R. Qed.

Lemma Rep_bound b q : Rep b q -> (length (flat (buffers b)) <= capacity)%nat.
Proof. intros R. rewrite (Rep_length _ _ R). pose proof (r_max _ _ R). unfold capacity. nia. Qed.

(** A bucket with buffers has cells. *)
Lemma Rep_cells b q : Rep b q -> buffers b <> [] ->
  (K <= length (flat (buffers b)))%nat /\ (Z.to_nat (tail b) < length (flat (buffers b)))%nat.
Proof.
  intros R Hb. rewrite (Rep_length _ _ R). pose proof K_pos.
  assert (0 < length (buffers b))%nat by (destruct (buffers b); [done|simpl; lia]).
  pose proof (r_tail _ _ R) as Ht. rewrite (Rep_length _ _ R) in Ht.
  split; [nia|]. destruct Ht as [?| ->]; [done|simpl; nia].
Qed.

(** What the ring operations leave alone. *)
Definition same_settings (b b' : GeneralPoolBucket) : Prop :=
  quantInc b' = quantInc b /\ quantDec b' = quantDec b /\ bucketNum b' = bucketNum b /\
  stamp b' = stamp b /\ objSize b' = objSize b /\ padding b' = padding b.

#[local] Ltac wrap_lia := unfold wrap; repeat case_scrut; b2p; lia.

Lemma lookup_gap {A} (l : list A) (x : A) h k i :
  (h <= length l)%nat ->
  (take h l ++ replicate k x ++ drop h l) !! i =
  if (i <? h)%nat then l !! i else if (i <? h + k)%nat then Some x else l !! (i - k)%nat.
Proof.
  intros Hh. destruct (Nat.ltb_spec i h).
  - rewrite lookup_app_l by (rewrite length_take; lia). by rewrite lookup_take_lt.
  - rewrite lookup_app_r, length_take, Nat.min_l by (rewrite ?length_take; lia).
    destruct (Nat.ltb_spec i (h + k)).
    + rewrite lookup_app_l by (rewrite length_replicate; lia). apply lookup_replicate_2. lia.
    + rewrite lookup_app_r, length_replicate by (rewrite length_replicate; lia).
      rewrite lookup_drop. f_equal. lia.
Qed.

(** A ring whose array grew by a gap of [k] cells at the full ring's head. *)
Lemma gap_rep F F' t k (q : list positive) :
  length q = length F -> (t < length F)%nat ->
  F' = take t F ++ replicate k None ++ drop t F ->
  (forall i x, q !! i = Some x -> F !! wrap (length F) (t + i) = Some (Some x)) ->
  length F' = (length F + k)%nat /\
  (forall i x, q !! i = Some x -> F' !! wrap (length F + k) (t + k + i) = Some (Some x)) /\
  (forall i, (length q <= i < length F + k)%nat -> F' !! wrap (length F + k) (t + k + i) = Some None).
Proof.
  intros Hq Ht -> Hin. split_and!.
  - rewrite !length_app, length_replicate, length_take, length_drop. lia.
  - intros i x Hx. pose proof (lookup_lt_Some _ _ _ Hx). rewrite lookup_gap by lia.
    rewrite <- (Hin i x Hx). unfold wrap. repeat case_scrut; b2p; try lia; f_equal; lia.
  - intros i Hi. rewrite lookup_gap by lia. unfold wrap. repeat case_scrut; b2p; done || lia.
Qed.

Lemma makeBuffer_first b q :
  Rep b q -> buffers b = [] ->
  exists b', makeBuffer b = (Ret tt, b') /\ Rep b' q /\ full b' = false /\ buffers b' <> [] /\
    same_settings b b'.
Proof.
  intros R Hb. pose proof R as [Hw Hn Hm Hc Hl Ht0 Ht Hh Hin Hout Hfu He]. rewrite Hb in *.
  destruct capacity_small as (_ & HM & HK). unfold flat in *. simpl in *.
  assert (tail b = 0) as Et by (destruct Ht; [lia|done]). rewrite Et in *. simpl in *.
  assert (q = []) as -> by (destruct q; [done|simpl in *; lia]). unfold wrap in Hh. simpl in Hh.
  unfold makeBuffer. rewrite HM, Hn, Hh, Hb, Et, Hc. simpl. change (buf_idx 0) with 0%nat.
  change (slot_idx 0) with 0%nat. simpl. rewrite HK. change (u32 1024) with 1024. simpl.
  eexists. split_and!; [reflexivity| |done|done|done].
  unfold GeneralPoolBuffer_init. split; unfold flat; simpl; rewrite ?app_nil_r, ?length_replicate.
  - apply Forall_singleton. simpl. apply length_replicate.
  - done.
  - lia.
  - done.
  - lia.
  - done.
  - by right.
  - change (1024 mod 1024) with 0. unfold wrap. simpl.
    destruct (Nat.ltb_spec 0 K); lia.
  - done.
  - intros i Hi. change (1024 mod 1024) with 0. apply lookup_replicate_2. simpl. wrap_lia.
  - symmetry. apply bool_decide_eq_false_2. lia.
  - by rewrite He.
Qed.

Lemma makeBuffer_grow b q :
  Rep b q -> buffers b <> [] -> length q = length (flat (buffers b)) ->
  (length (buffers b) < MAX_BUCKET_BUFFERS)%nat ->
  exists b', makeBuffer b = (Ret tt, b') /\ Rep b' q /\ full b' = false /\ buffers b' <> [] /\
    same_settings b b'.
Proof.
  intros R Hb Hq Hlt. destruct (Rep_cells _ _ R Hb) as [HK Ht]. pose proof (Rep_bound _ _ R) as Hcap.
  pose proof (Rep_length _ _ R) as Hlen.
  pose proof R as [Hw Hn Hm Hc Hl Ht0 _ Hh Hin Hout Hfu He].
  destruct capacity_small as (HC & HM & HKv). rewrite Hq in Hh.
  assert (head b = tail b) as Eh by (rewrite Hh; unfold wrap; destruct (Nat.ltb_spec (Z.to_nat (tail b) + length (flat (buffers b))) (length (flat (buffers b)))); lia).
  destruct (idx_split (head b) ltac:(lia)) as [Ei Hr]. unfold makeBuffer.
  destruct (Z.leb_spec (Z.of_nat MAX_BUCKET_BUFFERS) (numBuffers b)); [lia|].
  rewrite Hn, Nat2Z.id.
  assert (Hp : (buf_idx (head b) < length (buffers b))%nat).
  { apply (Nat.mul_lt_mono_pos_r K); [apply K_pos|]. rewrite <- Eh in Ht. lia. }
  destruct (Nat.ltb_spec (length (buffers b)) (buf_idx (head b))); [lia|].
  destruct (lookup_lt_is_Some_2 _ _ Hp) as [m Hbm].
  rewrite (drop_S _ _ _ Hbm), (drop_ge (buffers b) (S (length (buffers b)))) by lia.
  replace (length (buffers b) - buf_idx (head b))%nat
    with (S (length (buffers b) - S (buf_idx (head b)))) by lia.
  cbn [firstn take]. rewrite (take_ge (drop _ _)) by (rewrite length_drop; lia). rewrite app_nil_r.
  destruct (flat_insert_buffer _ _ _ _ (bucketNum b) Hw Hr Hbm) as (EF & Hw' & Hl').
  set (bs' := take _ _ ++ _) in *. rewrite <- Ei, Eh in EF.
  destruct (gap_rep _ _ _ _ q Hq Ht EF Hin) as (HL' & Hin' & Hout').
  rewrite Hc, !uwrap_id by lia.
  destruct (Z.eqb_spec (Z.of_nat (length (flat (buffers b))) + Z.of_nat K) 0); [lia|].
  eexists. split_and!; [reflexivity| |done|simpl; by intros ->|done].
  assert (ET : (tail b + Z.of_nat K) mod (Z.of_nat (length (flat (buffers b))) + Z.of_nat K)
    = tail b + Z.of_nat K) by (apply Z.mod_small; lia).
  split; cbn [buffers tail head numBuffers currentMax full empty set_ring set_counts]; rewrite ?ET, ?HL'.
  all: rewrite ?(Z2Nat.inj_add (tail b)), ?Nat2Z.id by lia.
  all: try lia; try done.
  - rewrite Hq, Eh. wrap_lia.
  - symmetry. apply bool_decide_eq_false_2. lia.
Qed.

(** Making room: the bucket gets free cells unless it is at its capacity. *)
Lemma make_room b q :
  Rep b q -> (length q < capacity)%nat ->
  exists b', (if full b || (numBuffers b =? 0) then makeBuffer else cret tt) b = (Ret tt, b') /\
    Rep b' q /\ full b' = false /\ buffers b' <> [] /\ same_settings b b'.
Proof.
  intros R Hq. destruct (decide (buffers b = [])) as [Hb|Hb].
  { rewrite (r_num _ _ R), Hb. rewrite orb_true_r. by apply makeBuffer_first. }
  rewrite (r_num _ _ R), (r_full _ _ R).
  destruct (Z.eqb_spec (Z.of_nat (length (buffers b))) 0) as [E0|_].
  { destruct (buffers b); [done|simpl in E0; lia]. }
  rewrite orb_false_r. case_bool_decide as Hf.
  - destruct Hf as [Hf _]. apply makeBuffer_grow; try done.
    rewrite (Rep_length _ _ R) in Hf. pose proof (r_max _ _ R). unfold capacity in Hq. nia.
  - exists b. split_and!; try done. by rewrite (r_full _ _ R), bool_decide_eq_false_2.
Qed.

(** The head cell of a ring that is not full. *)
Lemma put_slot_rep b q x :
  Rep b q -> full b = false -> buffers b <> [] ->
  get_slot (head b) (buffers b) = Some None /\ currentMax b <> 0 /\
  let head' := u32 (head b + 1) mod currentMax b in
  Rep (set_ring head' (tail b) (if head' =? tail b then true else full b) false
         (set_slot (head b) (Some x) (buffers b)) b) (q ++ [x]).
Proof.
  intros R Hf Hb. destruct (Rep_cells _ _ R Hb) as [HK Ht]. pose proof (Rep_bound _ _ R) as Hcap.
  destruct capacity_small as (HC & HM & HKv). pose proof K_pos.
  pose proof R as [Hw Hn Hm Hc Hl Ht0 _ Hh Hin Hout Hfu He].
  rewrite Hf in Hfu. symmetry in Hfu. apply bool_decide_eq_false_1 in Hfu.
  assert (Hlt : (length q < length (flat (buffers b)))%nat).
  { destruct (decide (length q = length (flat (buffers b)))); [|lia]. exfalso. tauto. }
  pose proof (Hout (length q) ltac:(lia)) as Hslot.
  assert (Hhr : 0 <= head b < Z.of_nat (length (flat (buffers b)))).
  { rewrite Hh. pose proof (wrap_lt (length (flat (buffers b))) (Z.to_nat (tail b) + length q) ltac:(lia)). lia. }
  rewrite (get_slot_flat (head b) (buffers b) ltac:(lia) Hw), Hh, Nat2Z.id, <- Hh. split_and!; [done|lia|].
  intros head'.
  destruct (set_slot_flat (head b) (Some x) _ Hhr Hw) as (EF & Hw' & Hl').
  assert (HH : head' = Z.of_nat (wrap (length (flat (buffers b))) (Z.to_nat (tail b) + S (length q)))).
  { subst head'. rewrite uwrap_id, Hc by lia. rewrite Hh.
    destruct (Nat.eq_dec (wrap (length (flat (buffers b))) (Z.to_nat (tail b) + length q) + 1)
                         (length (flat (buffers b)))) as [E|E].
    - replace (_ + 1) with (Z.of_nat (length (flat (buffers b)))) by lia. rewrite Z.mod_same by lia.
      revert E. unfold wrap. repeat case_scrut; b2p; lia.
    - rewrite Z.mod_small by (rewrite <- Hh; lia). revert E. wrap_lia. }
  rewrite Hf. assert (Hneb : set_slot (head b) (Some x) (buffers b) <> []).
  { intros E. rewrite E in Hl'. destruct (buffers b); done. }
  split; cbn [buffers tail head numBuffers currentMax full empty set_ring];
    rewrite ?EF, ?length_insert, ?length_app; cbn [length].
  - done.
  - by rewrite Hl'.
  - by rewrite Hl'.
  - done.
  - lia.
  - done.
  - by left.
  - by rewrite HH, Nat.add_1_r.
  - intros i y Hy. apply lookup_snoc_Some in Hy as [[Hi Hy]|[-> ->]].
    + rewrite list_lookup_insert_ne; [by apply Hin|]. rewrite Hh, Nat2Z.id. wrap_lia.
    + rewrite Hh, Nat2Z.id. apply list_lookup_insert_eq. apply wrap_lt. lia.
  - intros i Hi. rewrite list_lookup_insert_ne; [apply Hout; lia|]. rewrite Hh, Nat2Z.id. wrap_lia.
  - rewrite HH. destruct (Z.eqb_spec (Z.of_nat (wrap (length (flat (buffers b)))
      (Z.to_nat (tail b) + S (length q)))) (tail b)) as [E|E].
    + symmetry. apply bool_decide_eq_true_2. split; [|done]. revert E. wrap_lia.
    + symmetry. apply bool_decide_eq_false_2. intros [E' _]. apply E. wrap_lia.
  - symmetry. apply bool_decide_eq_false_2. by destruct q.
Qed.

(** [put] on the queue. *)
Lemma putNoLock_rep b q x :
  Rep b q -> (length q < capacity)%nat ->
  exists b', putNoLock x b = (Ret tt, b') /\ Rep b' (q ++ [x]) /\ same_settings b b'.
Proof.
  intros R Hq. destruct (make_room _ _ R Hq) as (b1 & E1 & R1 & Hf & Hb & Hs).
  destruct (put_slot_rep _ _ x R1 Hf Hb) as (Eslot & Hc & R2).
  unfold putNoLock. unfold cbind at 1, cget at 1. rewrite (cbind_ret _ _ _ _ _ E1).
  unfold cbind, cget. rewrite Hf, Eslot. destruct (Z.eqb_spec (currentMax b1) 0); [done|].
  unfold cput. eexists. split_and!; [done|rewrite Hf in R2; exact R2|exact Hs].
Qed.

(** The tail cell of a ring that is not empty. *)
Lemma get_slot_rep b x q :
  Rep b (x :: q) ->
  get_slot (tail b) (buffers b) = Some (Some x) /\ currentMax b <> 0 /\
  let tail' := u32 (tail b + 1) mod currentMax b in
  Rep (set_ring (head b) tail' false (if tail' =? head b then true else empty b)
         (set_slot (tail b) None (buffers b)) b) q.
Proof.
  intros R. pose proof R as [Hw Hn Hm Hc Hl Ht0 _ Hh Hin Hout Hfu He].
  assert (Hb : buffers b <> []) by (intros E; rewrite E in Hl; unfold flat in Hl; simpl in Hl; lia).
  destruct (Rep_cells _ _ R Hb) as [HK Ht]. pose proof (Rep_bound _ _ R) as Hcap.
  destruct capacity_small as (HC & HM & HKv). pose proof K_pos. cbn [length] in *.
  pose proof (Hin 0%nat x eq_refl) as Hslot.
  assert (Hw0 : wrap (length (flat (buffers b))) (Z.to_nat (tail b) + 0) = Z.to_nat (tail b)) by wrap_lia.
  rewrite Hw0 in Hslot. rewrite (get_slot_flat (tail b) (buffers b) ltac:(lia) Hw).
  split_and!; [done|lia|]. cbv zeta. set (tail' := u32 (tail b + 1) mod currentMax b).
  destruct (set_slot_flat (tail b) None (buffers b) ltac:(lia) Hw) as (EF & Hw' & Hl').
  assert (HT : tail' = Z.of_nat (wrap (length (flat (buffers b))) (Z.to_nat (tail b) + 1))).
  { subst tail'. rewrite uwrap_id, Hc by lia.
    rewrite <- wrap_mod by lia. f_equal. lia. }
  assert (Hneb : set_slot (tail b) None (buffers b) <> []).
  { intros E. rewrite E in Hl'. destruct (buffers b); done. }
  assert (HWW : forall i, (i < length (flat (buffers b)))%nat ->
    wrap (length (flat (buffers b))) (wrap (length (flat (buffers b))) (Z.to_nat (tail b) + 1) + i) =
    wrap (length (flat (buffers b))) (Z.to_nat (tail b) + S i)).
  { intros i Hi. wrap_lia. }
  split; cbn [buffers tail head numBuffers currentMax full empty set_ring];
    rewrite ?EF, ?length_insert, ?HT, ?Nat2Z.id.
  - done.
  - by rewrite Hl'.
  - by rewrite Hl'.
  - done.
  - lia.
  - lia.
  - left. apply wrap_lt. lia.
  - rewrite Hh. f_equal. rewrite HWW by lia. done.
  - intros i y Hy. pose proof (lookup_lt_Some _ _ _ Hy). rewrite HWW by lia.
    rewrite list_lookup_insert_ne by wrap_lia. by apply Hin.
  - intros i Hi. destruct (Nat.eq_dec (S i) (length (flat (buffers b)))) as [E|E].
    + rewrite HWW, E by lia. replace (wrap _ _) with (Z.to_nat (tail b)) by wrap_lia.
      apply list_lookup_insert_eq. lia.
    + rewrite HWW by lia. rewrite list_lookup_insert_ne by wrap_lia. apply Hout. lia.
  - symmetry. apply bool_decide_eq_false_2. lia.
  - rewrite Hh. destruct (Z.eqb_spec (Z.of_nat (wrap (length (flat (buffers b))) (Z.to_nat (tail b) + 1)))
      (Z.of_nat (wrap (length (flat (buffers b))) (Z.to_nat (tail b) + S (length q))))) as [E|E].
    + symmetry. apply bool_decide_eq_true_2. apply nil_length_inv.
      apply Nat2Z.inj in E. revert E. wrap_lia.
    + rewrite He. rewrite bool_decide_eq_false_2 by done. symmetry. apply bool_decide_eq_false_2.
      intros ->. by apply E.
Qed.

(** At the capacity there is no room: [put] ends the process. *)
Lemma putNoLock_overflow b q x :
  Rep b q -> length q = capacity -> putNoLock x b = (Crash, b).
Proof.
  intros R Hq. destruct capacity_small as (HC & HM & HKv). pose proof K_pos.
  pose proof (Rep_bound _ _ R). pose proof (r_len _ _ R). pose proof (Rep_length _ _ R) as Hl.
  assert (Hn : length (buffers b) = MAX_BUCKET_BUFFERS).
  { pose proof (r_max _ _ R). unfold capacity in *. nia. }
  assert (Hb : buffers b <> []) by (intros E; rewrite E in Hn; simpl in Hn; lia).
  unfold putNoLock. unfold cbind at 1, cget at 1. rewrite (r_full _ _ R), bool_decide_eq_true_2 by (split; [lia|done]).
  cbn [orb]. unfold cbind, makeBuffer. rewrite (r_num _ _ R), Hn.
  destruct (Z.leb_spec (Z.of_nat MAX_BUCKET_BUFFERS) (Z.of_nat MAX_BUCKET_BUFFERS)); [done|lia].
Qed.

(** The counters of a bucket. *)
Lemma size_rep b q : Rep b q -> size b = Z.of_nat (length q).
Proof.
  intros R. pose proof (Rep_bound _ _ R). destruct capacity_small as (HC & HM & HKv).
  pose proof R as [Hw Hn Hm Hc Hl Ht0 Ht Hh Hin Hout Hfu He]. unfold size. rewrite Hfu, Hc.
  clear Hfu He. case_bool_decide as Hf; [destruct Hf; lia|]. rewrite Hh.
  assert (Hlt : (length q < length (flat (buffers b)))%nat \/ length (flat (buffers b)) = 0%nat).
  { destruct (decide (buffers b = [])) as [E|E]; [right; by rewrite E|left]. assert (length q <> length (flat (buffers b))) by tauto. lia. }
  destruct (Z.leb_spec (tail b) (Z.of_nat (wrap (length (flat (buffers b))) (Z.to_nat (tail b) + length q)))) as [Hle|Hgt].
  - rewrite uwrap_id by (revert Hle; wrap_lia). revert Hle. wrap_lia.
  - rewrite !uwrap_id; [..|rewrite uwrap_id]; revert Hgt; wrap_lia.
Qed.

Section AllocLemmas.
Context `{Malloc} (gmp : bool) (al : allocator).

(** Taking from a bucket that is not empty. *)
Lemma getNoLock_rep b h x q :
  Rep b (x :: q) ->
  exists b', getNoLock gmp al (b, h) = (Ret x, (b', h)) /\ Rep b' q /\ same_settings b b'.
Proof.
  intros R. destruct (get_slot_rep _ _ _ R) as (Es & Hc & R').
  unfold getNoLock. unfold cbind at 1, cget at 1. rewrite (r_empty _ _ R), bool_decide_eq_false_2 by done.
  unfold cbind at 1, cret at 1. unfold cbind at 1, cget at 1. rewrite Es.
  destruct (Z.eqb_spec (currentMax b) 0); [done|]. unfold cbind, cput, cret.
  eexists. split_and!; [done| |done]. exact R'.
Qed.

(** The objects [l] are new, and carry the stamp of the bucket. *)
Definition new_objects (h h' : heap) (b : GeneralPoolBucket) (l : list positive) : Prop :=
  NoDup l /\ h ⊆ h' /\ dom h' = dom h ∪ list_to_set l /\
  (forall a, a ∈ l -> h !! a = None) /\
  (forall a, a ∈ l -> exists bl, h' !! a = Some bl /\ stamped gmp (objSize b) (stamp b) bl).

Definition wf_settings (b : GeneralPoolBucket) : Prop :=
  0 <= objSize b /\ padding b = 8.

Lemma make_one_rep b h q :
  Rep b q -> (length q < capacity)%nat -> wf_settings b -> malloc_addr h (objSize b + 8) <> None ->
  exists a b' h', make_one gmp al (b, h) = (Ret tt, (b', h')) /\ Rep b' (q ++ [a]) /\
    same_settings b b' /\ new_objects h h' b [a].
Proof.
  intros R Hq [Hsz Hpad] Hm. unfold make_one, cbind, cget, on_heap, on_bucket, czoom.
  cbn [fst snd]. rewrite Hpad.
  destruct (New_spec gmp al (objSize b) h Hsz) as [(a & bl & E & Ha & _ & Hi & Ho & Hs')|[? _]]; [|done].
  rewrite E. cbn [fst snd].
  destruct (write_stamp gmp (objSize b) (stamp b) (<[a:=bl]> h) a bl) as (bl' & E' & Hst);
    [apply lookup_insert_eq|done..|]. rewrite E'. cbn [fst snd].
  destruct (putNoLock_rep _ _ a R Hq) as (b' & E'' & R' & Hs). rewrite E''. cbn [fst snd].
  exists a, b', (<[a:=bl']> h). rewrite insert_insert_eq. split_and!; try done.
  split_and!.
  - apply NoDup_singleton.
  - by apply insert_subseteq.
  - rewrite dom_insert_L. simpl. set_solver.
  - by intros ? ->%list_elem_of_singleton.
  - intros ? ->%list_elem_of_singleton. exists bl'. by rewrite lookup_insert_eq.
Qed.

Lemma new_objects_app h1 h2 h3 b b' l1 l2 :
  same_settings b b' -> new_objects h1 h2 b l1 -> new_objects h2 h3 b' l2 ->
  new_objects h1 h3 b (l1 ++ l2).
Proof.
  intros (_ & _ & _ & Hst & Hsz & _) (N1 & S1 & D1 & F1 & W1) (N2 & S2 & D2 & F2 & W2).
  rewrite Hst, Hsz in W2. split_and!.
  - apply NoDup_app. split_and!; [done| |done]. intros x Hx1 Hx2.
    apply F2 in Hx2. destruct (W1 x Hx1) as (? & E & _). congruence.
  - by transitivity h2.
  - rewrite D2, D1, list_to_set_app_L. set_solver.
  - intros a [Ha|Ha]%elem_of_app; [by apply F1|]. apply F2 in Ha.
    by eapply lookup_weaken_None.
  - intros a [Ha|Ha]%elem_of_app; [|by apply W2].
    destruct (W1 a Ha) as (bl & E & Hb). exists bl. split; [by eapply lookup_weaken|done].
Qed.

Lemma same_settings_trans b1 b2 b3 :
  same_settings b1 b2 -> same_settings b2 b3 -> same_settings b1 b3.
Proof. unfold same_settings. intuition congruence. Qed.

Lemma same_settings_wf b b' : same_settings b b' -> wf_settings b -> wf_settings b'.
Proof. unfold same_settings, wf_settings. intuition congruence. Qed.

(** [make(n)] adds [n] new objects, as long as memory lasts. *)
Lemma make_rep (Hmem : forall h n, malloc_addr h n <> None) n : forall b h q,
  Rep b q -> (length q + n <= capacity)%nat -> wf_settings b ->
  exists l b' h', make gmp al n (b, h) = (Ret tt, (b', h')) /\ length l = n /\
    Rep b' (q ++ l) /\ same_settings b b' /\ new_objects h h' b l.
Proof.
  induction n as [|n IH]; intros b h q R Hq Hwf; cbn [make].
  - exists [], b, h. rewrite app_nil_r. split_and!; try done.
    split_and!; try done; [apply NoDup_nil_2|set_solver|intros ? []%not_elem_of_nil..].
  - destruct (make_one_rep b h q R ltac:(lia) Hwf (Hmem _ _)) as (a & b1 & h1 & E & R1 & Hs & Hnew).
    rewrite (cbind_ret _ _ _ _ _ E).
    destruct (IH b1 h1 (q ++ [a]) R1) as (l & b2 & h2 & E2 & Hl & R2 & Hs2 & Hnew2).
    { rewrite length_app. simpl. lia. }
    { by eapply same_settings_wf. }
    exists (a :: l), b2, h2. rewrite <- app_assoc in R2. split_and!; try done; [simpl; lia| |].
    + by eapply same_settings_trans.
    + by apply (new_objects_app _ _ _ _ _ [a] l Hs Hnew).
Qed.

(** Taking from an empty bucket: [quantInc] objects are made first. *)
Lemma getNoLock_empty (Hmem : forall h n, malloc_addr h n <> None) b h :
  Rep b [] -> wf_settings b -> 0 < quantInc b <= Z.of_nat capacity ->
  exists x l b' h', getNoLock gmp al (b, h) = (Ret x, (b', h')) /\
    length (x :: l) = Z.to_nat (quantInc b) /\ Rep b' l /\ same_settings b b' /\
    new_objects h h' b (x :: l).
Proof.
  intros R Hwf Hq.
  destruct (make_rep Hmem (Z.to_nat (quantInc b)) b h [] R) as (l & b1 & h1 & E & Hl & R1 & Hs & Hnew);
    [simpl; lia|done|].
  destruct l as [|x l]; [simpl in Hl; lia|]. simpl in R1.
  destruct (getNoLock_rep b1 h1 x l R1) as (b2 & E2 & R2 & Hs2).
  exists x, l, b2, h1. split_and!; try done; [|by eapply same_settings_trans].
  unfold getNoLock in *. unfold cbind at 1, cget at 1. rewrite (r_empty _ _ R), bool_decide_eq_true_2 by done.
  rewrite (cbind_ret _ _ _ _ _ E). unfold cbind at 1, cget at 1 in E2.
  rewrite (r_empty _ _ R1), bool_decide_eq_false_2 in E2 by done. exact E2.
Qed.

(** With nothing to make, an empty bucket cannot serve: [getNoLock] aborts, or
    reads through a buffer pointer that was never set. *)
Lemma getNoLock_starved b h :
  Rep b [] -> quantInc b <= 0 ->
  getNoLock gmp al (b, h) = (if decide (buffers b = []) then Undef else Crash, (b, h)).
Proof.
  intros R Hq. unfold getNoLock. unfold cbind at 1, cget at 1.
  rewrite (r_empty _ _ R), bool_decide_eq_true_2 by done.
  replace (Z.to_nat (quantInc b)) with 0%nat by lia. cbn [make]. unfold cbind, cret, cget.
  rewrite (get_slot_flat (tail b) (buffers b) (r_tail0 _ _ R) (r_wf _ _ R)).
  case_decide as Hb; [by rewrite Hb|]. destruct (Rep_cells _ _ R Hb) as [HK Ht].
  pose proof (r_out _ _ R 0%nat) as Ho. pose proof K_pos. simpl in Ho. specialize (Ho ltac:(lia)).
  replace (wrap _ _) with (Z.to_nat (tail b)) in Ho by wrap_lia. by rewrite Ho.
Qed.

(** A strategy that lets every bucket grow: the increment is positive, and the
    quanta fit in a bucket. *)
Definition good_strategy (sz : Z) (strat : AllocStrategy) : Prop :=
  0 < minIncQuant strat <= maxIncQuant strat /\ maxIncQuant strat <= Z.of_nat capacity /\
  preallocateCount strat / sz <= Z.of_nat capacity.

Lemma clamp_quant_range lo hi q : lo <= hi -> lo <= clamp_quant lo hi q <= hi.
Proof. unfold clamp_quant. intros. repeat zcase. Qed.

(** [setStrategy] on a new bucket. *)
Lemma setStrategy_rep (Hmem : forall h n, malloc_addr h n <> None) strat b h :
  Rep b [] -> 0 < objSize b -> padding b = 8 -> good_strategy (objSize b) strat ->
  exists l b' h', setStrategy gmp al strat (b, h) = (Ret tt, (b', h')) /\ Rep b' l /\
    0 < quantInc b' <= Z.of_nat capacity /\ bucketNum b' = bucketNum b /\ stamp b' = stamp b /\
    objSize b' = objSize b /\ padding b' = 8 /\ new_objects h h' b' l.
Proof.
  intros R Hsz Hpad (Hq & Hm & Hp). unfold setStrategy, cbind, cget.
  destruct (Z.eqb_spec (objSize b) 0); [lia|]. unfold cput, allocate.
  set (b1 := set_quants _ _ b).
  assert (R1 : Rep b1 []) by (destruct R; by split).
  destruct (make_rep Hmem (Z.to_nat (preallocateCount strat / objSize b)) b1 h [] R1)
    as (l & b' & h' & E & _ & R' & (Hi & _ & Hn & Hst & Ho & Hpa) & Hnew);
    [simpl; lia|split; [simpl; lia|exact Hpad]|].
  exists l, b', h'. rewrite E. pose proof (clamp_quant_range (minIncQuant strat) (maxIncQuant strat)
    (incrementQuant strat / objSize b) ltac:(lia)).
  split_and!; try done; try (rewrite Hi; simpl; lia); [by rewrite Hpa|].
  unfold new_objects in *. by rewrite Hst, Ho.
Qed.
End AllocLemmas.

(** ** Theorems *)

(** C36. [put] on a bucket: below the capacity of 256 buffers the object joins the
    end of the queue, whatever the shape of the ring (no buffer yet, a full ring
    that has to be cut open at the head, a ring that wraps around); at the
    capacity the process ends. *)
Theorem bucket_put_fifo b q x :
  Rep b q ->
  if (length q <? capacity)%nat
  then exists b', put x b = (Ret tt, b') /\ Rep b' (q ++ [x]) /\ same_settings b b'
  else put x b = (Crash, b).
Proof.
  intros R. destruct (Nat.ltb_spec (length q) capacity).
  - by apply putNoLock_rep.
  - apply (putNoLock_overflow b q); [done|].
    pose proof (r_len _ _ R). pose proof (Rep_bound _ _ R). lia.
Qed.

(** C37. [get] on a bucket: the oldest object leaves the queue; an empty bucket
    makes [quantInc] new objects first, stamps them, and gives out the first; an
    empty bucket whose [quantInc] is 0 never returns. *)
Theorem bucket_get_fifo `{Malloc} gmp al b h q :
  Rep b q -> wf_settings b -> quantInc b <= Z.of_nat capacity ->
  (forall h n, malloc_addr h n <> None) ->
  match q with
  | x :: q => exists b', get gmp al (b, h) = (Ret x, (b', h)) /\ Rep b' q /\ same_settings b b'
  | [] =>
      if quantInc b <=? 0
      then get gmp al (b, h) = (if decide (buffers b = []) then Undef else Crash, (b, h))
      else exists x l b' h', get gmp al (b, h) = (Ret x, (b', h')) /\ Rep b' l /\
        length (x :: l) = Z.to_nat (quantInc b) /\ new_objects gmp h h' b (x :: l)
  end.
Proof.
  intros R Hwf Hq Hmem. destruct q as [|x q]; [|by apply getNoLock_rep].
  destruct (Z.leb_spec (quantInc b) 0); [by apply getNoLock_starved|].
  destruct (getNoLock_empty gmp al Hmem b h R Hwf ltac:(lia)) as (x & l & b' & h' & ? & ? & ? & _ & ?).
  by exists x, l, b', h'.
Qed.

(** [size], [isFull] and [isEmpty] tell the length of the queue, and a full
    bucket is one whose ring has no free cell. *)
Theorem bucket_size_exact b q :
  Rep b q ->
  size b = Z.of_nat (length q) /\ (isEmpty b = true <-> q = []) /\
  (isFull b = true <-> buffers b <> [] /\ size b = currentMax b).
Proof.
  intros R. split_and!; [by apply size_rep|..]; unfold isEmpty, isFull.
  - rewrite (r_empty _ _ R). apply bool_decide_eq_true.
  - rewrite (r_full _ _ R), bool_decide_eq_true, (size_rep _ _ R), (r_cur _ _ R).
    split; intros [? ?]; split; done || lia.
Qed.

(** ** Concrete runs *)

Section Runs.
#[local] Existing Instance simple_malloc.

(** A bucket of 16 byte objects under the default strategy: its quantum is
    10. *)
Definition run_bucket : GeneralPoolBucket :=
  fst (snd (setStrategy false ClassAlloc DefaultAllocStrategy
              (makeStamp (setBucketNum 3 (GeneralPoolBucket_init 16)), ∅))).

Example run_bucket_quant : (quantInc run_bucket, quantDec run_bucket, size run_bucket) = (10, 0, 0).
Proof. reflexivity. Qed.

Lemma run_bucket_Rep : Rep run_bucket [].
Proof.
  change run_bucket with (set_quants 10 0 (makeStamp (setBucketNum 3 (GeneralPoolBucket_init 16)))).
  destruct (Rep_init 16). by split.
Qed.

Lemma bucket_put_fifo_witness :
  exists b', put 7 run_bucket = (Ret tt, b') /\ Rep b' [7%positive] /\ same_settings run_bucket b'.
Proof. apply (bucket_put_fifo run_bucket [] 7 run_bucket_Rep). Defined.

Lemma bucket_get_fifo_witness :
  exists x l b' h', get false ClassAlloc (run_bucket, ∅) = (Ret x, (b', h')) /\ Rep b' l /\
    length (x :: l) = 10%nat.
Proof.
  destruct (bucket_get_fifo false ClassAlloc run_bucket ∅ [] run_bucket_Rep) as (x & l & b' & h' & E & R & Hl & _).
  - split; [vm_compute; discriminate|reflexivity].
  - vm_compute. discriminate.
  - discriminate.
  - exists x, l, b', h'. split; [exact E|split; [exact R|exact Hl]].
Defined.

Lemma bucket_size_exact_witness :
  size run_bucket = 0 /\ (isEmpty run_bucket = true <-> @nil positive = []).
Proof. destruct (bucket_size_exact run_bucket [] run_bucket_Rep) as (E & Ee & _). by split. Defined.
End Runs.
