(* ===== verification/GeneralPool.v ===== *)
(** * Object pools and their registry ([lib/common/GeneralPool], [GeneralPoolBase], [PoolManager])

    A pool spreads its objects over 64 buckets: [get] takes from the buckets in
    turn, [put] reads the stamp behind the object to find the bucket it came
    from.  Every pool has an identifier and is registered with the pool
    manager. *)

From S2P Require Import Prelude Status PoolAlloc PoolBucket.

(** ** The registry *)

(** [class PoolManager], with the generator of pool identifiers
    ([GeneralPoolBase::idGener], an [unsigned short]); a pool is known by its
    address. *)
Record PoolManager : Type := mkPoolManager {
  idGener : Z; pools : gmap Z positive }.

Definition PoolManager_init : PoolManager := mkPoolManager 1 ∅.

(** [std::map::insert] keeps an entry that is already there. *)
Definition registerPool (id : Z) (pool : positive) (m : PoolManager) : PoolManager :=
  match pools m !! id with
  | Some _ => m
  | None => mkPoolManager (idGener m) (<[id:=pool]> (pools m))
  end.
Definition unregisterPool (id : Z) (m : PoolManager) : PoolManager :=
  match pools m !! id with
  | Some _ => mkPoolManager (idGener m) (delete id (pools m))
  | None => m
  end.

(** The base class: the constructor draws an identifier and registers, the
    destructor unregisters. *)
Definition GeneralPoolBase_init (pool : positive) (m : PoolManager) : Z * PoolManager :=
  let id := idGener m in
  (id, registerPool id pool (mkPoolManager (u16 (idGener m + 1)) (pools m))).
Definition GeneralPoolBase_destroy (id : Z) (m : PoolManager) : PoolManager :=
  unregisterPool id m.

(** [GeneralPool] registers and unregisters once more than its base class. *)
Definition GeneralPool_register (pool : positive) (m : PoolManager) : Z * PoolManager :=
  let (id, m') := GeneralPoolBase_init pool m in (id, registerPool id pool m').
Definition GeneralPool_unregister (id : Z) (m : PoolManager) : PoolManager :=
  GeneralPoolBase_destroy id (unregisterPool id m).

(** ** The pool *)

Definition MAX_POOL_BUCKETS : nat := 64.

Record GeneralPool : Type := mkPool {
  strategy : AllocStrategy; counter : Z; pool_objSize : Z;
  buckets : list GeneralPoolBucket }.

Definition set_pool_bucket (i : nat) (b : GeneralPoolBucket) (p : GeneralPool) :=
  mkPool (strategy p) (counter p) (pool_objSize p) (<[i:=b]> (buckets p)).
Definition set_counter (c : Z) (p : GeneralPool) :=
  mkPool (strategy p) c (pool_objSize p) (buckets p).

Section Operations.
Context `{Malloc} (gmp : bool) (al : allocator).

Abbreviation PM A := (M exn (GeneralPool * heap) A).

Definition on_pool_heap {A} (m : M exn heap A) : PM A :=
  czoom snd (fun h s => (fst s, h)) m.

(** An operation of [buckets[i]]. *)
Definition on_bucket {A} (i : nat) (m : M exn (GeneralPoolBucket * heap) A) : PM A := fun s =>
  match buckets (fst s) !! i with
  | None => (Undef, s)
  | Some b => let r := m (b, snd s) in
              (fst r, (set_pool_bucket i (fst (snd r)) (fst s), snd (snd r)))
  end.

(** The loop of the constructor over the buckets. *)
Definition init_bucket (cnt : nat) (strat : AllocStrategy) : M exn (GeneralPoolBucket * heap) unit :=
  let! (b, h) := cget in
  cput (makeStamp (setBucketNum (Z.of_nat cnt) b), h) ;;;
  setStrategy gmp al strat.

Fixpoint init_buckets (cnt n : nat) (strat : AllocStrategy) : PM unit :=
  match n with
  | O => cret tt
  | S n => on_bucket cnt (init_bucket cnt strat) ;;; init_buckets (S cnt) n strat
  end.

(** The constructor, without the names of the pool; its calls of the registry
    are [GeneralPool_register]. *)
Definition GeneralPool_init (objectSize : Z) (strat : AllocStrategy) (h : heap) :
    outcome exn unit * (GeneralPool * heap) :=
  init_buckets 0 MAX_POOL_BUCKETS strat
    (mkPool strat 0 objectSize (replicate MAX_POOL_BUCKETS (GeneralPoolBucket_init objectSize)), h).

(** [get()] and [get(pool_)]. *)
Definition get : PM positive :=
  let! (p, h) := cget in
  cput (set_counter (u32 (counter p + 1)) p, h) ;;;
  on_bucket (Z.to_nat (counter p mod Z.of_nat MAX_POOL_BUCKETS)) (PoolBucket.get gmp al).

Definition get_from (pool_ : nat) : PM positive :=
  if (pool_ <? MAX_POOL_BUCKETS)%nat then on_bucket pool_ (getNoLock gmp al) else ccrash.

(** What both versions of [put] do with the stamp. *)
Definition put_by_stamp (obj : positive) (into : positive -> M exn GeneralPoolBucket unit) : PM unit :=
  let! (p, _) := cget in
  let! stamp := on_pool_heap (read_word obj (stamp_offset gmp (pool_objSize p))) in
  if negb (stamp_size stamp =? pool_objSize p) then ccrash
  else if Z.of_nat MAX_POOL_BUCKETS <=? stamp_number stamp then ccrash
  else on_bucket (Z.to_nat (stamp_number stamp)) (PoolBucket.on_bucket (into obj)).

Definition put (obj : positive) : PM unit := put_by_stamp obj PoolBucket.put.
Definition put_into (obj : positive) (pool_ : nat) : PM unit :=
  if (pool_ <? MAX_POOL_BUCKETS)%nat then put_by_stamp obj putNoLock else ccrash.

End Operations.

(** ** The registry is exact

    A pool object lives from its construction to its destruction. *)
Inductive reg_step : PoolManager * gmap Z positive -> PoolManager * gmap Z positive -> Prop :=
| reg_new m live pool id m' :
    GeneralPool_register pool m = (id, m') ->
    reg_step (m, live) (m', <[id:=pool]> live)
| reg_delete m live id pool :
    live !! id = Some pool ->
    reg_step (m, live) (GeneralPool_unregister id m, delete id live).

(** Up to [n] constructions. *)
Fixpoint reg_reach (n : nat) (st : PoolManager * gmap Z positive) : Prop :=
  match n with
  | O => st = (PoolManager_init, ∅)
  | S n => reg_reach n st \/ exists st', reg_reach n st' /\ reg_step st' st
  end.

Definition reg_inv (n : nat) (st : PoolManager * gmap Z positive) : Prop :=
  pools (fst st) = snd st /\ 0 < idGener (fst st) <= Z.of_nat n + 1 /\
  forall id, id ∈ dom (snd st) -> 0 < id < idGener (fst st).

Lemma reg_step_inv n st st' :
  Z.of_nat n + 2 < 2 ^ 16 -> reg_inv n st -> reg_step st st' -> reg_inv (S n) st'.
Proof.
  intros Hn (Hp & Hg & Hid) Hs. inversion Hs; subst; unfold reg_inv in *; simpl in *.
  - unfold GeneralPool_register, GeneralPoolBase_init in *. simplify_eq.
    assert (Hnone : pools m !! idGener m = None).
    { apply not_elem_of_dom. intros Hin. apply Hid in Hin. lia. }
    rewrite uwrap_id by lia. unfold registerPool. simpl. rewrite Hnone. simpl. rewrite lookup_insert_eq.
    simpl. split_and!; [done|lia..|]. intros id. rewrite dom_insert_L, elem_of_union, elem_of_singleton.
    intros [->|Hin]; [lia|]. apply Hid in Hin. lia.
  - unfold GeneralPool_unregister, GeneralPoolBase_destroy, unregisterPool. rewrite Hp.
    match goal with H : _ !! _ = Some _ |- _ => rewrite H end. simpl. rewrite lookup_delete_eq. simpl.
    split_and!; [done|lia..|]. intros id'. rewrite dom_delete_L. set_solver.
Qed.

Lemma reg_reach_inv n : forall st, Z.of_nat n + 1 < 2 ^ 16 -> reg_reach n st -> reg_inv n st.
Proof.
  induction n as [|n IH]; intros st Hn Hr; simpl in Hr.
  - subst. unfold reg_inv. simpl. split_and!; [done|lia..|]. set_solver.
  - destruct Hr as [Hr|(st' & Hr & Hs)].
    + apply IH in Hr as (? & ? & ?); [|lia]. split_and!; [done|lia..|done].
    + eapply reg_step_inv; [|by apply IH; [lia|]|done]. lia.
Qed.

(** ** The invariant of a pool *)

Section PoolInvariant.
Context `{Malloc} (gmp : bool) (al : allocator).
Context (Hmem : forall h n, malloc_addr h n <> None).
Context (sz : Z) (Hsz : 0 < sz < 2 ^ 24).

(** Bucket [i] of a pool of objects of [sz] bytes. *)
Definition bucket_ok (i : nat) (b : GeneralPoolBucket) : Prop :=
  objSize b = sz /\ padding b = 8 /\ stamp b = make_stamp (Z.of_nat i) sz /\
  0 < quantInc b <= Z.of_nat capacity.

(** An object that belongs to bucket [i]. *)
Definition from_bucket (h : heap) (i : nat) (x : positive) : Prop :=
  exists bl, h !! x = Some bl /\ stamped gmp sz (make_stamp (Z.of_nat i) sz) bl.

(** The free objects [qs i] of each bucket and the objects [held] by the
    clients: no object is in two places, and its stamp names its bucket. *)
Record pool_inv (p : GeneralPool) (h : heap) (held : list positive)
    (qs : nat -> list positive) : Prop := {
  pi_size : pool_objSize p = sz;
  pi_length : length (buckets p) = MAX_POOL_BUCKETS;
  pi_bucket : forall i, (i < MAX_POOL_BUCKETS)%nat -> exists b,
    buckets p !! i = Some b /\ bucket_ok i b /\ Rep b (qs i);
  pi_free : forall i x, (i < MAX_POOL_BUCKETS)%nat -> x ∈ qs i -> from_bucket h i x;
  pi_held : forall x, x ∈ held -> exists i, (i < MAX_POOL_BUCKETS)%nat /\ from_bucket h i x;
  pi_nodup : forall i, (i < MAX_POOL_BUCKETS)%nat -> NoDup (qs i);
  pi_held_nodup : NoDup held;
  pi_disj : forall i x, (i < MAX_POOL_BUCKETS)%nat -> x ∈ qs i -> x ∉ held }.

Definition upd_q (i : nat) (q : list positive) (qs : nat -> list positive) : nat -> list positive :=
  fun j => if decide (j = i) then q else qs j.

Lemma from_bucket_mono h h' i x : h ⊆ h' -> from_bucket h i x -> from_bucket h' i x.
Proof. intros Hh (bl & Hx & Hs). exists bl. split; [by eapply lookup_weaken|done]. Qed.

Lemma stamp_of_bucket i : (i < MAX_POOL_BUCKETS)%nat ->
  stamp_size (make_stamp (Z.of_nat i) sz) = sz /\ stamp_number (make_stamp (Z.of_nat i) sz) = Z.of_nat i.
Proof. intros Hi. unfold MAX_POOL_BUCKETS in Hi. apply stamp_decode; lia. Qed.

(** The stamp of an object names one bucket. *)
Lemma from_bucket_inj h i j x : (i < MAX_POOL_BUCKETS)%nat -> (j < MAX_POOL_BUCKETS)%nat ->
  from_bucket h i x -> from_bucket h j x -> i = j.
Proof.
  intros Hi Hj (bl & Hx & _ & Hs & _) (bl' & Hx' & _ & Hs' & _). rewrite Hx in Hx'. injection Hx' as <-.
  rewrite Hs in Hs'. injection Hs' as E.
  pose proof (proj2 (stamp_of_bucket i Hi)) as Ei. pose proof (proj2 (stamp_of_bucket j Hj)) as Ej.
  rewrite E in Ei. lia.
Qed.

Lemma bucket_ok_settings i b b' : bucket_ok i b -> same_settings b b' -> bucket_ok i b'.
Proof. unfold bucket_ok, same_settings. intuition congruence. Qed.

(** Replacing bucket [i]. *)
Lemma pi_set_bucket p h held qs i b q :
  pool_inv p h held qs -> (i < MAX_POOL_BUCKETS)%nat -> bucket_ok i b -> Rep b q ->
  forall j, (j < MAX_POOL_BUCKETS)%nat -> exists b',
    buckets (set_pool_bucket i b p) !! j = Some b' /\ bucket_ok j b' /\ Rep b' (upd_q i q qs j).
Proof.
  intros I Hi Hb R j Hj. simpl. unfold upd_q. case_decide as E.
  - subst. exists b. split_and!; try done. apply list_lookup_insert_eq. rewrite (pi_length _ _ _ _ I). done.
  - destruct (pi_bucket _ _ _ _ I j Hj) as (b' & ? & ? & ?). exists b'.
    by rewrite list_lookup_insert_ne by done.
Qed.

(** Bucket [i] gives out [x] and keeps [q]; other objects may have been made. *)
Lemma give_out_inv p h held qs i b q x h' :
  pool_inv p h held qs -> (i < MAX_POOL_BUCKETS)%nat -> bucket_ok i b -> Rep b q -> h ⊆ h' ->
  from_bucket h' i x -> x ∉ held -> NoDup (x :: q) ->
  (forall y, y ∈ q -> from_bucket h' i y /\ y ∉ held) ->
  (forall j, (j < MAX_POOL_BUCKETS)%nat -> j <> i -> x ∉ qs j) ->
  pool_inv (set_pool_bucket i b p) h' (x :: held) (upd_q i q qs).
Proof.
  intros I Hi Hok R Hh Hx Hxh [Hxq Nq]%NoDup_cons Hq Hxo. split.
  - apply I.
  - simpl. rewrite length_insert. apply I.
  - by apply (pi_set_bucket p h held qs).
  - intros j y Hj. unfold upd_q. case_decide as Hd; intros Hy.
    + subst j. by apply Hq.
    + eapply from_bucket_mono; [done|]. by apply (pi_free _ _ _ _ I).
  - intros y [->|Hy]%elem_of_cons; [by exists i|].
    destruct (pi_held _ _ _ _ I y Hy) as (j & ? & ?). exists j. split; [done|]. by eapply from_bucket_mono.
  - intros j Hj. unfold upd_q. case_decide; [done|]. by apply (pi_nodup _ _ _ _ I).
  - by apply NoDup_cons; split; [|apply I].
  - intros j y Hj. unfold upd_q. case_decide as Hd; intros Hy; rewrite not_elem_of_cons.
    + split; [by intros ->|]. by apply Hq.
    + split; [|by apply (pi_disj _ _ _ _ I j)]. intros ->. by apply (Hxo j).
Qed.

(** Taking from bucket [i]. *)
Lemma get_bucket_inv p h held qs i :
  pool_inv p h held qs -> (i < MAX_POOL_BUCKETS)%nat ->
  exists x p' h' qs', on_bucket i (PoolBucket.get gmp al) (p, h) = (Ret x, (p', h')) /\
    pool_inv p' h' (x :: held) qs' /\ (x ∉ held) /\ from_bucket h' i x /\ h ⊆ h'.
Proof.
  intros I Hi. destruct (pi_bucket _ _ _ _ I i Hi) as (b & Hb & Hok & R).
  pose proof Hok as (Hs & Hpad & Hst & Hq). unfold on_bucket. simpl. rewrite Hb.
  destruct (qs i) as [|x q] eqn:Eq.
  - destruct (getNoLock_empty gmp al Hmem b h R) as (x & l & b' & h' & E & _ & R' & Hss & (N & Hh & _ & Hf & Hw));
      [split; [lia|done]|done|].
    unfold PoolBucket.get. rewrite E. simpl.
    assert (Hnew : forall y, y ∈ x :: l -> from_bucket h' i y).
    { intros y Hy. destruct (Hw y Hy) as (bl & ? & Hbl). exists bl. rewrite <- Hst, <- Hs. done. }
    assert (Hold : forall y j, from_bucket h j y -> y ∉ x :: l).
    { intros y j (bl & Hy & _) Hin. apply Hf in Hin. congruence. }
    assert (Hheld : forall y, y ∈ x :: l -> y ∉ held).
    { intros y Hy Hin. destruct (pi_held _ _ _ _ I y Hin) as (j & _ & Hj). by apply (Hold _ _ Hj). }
    exists x, (set_pool_bucket i b' p), h', (upd_q i l qs).
    split_and!; [done| |apply Hheld; left|apply Hnew; left|done].
    apply (give_out_inv p h); try done; [by eapply bucket_ok_settings|apply Hnew; left|apply Hheld; left| |].
    + intros y Hy. split; [apply Hnew|apply Hheld]; by right.
    + intros j Hj _ Hin. apply (Hold x j (pi_free _ _ _ _ I j x Hj Hin)). left.
  - destruct (getNoLock_rep gmp al b h x q R) as (b' & E & R' & Hss).
    unfold PoolBucket.get. rewrite E. simpl.
    assert (Hin : forall y, y ∈ x :: q -> from_bucket h i y /\ y ∉ held).
    { intros y Hy. rewrite <- Eq in Hy. split; [by apply (pi_free _ _ _ _ I)|by apply (pi_disj _ _ _ _ I i)]. }
    destruct (Hin x) as [Hfx Hxh]; [left|].
    exists x, (set_pool_bucket i b' p), h, (upd_q i q qs). split_and!; try done.
    apply (give_out_inv p h); try done; [by eapply bucket_ok_settings|rewrite <- Eq; by apply (pi_nodup _ _ _ _ I)| |].
    + intros y Hy. apply Hin. by right.
    + intros j Hj Hd Hx. apply Hd.
      by apply (from_bucket_inj h j i x Hj Hi (pi_free _ _ _ _ I j x Hj Hx)).
Qed.

(** [put] follows the stamp to the bucket of the object. *)
Lemma put_routes p h held x qs :
  pool_inv p h held qs -> x ∈ held ->
  exists i, (i < MAX_POOL_BUCKETS)%nat /\ from_bucket h i x /\
    put gmp x (p, h) = on_bucket i (PoolBucket.on_bucket (PoolBucket.put x)) (p, h).
Proof.
  intros I Hin. destruct (pi_held _ _ _ _ I x Hin) as (i & Hi & Hx).
  pose proof Hx as (bl & Hbl & Hst). destruct (stamp_of_bucket i Hi) as [Ez En].
  exists i. split_and!; try done.
  unfold put, put_by_stamp. unfold cbind at 1, cget at 1. rewrite (pi_size _ _ _ _ I).
  unfold cbind, on_pool_heap, czoom. cbn [fst snd].
  rewrite (read_stamp gmp sz _ h x bl Hbl Hst). cbn [fst snd]. rewrite Ez, Z.eqb_refl. cbn [negb].
  rewrite En. destruct (Z.leb_spec (Z.of_nat MAX_POOL_BUCKETS) (Z.of_nat i)); [lia|].
  by rewrite Nat2Z.id.
Qed.

(** Giving [x] back to its bucket puts it at the end, or ends the process when
    the bucket is at its capacity. *)
Lemma put_bucket_inv p h l1 x l2 qs i :
  pool_inv p h (l1 ++ x :: l2) qs -> (i < MAX_POOL_BUCKETS)%nat -> from_bucket h i x ->
  let r := on_bucket i (PoolBucket.on_bucket (PoolBucket.put x)) (p, h) in
  if (length (qs i) <? capacity)%nat
  then exists p', r = (Ret tt, (p', h)) /\ pool_inv p' h (l1 ++ l2) (upd_q i (qs i ++ [x]) qs)
  else fst r = Crash.
Proof.
  intros I Hi Hx r. destruct (pi_bucket _ _ _ _ I i Hi) as (b & Hb & Hok & R).
  assert (Er : r = (fst (PoolBucket.put x b), (set_pool_bucket i (snd (PoolBucket.put x b)) p, h))).
  { unfold r, on_bucket, PoolBucket.on_bucket, czoom. cbn [fst snd]. by rewrite Hb. }
  rewrite Er. destruct (Nat.ltb_spec (length (qs i)) capacity) as [Hc|Hc].
  2:{ unfold PoolBucket.put. rewrite (putNoLock_overflow b (qs i)); [done|done|].
      pose proof (r_len _ _ R). pose proof (Rep_bound _ _ R). lia. }
  destruct (putNoLock_rep b (qs i) x R Hc) as (b' & E & R' & Hss).
  exists (set_pool_bucket i b' p). split; [unfold PoolBucket.put; by rewrite E|].
  pose proof (pi_held_nodup _ _ _ _ I) as N.
  assert (Hxn : x ∉ l1 ++ l2).
  { rewrite NoDup_app, NoDup_cons in N. destruct N as (_ & N1 & N2 & _). rewrite not_elem_of_app.
    split; [|done]. intros Hin. apply (N1 x Hin). left. }
  assert (Hsub : forall y, y ∈ l1 ++ l2 -> y ∈ l1 ++ x :: l2) by set_solver.
  split.
  - apply I.
  - simpl. rewrite length_insert. apply I.
  - apply (pi_set_bucket p h (l1 ++ x :: l2) qs); try done. by eapply bucket_ok_settings.
  - intros j y Hj. unfold upd_q. case_decide as Hd; [subst j|by apply (pi_free _ _ _ _ I)].
    intros [Hy| ->%list_elem_of_singleton]%elem_of_app; [by apply (pi_free _ _ _ _ I)|done].
  - intros y Hy. apply (pi_held _ _ _ _ I). by apply Hsub.
  - intros j Hj. unfold upd_q. case_decide; [subst j|by apply (pi_nodup _ _ _ _ I)].
    apply NoDup_app. split_and!; [by apply (pi_nodup _ _ _ _ I)| |apply NoDup_singleton].
    intros y Hy ->%list_elem_of_singleton. apply (pi_disj _ _ _ _ I i x Hi Hy), elem_of_app. right. left.
  - rewrite NoDup_app, NoDup_cons in N. destruct N as (N0 & N1 & _ & N2).
    apply NoDup_app. split_and!; [done| |done]. intros y Hy1 Hy2. apply (N1 y Hy1). by right.
  - intros j y Hj. unfold upd_q. case_decide as Hd.
    + intros [Hy| ->%list_elem_of_singleton]%elem_of_app; [|done].
      intros Hin. by apply (pi_disj _ _ _ _ I i y Hi Hy), Hsub.
    + intros Hy Hin. by apply (pi_disj _ _ _ _ I j y Hj Hy), Hsub.
Qed.

Lemma put_held_inv p h l1 x l2 qs :
  pool_inv p h (l1 ++ x :: l2) qs ->
  exists i, (i < MAX_POOL_BUCKETS)%nat /\
  if (length (qs i) <? capacity)%nat
  then exists p', put gmp x (p, h) = (Ret tt, (p', h)) /\
    pool_inv p' h (l1 ++ l2) (upd_q i (qs i ++ [x]) qs)
  else fst (put gmp x (p, h)) = Crash.
Proof.
  intros I. destruct (put_routes p h _ x qs I) as (i & Hi & Hx & ->).
  { apply elem_of_app. right. left. }
  exists i. split; [done|]. by apply put_bucket_inv.
Qed.

(** The constructor's loop: the first [n] buckets are set up. *)
Record init_inv (n : nat) (p : GeneralPool) (h : heap) (qs : nat -> list positive) : Prop := {
  ii_size : pool_objSize p = sz;
  ii_length : length (buckets p) = MAX_POOL_BUCKETS;
  ii_bucket : forall i, (i < n)%nat -> exists b,
    buckets p !! i = Some b /\ bucket_ok i b /\ Rep b (qs i);
  ii_rest : forall i, (n <= i < MAX_POOL_BUCKETS)%nat ->
    buckets p !! i = Some (GeneralPoolBucket_init sz);
  ii_free : forall i x, (i < n)%nat -> x ∈ qs i -> from_bucket h i x;
  ii_nodup : forall i, (i < n)%nat -> NoDup (qs i) }.

Lemma init_bucket_inv strat n p h qs :
  good_strategy sz strat -> (n < MAX_POOL_BUCKETS)%nat -> init_inv n p h qs ->
  exists p' h' qs', on_bucket n (init_bucket gmp al n strat) (p, h) = (Ret tt, (p', h')) /\
    init_inv (S n) p' h' qs' /\ h ⊆ h'.
Proof.
  intros Hst Hn I. unfold on_bucket. simpl. rewrite (ii_rest _ _ _ _ I n ltac:(lia)).
  unfold init_bucket, cbind, cget, cput.
  destruct (setStrategy_rep gmp al Hmem strat
    (makeStamp (setBucketNum (Z.of_nat n) (GeneralPoolBucket_init sz))) h)
    as (l & b' & h' & E & R & Hq & _ & Es & Eo & Ep & (N & Hh & _ & Hf & Hw)).
  { destruct (Rep_init sz). by split. }
  { simpl. lia. }
  { done. }
  { done. }
  rewrite E. simpl. exists (set_pool_bucket n b' p), h', (upd_q n l qs). split_and!; [done| |done].
  rewrite Eo, Es in Hw. simpl in *. split; simpl.
  - apply I.
  - rewrite length_insert. apply I.
  - intros i Hi. unfold upd_q. case_decide as Hd.
    + subst i. exists b'. rewrite list_lookup_insert_eq by (by rewrite (ii_length _ _ _ _ I)). done.
    + rewrite list_lookup_insert_ne by done. apply (ii_bucket _ _ _ _ I). lia.
  - intros i Hi. rewrite list_lookup_insert_ne by lia. apply (ii_rest _ _ _ _ I). lia.
  - intros i x Hi. unfold upd_q. case_decide as Hd; intros Hx; [subst i; by apply Hw|].
    eapply from_bucket_mono; [done|]. apply (ii_free _ _ _ _ I); [lia|done].
  - intros i Hi. unfold upd_q. case_decide; [done|]. apply (ii_nodup _ _ _ _ I). lia.
Qed.

Lemma init_buckets_inv strat k : forall n p h qs,
  good_strategy sz strat -> (n + k <= MAX_POOL_BUCKETS)%nat -> init_inv n p h qs ->
  exists p' h' qs', init_buckets gmp al n k strat (p, h) = (Ret tt, (p', h')) /\
    init_inv (n + k) p' h' qs' /\ h ⊆ h'.
Proof.
  induction k as [|k IH]; intros n p h qs Hst Hn I; cbn [init_buckets].
  - exists p, h, qs. by rewrite Nat.add_0_r.
  - destruct (init_bucket_inv strat n p h qs Hst ltac:(lia) I) as (p1 & h1 & qs1 & E & I1 & Hh).
    rewrite (cbind_ret _ _ _ _ _ E), Nat.add_succ_r, <- Nat.add_succ_l.
    destruct (IH (S n) p1 h1 qs1 Hst ltac:(lia) I1) as (p2 & h2 & qs2 & ? & ? & ?).
    exists p2, h2, qs2. split_and!; try done. by transitivity h1.
Qed.

(** A new pool satisfies the invariant, and nothing is held. *)
Lemma GeneralPool_init_inv strat h :
  good_strategy sz strat ->
  exists p' h' qs, GeneralPool_init gmp al sz strat h = (Ret tt, (p', h')) /\ pool_inv p' h' [] qs /\
    h ⊆ h'.
Proof.
  intros Hst. destruct (init_buckets_inv strat MAX_POOL_BUCKETS 0
    (mkPool strat 0 sz (replicate MAX_POOL_BUCKETS (GeneralPoolBucket_init sz))) h (fun _ => []))
    as (p' & h' & qs & E & I & Hh); [done|lia| |].
  { split; cbn [pool_objSize buckets]; try done; try (intros; lia). intros i Hi. apply lookup_replicate_2. lia. }
  exists p', h', qs. split_and!; [exact E| |done]. destruct I. split; try done; simpl; try apply NoDup_nil_2.
  - intros x Hx. by apply not_elem_of_nil in Hx.
  - intros i x _ _ Hx. by apply not_elem_of_nil in Hx.
Qed.

Lemma pool_inv_counter c p h held qs : pool_inv p h held qs -> pool_inv (set_counter c p) h held qs.
Proof. intros []. by split. Qed.

(** The operations of the clients: [held] are the objects they hold. *)
Inductive pool_step : GeneralPool * heap * list positive -> GeneralPool * heap * list positive -> Prop :=
| step_get p h held x p' h' :
    get gmp al (p, h) = (Ret x, (p', h')) -> pool_step (p, h, held) (p', h', x :: held)
| step_get_from i p h held x p' h' :
    get_from gmp al i (p, h) = (Ret x, (p', h')) -> pool_step (p, h, held) (p', h', x :: held)
| step_put p h l1 x l2 p' h' :
    put gmp x (p, h) = (Ret tt, (p', h')) -> pool_step (p, h, l1 ++ x :: l2) (p', h', l1 ++ l2)
| step_put_into i p h l1 x l2 p' h' :
    put_into gmp x i (p, h) = (Ret tt, (p', h')) -> pool_step (p, h, l1 ++ x :: l2) (p', h', l1 ++ l2).

Definition inv3 (st : GeneralPool * heap * list positive) : Prop :=
  exists qs, pool_inv (fst (fst st)) (snd (fst st)) (snd st) qs.

(** [get] always succeeds, with an object nobody holds. *)
Lemma get_inv p h held qs :
  pool_inv p h held qs ->
  exists x p' h' qs' i, get gmp al (p, h) = (Ret x, (p', h')) /\ pool_inv p' h' (x :: held) qs' /\
    (x ∉ held) /\ (i < MAX_POOL_BUCKETS)%nat /\ from_bucket h' i x /\ h ⊆ h'.
Proof.
  intros I. assert (Hc : (Z.to_nat (counter p mod Z.of_nat MAX_POOL_BUCKETS) < MAX_POOL_BUCKETS)%nat).
  { pose proof (Z.mod_pos_bound (counter p) (Z.of_nat MAX_POOL_BUCKETS) ltac:(done)). lia. }
  destruct (get_bucket_inv (set_counter (u32 (counter p + 1)) p) h held qs _
    (pool_inv_counter _ _ _ _ _ I) Hc) as (x & p' & h' & qs' & E & I' & Hx & Hfrom & Hh).
  exists x, p', h', qs', (Z.to_nat (counter p mod Z.of_nat MAX_POOL_BUCKETS)).
  split_and!; try done.
Qed.

Lemma put_inv p h l1 x l2 p' h' qs :
  pool_inv p h (l1 ++ x :: l2) qs -> put gmp x (p, h) = (Ret tt, (p', h')) ->
  inv3 (p', h', l1 ++ l2).
Proof.
  intros I E. destruct (put_held_inv _ _ _ _ _ _ I) as (i & _ & HP).
  destruct (_ <? _)%nat; [|by rewrite E in HP].
  destruct HP as (p1 & E1 & I1). rewrite E in E1. injection E1 as <- <-. by eexists.
Qed.

Lemma pool_step_inv st st' : inv3 st -> pool_step st st' -> inv3 st'.
Proof.
  intros [qs I] Hs. inversion Hs; subst; simpl in *.
  - destruct (get_inv _ _ _ _ I) as (y & p1 & h1 & qs' & _ & E & I' & _).
    assert (x = y /\ p' = p1 /\ h' = h1) as (-> & -> & ->) by (split_and!; congruence).
    exists qs'. exact I'.
  - unfold get_from in *. destruct (Nat.ltb_spec i MAX_POOL_BUCKETS) as [Hi|]; [|done].
    destruct (get_bucket_inv p h held qs i I Hi) as (y & p1 & h1 & qs' & E & I' & _).
    unfold PoolBucket.get in E.
    assert (x = y /\ p' = p1 /\ h' = h1) as (-> & -> & ->) by (split_and!; congruence).
    exists qs'. exact I'.
  - by eapply put_inv.
  - unfold put_into in *. destruct (i <? _)%nat; [|done]. by eapply put_inv.
Qed.

(** Every state that the clients of a new pool can reach. *)
Lemma pool_reach_inv strat h0 p0 h1 st :
  good_strategy sz strat -> GeneralPool_init gmp al sz strat h0 = (Ret tt, (p0, h1)) ->
  rtc pool_step (p0, h1, []) st -> inv3 st.
Proof.
  intros Hst E Hr. destruct (GeneralPool_init_inv strat h0 Hst) as (p' & h' & qs & E' & I & _).
  rewrite E in E'. injection E' as <- <-.
  assert (I3 : inv3 (p0, h1, [])) by (by exists qs). revert I3.
  clear -Hr Hmem Hsz. induction Hr; eauto using pool_step_inv.
Qed.

(** A bucket that misses an object has room for it, as long as no more objects
    exist than a bucket can hold. *)
Lemma free_below_capacity p h held qs i x :
  pool_inv p h held qs -> (i < MAX_POOL_BUCKETS)%nat -> x ∈ held ->
  (base.size h <= capacity)%nat -> (length (qs i) < capacity)%nat.
Proof.
  intros I Hi Hx Hsize. assert (Hsub : (list_to_set (x :: qs i) : gset positive) ⊆ dom h).
  { intros y. rewrite elem_of_list_to_set, elem_of_cons. intros [->|Hy].
    - destruct (pi_held _ _ _ _ I x Hx) as (j & _ & bl & Hbl & _). by apply elem_of_dom.
    - destruct (pi_free _ _ _ _ I i y Hi Hy) as (bl & Hbl & _). by apply elem_of_dom. }
  apply subseteq_size in Hsub. rewrite size_list_to_set, size_dom in Hsub; [simpl in Hsub; lia|].
  apply NoDup_cons. split; [|by apply (pi_nodup _ _ _ _ I)].
  intros Hin. by apply (pi_disj _ _ _ _ I i x Hi Hin).
Qed.
End PoolInvariant.

(** ** Theorems *)

(** C5. Safety of a pool.  Start from a new pool of objects of [sz] bytes and run
    any sequence of [get]s and of [put]s of held objects.  Then [get] returns (as
    long as memory can be had), the object is held by nobody, and it carries the
    stamp of one of the 64 buckets. *)
Theorem pool_no_double_handout `{Malloc} gmp al sz strat h0 p0 h1 p h held :
  (forall h n, malloc_addr h n <> None) -> 0 < sz < 2 ^ 24 -> good_strategy sz strat ->
  GeneralPool_init gmp al sz strat h0 = (Ret tt, (p0, h1)) ->
  rtc (pool_step gmp al) (p0, h1, []) (p, h, held) ->
  exists x p' h' i, get gmp al (p, h) = (Ret x, (p', h')) /\ (x ∉ held) /\
    (i < MAX_POOL_BUCKETS)%nat /\ from_bucket gmp sz h' i x.
Proof.
  intros Hmem Hsz Hst E Hr.
  destruct (pool_reach_inv gmp al Hmem sz Hsz strat h0 p0 h1 _ Hst E Hr) as [qs I].
  destruct (get_inv gmp al Hmem sz Hsz _ _ _ _ I) as (x & p' & h' & qs' & i & ? & _ & ? & ? & ? & _).
  by exists x, p', h', i.
Qed.

(** Every object that is held can be given back: in every reachable state
    with no more objects than a bucket holds, [put] of a held object returns, it
    neither aborts on the stamp nor on the bucket, and the objects of the heap
    stay as they are. *)
Theorem pool_put_returns `{Malloc} gmp al sz strat h0 p0 h1 p h l1 x l2 :
  (forall h n, malloc_addr h n <> None) -> 0 < sz < 2 ^ 24 -> good_strategy sz strat ->
  GeneralPool_init gmp al sz strat h0 = (Ret tt, (p0, h1)) ->
  rtc (pool_step gmp al) (p0, h1, []) (p, h, l1 ++ x :: l2) ->
  (base.size h <= capacity)%nat ->
  exists p', put gmp x (p, h) = (Ret tt, (p', h)).
Proof.
  intros Hmem Hsz Hst E Hr Hc.
  destruct (pool_reach_inv gmp al Hmem sz Hsz strat h0 p0 h1 _ Hst E Hr) as [qs I]. simpl in I.
  destruct (put_held_inv gmp Hmem sz Hsz _ _ _ _ _ _ I) as (i & Hi & HP).
  assert (Hf : (length (qs i) < capacity)%nat).
  { apply (free_below_capacity gmp sz p h _ qs i x I Hi); [|done]. apply elem_of_app. right. left. }
  destruct (Nat.ltb_spec (length (qs i)) capacity); [|lia]. destruct HP as (p' & ? & _). eauto.
Qed.

(** The registry holds exactly the live pools, each under its own
    identifier, for up to 65534 constructions and destructions. *)
Theorem registry_exact n m live :
  Z.of_nat n <= 65534 -> reg_reach n (m, live) -> pools m = live.
Proof. intros Hn Hr. destruct (reg_reach_inv n _ ltac:(lia) Hr) as (? & _). done. Qed.

(** ** Concrete runs *)

Section Runs.
#[local] Existing Instance simple_malloc.

Definition run_init := GeneralPool_init false ClassAlloc 16 DefaultAllocStrategy ∅.
Definition run_pool : GeneralPool := fst (snd run_init).
Definition run_heap : heap := snd (snd run_init).
Definition run_get := get false ClassAlloc (run_pool, run_heap).

Lemma run_good : good_strategy 16 DefaultAllocStrategy.
Proof. split_and!; vm_compute; done. Qed.

Lemma run_init_ok :
  GeneralPool_init false ClassAlloc 16 DefaultAllocStrategy ∅ = (Ret tt, (run_pool, run_heap)).
Proof. vm_compute. reflexivity. Qed.

Lemma pool_no_double_handout_witness :
  exists x p' h' i, get false ClassAlloc (run_pool, run_heap) = (Ret x, (p', h')) /\ (x ∉ @nil positive) /\
    (i < MAX_POOL_BUCKETS)%nat /\ from_bucket false 16 h' i x.
Proof.
  apply (pool_no_double_handout false ClassAlloc 16 DefaultAllocStrategy ∅ run_pool run_heap);
    [discriminate|lia|exact run_good|exact run_init_ok|apply rtc_refl].
Defined.

Lemma pool_put_returns_witness :
  exists p', put false 1 (fst (snd run_get), snd (snd run_get)) = (Ret tt, (p', snd (snd run_get))).
Proof.
  apply (pool_put_returns false ClassAlloc 16 DefaultAllocStrategy ∅ run_pool run_heap
           (fst (snd run_get)) (snd (snd run_get)) [] 1 []);
    [discriminate|lia|exact run_good|exact run_init_ok| |].
  - eapply rtc_l; [|apply rtc_refl]. apply step_get. vm_compute. reflexivity.
  - apply Nat.leb_le. vm_compute. reflexivity.
Defined.

Lemma registry_exact_witness :
  pools (snd (GeneralPool_register 5 PoolManager_init)) = <[1 := 5%positive]> ∅.
Proof.
  apply (registry_exact 1); [done|]. right. exists (PoolManager_init, ∅). split; [done|].
  eapply reg_new. reflexivity.
Defined.
End Runs.
