(* ===== verification/MemMgr.v ===== *)
(** * The memory manager ([lib/common/MemMgr])

    Nineteen pools of raw memory, of 4 bytes up to 1 MiB, that serve [operator
    new] and [operator delete] in a build with [_MM_GMP_ON_]. *)

From S2P Require Import Prelude Status PoolAlloc PoolBucket GeneralPool.

(** [Size4] to [Size1048576], in the order of the tests in [getMem]. *)
Definition size_classes : list Z :=
  [4; 8; 16; 32; 64; 128; 256; 512; 1024; 2048; 4096; 8192; 16384; 32768;
   65536; 131072; 262144; 524288; 1048576].

(** [class MemMgr]: its pools, and [started]. *)
Record MemMgr : Type := mkMemMgr { GMPpools : list GeneralPool; started : bool }.

Abbreviation mstate := (MemMgr * heap)%type.

Section Operations.
Context `{Malloc} (gmp : bool).

(** Runs an operation of pool [i]. *)
Definition on_pool {A} (i : nat) (m : M exn (GeneralPool * heap) A) : M exn mstate A := fun s =>
  match GMPpools (fst s) !! i with
  | None => (Undef, s)
  | Some p => let r := m (p, snd s) in
      (fst r, (mkMemMgr (<[i := fst (snd r)]> (GMPpools (fst s))) (started (fst s)), snd (snd r)))
  end.

Definition on_mm_heap {A} (m : M exn heap A) : M exn mstate A :=
  czoom snd (fun h s => (fst s, h)) m.

(** The constructor of the pools, one after the other. *)
Fixpoint init_pools (classes : list Z) (strat : AllocStrategy) (h : heap) :
    outcome exn (list GeneralPool) * heap :=
  match classes with
  | [] => (Ret [], h)
  | sz :: classes =>
      match GeneralPool_init gmp GlobalMemoryAlloc sz strat h with
      | (Ret _, (p, h)) =>
          match init_pools classes strat h with
          | (Ret ps, h) => (Ret (p :: ps), h)
          | r => r
          end
      | (Throw e, (_, h)) => (Throw e, h)
      | (Crash, (_, h)) => (Crash, h)
      | (Undef, (_, h)) => (Undef, h)
      end
  end.

Definition MemMgr_init (strat : AllocStrategy) (h : heap) : outcome exn (list GeneralPool) * heap :=
  init_pools size_classes strat h.

(** The chain of tests [if (size_ <= 4) ... if (size_ <= 8) ...]. *)
Fixpoint class_index (size_ : Z) (classes : list Z) : option nat :=
  match classes with
  | [] => None
  | c :: classes => if size_ <=? c then Some 0%nat else S <$> class_index size_ classes
  end.

(** [malloc(size_)]; a null pointer is [None]. *)
Definition c_malloc (size_ : Z) : M exn heap (option positive) := fun h =>
  match malloc_addr h size_ with
  | Some a => (Ret (Some a), <[a := mkBlock size_ 0 ∅]> h)
  | None => (Ret None, h)
  end.

(** [free(ptr)]: only a pointer that [malloc] returned. *)
Definition c_free (ptr : positive) : M exn heap unit := fun h =>
  match h !! ptr with
  | Some b => if b_obj b =? 0 then (Ret tt, delete ptr h) else (Undef, h)
  | None => (Undef, h)
  end.

Definition getMem (size_ : Z) : M exn mstate (option positive) :=
  match class_index size_ size_classes with
  | Some i => let! ptr := on_pool i (get gmp GlobalMemoryAlloc) in cret (Some ptr)
  | None => on_mm_heap (c_malloc size_)
  end.

(** The [switch] on the chunk size. *)
Fixpoint class_of (chSize : Z) (classes : list Z) : option nat :=
  match classes with
  | [] => None
  | c :: classes => if chSize =? c then Some 0%nat else S <$> class_of chSize classes
  end.

(** The stamp is always read in front of the pointer. *)
Definition putMem (ptr : positive) : M exn mstate unit :=
  let! stamp := on_mm_heap (read_word ptr (- OBJ_PADDING)) in
  match class_of (stamp_size stamp) size_classes with
  | Some i => on_pool i (on_bucket (Z.to_nat (u16 (stamp_number stamp)))
                (PoolBucket.on_bucket (PoolBucket.put ptr)))
  | None => on_mm_heap (c_free ptr)
  end.

Definition engage (s : MemMgr) : MemMgr := mkMemMgr (GMPpools s) true.

(** [operator new] and [operator delete] of a build with [_MM_GMP_ON_]; the
    array versions are the same. *)
Definition operator_new (size : Z) : M exn mstate (option positive) :=
  let! (s, _) := cget in
  if started s then getMem size else on_mm_heap (c_malloc size).
Definition operator_delete (ptr : option positive) : M exn mstate unit :=
  match ptr with
  | None => cret tt
  | Some ptr =>
      let! (s, _) := cget in
      if started s then putMem ptr else on_mm_heap (c_free ptr)
  end.

End Operations.

(** ** Lemmas *)

Lemma class_index_spec size_ l i :
  class_index size_ l = Some i ->
  exists c, l !! i = Some c /\ size_ <= c /\ forall j c', (j < i)%nat -> l !! j = Some c' -> c' < size_.
Proof.
  revert i. induction l as [|c l IH]; intros i E; simpl in E; [done|].
  destruct (Z.leb_spec size_ c).
  - injection E as <-. exists c. split_and!; [done|lia|]. intros. lia.
  - destruct (class_index size_ l) as [k|]; [|done]. injection E as <-.
    destruct (IH k eq_refl) as (c' & ? & ? & Hj). exists c'. split_and!; [done|done|].
    intros [|j] c'' Hlt Hc; simpl in Hc; [by simplify_eq|]. apply (Hj j); [lia|done].
Qed.

Lemma class_index_total size_ : size_ <= 1048576 -> exists i, class_index size_ size_classes = Some i.
Proof. intros. simpl. repeat case_match; eauto; b2p; lia. Qed.

(** The classes are distinct, so the [switch] finds the class of a stamp. *)
Lemma class_of_lookup i c : size_classes !! i = Some c -> class_of c size_classes = Some i.
Proof. intros E. do 19 (destruct i as [|i]; [injection E as <-; reflexivity|]). done. Qed.

Lemma class_range i c : size_classes !! i = Some c -> 0 < c < 2 ^ 24.
Proof. intros E. do 19 (destruct i as [|i]; [injection E as <-; lia|]). done. Qed.

Section Invariant.
Context `{Malloc} (gmp : bool).
Context (Hmem : forall h n, malloc_addr h n <> None).

(** Every pool satisfies its invariant, over one heap. *)
Definition mm_inv (s : mstate) (held : nat -> list positive) : Prop :=
  length (GMPpools (fst s)) = length size_classes /\
  forall i c, size_classes !! i = Some c -> exists p qs,
    GMPpools (fst s) !! i = Some p /\ pool_inv gmp c p (snd s) (held i) qs.

Lemma pool_inv_mono c p h h' held qs : h ⊆ h' -> pool_inv gmp c p h held qs -> pool_inv gmp c p h' held qs.
Proof.
  intros Hh []. split; try done.
  - intros. eapply from_bucket_mono; eauto.
  - intros x Hx. destruct (pi_held x Hx) as (i & ? & ?). exists i. split; [done|].
    eapply from_bucket_mono; eauto.
Qed.

Lemma mm_inv_set s held i c p h l qs :
  mm_inv s held -> size_classes !! i = Some c -> snd s ⊆ h -> pool_inv gmp c p h l qs ->
  mm_inv (mkMemMgr (<[i:=p]> (GMPpools (fst s))) (started (fst s)), h)
    (fun j => if decide (j = i) then l else held j).
Proof.
  intros [Hl I] Hc Hh Ip. split; [simpl; by rewrite length_insert|]. intros j c' Hc'. simpl.
  destruct (decide (j = i)) as [->|Hne].
  - rewrite Hc in Hc'. injection Hc' as <-. exists p, qs. rewrite list_lookup_insert_eq; [done|].
    rewrite Hl. by eapply lookup_lt_Some.
  - destruct (I j c' Hc') as (p' & qs' & Hp' & Ip'). exists p', qs'.
    rewrite list_lookup_insert_ne by done. split; [done|]. by eapply pool_inv_mono.
Qed.

(** [getMem] from a pool. *)
Lemma getMem_pool s held i c size_ :
  mm_inv s held -> class_index size_ size_classes = Some i -> size_classes !! i = Some c ->
  exists ptr p' h' qs' k, getMem gmp size_ s =
    (Ret (Some ptr), (mkMemMgr (<[i:=p']> (GMPpools (fst s))) (started (fst s)), h')) /\
    pool_inv gmp c p' h' (ptr :: held i) qs' /\ snd s ⊆ h' /\
    (k < MAX_POOL_BUCKETS)%nat /\ from_bucket gmp c h' k ptr.
Proof.
  intros [Hl I] Hi Hc. destruct (I i c Hc) as (p & qs & Hp & Ip).
  destruct (get_inv gmp GlobalMemoryAlloc Hmem c (class_range _ _ Hc) p (snd s) (held i) qs Ip)
    as (ptr & p' & h' & qs' & k & E & I' & _ & Hk & Hf & Hh).
  exists ptr, p', h', qs', k. split_and!; try done. unfold getMem. rewrite Hi. unfold cbind, on_pool.
  rewrite Hp, E. done.
Qed.

(** [putMem] of an object of a pool, in a build with the stamp in front. *)
Lemma putMem_pool s held i c k x l1 l2 :
  gmp = true -> mm_inv s held -> size_classes !! i = Some c -> held i = l1 ++ x :: l2 ->
  (k < MAX_POOL_BUCKETS)%nat -> from_bucket gmp c (snd s) k x -> (base.size (snd s) <= capacity)%nat ->
  exists s', putMem x s = (Ret tt, s') /\ snd s' = snd s /\
    mm_inv s' (fun j => if decide (j = i) then l1 ++ l2 else held j).
Proof.
  intros Hg I Hc Hh Hk Hf Hcap. destruct (proj2 I i c Hc) as (p & qs & Hp & Ip).
  pose proof (class_range _ _ Hc) as Hr. pose proof Hf as (bl & Hbl & Hst).
  destruct (stamp_of_bucket c Hr k Hk) as [Ez En]. rewrite Hh in Ip.
  pose proof (put_bucket_inv gmp Hmem c Hr p (snd s) l1 x l2 qs k Ip Hk Hf) as HP.
  pose proof (free_below_capacity gmp c p (snd s) _ qs k x Ip Hk) as Hfree.
  destruct (Nat.ltb_spec (length (qs k)) capacity) as [_|].
  2:{ exfalso. enough (length (qs k) < capacity)%nat by lia. apply Hfree; [|done]. apply elem_of_app. right. left. }
  destruct HP as (p' & E & Ip'). unfold MAX_POOL_BUCKETS in Hk.
  exists (mkMemMgr (<[i:=p']> (GMPpools (fst s))) (started (fst s)), snd s). split_and!; [|done|].
  - unfold putMem, cbind, on_mm_heap, czoom.
    pose proof (read_stamp gmp c _ (snd s) x bl Hbl Hst) as ER. unfold stamp_offset in ER.
    rewrite Hg in ER. rewrite ER.
    cbn [fst snd]. rewrite Ez, (class_of_lookup _ _ Hc), En, uwrap_id, Nat2Z.id by lia.
    unfold on_pool. cbn [fst snd]. rewrite Hp. destruct s as [[ps st] h]. cbn [fst snd] in *.
    by rewrite E.
  - by apply (mm_inv_set s held i c p' (snd s) (l1 ++ l2) (upd_q k (qs k ++ [x]) qs)).
Qed.

(** The constructor establishes the invariant. *)
Lemma init_pools_inv strat classes : forall h,
  Forall (fun c => 0 < c < 2 ^ 24 /\ good_strategy c strat) classes ->
  exists ps h', init_pools gmp classes strat h = (Ret ps, h') /\ h ⊆ h' /\
    Forall2 (fun c p => exists qs, pool_inv gmp c p h' [] qs) classes ps.
Proof.
  induction classes as [|c classes IH]; intros h HF; cbn [init_pools].
  - exists [], h. split_and!; [done|done|constructor].
  - apply Forall_cons in HF as [[Hr Hg] HF].
    destruct (GeneralPool_init_inv gmp GlobalMemoryAlloc Hmem c Hr strat h Hg) as (p & h1 & qs & -> & Ip & Hh).
    destruct (IH h1 HF) as (ps & h2 & -> & Hh2 & HF2).
    exists (p :: ps), h2. split_and!; [done|by transitivity h1|]. constructor; [|done].
    exists qs. by eapply pool_inv_mono.
Qed.

Lemma MemMgr_init_inv strat h :
  Forall (fun c => good_strategy c strat) size_classes ->
  exists ps h', MemMgr_init gmp strat h = (Ret ps, h') /\ mm_inv (mkMemMgr ps false, h') (fun _ => []).
Proof.
  intros HF. destruct (init_pools_inv strat size_classes h) as (ps & h' & E & _ & HF2).
  { rewrite Forall_lookup in HF |- *. intros i c Hc. split; [by eapply class_range|by eapply HF]. }
  exists ps, h'. split; [done|]. split; [symmetry; by eapply Forall2_length|].
  intros i c Hc. destruct (Forall2_lookup_l _ _ _ _ _ HF2 Hc) as (p & Hp & qs & Ip). by exists p, qs.
Qed.
End Invariant.

(** ** Theorems *)

(** Round trip of the memory manager, in a build with [_MM_GMP_ON_]: a
    request of up to 1 MiB is served from the smallest class that is large
    enough, the block has room for the request, and giving the pointer back
    returns it to the pool it came from: nothing is held that was not before. *)
Theorem memmgr_roundtrip `{Malloc} s held size_ :
  (forall h n, malloc_addr h n <> None) ->
  mm_inv true s held -> size_ <= 1048576 ->
  exists i c ptr s' bl, getMem true size_ s = (Ret (Some ptr), s') /\
    size_classes !! i = Some c /\ size_ <= c /\
    (forall j c', (j < i)%nat -> size_classes !! j = Some c' -> c' < size_) /\
    snd s' !! ptr = Some bl /\ 0 <= b_obj bl /\ b_obj bl + size_ <= b_size bl /\
    ((base.size (snd s') <= capacity)%nat ->
     exists s'', putMem ptr s' = (Ret tt, s'') /\ mm_inv true s'' held).
Proof.
  intros Hmem I Hsize. destruct (class_index_total size_ Hsize) as [i Hi].
  destruct (class_index_spec _ _ _ Hi) as (c & Hc & Hle & Hmin).
  destruct (getMem_pool true Hmem s held i c size_ I Hi Hc)
    as (ptr & p' & h' & qs' & k & E & Ip & Hh & Hk & Hf).
  pose proof Hf as (bl & Hbl & _ & _ & Ho & Hs). unfold obj_offset, OBJ_PADDING in Ho.
  exists i, c, ptr. eexists. exists bl. split_and!; [exact E|done|done|done|exact Hbl|lia|lia|].
  intros Hcap. pose proof (mm_inv_set true s held i c p' h' (ptr :: held i) qs' I Hc Hh Ip) as I'.
  destruct (putMem_pool true Hmem _ _ i c k ptr [] (held i) eq_refl I' Hc) as (s'' & E' & _ & I'');
    [by rewrite decide_True|done|done|done|].
  exists s''. split; [exact E'|]. destruct I'' as [Hl I'']. split; [done|]. intros j cj Hcj.
  destruct (I'' j cj Hcj) as (pj & qj & ? & Hpj). exists pj, qj. split; [done|].
  cbv beta in Hpj. destruct (decide (j = i)) as [->|]; done.
Qed.

(** In a build without [_MM_GMP_ON_] the pools write the stamp behind the
    object, but [putMem] always reads it in front: giving back a block from a
    pool reads memory before the allocation.  In every build the same holds for
    a block of more than 1 MiB, which comes from [malloc]. *)
Theorem memmgr_put_reads_before_block `{Malloc} gmp s held size_ :
  (forall h n, malloc_addr h n <> None) -> mm_inv gmp s held ->
  gmp = false \/ 1048576 < size_ ->
  exists ptr s', getMem gmp size_ s = (Ret (Some ptr), s') /\ putMem ptr s' = (Undef, s').
Proof.
  intros Hmem I Hb.
  assert (HU : forall ptr s' bl, snd s' !! ptr = Some bl -> b_obj bl = 0 ->
    putMem ptr s' = (Undef, s')).
  { intros ptr [ms h] bl Hbl Ho. unfold putMem, cbind, on_mm_heap, czoom, read_word, in_block. cbn [fst snd] in *.
    rewrite Hbl, Ho. done. }
  destruct (Z.le_gt_cases size_ 1048576) as [Hle|Hgt].
  - destruct Hb as [->|]; [|lia]. destruct (class_index_total size_ Hle) as [i Hi].
    destruct (class_index_spec _ _ _ Hi) as (c & Hc & _ & _).
    destruct (getMem_pool false Hmem s held i c size_ I Hi Hc)
      as (ptr & p' & h' & qs' & k & E & _ & _ & _ & bl & Hbl & _ & _ & Ho & _).
    exists ptr. eexists. split; [exact E|]. by eapply HU.
  - assert (Hn : class_index size_ size_classes = None) by (simpl; repeat case_match; b2p; done || lia).
    unfold getMem. rewrite Hn. unfold on_mm_heap, czoom, c_malloc.
    destruct (malloc_addr (snd s) size_) as [a|] eqn:Ea; [|by apply Hmem in Ea].
    exists a. eexists. split; [reflexivity|]. eapply HU; [apply lookup_insert_eq|done].
Qed.

(** ** Concrete runs *)

Section Runs.
#[local] Existing Instance simple_malloc.

Definition run_mm (gmp : bool) : mstate :=
  match MemMgr_init gmp DefaultAllocStrategy ∅ with
  | (Ret ps, h) => (mkMemMgr ps false, h)
  | (_, h) => (mkMemMgr [] false, h)
  end.

Lemma run_mm_inv gmp : mm_inv gmp (run_mm gmp) (fun _ => []).
Proof.
  assert (Hmem : forall h n, malloc_addr h n <> None) by discriminate.
  destruct (MemMgr_init_inv gmp Hmem DefaultAllocStrategy ∅) as (ps & h' & E & I).
  { unfold size_classes. repeat (constructor; [split_and!; vm_compute; done|]). constructor. }
  unfold run_mm. by rewrite E.
Qed.

Lemma memmgr_roundtrip_witness :
  exists i c ptr s', getMem true 100 (run_mm true) = (Ret (Some ptr), s') /\
    size_classes !! i = Some c /\ 100 <= c.
Proof.
  destruct (memmgr_roundtrip (run_mm true) (fun _ => []) 100) as (i & c & ptr & s' & bl & E & Hc & Hle & _).
  - discriminate.
  - apply run_mm_inv.
  - lia.
  - exists i, c, ptr, s'. split; [exact E|split; [exact Hc|exact Hle]].
Defined.

Lemma memmgr_put_reads_before_block_witness :
  exists ptr s', getMem false 100 (run_mm false) = (Ret (Some ptr), s') /\ putMem ptr s' = (Undef, s').
Proof.
  apply (memmgr_put_reads_before_block false (run_mm false) (fun _ => []) 100);
    [discriminate|apply run_mm_inv|by left].
Defined.
End Runs.
