(* ===== verification/ARTree.v ===== *)
(** * The persistent radix tree ([lib/pmem/ARTree], [RTreeEngine])

    Keys are 8 bytes; the tree has one level of 256-way nodes per byte, the last
    byte of the key first, and a leaf per key that points to a [ValueWrapper].
    A wrapper says where the value is: nowhere, in persistent memory, or on
    disk.

    Nodes only ever grow below the root and are never shared, so the nodes are a
    tree of Rocq values; wrappers, values and disk addresses are objects of the
    persistent pool with an address, because pointers to them are copied. *)

From S2P Require Import Prelude Status.

(** [enum LOCATIONS]. *)
Inductive LOCATIONS : Type := EMPTY | PMEM | DISK.

#[export] Instance LOCATIONS_eq_dec : EqDecision LOCATIONS.
Proof. solve_decision. Defined.

(** [struct PciAddr]. *)
Record PciAddr : Type := mkPciAddr { pci_domain : Z; pci_bus : Z; pci_dev : Z; pci_func : Z }.

#[export] Instance PciAddr_eq_dec : EqDecision PciAddr.
Proof. solve_decision. Defined.

(** [struct DeviceAddr]; the code only uses the PCI address of its union. *)
Record DeviceAddr : Type := mkDeviceAddr { lba : Z; pciAddr : PciAddr }.

(** [ValueWrapper::actionValue]: null, a DRAM object that holds the reservation
    of the value at an address, or a pointer to a deleted object. *)
Inductive action : Type := ANull | AOwned (value : positive) | ADangling.

(** [struct ValueWrapper].  [locationPtr] is the address in the union, of the
    value or of the [DeviceAddr].  [actionUpdate] is set and reset inside one
    operation and [parent] is never read. *)
Record ValueWrapper : Type := mkValueWrapper {
  location : LOCATIONS; locationPtr : option positive; vsize : Z;
  locationVolatile : LOCATIONS; actionValue : action }.

(** [Node256] and [NodeLeafCompressed]; [depth] is a field of both. *)
#[warnings="-register-all"] Inductive Node : Type :=
| Node256 (depth : Z) (children : list (option Node))
| NodeLeafCompressed (depth : Z) (child : option positive).

Definition depth (n : Node) : Z :=
  match n with Node256 d _ => d | NodeLeafCompressed d _ => d end.

(** [LEVEL_TYPE]: levels 0 to 7 are [TYPE256], level 8 is the leaf. *)
Definition LEVELS : Z := 9.
Definition NODE_SIZE : nat := 256.
Definition is_TYPE256 (level : Z) : bool := level <? LEVELS - 1.

(** What the tree uses of libpmemobj: [pmemobj_xreserve] takes a block of the
    pool or fails, [pmemobj_cancel] and [pmemobj_free] give one back. *)
Class PmemPool (P : Type) : Type := {
  pm_reserve : Z -> P -> option (positive * P);
  pm_release : positive -> P -> P;
  pm_live : P -> gset positive;
  pm_reserve_fresh : forall n p a p', pm_reserve n p = Some (a, p') ->
    (a ∉ pm_live p) /\ pm_live p' = {[a]} ∪ pm_live p;
  pm_release_live : forall a p, pm_live (pm_release a p) = pm_live p ∖ {[a]}
}.

Section Tree.
Context {P : Type} `{PmemPool P}.

(** [struct ARTreeRoot] and the objects of the pool. *)
Record heap : Type := mkHeap {
  wrappers : gmap positive ValueWrapper; iovs : gmap positive DeviceAddr; pool : P }.

Record ARTree : Type := mkARTree {
  rootNode : Node; initialized : bool; keySize : Z; objs : heap }.

(** Sizes in bytes; the code only passes them on. *)
Context (sizeof_Node256 sizeof_Leaf sizeof_ValueWrapper : Z).

Definition reserve (size : Z) : M exn heap positive := fun h =>
  match pm_reserve size (pool h) with
  | Some (a, p) => (Ret a, mkHeap (wrappers h) (iovs h) p)
  | None => (Throw (OperationFailedException PMEM_ALLOCATION_ERROR), h)
  end.
Definition release (a : positive) : M exn heap unit := fun h =>
  (Ret tt, mkHeap (wrappers h) (iovs h) (pm_release a (pool h))).

(** [w->field] for a [persistent_ptr<ValueWrapper>]. *)
Definition get_wrapper (w : positive) : M exn heap ValueWrapper := fun h =>
  match wrappers h !! w with Some v => (Ret v, h) | None => (Undef, h) end.
Definition set_wrapper (w : positive) (v : ValueWrapper) : M exn heap unit := fun h =>
  (Ret tt, mkHeap (<[w:=v]> (wrappers h)) (iovs h) (pool h)).

(** Code on a subtree and the heap. *)
Abbreviation TM A := (M exn (Node * heap) A).
Definition on_heap {A} (m : M exn heap A) : TM A := czoom snd (fun h s => (fst s, h)) m.
Definition set_node (n : Node) : TM unit := fun s => (Ret tt, (n, snd s)).

(** Continues in child [i] of the current node; what the call changed below
    stays, however it ends. *)
Definition at_child {A} (i : nat) (m : TM A) : TM A := fun s =>
  match fst s with
  | Node256 d cs =>
      match cs !! i with
      | Some (Some c) =>
          let r := m (c, snd s) in (fst r, (Node256 d (<[i := Some (fst (snd r))]> cs), snd (snd r)))
      | _ => (Undef, s)
      end
  | NodeLeafCompressed _ _ => (Undef, s)
  end.

(** [TreeImpl::allocateFullLevels].  With more than one level to allocate the
    code goes on with [children[256]], past the array. *)
Definition allocateFullLevels (levelsToAllocate : Z) : TM unit := fun s =>
  match fst s with
  | NodeLeafCompressed _ _ => (Ret tt, s)
  | Node256 d cs =>
      let depth := d + 1 in
      let child := if is_TYPE256 depth then Node256 depth (replicate NODE_SIZE None)
                   else NodeLeafCompressed depth None in
      let size := Z.of_nat NODE_SIZE * (if is_TYPE256 depth then sizeof_Node256 else sizeof_Leaf) in
      (let! _ := on_heap (reserve size) in
       set_node (Node256 d (replicate NODE_SIZE (Some child))) ;;;
       if 0 <? levelsToAllocate - 1 then cundef else cret tt) s
  end.

(** The wrapper of a leaf, made when it is missing.  The code writes [location] only: the
    [v<>] field [locationVolatile] starts as [EMPTY] by itself, and what the other fields
    of the reserved memory hold is not known.  They are written as null here; only
    [AllocValueForKey] makes a wrapper, and it sets the pointer and the action before it
    returns or throws, and the size before it returns. *)
Definition leaf_child (allocate : bool) (d : Z) (child : option positive) : TM (option positive) :=
  match child with
  | None =>
      if allocate then
        let! w := on_heap (reserve sizeof_ValueWrapper) in
        on_heap (set_wrapper w (mkValueWrapper EMPTY None 0 EMPTY ANull)) ;;;
        set_node (NodeLeafCompressed d (Some w)) ;;;
        cret (Some w)
      else cret None
  | Some w => cret (Some w)
  end.

(** [TreeImpl::findValueInNode]: the [while (1)] loop goes down one level per
    round; the fuel is the number of levels. *)
Fixpoint findValueInNode (fuel : nat) (keySize : Z) (key : list Z) (allocate : bool) :
    TM (option positive) :=
  match fuel with
  | O => cundef
  | S fuel =>
      let! (current, _) := cget in
      if depth current =? LEVELS - 1 then
        match current with
        | NodeLeafCompressed d child => leaf_child allocate d child
        | Node256 _ _ => cundef
        end
      else
        match key !! Z.to_nat (u64 (keySize - depth current - 1)) with
        | None => cundef
        | Some keyCalc =>
            match current with
            | NodeLeafCompressed _ _ => findValueInNode fuel keySize key allocate
            | Node256 _ cs =>
                match cs !! Z.to_nat keyCalc with
                | Some (Some _) =>
                    at_child (Z.to_nat keyCalc) (findValueInNode fuel keySize key allocate)
                | _ =>
                    if allocate then
                      allocateFullLevels 1 ;;;
                      at_child (Z.to_nat keyCalc) (findValueInNode fuel keySize key allocate)
                    else cret None
                end
            end
        end
  end.

(** ** The operations of [class ARTree] *)

Abbreviation AM A := (M exn ARTree A).

Definition find (key : list Z) (allocate : bool) : AM (option positive) := fun s =>
  let r := findValueInNode (Z.to_nat LEVELS) (keySize s) key allocate (rootNode s, objs s) in
  (fst r, mkARTree (fst (snd r)) (initialized s) (keySize s) (snd (snd r))).

Definition in_pool {A} (m : M exn heap A) : AM A :=
  czoom objs (fun h s => mkARTree (rootNode s) (initialized s) (keySize s) h) m.

(** The constructor on a new pool: the root and one level below it.  On an old
    pool see [reopen] below. *)
Definition TreeImpl_create (p : P) : outcome exn unit * ARTree :=
  let h := mkHeap ∅ ∅ p in
  let dummy := mkARTree (Node256 0 []) false 0 h in
  match reserve sizeof_Node256 h with
  | (Ret _, h) =>
      let r := allocateFullLevels 1 (Node256 0 (replicate NODE_SIZE None), h) in
      (fst r, mkARTree (fst (snd r)) false 0 (snd (snd r)))
  | (Throw e, _) => (Throw e, dummy)
  | (Crash, _) => (Crash, dummy)
  | (Undef, _) => (Undef, dummy)
  end.

(** [SetKeySize] ignores the size that is asked for. *)
Definition SetKeySize (req_size : Z) : AM Z := fun s =>
  (Ret (LEVELS - 1), mkARTree (rootNode s) (initialized s) (LEVELS - 1) (objs s)).

(** [Get]: the address of the value, or of its [DeviceAddr], its size and its
    location. *)
Definition Get (key : list Z) : AM (option positive * Z * LOCATIONS) :=
  let! w := find key false in
  match w with
  | None => cthrow (OperationFailedException KEY_NOT_FOUND)
  | Some w =>
      let! v := in_pool (get_wrapper w) in
      if bool_decide (location v = PMEM) && bool_decide (locationVolatile v <> EMPTY)
      then cret (locationPtr v, vsize v, PMEM)
      else if bool_decide (location v = DISK) then cret (locationPtr v, vsize v, DISK)
      else cthrow (OperationFailedException KEY_NOT_FOUND)
  end.

(** [Put]: the value was written through the pointer that [AllocValueForKey]
    returned; [Put] makes it visible. *)
Definition Put (key : list Z) : AM unit :=
  let! w := find key false in
  match w with
  | None => cthrow (OperationFailedException KEY_NOT_FOUND)
  | Some w =>
      (fun s => (Ret tt, mkARTree (rootNode s) true (keySize s) (objs s))) ;;;
      let! v := in_pool (get_wrapper w) in
      in_pool (set_wrapper w (mkValueWrapper PMEM (locationPtr v) (vsize v) PMEM (actionValue v)))
  end.

(** [pmemobj_cancel(pop, actionValue, 1)], then [delete actionValue]. *)
Definition cancel_action (a : action) : M exn heap unit :=
  match a with AOwned value => release value | ANull | ADangling => cundef end.

Definition set_location (l : LOCATIONS) (v : ValueWrapper) : ValueWrapper :=
  mkValueWrapper l (locationPtr v) (vsize v) (locationVolatile v) (actionValue v).

(** [pmemobj_free(valPrstPtr.raw_ptr())]: the wrapper is gone; the pointer that
    is reset is the local copy, not the one in the leaf. *)
Definition free_wrapper (w : positive) : M exn heap unit := fun h =>
  (Ret tt, mkHeap (delete w (wrappers h)) (iovs h) (pm_release w (pool h))).

Definition Remove (key : list Z) : AM unit :=
  let! w := find key false in
  match w with
  | None => cthrow (OperationFailedException KEY_NOT_FOUND)
  | Some w =>
      let! v := in_pool (get_wrapper w) in
      if bool_decide (location v = EMPTY) then cthrow (OperationFailedException KEY_NOT_FOUND)
      else if bool_decide (location v = PMEM) && bool_decide (locationVolatile v <> EMPTY) then
        in_pool (set_wrapper w (set_location EMPTY v)) ;;;
        in_pool (cancel_action (actionValue v)) ;;;
        in_pool (free_wrapper w)
      else in_pool (set_wrapper w (set_location EMPTY v))
  end.

(** [AllocValueForKey]: returns the address of the value. *)
Definition AllocValueForKey (key : list Z) (size : Z) : AM positive :=
  let! w := find key true in
  match w with
  | None => cthrow (OperationFailedException PMEM_ALLOCATION_ERROR)
  | Some w =>
      let! v := in_pool (get_wrapper w) in
      if negb (bool_decide (location v = EMPTY))
      then cthrow (OperationFailedException PMEM_ALLOCATION_ERROR)
      else
        ccatch
          (let! a := in_pool (reserve size) in
           in_pool (set_wrapper w (mkValueWrapper (location v) (Some a) size (locationVolatile v) (AOwned a))) ;;;
           cret a)
          (fun e =>
             in_pool (set_wrapper w (mkValueWrapper (location v) None (vsize v) (locationVolatile v) ADangling)) ;;;
             cthrow e)
  end.

(** [AllocateAndUpdateValueWrapper]: [actionValue] was made by [new] and is
    deleted with [delete[]], taken as [delete]; a failed reservation is not
    tested. *)
Definition AllocateAndUpdateValueWrapper (key : list Z) (size : Z) (devAddr : DeviceAddr) : AM unit :=
  let! w := find key false in
  match w with
  | None => cthrow (OperationFailedException PMEM_ALLOCATION_ERROR)
  | Some w =>
      let! v := in_pool (get_wrapper w) in
      in_pool (cancel_action (actionValue v)) ;;;
      let! s := cget in
      match pm_reserve size (pool (objs s)) with
      | None => cundef
      | Some (a, p) =>
          cput (mkARTree (rootNode s) (initialized s) (keySize s)
            (mkHeap (<[w := mkValueWrapper DISK (Some a) (vsize v) (locationVolatile v) ANull]> (wrappers (objs s)))
                    (<[a := devAddr]> (iovs (objs s))) p))
      end
  end.

(** Closing the pool and opening it again: the volatile part of a wrapper is
    reset, and pointers to DRAM dangle. *)
Definition reopen_wrapper (v : ValueWrapper) : ValueWrapper :=
  mkValueWrapper (location v) (locationPtr v) (vsize v) EMPTY
    (match actionValue v with ANull => ANull | _ => ADangling end).
Definition reopen (s : ARTree) : ARTree :=
  mkARTree (rootNode s) (initialized s) (keySize s)
    (mkHeap (reopen_wrapper <$> wrappers (objs s)) (iovs (objs s)) (pool (objs s))).

End Tree.

(** [getTreeSize] and [getTreeDepth]: depth-first; the depth is a [uint8_t]. *)
Fixpoint getTreeSize (leavesOnly : bool) (n : Node) : Z :=
  match n with
  | Node256 _ cs =>
      u64 ((fix go (l : list (option Node)) : Z :=
              match l with
              | [] => 0
              | Some c :: l => u64 (getTreeSize leavesOnly c + go l)
              | None :: l => go l
              end) cs + (if leavesOnly then 0 else 1))
  | NodeLeafCompressed _ _ => 1
  end.

Fixpoint getTreeDepth (n : Node) : Z :=
  match n with
  | Node256 _ cs =>
      u8 ((fix go (l : list (option Node)) : Z :=
             match l with
             | [] => 0
             | Some c :: l => Z.max (getTreeDepth c) (go l)
             | None :: l => go l
             end) cs + 1)
  | NodeLeafCompressed _ _ => 1
  end.

(** ** The shape of the tree and its leaves *)

(** [wf_node d n]: [n] is a node [d] levels above the leaves. *)
Fixpoint wf_node (d : nat) (n : Node) : Prop :=
  match d, n with
  | O, NodeLeafCompressed dep _ => dep = LEVELS - 1
  | S d', Node256 dep cs =>
      dep = LEVELS - 1 - Z.of_nat d /\ length cs = NODE_SIZE /\
      (cs = replicate NODE_SIZE None \/ Forall is_Some cs) /\
      Forall (fun o => match o with Some c => wf_node d' c | None => True end) cs
  | _, _ => False
  end.

(** The bytes of a key in the order the tree uses them: from byte [d - 1] down. *)
Fixpoint path_of (d : nat) (key : list Z) : list nat :=
  match d with
  | O => []
  | S d' => Z.to_nat (default 0 (key !! d')) :: path_of d' key
  end.

(** The wrapper that a path leads to. *)
Fixpoint child_at (path : list nat) (n : Node) : option positive :=
  match path, n with
  | [], NodeLeafCompressed _ c => c
  | i :: path, Node256 _ cs =>
      match cs !! i with Some (Some c) => child_at path c | _ => None end
  | _, _ => None
  end.

Definition wf_key (key : list Z) : Prop :=
  length key = 8%nat /\ Forall (fun b => 0 <= b < 256) key.

Lemma path_of_length d key : length (path_of d key) = d.
Proof. induction d; simpl; auto. Qed.

Lemma wf_key_lookup key d : wf_key key -> (d < 8)%nat ->
  exists b, key !! d = Some b /\ 0 <= b < 256.
Proof.
  intros [Hl HF] Hd. destruct (lookup_lt_is_Some_2 key d ltac:(lia)) as [b Hb].
  exists b. split; [done|]. by eapply (Forall_lookup_1 _ _ _ _ HF).
Qed.

Lemma path_of_take d key : (d <= length key)%nat -> path_of d key = Z.to_nat <$> reverse (take d key).
Proof.
  induction d as [|d IH]; intros Hd; [done|]. destruct (lookup_lt_is_Some_2 key d ltac:(lia)) as [b Hb].
  simpl. rewrite (take_S_r _ _ _ Hb), reverse_snoc. simpl. rewrite Hb, IH by lia. done.
Qed.

(** Different keys have different paths. *)
Lemma path_of_inj key key' : wf_key key -> wf_key key' -> path_of 8 key = path_of 8 key' -> key = key'.
Proof.
  intros [Hl HF] [Hl' HF'] E. rewrite !path_of_take, !take_ge in E by lia.
  assert (HI : forall l l' : list Z, Forall (fun b => 0 <= b < 256) l -> Forall (fun b => 0 <= b < 256) l' ->
    Z.to_nat <$> l = Z.to_nat <$> l' -> l = l').
  { clear. induction l as [|x l IH]; intros [|y l'] H1 H2 E; try done. simpl in E. injection E as Ex El.
    apply Forall_cons in H1 as [? ?], H2 as [? ?]. f_equal; [lia|]. by apply IH. }
  apply HI in E; [by apply (inj reverse)|by apply Forall_reverse..].
Qed.

Lemma wf_node_child d dep cs i c :
  wf_node (S d) (Node256 dep cs) -> cs !! i = Some (Some c) -> wf_node d c.
Proof. intros (_ & _ & _ & HF) Hi. by apply (Forall_lookup_1 _ _ _ _ HF Hi). Qed.

Lemma wf_node_insert d dep cs i c0 c :
  wf_node (S d) (Node256 dep cs) -> cs !! i = Some (Some c0) -> wf_node d c ->
  wf_node (S d) (Node256 dep (<[i := Some c]> cs)).
Proof.
  intros (? & ? & Hfull & HF) Hi Hc. split_and!; [done|by rewrite length_insert| |by apply Forall_insert].
  right. destruct Hfull as [->|Hs]; [by apply lookup_replicate in Hi as [? _]|by apply Forall_insert].
Qed.

(** A missing child means that the level below was not made. *)
Lemma wf_node_missing d dep cs i :
  wf_node (S d) (Node256 dep cs) -> (i < NODE_SIZE)%nat -> (forall c, cs !! i <> Some (Some c)) ->
  cs = replicate NODE_SIZE None.
Proof.
  intros (_ & Hl & [?|Hs] & _) Hi Hc; [done|]. exfalso.
  destruct (lookup_lt_is_Some_2 cs i ltac:(lia)) as [o Ho].
  destruct (Forall_lookup_1 _ _ _ _ Hs Ho) as [c ->]. by apply (Hc c).
Qed.

(** The node that [allocateFullLevels] makes below a node of depth [dep]. *)
Definition new_child (dep : Z) : Node :=
  if is_TYPE256 (dep + 1) then Node256 (dep + 1) (replicate NODE_SIZE None)
  else NodeLeafCompressed (dep + 1) None.

Lemma wf_new_child d : (d < 8)%nat -> wf_node d (new_child (LEVELS - 1 - Z.of_nat (S d))).
Proof.
  intros Hd. unfold new_child, is_TYPE256. destruct d as [|d].
  - done.
  - destruct (Z.ltb_spec (LEVELS - 1 - Z.of_nat (S (S d)) + 1) (LEVELS - 1)); [|lia].
    split_and!; [lia|apply length_replicate|by left|]. by apply Forall_replicate.
Qed.

Lemma child_at_new dep path : child_at path (new_child dep) = None.
Proof.
  unfold new_child. destruct (is_TYPE256 _), path as [|i path]; try done. cbn [child_at].
  destruct (replicate NODE_SIZE None !! i) as [[c|]|] eqn:E; try done.
  apply lookup_replicate in E as [? _]. done.
Qed.

Lemma child_at_insert dep cs i c path j :
  (i < length cs)%nat ->
  child_at (j :: path) (Node256 dep (<[i := Some c]> cs)) =
  if decide (j = i) then child_at path c else child_at (j :: path) (Node256 dep cs).
Proof.
  intros Hi. cbn [child_at]. case_decide; [subst; by rewrite list_lookup_insert_eq|].
  by rewrite list_lookup_insert_ne.
Qed.

#[local] Arguments path_of : simpl never.
#[local] Arguments child_at : simpl never.

Lemma path_of_S d key b : key !! d = Some b -> path_of (S d) key = Z.to_nat b :: path_of d key.
Proof. intros E. unfold path_of at 1. fold path_of. by rewrite E. Qed.

Section FindLemmas.
Context {P : Type} `{PmemPool P} (szN szL szW : Z).

Abbreviation findV := (findValueInNode szN szL szW).

(** Searching without allocation reads the path and changes nothing. *)
Lemma find_lookup key : wf_key key -> forall d fuel n h, (d <= 8)%nat -> (d < fuel)%nat -> wf_node d n ->
  findV fuel 8 key false (n, h) = (Ret (child_at (path_of d key) n), (n, h)).
Proof.
  intros Hk. induction d as [|d IH]; intros [|fuel] n h Hd Hfu Hn; try lia.
  - destruct n as [dep cs|dep c]; [done|]. simpl in Hn. subst. cbn [findValueInNode].
    unfold cbind at 1, cget at 1. cbn [depth]. destruct c; done.
  - destruct n as [dep cs|dep c]; [|done]. pose proof Hn as (Hdep & Hlen & _ & _).
    destruct (wf_key_lookup key d Hk ltac:(lia)) as (b & Hb & Hbr).
    cbn [findValueInNode]. unfold cbind at 1, cget at 1. cbn [depth].
    destruct (Z.eqb_spec dep (LEVELS - 1)) as [|Hne]; [unfold LEVELS in *; lia|].
    replace (Z.to_nat (u64 (8 - dep - 1))) with d by (rewrite uwrap_id; unfold LEVELS in *; lia).
    rewrite Hb, (path_of_S _ _ _ Hb). unfold child_at; fold child_at.
    destruct (cs !! Z.to_nat b) as [[c|]|] eqn:Ec; try done.
    unfold at_child. cbn [fst snd]. rewrite Ec.
    rewrite (IH fuel c h ltac:(lia) ltac:(lia) (wf_node_child _ _ _ _ _ Hn Ec)). cbn [fst snd].
    by rewrite list_insert_id.
Qed.

Definition fresh_wrapper : ValueWrapper := mkValueWrapper EMPTY None 0 EMPTY ANull.

(** What searching with allocation may change: the tree grows, other paths lead
    where they led, and the only new object is the wrapper of the key. *)
Definition find_post (path : list nat) (n : Node) (h : @heap P)
    (r : outcome exn (option positive)) (n' : Node) (h' : @heap P) : Prop :=
  (forall path', length path' = length path -> path' <> path -> child_at path' n' = child_at path' n) /\
  iovs h' = iovs h /\ pm_live (pool h) ⊆ pm_live (pool h') /\
  match r with
  | Ret (Some w) => child_at path n' = Some w /\
      ((child_at path n = Some w /\ wrappers h' = wrappers h) \/
       (child_at path n = None /\ (w ∉ pm_live (pool h)) /\ w ∈ pm_live (pool h') /\
        wrappers h' = <[w := fresh_wrapper]> (wrappers h)))
  | Throw e => e = OperationFailedException PMEM_ALLOCATION_ERROR /\
      child_at path n = None /\ child_at path n' = None /\ wrappers h' = wrappers h
  | _ => False
  end.

Lemma reserve_spec (h : @heap P) size :
  match reserve size h with
  | (Ret a, h') => wrappers h' = wrappers h /\ iovs h' = iovs h /\
      (a ∉ pm_live (pool h)) /\ pm_live (pool h') = {[a]} ∪ pm_live (pool h)
  | (Throw e, h') => e = OperationFailedException PMEM_ALLOCATION_ERROR /\ h' = h
  | _ => False
  end.
Proof.
  unfold reserve. destruct (pm_reserve size (pool h)) as [[a p]|] eqn:E; [|done].
  simpl. pose proof (pm_reserve_fresh _ _ _ _ E). tauto.
Qed.

(** The leaf level. *)
Lemma find_leaf c (h : @heap P) :
  exists r n' h', leaf_child szW true (LEVELS - 1) c (NodeLeafCompressed (LEVELS - 1) c, h) = (r, (n', h')) /\
    wf_node 0 n' /\ find_post [] (NodeLeafCompressed (LEVELS - 1) c) h r n' h'.
Proof.
  unfold leaf_child. destruct c as [w|].
  - do 3 eexists. split; [done|]. split; [done|]. split_and!; try done. by left.
  - unfold cbind, on_heap, czoom. cbn [fst snd]. pose proof (reserve_spec h szW) as Hr.
    destruct (reserve szW h) as [[a|e| |] h1]; try done; cbn [fst snd].
    + destruct Hr as (Ew & Ei & Ha & El). do 3 eexists. split; [done|]. split; [done|].
      split_and!; simpl; [|done|set_solver|done|].
      * intros [|] ? ?; done.
      * right. split_and!; [done|done|set_solver|by rewrite Ew].
    + destruct Hr as [-> ->]. do 3 eexists. split; [done|]. split; [done|]. by split_and!.
Qed.

(** One level up: the search continued in child [i], whose subtree was [c]. *)
Lemma find_post_up i path dep cs c h r c' h' :
  cs !! i = Some (Some c) -> find_post path c h r c' h' ->
  find_post (i :: path) (Node256 dep cs) h r (Node256 dep (<[i := Some c']> cs)) h'.
Proof.
  intros Hi (Hoth & Hiov & Hlive & Hr). pose proof (lookup_lt_Some _ _ _ Hi) as Hlt.
  assert (E1 : child_at (i :: path) (Node256 dep cs) = child_at path c).
  { unfold child_at at 1; fold child_at. by rewrite Hi. }
  assert (E2 : child_at (i :: path) (Node256 dep (<[i := Some c']> cs)) = child_at path c').
  { rewrite child_at_insert by done. by rewrite decide_True. }
  split_and!; [|done|done|].
  - intros [|j path'] Hl Hne; [done|]. rewrite child_at_insert by done. case_decide; [|done].
    subst j. unfold child_at at 2; fold child_at. rewrite Hi. apply Hoth; [by injection Hl|congruence].
  - by rewrite E1, E2.
Qed.

(** The levels that are missing on the way are made. *)
Lemma allocate_level d dep cs i (h : @heap P) :
  wf_node (S d) (Node256 dep cs) -> (d < 8)%nat -> (i < NODE_SIZE)%nat ->
  (forall c, cs !! i <> Some (Some c)) ->
  exists r n' h', allocateFullLevels szN szL 1 (Node256 dep cs, h) = (r, (n', h')) /\
    wrappers h' = wrappers h /\ iovs h' = iovs h /\ pm_live (pool h) ⊆ pm_live (pool h') /\
    match r with
    | Ret _ => n' = Node256 dep (replicate NODE_SIZE (Some (new_child dep)))
    | Throw e => e = OperationFailedException PMEM_ALLOCATION_ERROR /\ n' = Node256 dep cs
    | _ => False
    end.
Proof.
  intros Hn Hd Hi Hc. unfold allocateFullLevels. cbn [fst snd].
  unfold cbind, on_heap, czoom. cbn [fst snd].
  set (sz := Z.of_nat NODE_SIZE * _). pose proof (reserve_spec h sz) as Hr.
  destruct (reserve sz h) as [[a|e| |] h1]; try done; cbn [fst snd].
  - destruct Hr as (? & ? & ? & El). do 3 eexists. split; [reflexivity|]. split_and!; try done. set_solver.
  - destruct Hr as [-> ->]. do 3 eexists. split; [reflexivity|]. by split_and!.
Qed.

(** A level full of new children has no wrapper yet. *)
Lemma wf_new_level d dep cs :
  wf_node (S d) (Node256 dep cs) -> (d < 8)%nat ->
  wf_node (S d) (Node256 dep (replicate NODE_SIZE (Some (new_child dep)))).
Proof.
  intros (-> & _) Hd. split_and!; [done|apply length_replicate|right|]; apply Forall_replicate; [done|].
  by apply wf_new_child.
Qed.

Lemma child_at_new_level dep path cs :
  cs = replicate NODE_SIZE None ->
  child_at path (Node256 dep (replicate NODE_SIZE (Some (new_child dep)))) = child_at path (Node256 dep cs).
Proof.
  intros ->. destruct path as [|j path]; [done|]. unfold child_at; fold child_at.
  destruct (replicate NODE_SIZE (Some (new_child dep)) !! j) as [[c|]|] eqn:E;
    destruct (replicate NODE_SIZE None !! j) as [[c'|]|] eqn:E';
    try (apply lookup_replicate in E as [? _]); try (apply lookup_replicate in E' as [? _]); simplify_eq; try done;
    apply child_at_new.
Qed.

(** Composition with the making of levels, which changes no path. *)
Lemma find_post_level path n n1 h h1 r n' h' :
  (forall path', child_at path' n1 = child_at path' n) ->
  wrappers h1 = wrappers h -> iovs h1 = iovs h -> pm_live (pool h) ⊆ pm_live (pool h1) ->
  find_post path n1 h1 r n' h' -> find_post path n h r n' h'.
Proof.
  intros Hc Hw Hi Hl (Hoth & Hiov & Hlive & Hr). split_and!.
  - intros. rewrite <- Hc. by apply Hoth.
  - congruence.
  - by transitivity (pm_live (pool h1)).
  - rewrite <- (Hc path), <- Hw. destruct r as [[w|]|e| |]; try done.
    destruct Hr as [? [[? ?]|(? & ? & ? & ?)]]; split; [done|by left|done|]. right. split_and!; try done. set_solver.
Qed.

(** Searching with allocation. *)
Lemma find_allocate key : wf_key key -> forall d fuel n h, (d <= 8)%nat -> (d < fuel)%nat -> wf_node d n ->
  exists r n' h', findV fuel 8 key true (n, h) = (r, (n', h')) /\ wf_node d n' /\
    find_post (path_of d key) n h r n' h'.
Proof.
  intros Hk. induction d as [|d IH]; intros [|fuel] n h Hd Hfu Hn; try lia.
  - destruct n as [dep cs|dep c]; [done|]. simpl in Hn. subst. cbn [findValueInNode].
    unfold cbind at 1, cget at 1. apply find_leaf.
  - destruct n as [dep cs|dep c]; [|done]. pose proof Hn as (Hdep & Hlen & _ & _).
    destruct (wf_key_lookup key d Hk ltac:(lia)) as (b & Hb & Hbr).
    cbn [findValueInNode]. unfold cbind at 1, cget at 1. cbn [depth].
    destruct (Z.eqb_spec dep (LEVELS - 1)) as [|Hne]; [unfold LEVELS in *; lia|].
    replace (Z.to_nat (u64 (8 - dep - 1))) with d by (rewrite uwrap_id; unfold LEVELS in *; lia).
    rewrite Hb, (path_of_S _ _ _ Hb). set (i := Z.to_nat b).
    assert (Hi : (i < NODE_SIZE)%nat) by (unfold i, NODE_SIZE; lia).
    assert (Hgo : forall cs h, wf_node (S d) (Node256 dep cs) -> (exists c, cs !! i = Some (Some c)) ->
      exists r n' h', at_child i (findV fuel 8 key true) (Node256 dep cs, h) = (r, (n', h')) /\
        wf_node (S d) n' /\ find_post (i :: path_of d key) (Node256 dep cs) h r n' h').
    { intros cs' h' Hn' [c Hc]. unfold at_child. cbn [fst snd]. rewrite Hc.
      destruct (IH fuel c h' ltac:(lia) ltac:(lia) (wf_node_child _ _ _ _ _ Hn' Hc)) as (r & n1 & h1 & E & Hw & Hp).
      rewrite E. cbn [fst snd]. do 3 eexists. split; [reflexivity|]. split; [by eapply wf_node_insert|].
      by apply (find_post_up i _ dep cs' c). }
    destruct (cs !! i) as [[c|]|] eqn:Ec; [by apply Hgo; eauto|..].
    all: assert (Hmiss : forall c, cs !! i <> Some (Some c)) by (intros c; by rewrite Ec).
    all: destruct (allocate_level d dep cs i h Hn ltac:(lia) Hi Hmiss) as (r & n1 & h1 & E & Ew & Ei & El & Hr).
    all: pose proof (wf_node_missing _ _ _ _ Hn Hi Hmiss) as Hcs; unfold cbind; rewrite E.
    all: destruct r as [[]|e| |]; try done.
    1,3: subst n1; destruct (Hgo _ h1 (wf_new_level d dep cs Hn ltac:(lia))) as (r & n' & h' & E' & Hw & Hp);
      [eexists; by apply lookup_replicate_2|].
    1,2: rewrite E'; do 3 eexists; split; [reflexivity|]; split; [done|];
      eapply find_post_level; [|done..]; intros; by apply child_at_new_level.
    all: destruct Hr as [-> ->]; do 3 eexists; split; [reflexivity|]; split; [done|]; split_and!; try done.
    all: unfold child_at; by rewrite Ec.
Qed.
End FindLemmas.

(** ** The invariant of the tree

    The objects of the pool: wrappers and disk addresses are live blocks, and a
    reserved value belongs to one wrapper and is no other object. *)
Section Invariant.
Context {P : Type} `{PmemPool P} (szN szL szW : Z).

Record heap_inv (h : @heap P) : Prop := {
  hi_wrappers : dom (wrappers h) ⊆ pm_live (pool h);
  hi_iovs : dom (iovs h) ⊆ pm_live (pool h);
  hi_own : forall w v a, wrappers h !! w = Some v -> actionValue v = AOwned a ->
    a ∈ pm_live (pool h) /\ (a ∉ dom (wrappers h)) /\ (a ∉ dom (iovs h));
  hi_own_inj : forall w w' v v' a, wrappers h !! w = Some v -> wrappers h !! w' = Some v' ->
    actionValue v = AOwned a -> actionValue v' = AOwned a -> w = w';
  hi_ptr : forall w v a, wrappers h !! w = Some v -> locationPtr v = Some a -> a ∈ pm_live (pool h);
  hi_ptr_inj : forall w w' v v' a, wrappers h !! w = Some v -> wrappers h !! w' = Some v' ->
    locationPtr v = Some a -> locationPtr v' = Some a -> w = w';
  hi_own_ptr : forall w v a, wrappers h !! w = Some v -> actionValue v = AOwned a -> locationPtr v = Some a }.

(** The wrapper of a key: the abstract value of the tree is this map. *)
Definition leaf_of (n : Node) (key : list Z) : option positive := child_at (path_of 8 key) n.
Definition wrapper_of (s : @ARTree P) (key : list Z) : option ValueWrapper :=
  match leaf_of (rootNode s) key with
  | Some w => wrappers (objs s) !! w
  | None => None
  end.

Record art_inv (s : @ARTree P) : Prop := {
  ai_shape : wf_node 8 (rootNode s);
  ai_key : keySize s = 8;
  ai_heap : heap_inv (objs s);
  ai_live : forall key w, wf_key key -> leaf_of (rootNode s) key = Some w ->
    exists v, wrappers (objs s) !! w = Some v;
  ai_inj : forall key key' w, wf_key key -> wf_key key' ->
    leaf_of (rootNode s) key = Some w -> leaf_of (rootNode s) key' = Some w -> key = key' }.

(** [find] on a tree. *)
Lemma find_shape key s : wf_key key -> wf_node 8 (rootNode s) -> keySize s = 8 ->
  find szN szL szW key false s = (Ret (leaf_of (rootNode s) key), s).
Proof.
  intros Hk Hn Hs. unfold find. rewrite Hs.
  rewrite (find_lookup szN szL szW key Hk 8 (Z.to_nat LEVELS) (rootNode s) (objs s)); [|lia|unfold LEVELS; lia|done].
  cbn [fst snd]. destruct s. simpl in *. by rewrite Hs.
Qed.

Lemma find_false key s : wf_key key -> art_inv s ->
  find szN szL szW key false s = (Ret (leaf_of (rootNode s) key), s).
Proof. intros Hk I. by apply find_shape; [|apply I..]. Qed.

(** A new wrapper for a key, at an address that was not live. *)
Lemma heap_inv_fresh (h h' : @heap P) w :
  heap_inv h -> w ∉ pm_live (pool h) -> w ∈ pm_live (pool h') -> pm_live (pool h) ⊆ pm_live (pool h') ->
  wrappers h' = <[w := fresh_wrapper]> (wrappers h) -> iovs h' = iovs h -> heap_inv h'.
Proof.
  intros [Hw Hi Ho Hinj Hp Hpi Hop] Hf Hl Hsub Ew Ei.
  assert (Hne : forall w' v, <[w := fresh_wrapper]> (wrappers h) !! w' = Some v ->
    forall a, actionValue v = AOwned a \/ locationPtr v = Some a -> wrappers h !! w' = Some v).
  { intros w' v. destruct (decide (w' = w)) as [->|]; [rewrite lookup_insert_eq|by rewrite lookup_insert_ne].
    by intros [= <-] a [|]. }
  split; rewrite ?Ew, ?Ei, ?dom_insert_L.
  - set_solver.
  - set_solver.
  - intros w' v a Hv Ha. destruct (Ho _ _ _ (Hne _ _ Hv a (or_introl Ha)) Ha) as (? & ? & ?).
    split_and!; [set_solver| |done]. rewrite elem_of_union, elem_of_singleton. intros [->|]; [|done]. done.
  - intros w1 w2 v1 v2 a H1 H2 A1 A2. eapply Hinj; eauto.
  - intros w' v a Hv Ha. apply Hsub. eapply Hp; eauto.
  - intros w1 w2 v1 v2 a H1 H2 A1 A2. eapply Hpi; eauto.
  - intros w' v a Hv Ha. eapply Hop; eauto.
Qed.

(** Growing the pool changes nothing that the invariant speaks about. *)
Lemma heap_inv_grow (h h' : @heap P) :
  heap_inv h -> pm_live (pool h) ⊆ pm_live (pool h') -> wrappers h' = wrappers h -> iovs h' = iovs h ->
  heap_inv h'.
Proof.
  intros [Hw Hi Ho Hinj Hp Hpi Hop] Hsub Ew Ei. split; rewrite ?Ew, ?Ei; [set_solver..| |done| |done|done].
  - intros w v a Hv Ha. destruct (Ho w v a Hv Ha) as (? & ? & ?). split_and!; try done. set_solver.
  - intros w v a Hv Ha. apply Hsub. eapply Hp; eauto.
Qed.

(** A tree whose keys lead where they led. *)
Lemma same_leaves s n' b (h' : @heap P) :
  art_inv s -> wf_node 8 n' -> heap_inv h' -> wrappers h' = wrappers (objs s) ->
  (forall k, wf_key k -> leaf_of n' k = leaf_of (rootNode s) k) ->
  art_inv (mkARTree n' b 8 h') /\
  forall k, wf_key k -> wrapper_of (mkARTree n' b 8 h') k = wrapper_of s k.
Proof.
  intros I Hn Hh Ew Hl. split.
  - split; simpl; try done.
    + intros k w Hk. rewrite Hl, Ew by done. by apply I.
    + intros k k' w Hk Hk'. rewrite !Hl by done. by apply I.
  - intros k Hk. unfold wrapper_of. simpl. by rewrite Hl, Ew.
Qed.

(** A tree in which one key got a wrapper at an address that was not live. *)
Lemma new_leaf s n' b (h' : @heap P) key w v :
  wf_key key -> art_inv s -> wf_node 8 n' -> heap_inv h' ->
  wrappers h' = <[w := v]> (wrappers (objs s)) -> w ∉ pm_live (pool (objs s)) ->
  leaf_of n' key = Some w ->
  (forall k, wf_key k -> k <> key -> leaf_of n' k = leaf_of (rootNode s) k) ->
  art_inv (mkARTree n' b 8 h') /\ wrapper_of (mkARTree n' b 8 h') key = Some v /\
  forall k, wf_key k -> k <> key -> wrapper_of (mkARTree n' b 8 h') k = wrapper_of s k.
Proof.
  intros Hkey I Hn Hh Ew Hf Hw Hl.
  assert (Hold : forall k x, wf_key k -> leaf_of (rootNode s) k = Some x -> w <> x).
  { intros k x Hwk Hx <-. destruct (ai_live _ I k w Hwk Hx) as [u Hu].
    apply elem_of_dom_2, (hi_wrappers _ (ai_heap _ I)) in Hu. done. }
  split_and!.
  - split; simpl; try done.
    + intros k x Hk Hx. rewrite Ew. destruct (decide (k = key)) as [->|Hne].
      * rewrite Hw in Hx. injection Hx as <-. rewrite lookup_insert_eq. eauto.
      * rewrite Hl in Hx by done. rewrite lookup_insert_ne by (by apply (Hold k)). by apply (ai_live _ I k).
    + intros k k' x Hk Hk' Hx Hx'.
      destruct (decide (k = key)) as [->|Hne], (decide (k' = key)) as [->|Hne']; [done|..];
        rewrite ?Hl in * by done; rewrite ?Hw in *; simplify_eq.
      * by apply Hold in Hx'.
      * by apply Hold in Hx.
      * by apply (ai_inj _ I k k' x).
  - unfold wrapper_of. simpl. rewrite Hw, Ew. apply lookup_insert_eq.
  - intros k Hk Hne. unfold wrapper_of. simpl. rewrite Hl by done.
    destruct (leaf_of (rootNode s) k) as [x|] eqn:Ex; [|done].
    by rewrite Ew, lookup_insert_ne by (by apply (Hold k)).
Qed.

(** [find] with allocation: the key has a wrapper afterwards, new and empty when
    it had none, and nothing else changed; or the pool is exhausted. *)
Lemma find_true key s : wf_key key -> art_inv s ->
  exists r s', find szN szL szW key true s = (r, s') /\ art_inv s' /\ initialized s' = initialized s /\
    iovs (objs s') = iovs (objs s) /\ pm_live (pool (objs s)) ⊆ pm_live (pool (objs s')) /\
    (forall key', wf_key key' -> key' <> key -> wrapper_of s' key' = wrapper_of s key') /\
    match r with
    | Ret (Some w) => leaf_of (rootNode s') key = Some w /\
        wrapper_of s' key = Some (default fresh_wrapper (wrapper_of s key))
    | Throw e => e = OperationFailedException PMEM_ALLOCATION_ERROR /\
        wrapper_of s key = None /\ wrapper_of s' key = None
    | _ => False
    end.
Proof.
  intros Hk I.
  destruct (find_allocate szN szL szW key Hk 8 (Z.to_nat LEVELS) (rootNode s) (objs s)) as
    (r & n' & h' & E & Hn & (Hoth & Hiov & Hlive & Hr)); [lia|unfold LEVELS; lia|apply I|].
  exists r. eexists. unfold find. rewrite (ai_key _ I), E. cbn [fst snd]. split; [reflexivity|].
  assert (Hpath : forall k, wf_key k -> k <> key -> leaf_of n' k = leaf_of (rootNode s) k).
  { intros k Hwk Hne. apply Hoth; [by rewrite !path_of_length|]. intros Ep. by apply Hne, path_of_inj. }
  destruct r as [[w|]|e| |]; try done.
  - destruct Hr as [Hw [[Hold Ew]|(Hnone & Hf & Hl & Ew)]].
    + destruct (same_leaves s n' (initialized s) h' I Hn) as [HI HW];
        [by eapply heap_inv_grow; [apply I|..]|done| |].
      { intros k Hwk. destruct (decide (k = key)) as [->|]; [|by apply Hpath]. unfold leaf_of. congruence. }
      split_and!; try done; [by intros; apply HW|]. rewrite HW by done. unfold wrapper_of, leaf_of.
      rewrite Hold. destruct (ai_live _ I key w Hk Hold) as [v Hv]. by rewrite Hv.
    + destruct (new_leaf s n' (initialized s) h' key w fresh_wrapper Hk I Hn) as (HI & HW & HW');
        [by eapply heap_inv_fresh; [apply I|..]|done..|].
      split_and!; try done. rewrite HW. unfold wrapper_of, leaf_of. by rewrite Hnone.
  - destruct Hr as (-> & Hnone & Hnone' & Ew).
    destruct (same_leaves s n' (initialized s) h' I Hn) as [HI HW];
      [by eapply heap_inv_grow; [apply I|..]|done| |].
    { intros k Hwk. destruct (decide (k = key)) as [->|]; [|by apply Hpath]. unfold leaf_of. congruence. }
    assert (Hn0 : wrapper_of s key = None) by (unfold wrapper_of, leaf_of; by rewrite Hnone).
    split_and!; try done; [by intros; apply HW|by rewrite HW].
Qed.

(** Rewriting the wrapper [w]. *)
Lemma heap_inv_set (h h' : @heap P) w v v' :
  heap_inv h -> wrappers h !! w = Some v -> wrappers h' = <[w := v']> (wrappers h) ->
  dom (wrappers h) ⊆ pm_live (pool h') -> dom (iovs h') ⊆ pm_live (pool h') ->
  (forall w' u a, w' <> w -> wrappers h !! w' = Some u -> actionValue u = AOwned a ->
     a ∈ pm_live (pool h') /\ (a ∉ dom (iovs h'))) ->
  (forall a, actionValue v' = AOwned a ->
     a ∈ pm_live (pool h') /\ (a ∉ dom (wrappers h)) /\ (a ∉ dom (iovs h')) /\
     forall w' u, w' <> w -> wrappers h !! w' = Some u -> actionValue u <> AOwned a) ->
  (forall w' u a, w' <> w -> wrappers h !! w' = Some u -> locationPtr u = Some a -> a ∈ pm_live (pool h')) ->
  (forall a, locationPtr v' = Some a -> a ∈ pm_live (pool h') /\
     forall w' u, w' <> w -> wrappers h !! w' = Some u -> locationPtr u <> Some a) ->
  (forall a, actionValue v' = AOwned a -> locationPtr v' = Some a) ->
  heap_inv h'.
Proof.
  intros [Hw Hi Ho Hinj Hp Hpi Hop] Hv Ew Hdw Hdi Hrest Hnew Hprest Hpnew Hopn.
  assert (Hdom : dom (<[w := v']> (wrappers h)) = dom (wrappers h)).
  { rewrite dom_insert_L. apply elem_of_dom_2 in Hv. set_solver. }
  split; rewrite ?Ew, ?Hdom; try done.
  - intros w' u a. destruct (decide (w' = w)) as [->|Hne].
    + rewrite lookup_insert_eq. intros [= <-] Ha. destruct (Hnew a Ha) as (? & ? & ? & _). done.
    + rewrite lookup_insert_ne by done. intros Hu Ha. destruct (Hrest w' u a Hne Hu Ha).
      destruct (Ho w' u a Hu Ha) as (_ & ? & _). done.
  - intros w1 w2 u1 u2 a.
    destruct (decide (w1 = w)) as [->|N1], (decide (w2 = w)) as [->|N2];
      rewrite ?lookup_insert_eq, ?lookup_insert_ne by done; [done|..]; intros U1 U2 A1 A2; simplify_eq.
    + exfalso. destruct (Hnew a A1) as (_ & _ & _ & Hx). by apply (Hx w2 u2).
    + exfalso. destruct (Hnew a A2) as (_ & _ & _ & Hx). by apply (Hx w1 u1).
    + by eapply Hinj.
  - intros w' u a. destruct (decide (w' = w)) as [->|Hne]; rewrite ?lookup_insert_eq, ?lookup_insert_ne by done; intros Hu Ha;
      simplify_eq; [by apply Hpnew|by eapply Hprest].
  - intros w1 w2 u1 u2 a.
    destruct (decide (w1 = w)) as [->|N1], (decide (w2 = w)) as [->|N2];
      rewrite ?lookup_insert_eq, ?lookup_insert_ne by done; [done|..]; intros U1 U2 A1 A2; simplify_eq.
    + exfalso. destruct (Hpnew a A1) as (_ & Hx). by apply (Hx w2 u2).
    + exfalso. destruct (Hpnew a A2) as (_ & Hx). by apply (Hx w1 u1).
    + by eapply Hpi.
  - intros w' u a. destruct (decide (w' = w)) as [->|Hne]; rewrite ?lookup_insert_eq, ?lookup_insert_ne by done; intros Hu Ha;
      simplify_eq; [by apply Hopn|by eapply Hop].
Qed.

(** Rewriting the wrapper of a key in the tree. *)
Lemma set_leaf s b (h' : @heap P) key w v' :
  wf_key key -> art_inv s -> leaf_of (rootNode s) key = Some w ->
  wrappers h' = <[w := v']> (wrappers (objs s)) -> heap_inv h' ->
  let s' := mkARTree (rootNode s) b (keySize s) h' in
  art_inv s' /\ wrapper_of s' key = Some v' /\
  forall k, wf_key k -> k <> key -> wrapper_of s' k = wrapper_of s k.
Proof.
  intros Hk I Hw Ew Hh s'. split_and!.
  - split; simpl; try apply I; try done. intros k x Hwk Hx. rewrite Ew.
    destruct (decide (x = w)) as [->|]; [rewrite lookup_insert_eq; eauto|].
    rewrite lookup_insert_ne by done. by apply (ai_live _ I k).
  - unfold wrapper_of. simpl. rewrite Hw, Ew. apply lookup_insert_eq.
  - intros k Hwk Hne. unfold wrapper_of. simpl. destruct (leaf_of (rootNode s) k) as [x|] eqn:Ex; [|done].
    rewrite Ew, lookup_insert_ne; [done|]. intros <-. by apply Hne, (ai_inj _ I k key w).
Qed.

(** A wrapper with the reservation and the pointer of another, or with neither. *)
Definition same_refs (v v' : ValueWrapper) : Prop :=
  (actionValue v' = actionValue v /\ locationPtr v' = locationPtr v) \/
  ((forall a, actionValue v' <> AOwned a) /\ locationPtr v' = None).

Lemma heap_inv_keep (h : @heap P) w v v' :
  heap_inv h -> wrappers h !! w = Some v -> same_refs v v' ->
  heap_inv (mkHeap (<[w := v']> (wrappers h)) (iovs h) (pool h)).
Proof.
  intros I Hv Ha. pose proof I as [Hw Hi Ho Hinj Hp Hpi Hop].
  apply (heap_inv_set h _ w v v'); simpl; try done.
  - intros w' u a _ Hu Hua. destruct (Ho w' u a Hu Hua) as (? & _ & ?). done.
  - intros a Hva. destruct Ha as [[Ha _]|[Ha _]]; [|by apply Ha in Hva]. rewrite Ha in Hva.
    destruct (Ho w v a Hv Hva) as (? & ? & ?). split_and!; try done.
    intros w' u Hne Hu Hua. by apply Hne, (Hinj w' w u v a).
  - intros w' u a _. apply Hp.
  - intros a Hva. destruct Ha as [[_ Ha]|[_ Ha]]; [|congruence]. rewrite Ha in Hva. split; [by eapply Hp|].
    intros w' u Hne Hu Hua. by apply Hne, (Hpi w' w u v a).
  - intros a Hva. destruct Ha as [[Ha Hb]|[Ha _]]; [|by apply Ha in Hva]. rewrite Hb. rewrite Ha in Hva. by eapply Hop.
Qed.

Lemma set_leaf_keep s b key w v v' :
  wf_key key -> art_inv s -> leaf_of (rootNode s) key = Some w -> wrappers (objs s) !! w = Some v -> same_refs v v' ->
  let s' := mkARTree (rootNode s) b (keySize s)
              (mkHeap (<[w := v']> (wrappers (objs s))) (iovs (objs s)) (pool (objs s))) in
  art_inv s' /\ wrapper_of s' key = Some v' /\
  forall k, wf_key k -> k <> key -> wrapper_of s' k = wrapper_of s k.
Proof.
  intros Hk I El Hv Ha. apply (set_leaf s b _ key w v'); try done.
  by eapply heap_inv_keep; [apply I|..].
Qed.

(** The wrapper that [Get] can see. *)
Definition visible (v : ValueWrapper) : option (option positive * Z * LOCATIONS) :=
  match location v, locationVolatile v with
  | PMEM, EMPTY => None
  | PMEM, _ => Some (locationPtr v, vsize v, PMEM)
  | DISK, _ => Some (locationPtr v, vsize v, DISK)
  | EMPTY, _ => None
  end.

Definition view (s : @ARTree P) (key : list Z) : option (option positive * Z * LOCATIONS) :=
  match wrapper_of s key with Some v => visible v | None => None end.

Lemma view_wrapper s key v : wrapper_of s key = Some v -> view s key = visible v.
Proof. intros E. unfold view. by rewrite E. Qed.

Lemma leaf_wrapper s key : wf_key key -> art_inv s ->
  (leaf_of (rootNode s) key = None /\ wrapper_of s key = None) \/
  exists w v, leaf_of (rootNode s) key = Some w /\ wrappers (objs s) !! w = Some v /\
    wrapper_of s key = Some v.
Proof.
  intros Hk I. unfold wrapper_of. destruct (leaf_of (rootNode s) key) as [w|] eqn:E; [right|by left].
  destruct (ai_live _ I key w Hk E) as [v Hv]. exists w, v. by rewrite Hv.
Qed.

Lemma Get_view s key : wf_key key -> art_inv s ->
  Get szN szL szW key s =
  match view s key with
  | Some r => (Ret r, s)
  | None => (Throw (OperationFailedException KEY_NOT_FOUND), s)
  end.
Proof.
  intros Hk I. unfold Get, view. rewrite (cbind_ret _ _ _ _ _ (find_false key s Hk I)).
  destruct (leaf_wrapper s key Hk I) as [[-> ->]|(w & v & -> & Hv & ->)]; [done|].
  unfold cbind, in_pool, czoom, get_wrapper. rewrite Hv. cbn [fst snd]. destruct s as [n b ks h].
  simpl. unfold visible. by destruct (location v), (locationVolatile v).
Qed.

(** [Put] makes the wrapper of the key visible. *)
Lemma Put_spec s key : wf_key key -> art_inv s ->
  match wrapper_of s key with
  | None => Put szN szL szW key s = (Throw (OperationFailedException KEY_NOT_FOUND), s)
  | Some v => exists s', Put szN szL szW key s = (Ret tt, s') /\ art_inv s' /\
      wrapper_of s' key = Some (mkValueWrapper PMEM (locationPtr v) (vsize v) PMEM (actionValue v)) /\
      (forall k, wf_key k -> k <> key -> wrapper_of s' k = wrapper_of s k) /\
      iovs (objs s') = iovs (objs s)
  end.
Proof.
  intros Hk I. unfold Put. rewrite (cbind_ret _ _ _ _ _ (find_false key s Hk I)).
  destruct (leaf_wrapper s key Hk I) as [[-> ->]|(w & v & El & Hv & ->)]; [done|]. rewrite El.
  unfold cbind, in_pool, czoom, get_wrapper, set_wrapper. cbn [fst snd objs rootNode initialized keySize].
  rewrite Hv. cbn [fst snd]. eexists. split; [reflexivity|].
  set (v' := mkValueWrapper PMEM _ _ _ _).
  destruct (set_leaf_keep s true key w v v' Hk I El Hv) as (? & ? & ?); [by left|]. done.
Qed.

(** [AllocValueForKey]. *)
Definition allocated (v : ValueWrapper) (a : positive) (size : Z) : ValueWrapper :=
  mkValueWrapper EMPTY (Some a) size (locationVolatile v) (AOwned a).

Lemma Alloc_spec s key size : wf_key key -> art_inv s ->
  exists r s', AllocValueForKey szN szL szW key size s = (r, s') /\ art_inv s' /\
    (forall k, wf_key k -> k <> key -> wrapper_of s' k = wrapper_of s k) /\
    iovs (objs s') = iovs (objs s) /\
    let v := default fresh_wrapper (wrapper_of s key) in
    match r with
    | Ret a => location v = EMPTY /\ (a ∉ pm_live (pool (objs s))) /\
        wrapper_of s' key = Some (allocated v a size)
    | Throw e => e = OperationFailedException PMEM_ALLOCATION_ERROR /\
        (location v <> EMPTY -> wrapper_of s' key = wrapper_of s key) /\
        (location v = EMPTY -> view s' key = None /\ (wrapper_of s' key ≫= locationPtr) = None)
    | _ => False
    end.
Proof.
  intros Hk I. unfold AllocValueForKey.
  destruct (find_true key s Hk I) as (r & s1 & E & I1 & _ & Ei & El & Hoth & Hr).
  destruct r as [[w|]|e| |]; try done.
  2:{ rewrite (cbind_throw _ _ _ _ _ E). do 2 eexists. split; [reflexivity|]. destruct Hr as (-> & Hn & Hn').
      rewrite Hn. split_and!; try done. intros _. unfold view. by rewrite Hn'. }
  rewrite (cbind_ret _ _ _ _ _ E). destruct Hr as [Hl Hw].
  destruct (leaf_wrapper s1 key Hk I1) as [[? _]|(w' & v & Hl' & Hv & Hw')]; [congruence|].
  rewrite Hl in Hl'. injection Hl' as <-. rewrite Hw in Hw'. injection Hw' as Ev. rewrite Ev.
  unfold cbind at 1, in_pool at 1, czoom, get_wrapper. rewrite Hv. cbn [fst snd].
  assert (Es : mkARTree (rootNode s1) (initialized s1) (keySize s1) (objs s1) = s1) by (by destruct s1).
  rewrite Es. destruct (decide (location v = EMPTY)) as [Hloc|Hloc].
  2:{ rewrite bool_decide_eq_false_2 by done. do 2 eexists. split; [reflexivity|]. split_and!; try done.
      intros _. rewrite Hw. rewrite Ev. destruct (wrapper_of s key); simpl in *; [by subst|].
      exfalso. apply Hloc. by subst v. }
  rewrite bool_decide_eq_true_2 by done. cbn [negb]. unfold ccatch, cbind, in_pool, czoom.
  pose proof (reserve_spec (objs s1) size) as HR.
  destruct (reserve size (objs s1)) as [[a|e| |] h1] eqn:Er; try done; cbn [fst snd objs rootNode initialized keySize].
  - destruct HR as (Ew & Eiv & Ha & Elive). do 2 eexists. split; [reflexivity|].
    set (v' := mkValueWrapper (location v) (Some a) size (locationVolatile v) (AOwned a)).
    assert (Hh : heap_inv (mkHeap (<[w := v']> (wrappers h1)) (iovs h1) (pool h1))).
    { pose proof (ai_heap _ I1) as [Hd Hdi Ho Hinj Hp _ _].
      apply (heap_inv_set (objs s1) _ w v v'); cbn [wrappers iovs pool]; rewrite ?Ew, ?Eiv, ?Elive;
        [apply I1|exact Hv|reflexivity|set_solver|set_solver| | | | |intros b [= <-]; reflexivity].
      - intros w' u b _ Hu Hub. destruct (Ho w' u b Hu Hub) as (? & _ & ?). split; [set_solver|done].
      - intros b [= <-]. split_and!; [set_solver|set_solver|set_solver|].
        intros w' u _ Hu Hub. by destruct (Ho w' u a Hu Hub).
      - intros w' u b _ Hu Hub. apply elem_of_union_r. by eapply Hp.
      - intros b [= <-]. split; [set_solver|]. intros w' u _ Hu Hub. by apply Ha, (Hp w' u). }
    destruct (set_leaf s1 (initialized s1) (mkHeap (<[w := v']> (wrappers h1)) (iovs h1) (pool h1))
      key w v' Hk I1 Hl) as (HI & HW & HW'); [simpl; by rewrite Ew|done|].
    split_and!; try done; [|simpl; congruence|set_solver|].
    + intros k Hwk Hne. rewrite HW' by done. by apply Hoth.
    + etransitivity; [exact HW|]. unfold v', allocated. by rewrite Hloc.
  - destruct HR as [-> ->]. do 2 eexists. split; [reflexivity|].
    set (v' := mkValueWrapper (location v) None (vsize v) (locationVolatile v) ADangling).
    destruct (set_leaf_keep s1 (initialized s1) key w v v' Hk I1 Hl Hv) as (HI & HW & HW'); [by right; split|].
    split_and!; try done.
    + intros k Hwk Hne. rewrite HW' by done. by apply Hoth.
    + intros _. split; [|exact (f_equal (mbind locationPtr) HW)]. etransitivity; [exact (view_wrapper _ _ _ HW)|].
      unfold visible. simpl. by rewrite Hloc.
Qed.

(** [AllocateAndUpdateValueWrapper] on a key whose value is reserved. *)
Lemma Update_spec s key size dev v value :
  wf_key key -> art_inv s -> wrapper_of s key = Some v -> actionValue v = AOwned value ->
  match pm_reserve size (pm_release value (pool (objs s))) with
  | None => exists s', AllocateAndUpdateValueWrapper szN szL szW key size dev s = (Undef, s')
  | Some (a, _) => exists s',
      AllocateAndUpdateValueWrapper szN szL szW key size dev s = (Ret tt, s') /\ art_inv s' /\
      wrapper_of s' key = Some (mkValueWrapper DISK (Some a) (vsize v) (locationVolatile v) ANull) /\
      (forall k, wf_key k -> k <> key -> wrapper_of s' k = wrapper_of s k) /\
      (a ∉ dom (iovs (objs s))) /\ iovs (objs s') = <[a := dev]> (iovs (objs s))
  end.
Proof.
  intros Hk I Hw Hown. unfold AllocateAndUpdateValueWrapper.
  rewrite (cbind_ret _ _ _ _ _ (find_false key s Hk I)).
  destruct (leaf_wrapper s key Hk I) as [[_ ?]|(w & v0 & El & Hv & Hw')]; [congruence|].
  rewrite Hw in Hw'. injection Hw' as <-. rewrite El.
  unfold cbind, in_pool, czoom, get_wrapper. rewrite Hv. cbn [fst snd]. rewrite Hown.
  unfold cancel_action, release, cget. cbn [fst snd objs pool rootNode initialized keySize wrappers iovs].
  destruct (pm_reserve size (pm_release value (pool (objs s)))) as [[a p]|] eqn:Er; [|by eexists].
  pose proof (ai_heap _ I) as [Hd Hdi Ho Hinj Hp Hpi Hop]. destruct (Ho w v value Hv Hown) as (Hval & Hvw & Hvi).
  pose proof (Hop w v value Hv Hown) as Hptr.
  pose proof (pm_reserve_fresh _ _ _ _ Er) as [Ha El']. rewrite pm_release_live in Ha, El'.
  eexists. split; [reflexivity|]. set (v' := mkValueWrapper DISK _ _ _ _).
  assert (Hai : a ∉ dom (iovs (objs s))) by set_solver.
  destruct (set_leaf s (initialized s) (mkHeap (<[w := v']> (wrappers (objs s))) (<[a := dev]> (iovs (objs s))) p)
    key w v' Hk I El) as (HI & HW & HW'); [done| |done].
  apply (heap_inv_set (objs s) _ w v v'); simpl; rewrite ?El', ?dom_insert_L; try done; [set_solver|set_solver|..].
  - intros w' u b Hne Hu Hub. destruct (Ho w' u b Hu Hub) as (Hb & Hbw & Hbi).
    assert (b <> value) by (intros ->; by apply Hne, (Hinj w' w u v value)). split; set_solver.
  - intros w' u b Hne Hu Hub. pose proof (Hp w' u b Hu Hub).
    assert (b <> value) by (intros ->; by apply Hne, (Hpi w' w u v value)). set_solver.
  - intros b [= <-]. split; [set_solver|]. intros w' u Hne Hu Hub. pose proof (Hp w' u a Hu Hub).
    assert (a <> value) by (intros ->; by apply Hne, (Hpi w' w u v value)). set_solver.
Qed.

(** [Remove] of a value that is not held in a reservation: it only becomes
    invisible. *)
Lemma Remove_spec s key v : wf_key key -> art_inv s -> wrapper_of s key = Some v ->
  (location v = PMEM -> locationVolatile v = EMPTY) ->
  if bool_decide (location v = EMPTY)
  then Remove szN szL szW key s = (Throw (OperationFailedException KEY_NOT_FOUND), s)
  else exists s', Remove szN szL szW key s = (Ret tt, s') /\ art_inv s' /\
    wrapper_of s' key = Some (set_location EMPTY v) /\
    (forall k, wf_key k -> k <> key -> wrapper_of s' k = wrapper_of s k) /\
    iovs (objs s') = iovs (objs s).
Proof.
  intros Hk I Hw Hd. unfold Remove. rewrite (cbind_ret _ _ _ _ _ (find_false key s Hk I)).
  destruct (leaf_wrapper s key Hk I) as [[_ ?]|(w & v0 & El & Hv & Hw')]; [congruence|].
  rewrite Hw in Hw'. injection Hw' as <-. rewrite El.
  assert (Es : mkARTree (rootNode s) (initialized s) (keySize s) (objs s) = s) by (by destruct s).
  unfold cbind, in_pool, czoom, get_wrapper. rewrite Hv. cbn [fst snd]. rewrite Es.
  case_bool_decide as He; [done|].
  replace (bool_decide (location v = PMEM) && bool_decide (locationVolatile v <> EMPTY)) with false
    by (symmetry; apply andb_false_iff; destruct (decide (location v = PMEM));
        [right|left]; apply bool_decide_eq_false_2; tauto).
  unfold set_wrapper. cbn [fst snd]. eexists. split; [reflexivity|].
  destruct (set_leaf_keep s (initialized s) key w v (set_location EMPTY v) Hk I El Hv) as (? & ? & ?); [by left|done].
Qed.

(** [Remove] of a value that is held in a reservation frees the wrapper, and the leaf
    keeps its pointer to it. *)
Lemma Remove_held s key v value :
  wf_key key -> art_inv s -> wrapper_of s key = Some v ->
  location v = PMEM -> locationVolatile v <> EMPTY -> actionValue v = AOwned value ->
  exists s', Remove szN szL szW key s = (Ret tt, s') /\ Get szN szL szW key s' = (Undef, s').
Proof.
  intros Hk I Hw Hl Hv Ha.
  destruct (leaf_wrapper s key Hk I) as [[_ ?]|(w & v0 & El & Hwv & Hw')]; [congruence|].
  rewrite Hw in Hw'. injection Hw' as <-.
  unfold Remove. rewrite (cbind_ret _ _ _ _ _ (find_false key s Hk I)), El.
  unfold cbind at 1, in_pool at 1, czoom, get_wrapper. rewrite Hwv. cbn [fst snd].
  rewrite !bool_decide_eq_false_2, !bool_decide_eq_true_2 by (done || congruence). cbn [andb].
  rewrite Ha. eexists. split; [reflexivity|]. unfold Get.
  erewrite cbind_ret by (apply find_shape; [done|apply I|apply I]).
  cbn [fst snd rootNode]. rewrite El. unfold cbind, in_pool, czoom, get_wrapper. simpl.
  by rewrite lookup_delete_eq.
Qed.

(** Reopening keeps the invariant; only values on disk stay visible. *)
Lemma reopen_spec s : art_inv s -> art_inv (reopen s) /\
  forall k, wrapper_of (reopen s) k = reopen_wrapper <$> wrapper_of s k.
Proof.
  intros I. pose proof (ai_heap _ I) as [Hd Hdi Ho Hinj Hp Hpi _].
  assert (HA : forall v a, actionValue (reopen_wrapper v) <> AOwned a) by (intros [? ? ? ? []] a; done).
  split.
  - split; simpl; try apply I.
    + split; simpl; rewrite ?dom_fmap_L; try done.
      * intros w v a. rewrite lookup_fmap. destruct (_ !! w); [|done]. intros [= <-] Hx. by apply HA in Hx.
      * intros w w' v v' a. rewrite !lookup_fmap. destruct (_ !! w); [|done]. intros [= <-] _ Hx. by apply HA in Hx.
      * intros w v a. rewrite lookup_fmap. destruct (_ !! w) as [u|] eqn:Hu; [|done]. intros [= <-]. by apply (Hp w u).
      * intros w w' v v' a. rewrite !lookup_fmap.
        destruct (_ !! w) as [u|] eqn:Hu, (_ !! w') as [u'|] eqn:Hu'; try done. intros [= <-] [= <-]. by apply (Hpi w w' u u').
      * intros w v a. rewrite lookup_fmap. destruct (_ !! w); [|done]. intros [= <-] Hx. by apply HA in Hx.
    + intros k w Hk Hw. destruct (ai_live _ I k w Hk Hw) as [v Hv]. exists (reopen_wrapper v).
      by rewrite lookup_fmap, Hv.
  - intros k. unfold wrapper_of. simpl. destruct (leaf_of _ k); [|done]. by rewrite lookup_fmap.
Qed.

(** A new tree. *)
Lemma create_inv (p : P) s0 r s :
  TreeImpl_create szN szL p = (Ret tt, s0) -> SetKeySize r s0 = (Ret 8, s) ->
  art_inv s /\ (forall key, wrapper_of s key = None) /\ iovs (objs s) = ∅.
Proof.
  unfold TreeImpl_create. pose proof (reserve_spec (mkHeap ∅ ∅ p) szN) as Hr.
  destruct (reserve szN _) as [[a|e| |] h1]; try done. destruct Hr as (Ew & Ei & _ & El).
  assert (Hn : wf_node 8 (Node256 0 (replicate NODE_SIZE None))).
  { split_and!; [done|apply length_replicate|by left|by apply Forall_replicate]. }
  destruct (allocate_level szN szL 7 0 (replicate NODE_SIZE None) 0 h1 Hn) as (r' & n' & h' & E & Ew' & Ei' & _ & Hr);
    [lia|unfold NODE_SIZE; lia| |].
  { intros c Hc. by apply lookup_replicate in Hc as [? _]. }
  rewrite E. cbn [fst snd]. destruct r' as [[]|e| |]; try done. subst n'. intros [= <-] [= <-].
  assert (HL : forall key, leaf_of (Node256 0 (replicate NODE_SIZE (Some (new_child 0)))) key = None).
  { intros key. unfold leaf_of. rewrite (child_at_new_level _ _ (replicate NODE_SIZE None)) by done.
    change (path_of 8 key) with (Z.to_nat (default 0 (key !! 7%nat)) :: path_of 7 key).
    unfold child_at; fold child_at.
    destruct (replicate NODE_SIZE None !! _) as [[c|]|] eqn:Ec; try done. by apply lookup_replicate in Ec as [? _]. }
  split_and!.
  - split; simpl rootNode; simpl objs; simpl keySize.
    + by eapply wf_new_level; [exact Hn|lia].
    + done.
    + simpl in *. split; rewrite ?Ew', ?Ew, ?Ei', ?Ei, ?dom_empty_L; try set_solver; intros; by rewrite lookup_empty in *.
    + intros key w _. by rewrite HL.
    + intros key key' w _ _. by rewrite HL.
  - intros key. unfold wrapper_of. simpl rootNode. by rewrite HL.
  - simpl. by rewrite Ei', Ei.
Qed.

(** The operations of the clients, except the removal of a value that is in
    persistent memory; each may also throw. *)
Definition finished {A} (r : outcome exn A) : Prop :=
  match r with Ret _ | Throw _ => True | _ => False end.

Inductive art_step : @ARTree P -> @ARTree P -> Prop :=
| st_alloc key size r s s' : wf_key key ->
    AllocValueForKey szN szL szW key size s = (r, s') -> finished r -> art_step s s'
| st_put key r s s' : wf_key key -> Put szN szL szW key s = (r, s') -> finished r -> art_step s s'
| st_update key size dev r s s' : wf_key key ->
    AllocateAndUpdateValueWrapper szN szL szW key size dev s = (r, s') -> finished r -> art_step s s'
| st_remove key r s s' : wf_key key ->
    (forall v, wrapper_of s key = Some v -> location v = PMEM -> locationVolatile v = EMPTY) ->
    Remove szN szL szW key s = (r, s') -> finished r -> art_step s s'
| st_reopen s : art_step s (reopen s).

Lemma no_wrapper s key : wf_key key -> art_inv s -> wrapper_of s key = None ->
  (forall size dev, AllocateAndUpdateValueWrapper szN szL szW key size dev s =
     (Throw (OperationFailedException PMEM_ALLOCATION_ERROR), s)) /\
  Remove szN szL szW key s = (Throw (OperationFailedException KEY_NOT_FOUND), s).
Proof.
  intros Hk I Hw. destruct (leaf_wrapper s key Hk I) as [[El _]|(w & v & _ & _ & ?)]; [|congruence].
  unfold AllocateAndUpdateValueWrapper, Remove.
  rewrite !(cbind_ret _ _ _ _ _ (find_false key s Hk I)), El. split; [|done].
  intros size dev. by rewrite (cbind_ret _ _ _ _ _ (find_false key s Hk I)), El.
Qed.

(** Without a reservation to cancel the update is undefined. *)
Lemma Update_unowned s key size dev v : wf_key key -> art_inv s -> wrapper_of s key = Some v ->
  (forall a, actionValue v <> AOwned a) ->
  AllocateAndUpdateValueWrapper szN szL szW key size dev s = (Undef, s).
Proof.
  intros Hk I Hw Ha. unfold AllocateAndUpdateValueWrapper.
  rewrite (cbind_ret _ _ _ _ _ (find_false key s Hk I)).
  destruct (leaf_wrapper s key Hk I) as [[_ ?]|(w & v0 & El & Hv & Hw')]; [congruence|].
  rewrite Hw in Hw'. injection Hw' as <-. rewrite El.
  unfold cbind, in_pool, czoom, get_wrapper. rewrite Hv. cbn [fst snd].
  destruct s as [n b ks h]. unfold cancel_action. destruct (actionValue v) as [|a|] eqn:E; try done. by destruct (Ha a).
Qed.

Lemma art_step_inv s s' : art_inv s -> art_step s s' -> art_inv s'.
Proof.
  intros I Hs. destruct Hs as [key size r s s' Hk E F|key r s s' Hk E F|key size dev r s s' Hk E F
                              |key r s s' Hk Hd E F|s].
  - destruct (Alloc_spec s key size Hk I) as (? & ? & E' & ? & _). congruence.
  - pose proof (Put_spec s key Hk I) as HP. destruct (wrapper_of s key); [|congruence].
    destruct HP as (? & E' & ? & _). congruence.
  - destruct (wrapper_of s key) as [v|] eqn:Hw.
    2:{ rewrite (proj1 (no_wrapper s key Hk I Hw)) in E. congruence. }
    destruct (actionValue v) as [|a|] eqn:Ha.
    1,3: rewrite (Update_unowned s key size dev v Hk I Hw) in E by congruence; by injection E as <- <-.
    pose proof (Update_spec s key size dev v a Hk I Hw Ha) as HU.
    destruct (pm_reserve _ _) as [[b q]|]; destruct HU as (? & HU); [destruct HU as (E' & ? & _); congruence|].
    rewrite HU in E. by injection E as <- <-.
  - destruct (wrapper_of s key) as [v|] eqn:Hw.
    2:{ rewrite (proj2 (no_wrapper s key Hk I Hw)) in E. congruence. }
    pose proof (Remove_spec s key v Hk I Hw (Hd v eq_refl)) as HR.
    case_bool_decide; [congruence|]. destruct HR as (? & E' & ? & _). congruence.
  - by apply reopen_spec.
Qed.

Lemma art_reach_inv s s' : art_inv s -> rtc art_step s s' -> art_inv s'.
Proof. intros I Hr. induction Hr; eauto using art_step_inv. Qed.

(** The states of a tree from its creation on. *)
Definition reachable (s : @ARTree P) : Prop :=
  exists p r s0 s1, TreeImpl_create szN szL p = (Ret tt, s0) /\ SetKeySize r s0 = (Ret 8, s1) /\
    rtc art_step s1 s.

Lemma reachable_inv s : reachable s -> art_inv s.
Proof.
  intros (p & r & s0 & s1 & E0 & E1 & Hr). eapply art_reach_inv; [|exact Hr].
  by eapply create_inv.
Qed.

End Invariant.

(** ** Theorems *)

Section Theorems.
Context {P : Type} `{PmemPool P} (szN szL szW : Z).

(** C4. Memory safety and meaning of [Get].  In every state that a tree can reach
    without the removal of a value in persistent memory, [Get] of a well-formed
    key returns what the wrapper of the key says, or throws [KEY_NOT_FOUND]; it
    never follows a bad pointer, and it changes nothing. *)
Theorem art_get_safe s key :
  reachable szN szL szW s -> wf_key key ->
  Get szN szL szW key s =
  match view s key with
  | Some r => (Ret r, s)
  | None => (Throw (OperationFailedException KEY_NOT_FOUND), s)
  end.
Proof. intros Hr Hk. apply Get_view; [done|]. by eapply reachable_inv. Qed.

(** C9. Insert, then look up.  Once [AllocValueForKey] has returned an address for
    a key, the address is new, the key is not visible yet, and after [Put] the
    call of [Get] returns that address with the requested size from persistent
    memory; what every other key sees is the same before, between and after. *)
Theorem art_alloc_put_get s key size a s1 :
  reachable szN szL szW s -> wf_key key ->
  AllocValueForKey szN szL szW key size s = (Ret a, s1) ->
  (a ∉ pm_live (pool (objs s))) /\ view s1 key = None /\
  exists s2, Put szN szL szW key s1 = (Ret tt, s2) /\
    Get szN szL szW key s2 = (Ret (Some a, size, PMEM), s2) /\
    forall k, wf_key k -> k <> key -> view s1 k = view s k /\ view s2 k = view s k.
Proof.
  intros Hr Hk E. apply reachable_inv in Hr as I.
  destruct (Alloc_spec szN szL szW s key size Hk I) as (r & s' & E' & I1 & Ho & _ & Hv).
  rewrite E in E'. injection E' as <- <-. destruct Hv as (Hl & Ha & Hw).
  pose proof (Put_spec szN szL szW s1 key Hk I1) as HP. rewrite Hw in HP.
  destruct HP as (s2 & E2 & I2 & Hw2 & Ho2 & _). split_and!; [done|by rewrite (view_wrapper _ _ _ Hw)|].
  exists s2. split_and!; [done| |].
  - rewrite (Get_view szN szL szW s2 key Hk I2), (view_wrapper _ _ _ Hw2). done.
  - intros k Hwk Hne. unfold view. rewrite Ho2, Ho by done. done.
Qed.

(** A key that is visible cannot be allocated again: the call throws
    [PMEM_ALLOCATION_ERROR] and no key sees a difference. *)
Theorem art_alloc_occupied s key size r :
  reachable szN szL szW s -> wf_key key -> view s key = Some r ->
  exists s', AllocValueForKey szN szL szW key size s =
    (Throw (OperationFailedException PMEM_ALLOCATION_ERROR), s') /\
    forall k, wf_key k -> view s' k = view s k.
Proof.
  intros Hr Hk Hv. apply reachable_inv in Hr as I.
  destruct (Alloc_spec szN szL szW s key size Hk I) as (o & s' & E & _ & Ho & _ & Hc).
  unfold view in Hv. destruct (wrapper_of s key) as [v|] eqn:Hw; [|done]. simpl in Hc.
  assert (Hne : location v <> EMPTY) by (intros Hl; unfold visible in Hv; by rewrite Hl in Hv).
  destruct o as [a|e| |]; try done; [by destruct Hc|]. destruct Hc as (-> & Hs & _). exists s'. split; [done|].
  intros k Hwk. unfold view. destruct (decide (k = key)) as [->|]; [by rewrite Hs, Hw|by rewrite Ho].
Qed.

(** C17. Moving a value to disk.  When [AllocateAndUpdateValueWrapper] returns,
    [Get] of the key returns a disk location whose stored address is the one that
    was passed, with the size of the value; all other keys see what they saw, and
    the disk addresses they refer to are kept. *)
Theorem art_update_get s key size dev s' :
  reachable szN szL szW s -> wf_key key ->
  AllocateAndUpdateValueWrapper szN szL szW key size dev s = (Ret tt, s') ->
  exists v a, wrapper_of s key = Some v /\
    Get szN szL szW key s' = (Ret (Some a, vsize v, DISK), s') /\ iovs (objs s') !! a = Some dev /\
    iovs (objs s) ⊆ iovs (objs s') /\
    forall k, wf_key k -> k <> key -> view s' k = view s k.
Proof.
  intros Hr Hk E. apply reachable_inv in Hr as I.
  destruct (wrapper_of s key) as [v|] eqn:Hw.
  2:{ by rewrite (proj1 (no_wrapper szN szL szW s key Hk I Hw)) in E. }
  destruct (actionValue v) as [|value|] eqn:Ha.
  1,3: by rewrite (Update_unowned szN szL szW s key size dev v Hk I Hw) in E by congruence.
  pose proof (Update_spec szN szL szW s key size dev v value Hk I Hw Ha) as HU.
  destruct (pm_reserve _ _) as [[a p]|]; destruct HU as (s1 & HU); [|by rewrite HU in E].
  destruct HU as (E' & I' & Hw' & Ho & Hf & Hi). rewrite E in E'. injection E' as <-.
  exists v, a. split_and!; [done| |rewrite Hi; apply lookup_insert_eq| |].
  - rewrite (Get_view szN szL szW s' key Hk I'), (view_wrapper _ _ _ Hw'). done.
  - rewrite Hi. apply insert_subseteq. by apply not_elem_of_dom.
  - intros k Hwk Hne. unfold view. by rewrite Ho.
Qed.

(** C18. Restart.  After the pool was closed and opened again, exactly the values
    on disk are visible, unchanged; values that were only in reserved persistent
    memory are gone. *)
Theorem art_reopen_keeps_disk s key :
  reachable szN szL szW s -> wf_key key ->
  Get szN szL szW key (reopen s) =
  match view s key with
  | Some (a, n, DISK) => (Ret (a, n, DISK), reopen s)
  | _ => (Throw (OperationFailedException KEY_NOT_FOUND), reopen s)
  end.
Proof.
  intros Hr Hk. apply reachable_inv in Hr as I. destruct (reopen_spec s I) as [I' Hw].
  rewrite (Get_view szN szL szW _ key Hk I'). unfold view. rewrite Hw.
  destruct (wrapper_of s key) as [v|]; [|done]. simpl. unfold visible, reopen_wrapper. simpl.
  by destruct (location v), (locationVolatile v).
Qed.

(** [Remove] of a value in persistent memory frees the wrapper but leaves the
    leaf's pointer to it, so the next [Get] of the key reads freed memory. *)
Theorem art_remove_dangles s key v value :
  reachable szN szL szW s -> wf_key key -> wrapper_of s key = Some v ->
  location v = PMEM -> locationVolatile v <> EMPTY -> actionValue v = AOwned value ->
  exists s', Remove szN szL szW key s = (Ret tt, s') /\ Get szN szL szW key s' = (Undef, s').
Proof. intros Hr Hk. apply reachable_inv in Hr. by apply Remove_held. Qed.

End Theorems.

(** ** The counts

    A node [d] levels above the leaves has a depth between 1 and [d + 1]: the
    [uint8_t] of [getTreeDepth] never wraps around. *)
Fixpoint depth_of_children (cs : list (option Node)) : Z :=
  match cs with
  | [] => 0
  | Some c :: cs => Z.max (getTreeDepth c) (depth_of_children cs)
  | None :: cs => depth_of_children cs
  end.

Lemma getTreeDepth_node dep cs : getTreeDepth (Node256 dep cs) = u8 (depth_of_children cs + 1).
Proof. done. Qed.

Lemma getTreeDepth_range d : (d <= 8)%nat -> forall n, wf_node d n -> 1 <= getTreeDepth n <= Z.of_nat d + 1.
Proof.
  induction d as [|d IH]; intros Hd n Hn; destruct n as [dep cs|dep c]; try done.
  rewrite getTreeDepth_node. destruct Hn as (_ & _ & _ & HF).
  assert (HC : 0 <= depth_of_children cs <= Z.of_nat d + 1).
  { induction HF as [|[c|] cs Hc _ IHF]; cbn [depth_of_children]; [lia| |done].
    pose proof (IH ltac:(lia) c Hc). lia. }
  rewrite uwrap_id; lia.
Qed.

(** [GetTreeDepth] of every reachable tree is at least 1 and at
    most 9: the 8-bit counter never wraps. *)
Theorem art_depth_bounded {P : Type} `{PmemPool P} szN szL szW (s : @ARTree P) :
  reachable szN szL szW s ->
  1 <= getTreeDepth (rootNode s) <= LEVELS.
Proof. intros Hr. apply (getTreeDepth_range 8); [lia|]. by eapply ai_shape, reachable_inv. Qed.

(** ** Concrete runs *)

(** A pool that hands out the lowest free address. *)
Fixpoint first_free (fuel : nat) (a : positive) (p : gset positive) : option positive :=
  match fuel with
  | O => None
  | S fuel => if bool_decide (a ∈ p) then first_free fuel (Pos.succ a) p else Some a
  end.

Lemma first_free_spec fuel : forall a p b, first_free fuel a p = Some b -> b ∉ p.
Proof.
  induction fuel as [|fuel IH]; intros a p b E; simpl in E; [done|].
  case_bool_decide; [by eapply IH|]. by simplify_eq.
Qed.

#[refine] Definition simple_pool : PmemPool (gset positive) :=
  {| pm_reserve := fun _ p => match first_free (S (size p)) 1 p with
                              | Some a => Some (a, {[a]} ∪ p)
                              | None => None
                              end;
     pm_release := fun a p => p ∖ {[a]};
     pm_live := fun p => p |}.
Proof.
  - intros n p a p' E. destruct (first_free _ _ _) as [b|] eqn:Ef; [|done]. simplify_eq.
    split; [by eapply first_free_spec|done].
  - done.
Defined.

Section Runs.
#[local] Existing Instance simple_pool.

Abbreviation alloc key s := (AllocValueForKey 1 1 1 key 100 s).
Abbreviation aput key s := (Put 1 1 1 key s).
Abbreviation aget key s := (Get 1 1 1 key s).

Definition run_new := snd (SetKeySize 16 (snd (TreeImpl_create 1 1 (∅ : gset positive)))).
Definition key1 : list Z := [1; 2; 3; 4; 5; 6; 7; 8].
Definition key2 : list Z := [9; 2; 3; 4; 5; 6; 7; 8].
Definition run_alloc := snd (alloc key1 run_new).
Definition run_put := snd (aput key1 run_alloc).
Definition dev1 : DeviceAddr := mkDeviceAddr 77 (mkPciAddr 0 5 0 0).
Definition run_disk := snd (AllocateAndUpdateValueWrapper 1 1 1 key1 16 dev1 run_put).

Example run_new_counts :
  (getTreeSize false (rootNode run_new), getTreeSize true (rootNode run_new), getTreeDepth (rootNode run_new))
  = (257, 0, 2).
Proof. vm_compute. reflexivity. Qed.

Lemma wf_key1 : wf_key key1.
Proof. split; [done|]. repeat constructor; lia. Qed.

Lemma run_new_reachable : reachable 1 1 1 run_new.
Proof. exists ∅, 16. do 2 eexists. split_and!; [vm_compute; reflexivity|vm_compute; reflexivity|]. apply rtc_refl. Qed.

Lemma reachable_step (s s' : @ARTree (gset positive)) :
  reachable 1 1 1 s -> art_step 1 1 1 s s' -> reachable 1 1 1 s'.
Proof. intros (p & r & s0 & s1 & ? & ? & Hr) Hs. exists p, r, s0, s1. split_and!; try done. by eapply rtc_r. Qed.

Lemma run_alloc_ok : alloc key1 run_new = (Ret 11%positive, run_alloc).
Proof. vm_compute. reflexivity. Qed.
Lemma run_put_ok : aput key1 run_alloc = (Ret tt, run_put).
Proof. vm_compute. reflexivity. Qed.
Lemma run_disk_ok : AllocateAndUpdateValueWrapper 1 1 1 key1 16 dev1 run_put = (Ret tt, run_disk).
Proof. vm_compute. reflexivity. Qed.

Lemma run_alloc_reachable : reachable 1 1 1 run_alloc.
Proof.
  eapply reachable_step; [exact run_new_reachable|]. eapply st_alloc; [exact wf_key1|exact run_alloc_ok|exact I].
Qed.
Lemma run_put_reachable : reachable 1 1 1 run_put.
Proof.
  eapply reachable_step; [exact run_alloc_reachable|]. eapply st_put; [exact wf_key1|exact run_put_ok|exact I].
Qed.
Lemma run_disk_reachable : reachable 1 1 1 run_disk.
Proof.
  eapply reachable_step; [exact run_put_reachable|]. eapply st_update; [exact wf_key1|exact run_disk_ok|exact I].
Qed.

Lemma run_put_view : view run_put key1 = Some (Some 11%positive, 100, PMEM).
Proof. vm_compute. reflexivity. Qed.

Lemma art_get_safe_witness : aget key1 run_put = (Ret (Some 11%positive, 100, PMEM), run_put).
Proof. rewrite (art_get_safe 1 1 1 run_put key1 run_put_reachable wf_key1). by rewrite run_put_view. Defined.

Lemma art_alloc_put_get_witness :
  exists s2, aput key1 run_alloc = (Ret tt, s2) /\ aget key1 s2 = (Ret (Some 11%positive, 100, PMEM), s2).
Proof.
  destruct (art_alloc_put_get 1 1 1 run_new key1 100 11 run_alloc run_new_reachable wf_key1 run_alloc_ok)
    as (_ & _ & s2 & E & E' & _). exists s2. split; [exact E|exact E'].
Defined.

Lemma art_alloc_occupied_witness :
  exists s', alloc key1 run_put = (Throw (OperationFailedException PMEM_ALLOCATION_ERROR), s').
Proof.
  destruct (art_alloc_occupied 1 1 1 run_put key1 100 _ run_put_reachable wf_key1 run_put_view) as (s' & E & _).
  exists s'. exact E.
Defined.

Lemma art_update_get_witness :
  exists a n, aget key1 run_disk = (Ret (Some a, n, DISK), run_disk) /\ iovs (objs run_disk) !! a = Some dev1.
Proof.
  destruct (art_update_get 1 1 1 run_put key1 16 dev1 run_disk run_put_reachable wf_key1 run_disk_ok)
    as (v & a & _ & E & E' & _). exists a, (vsize v). split; [exact E|exact E'].
Defined.

Lemma art_reopen_keeps_disk_witness :
  aget key1 (reopen run_put) = (Throw (OperationFailedException KEY_NOT_FOUND), reopen run_put) /\
  aget key1 (reopen run_disk) = (Ret (Some 11%positive, 100, DISK), reopen run_disk).
Proof.
  rewrite (art_reopen_keeps_disk 1 1 1 run_put key1 run_put_reachable wf_key1), run_put_view.
  rewrite (art_reopen_keeps_disk 1 1 1 run_disk key1 run_disk_reachable wf_key1).
  split; [reflexivity|]. replace (view run_disk key1) with (Some (Some 11%positive, 100, DISK))
    by (vm_compute; reflexivity). reflexivity.
Defined.

Lemma art_remove_dangles_witness :
  exists s', Remove 1 1 1 key1 run_put = (Ret tt, s') /\ aget key1 s' = (Undef, s').
Proof.
  apply (art_remove_dangles 1 1 1 run_put key1 (mkValueWrapper PMEM (Some 11%positive) 100 PMEM (AOwned 11)) 11
           run_put_reachable wf_key1); [vm_compute; reflexivity|reflexivity|discriminate|reflexivity].
Defined.

Lemma art_depth_bounded_witness : 1 <= getTreeDepth (rootNode run_put) <= LEVELS.
Proof. apply (art_depth_bounded 1 1 1 run_put run_put_reachable). Defined.

(** Two keys on one wrapper: put a value under [key1] and remove it, then
    allocate and put one under [key2].  The freed wrapper of [key1] is reused for
    [key2], and [Get] of [key1], which was removed, returns the value of
    [key2]. *)
Theorem art_removed_key_reads_other :
  let s1 := snd (Remove 1 1 1 key1 run_put) in
  let s2 := snd (alloc key2 s1) in
  let s3 := snd (aput key2 s2) in
  fst (alloc key2 s1) = Ret 11%positive /\
  fst (aget key2 s3) = Ret (Some 11%positive, 100, PMEM) /\
  fst (aget key1 s3) = fst (aget key2 s3).
Proof. vm_compute. split_and!; reflexivity. Qed.

End Runs.
