(* ===== verification/DhtCore.v ===== *)
(** * Routing of keys to nodes ([lib/dht/DhtCore], [DhtNode])

    A key is hashed to a number made of some of its bytes; every node serves a
    range of numbers.  The file models how the node tables are built from the
    options and how a key is routed, and proves when routing finds exactly the
    node that serves the key. *)

From Stdlib Require Import Ascii String.
From S2P Require Import Prelude Status CString.

#[local] Open Scope Z_scope.
#[local] Open Scope list_scope.

(** ** [std::stoi]: white space, a sign, decimal digits *)

(** The value of the leading digits, [None] when there is none. *)
Fixpoint digits (acc : option Z) (s : string) : option Z :=
  match s with
  | String c s' =>
      if isdigit c then digits (Some (10 * default 0 acc + (code c - 48))) s' else acc
  | EmptyString => acc
  end.

Definition signed_digits (s : string) : option Z :=
  match s with
  | String c s' =>
      if code c =? 45 then Z.opp <$> digits None s'
      else if code c =? 43 then digits None s'
      else digits None s
  | EmptyString => None
  end.

Definition stoi (s : string) : outcome exn Z :=
  match signed_digits (skip_space s) with
  | None => Throw invalid_argument
  | Some z => if (- 2 ^ 31 <=? z) && (z <? 2 ^ 31) then Ret z else Throw out_of_range
  end.

(** ** Nodes and options *)

Inductive DhtNodeState : Type := NODE_INIT | NODE_READY | NODE_NOT_RESPONDING.

(** [class DhtNode]; the range is kept in [unsigned int]s. *)
Record DhtNode : Type := mkDhtNode {
  ip : string; port : Z; sessionId : Z; start : Z; end_ : Z; state : DhtNodeState }.

Definition ERPC_SESSION_NOT_SET : Z := -1.
Definition DEFAULT_ERPC_SERVER_IP : string := "localhost".
Definition DEFAULT_ERPC_SERVER_PORT : Z := 31850.

Definition DhtNode_init : DhtNode := mkDhtNode "" 0 ERPC_SESSION_NOT_SET 0 0 NODE_INIT.
Definition setStart (z : Z) (n : DhtNode) :=
  mkDhtNode (ip n) (port n) (sessionId n) (u32 z) (end_ n) (state n).
Definition setEnd (z : Z) (n : DhtNode) :=
  mkDhtNode (ip n) (port n) (sessionId n) (start n) (u32 z) (state n).
Definition setState (st : DhtNodeState) (n : DhtNode) :=
  mkDhtNode (ip n) (port n) (sessionId n) (start n) (end_ n) st.

(** [struct DhtNeighbor] and the parts of [DhtOptions] that routing uses. *)
Record DhtNeighbor : Type := mkDhtNeighbor {
  opt_ip : string; opt_port : Z; range_start : string; range_end : string; local : bool }.
Record DhtOptions : Type := mkDhtOptions {
  neighbors : list DhtNeighbor; maskLength : Z; maskOffset : Z }.

(** ** [class DhtCore] *)

(** [RangeToHost], a [std::map] over pairs of [int]: an association list sorted
    by the pair; a second host with the same pair replaces the first. *)
Definition range_lt (a b : Z * Z) : bool :=
  (fst a <? fst b) || ((fst a =? fst b) && (snd a <? snd b)).

Fixpoint map_insert (k : Z * Z) (v : DhtNode) (l : list ((Z * Z) * DhtNode)) :=
  match l with
  | [] => [(k, v)]
  | (k', v') :: l' =>
      if range_lt k k' then (k, v) :: l
      else if range_lt k' k then (k', v') :: map_insert k v l'
      else (k, v) :: l'
  end.

Record DhtCore : Type := mkDhtCore {
  localNode : DhtNode; _neighbors : list DhtNode;
  _rangeToHost : list ((Z * Z) * DhtNode); _maskLength : Z; _maskOffset : Z }.

(** The [try] block of [_initNeighbors]: [std::invalid_argument] is ignored, and
    what was set before it stays; [std::out_of_range] leaves the constructor. *)
Definition set_range (o : DhtNeighbor) (n : DhtNode) : outcome exn DhtNode :=
  match stoi (range_start o) with
  | Ret z =>
      let n := setStart z n in
      match stoi (range_end o) with
      | Ret z => Ret (setEnd z n)
      | Throw invalid_argument => Ret n
      | Throw e => Throw e
      | Crash => Crash
      | Undef => Undef
      end
  | Throw invalid_argument => Ret n
  | Throw e => Throw e
  | Crash => Crash
  | Undef => Undef
  end.

(** The loop of [_initNeighbors] over the options: the local node, when one was
    seen, and the neighbours in order. *)
Fixpoint _initNeighbors_loop (opts : list DhtNeighbor) (loc : option DhtNode) (ns : list DhtNode) :
    outcome exn (option DhtNode * list DhtNode) :=
  match opts with
  | [] => Ret (loc, ns)
  | o :: opts =>
      match set_range o (mkDhtNode (opt_ip o) (u16 (opt_port o)) ERPC_SESSION_NOT_SET 0 0 NODE_INIT) with
      | Ret n =>
          if local o then _initNeighbors_loop opts (Some (setState NODE_READY n)) ns
          else _initNeighbors_loop opts loc (ns ++ [n])
      | Throw e => Throw e
      | Crash => Crash
      | Undef => Undef
      end
  end.

Definition _initNeighbors (opts : list DhtNeighbor) : outcome exn (DhtNode * list DhtNode) :=
  match _initNeighbors_loop opts None [] with
  | Ret (Some n, ns) => Ret (n, ns)
  | Ret (None, ns) =>
      Ret (mkDhtNode DEFAULT_ERPC_SERVER_IP DEFAULT_ERPC_SERVER_PORT ERPC_SESSION_NOT_SET 0 0 NODE_READY, ns)
  | Throw e => Throw e
  | Crash => Crash
  | Undef => Undef
  end.

(** [_initRangeToHost]: the [unsigned] bounds become [int]s. *)
Definition range_key (n : DhtNode) : Z * Z := (s32 (start n), s32 (end_ n)).
Definition _initRangeToHost (ns : list DhtNode) : list ((Z * Z) * DhtNode) :=
  fold_left (fun m n => map_insert (range_key n) n m) ns [].

Definition DhtCore_init (o : DhtOptions) : outcome exn DhtCore :=
  if 8 <? maskLength o then Throw (OperationFailedException NOT_SUPPORTED)
  else
    match _initNeighbors (neighbors o) with
    | Ret (loc, ns) => Ret (mkDhtCore loc ns (_initRangeToHost ns) (maskLength o) (maskOffset o))
    | Throw e => Throw e
    | Crash => Crash
    | Undef => Undef
    end.

(** [_genHash]: [(uint8_t) << (i * 8)] is an [int]; with byte 3 it may become
    negative, and from byte 4 on the shift count is too large for an [int]. *)
Definition hash_byte (i : Z) (b : Z) : outcome exn Z :=
  if i <? 4 then Ret (s32 (b * 2 ^ (8 * i))) else Undef.

Fixpoint _genHash_loop (n : nat) (i : Z) (subKey : Z) (bytes : list Z) : outcome exn Z :=
  match n with
  | O => Ret subKey
  | S n =>
      match bytes with
      | [] => Undef
      | b :: bytes =>
          match hash_byte i b with
          | Ret z => _genHash_loop n (i + 1) (u64 (subKey + z)) bytes
          | Throw e => Throw e
          | Crash => Crash
          | Undef => Undef
          end
      end
  end.

Definition _genHash (c : DhtCore) (key : list Z) : outcome exn Z :=
  _genHash_loop (Z.to_nat (_maskLength c)) 0 0 (drop (Z.to_nat (_maskOffset c)) key).

(** [keyHash >= range.first && keyHash <= range.second]: the [int]s are converted
    to [uint64_t]. *)
Definition in_range (h : Z) (r : Z * Z) : bool := (u64 (fst r) <=? h) && (h <=? u64 (snd r)).

Fixpoint first_host (h : Z) (l : list ((Z * Z) * DhtNode)) : option DhtNode :=
  match l with
  | [] => None
  | (r, n) :: l => if in_range h r then Some n else first_host h l
  end.

Definition getHostForKey (c : DhtCore) (key : list Z) : outcome exn DhtNode :=
  if _maskLength c <=? 0 then Throw (OperationFailedException KEY_NOT_FOUND)
  else
    match _genHash c key with
    | Ret h =>
        match first_host h (_rangeToHost c) with
        | Some n => Ret n
        | None => Throw (OperationFailedException KEY_NOT_FOUND)
        end
    | Throw e => Throw e
    | Crash => Crash
    | Undef => Undef
    end.

Definition isLocalKey (c : DhtCore) (key : list Z) : outcome exn bool :=
  if 0 <? _maskLength c then
    match _genHash c key with
    | Ret h => Ret ((start (localNode c) <=? h) && (h <=? end_ (localNode c)))
    | Throw e => Throw e
    | Crash => Crash
    | Undef => Undef
    end
  else Ret true.

(** [getHostAny]; the thread-local [idx] is the state. *)
Definition getHostAny (c : DhtCore) : M exn Z DhtNode := fun idx =>
  let n := Z.of_nat (length (_neighbors c)) in
  if n =? 0 then (Undef, idx)
  else
    let idx := u64 (idx + 1) mod n in
    match _neighbors c !! Z.to_nat idx with
    | Some node => (Ret node, idx)
    | None => (Undef, idx)
    end.

(** ** The hash *)

(** The little-endian value of some bytes. *)
Fixpoint le_value (bytes : list Z) : Z :=
  match bytes with [] => 0 | b :: bytes => b + 256 * le_value bytes end.

Definition key_bytes (c : DhtCore) (key : list Z) : list Z :=
  take (Z.to_nat (_maskLength c)) (drop (Z.to_nat (_maskOffset c)) key).

(** The key has the masked bytes. *)
Definition covers (c : DhtCore) (key : list Z) : bool :=
  (Z.to_nat (_maskOffset c) + Z.to_nat (_maskLength c) <=? length key)%nat.

(** An [unsigned] number that went through an [int] to a [uint64_t]. *)
Definition sign_extend (v : Z) : Z := u64 (s32 v).

Lemma s32_eq v : 0 <= v < 2 ^ 32 -> s32 v = if v <? 2 ^ 31 then v else v - 2 ^ 32.
Proof.
  intros Hv. destruct (Z.ltb_spec v (2 ^ 31)) as [Hl|Hl]; [apply swrap_id; lia|]. unfold swrap.
  replace (v + 2 ^ (32 - 1)) with (v - 2 ^ 31 + 1 * 2 ^ 32) by lia. rewrite Z.mod_add, Z.mod_small by lia. lia.
Qed.

Lemma sign_extend_eq v : 0 <= v < 2 ^ 32 ->
  sign_extend v = if v <? 2 ^ 31 then v else v + (2 ^ 64 - 2 ^ 32).
Proof.
  intros Hv. unfold sign_extend. rewrite (s32_eq v Hv). destruct (Z.ltb_spec v (2 ^ 31)); [apply uwrap_id; lia|].
  unfold uwrap. replace (v - 2 ^ 32) with (v + (2 ^ 64 - 2 ^ 32) + (-1) * 2 ^ 64) by lia.
  rewrite Z.mod_add, Z.mod_small by lia. lia.
Qed.

(** Extending keeps the order of the numbers. *)
Lemma sign_extend_le v v' : 0 <= v < 2 ^ 32 -> 0 <= v' < 2 ^ 32 -> sign_extend v <= sign_extend v' <-> v <= v'.
Proof.
  intros Hv Hv'. rewrite (sign_extend_eq v Hv), (sign_extend_eq v' Hv').
  destruct (Z.ltb_spec v (2 ^ 31)), (Z.ltb_spec v' (2 ^ 31)); lia.
Qed.

Lemma le_value_range l : Forall (fun b => 0 <= b < 256) l -> 0 <= le_value l < 256 ^ Z.of_nat (length l).
Proof.
  induction 1 as [|b l Hb _ IH]; [done|]. cbn [le_value length].
  rewrite Nat2Z.inj_succ, Z.pow_succ_r by lia. lia.
Qed.

(** The bytes from place [i] on are added as one [int]. *)
Lemma s32_split i b r :
  0 <= i < 4 -> 0 <= b < 256 -> 0 <= r -> 256 ^ i * (b + 256 * r) < 2 ^ 32 ->
  s32 (b * 2 ^ (8 * i)) + s32 (256 ^ (i + 1) * r) = s32 (256 ^ i * (b + 256 * r)).
Proof.
  intros Hi Hb Hr Hlt. assert (i = 0 \/ i = 1 \/ i = 2 \/ i = 3) as [-> | [-> | [-> | ->]]] by lia;
    rewrite !s32_eq by lia; repeat case_match; b2p; lia.
Qed.

Lemma _genHash_loop_value n : forall i acc bytes,
  0 <= i -> i + Z.of_nat n <= 4 -> (n <= length bytes)%nat ->
  Forall (fun b => 0 <= b < 256) (take n bytes) -> u64 acc = acc ->
  _genHash_loop n i acc bytes = Ret (u64 (acc + s32 (256 ^ i * le_value (take n bytes)))).
Proof.
  induction n as [|n IH]; intros i acc bytes Hi Hin Hl HF Ha; cbn [_genHash_loop].
  - simpl. rewrite Z.mul_0_r, Z.add_0_r. by rewrite Ha.
  - destruct bytes as [|b bytes]; [simpl in Hl; lia|]. cbn [firstn le_value] in *.
    apply Forall_cons in HF as [Hbr HF]. pose proof (le_value_range _ HF) as [Hv Hv'].
    unfold hash_byte. destruct (Z.ltb_spec i 4); [|lia]. simpl in Hl.
    rewrite length_take, Nat.min_l in Hv' by lia.
    assert (Hp : 256 ^ i * 256 ^ (1 + Z.of_nat n) <= 256 ^ 4) by (rewrite <- Z.pow_add_r by lia; apply Z.pow_le_mono_r; lia).
    rewrite Z.pow_add_r in Hp by lia. assert (0 < 256 ^ i) by (apply Z.pow_pos_nonneg; lia).
    rewrite IH by (try done; try lia; apply Z.mod_mod; done). f_equal. unfold uwrap. rewrite Zplus_mod_idemp_l.
    rewrite <- Z.add_assoc, s32_split by (try lia; nia). done.
Qed.

(** From the fifth byte on, or past the key, nothing is defined. *)
Lemma _genHash_loop_undef n : forall i acc bytes,
  0 <= i -> 4 < i + Z.of_nat n \/ (length bytes < n)%nat -> (0 < n)%nat -> _genHash_loop n i acc bytes = Undef.
Proof.
  induction n as [|n IH]; intros i acc bytes Hi Hd Hn; [lia|]. cbn [_genHash_loop].
  destruct bytes as [|b bytes]; [done|]. unfold hash_byte. destruct (Z.ltb_spec i 4); [|done].
  simpl in Hd. apply IH; lia.
Qed.

Definition is_key (key : list Z) : Prop := Forall (fun b => 0 <= b < 256) key.

(** The hash, for every mask that the constructor accepts. *)
Lemma _genHash_eq c key :
  is_key key -> 0 < _maskLength c ->
  _genHash c key =
    (if (_maskLength c <=? 4) && covers c key then Ret (sign_extend (le_value (key_bytes c key))) else Undef).
Proof.
  intros Hk Hm. unfold _genHash, covers. destruct (Z.leb_spec (_maskLength c) 4); simpl;
    [|apply _genHash_loop_undef; lia].
  destruct (Nat.leb_spec (Z.to_nat (_maskOffset c) + Z.to_nat (_maskLength c)) (length key));
    [|apply _genHash_loop_undef; [done|right; rewrite length_drop; lia|lia]].
  rewrite _genHash_loop_value; [by rewrite Z.add_0_l, Z.mul_1_l|done|lia|rewrite length_drop; lia| |done].
  by apply Forall_take, Forall_drop.
Qed.

Lemma key_value_range c key : is_key key -> _maskLength c <= 4 -> 0 <= le_value (key_bytes c key) < 2 ^ 32.
Proof.
  intros Hk Hm. assert (HF : Forall (fun b => 0 <= b < 256) (key_bytes c key)) by by apply Forall_take, Forall_drop.
  pose proof (le_value_range _ HF) as Hr. unfold key_bytes in *. rewrite length_take in Hr.
  assert (256 ^ Z.of_nat (Z.to_nat (_maskLength c) `min` length (drop (Z.to_nat (_maskOffset c)) key)) <= 256 ^ 4)
    by (apply Z.pow_le_mono_r; lia). lia.
Qed.

(** ** The table of ranges *)

Lemma range_lt_total a b : range_lt a b = false -> range_lt b a = false -> a = b.
Proof.
  destruct a as [a1 a2], b as [b1 b2]. unfold range_lt. simpl. intros Ha Hb.
  apply orb_false_iff in Ha as [Ha1 Ha2], Hb as [Hb1 Hb2].
  apply Z.ltb_ge in Ha1, Hb1. assert (a1 = b1) as -> by lia. rewrite Z.eqb_refl in *. simpl in *. b2p.
  f_equal. lia.
Qed.

Lemma map_insert_in k v l e : e ∈ map_insert k v l -> e = (k, v) \/ e ∈ l.
Proof.
  induction l as [|[k' v'] l IH]; simpl; [set_solver|]. repeat case_match; set_solver.
Qed.

Lemma map_insert_key k v l : k ∈ (map_insert k v l).*1.
Proof.
  induction l as [|[k' v'] l IH]; simpl; [set_solver|]. repeat case_match; simpl; set_solver.
Qed.

Lemma map_insert_keys k v l k' : k' ∈ l.*1 -> k' ∈ (map_insert k v l).*1.
Proof.
  induction l as [|[k0 v0] l IH]; simpl; [set_solver|].
  destruct (range_lt k k0) eqn:E1; [set_solver|]. destruct (range_lt k0 k) eqn:E2; simpl; [set_solver|].
  rewrite (range_lt_total _ _ E1 E2). set_solver.
Qed.

Lemma initRange_spec ns : forall m,
  let r := fold_left (fun m n => map_insert (range_key n) n m) ns m in
  (forall k n, (k, n) ∈ r -> (k, n) ∈ m \/ (n ∈ ns /\ k = range_key n)) /\
  (forall k, k ∈ m.*1 -> k ∈ r.*1) /\ (forall n, n ∈ ns -> range_key n ∈ r.*1).
Proof.
  induction ns as [|n0 ns IH]; intros m; simpl; [set_solver|].
  destruct (IH (map_insert (range_key n0) n0 m)) as (H1 & H2 & H3). split_and!.
  - intros k n Hk. apply H1 in Hk as [Hk|[? ?]]; [|set_solver].
    apply map_insert_in in Hk as [[= -> ->]|]; set_solver.
  - intros k Hk. apply H2. by apply map_insert_keys.
  - intros n [->|Hn]%elem_of_cons; [apply H2, map_insert_key|by apply H3].
Qed.

Lemma first_host_spec h l :
  match first_host h l with
  | Some n => exists r, (r, n) ∈ l /\ in_range h r = true
  | None => forall r n, (r, n) ∈ l -> in_range h r = false
  end.
Proof.
  induction l as [|[r n] l IH]; simpl; [intros r n H%elem_of_nil; done|].
  destruct (in_range h r) eqn:E; [exists r; split; [left|done]|].
  destruct (first_host h l); [destruct IH as (r' & ? & ?); exists r'; split; [by right|done]|].
  intros r' n' [[= -> ->]|Hn]%elem_of_cons; [done|by eapply IH].
Qed.

(** The bounds of a node are [unsigned int]s. *)
Definition node_ok (n : DhtNode) : Prop := 0 <= start n < 2 ^ 32 /\ 0 <= end_ n < 2 ^ 32.
Definition serves (v : Z) (n : DhtNode) : Prop := start n <= v <= end_ n.

Lemma in_range_serves v n :
  node_ok n -> 0 <= v < 2 ^ 32 -> in_range (sign_extend v) (range_key n) = true <-> serves v n.
Proof.
  intros [Hs He] Hv. unfold in_range, range_key, serves. simpl. fold (sign_extend (start n)) (sign_extend (end_ n)).
  rewrite andb_true_iff, !Z.leb_le, !sign_extend_le by done. done.
Qed.

(** Which neighbour the table finds. *)
Lemma table_finds ns v :
  Forall node_ok ns -> 0 <= v < 2 ^ 32 ->
  match first_host (sign_extend v) (_initRangeToHost ns) with
  | Some n => n ∈ ns /\ serves v n
  | None => forall n, n ∈ ns -> ~ serves v n
  end.
Proof.
  intros HF Hv. destruct (initRange_spec ns []) as (H1 & _ & H3). fold (_initRangeToHost ns) in *.
  pose proof (first_host_spec (sign_extend v) (_initRangeToHost ns)) as HH. rewrite Forall_forall in HF.
  destruct (first_host _ (_initRangeToHost ns)) as [n|].
  - destruct HH as (r & Hin & Hr). apply H1 in Hin as [Hin|[Hn ->]]; [by apply not_elem_of_nil in Hin|].
    split; [done|]. apply in_range_serves; [by apply HF|done|done].
  - intros n Hn Hs. apply H3 in Hn as Hk. apply list_elem_of_fmap in Hk as ((r & n') & Er & Hin). simpl in Er. subst r.
    apply HH in Hin. apply (in_range_serves v n (HF n Hn) Hv) in Hs. congruence.
Qed.

(** ** The tables that the constructor builds *)

Lemma set_range_ok o n n' : node_ok n -> set_range o n = Ret n' -> node_ok n'.
Proof.
  intros [Hs He]. unfold set_range.
  destruct (stoi (range_start o)) as [z| [] | |]; try done; [|by intros [= <-]].
  destruct (stoi (range_end o)) as [z'| [] | |]; try done; intros [= <-]; split; simpl; try done;
    apply uwrap_range; done.
Qed.

Lemma initNeighbors_loop_ok opts : forall loc ns r ns',
  (forall n, loc = Some n -> node_ok n) -> Forall node_ok ns ->
  _initNeighbors_loop opts loc ns = Ret (r, ns') -> (forall n, r = Some n -> node_ok n) /\ Forall node_ok ns'.
Proof.
  induction opts as [|o opts IH]; intros loc ns r ns' Hl Hn; cbn [_initNeighbors_loop]; [by intros [= <- <-]|].
  destruct (set_range o _) as [n| | |] eqn:E; try done. apply set_range_ok in E; [|done].
  destruct (local o); apply IH; try done; [intros n' [= <-]; exact E|by apply Forall_app; split; [|constructor]].
Qed.

Lemma DhtCore_init_tables o c : DhtCore_init o = Ret c ->
  _rangeToHost c = _initRangeToHost (_neighbors c) /\ _maskLength c = maskLength o /\
  _maskOffset c = maskOffset o /\ maskLength o <= 8 /\ node_ok (localNode c) /\ Forall node_ok (_neighbors c).
Proof.
  unfold DhtCore_init, _initNeighbors. destruct (Z.ltb_spec 8 (maskLength o)); [done|].
  destruct (_initNeighbors_loop _ _ _) as [[[loc|] ns]| | |] eqn:E; try done;
    apply initNeighbors_loop_ok in E as [Hl Hn]; try done; intros [= <-]; split_and!; try done; by apply Hl.
Qed.

(** [getHostForKey] and [isLocalKey], for every mask. *)
Lemma getHostForKey_eq c key :
  is_key key -> 0 <= _maskLength c ->
  getHostForKey c key =
    (if _maskLength c =? 0 then Throw (OperationFailedException KEY_NOT_FOUND)
     else if (_maskLength c <=? 4) && covers c key then
       match first_host (sign_extend (le_value (key_bytes c key))) (_rangeToHost c) with
       | Some n => Ret n
       | None => Throw (OperationFailedException KEY_NOT_FOUND)
       end
     else Undef).
Proof.
  intros Hk Hm. unfold getHostForKey. destruct (Z.leb_spec (_maskLength c) 0), (Z.eqb_spec (_maskLength c) 0); try lia; [done|].
  rewrite (_genHash_eq c key) by (done || lia). by destruct (_ && _).
Qed.

Lemma isLocalKey_eq c key :
  is_key key -> 0 <= _maskLength c -> node_ok (localNode c) ->
  isLocalKey c key =
    (if _maskLength c =? 0 then Ret true
     else if (_maskLength c <=? 4) && covers c key then
       let v := le_value (key_bytes c key) in
       Ret ((v <? 2 ^ 31) && (start (localNode c) <=? v) && (v <=? end_ (localNode c)))
     else Undef).
Proof.
  intros Hk Hm [Hs He]. unfold isLocalKey.
  destruct (Z.ltb_spec 0 (_maskLength c)), (Z.eqb_spec (_maskLength c) 0); try lia; [|done].
  rewrite (_genHash_eq c key) by done. destruct (Z.leb_spec (_maskLength c) 4); [|done].
  destruct (covers c key); [|done]. pose proof (key_value_range c key Hk ltac:(lia)) as Hv. cbn [andb].
  rewrite (sign_extend_eq _ Hv). destruct (Z.ltb_spec (le_value (key_bytes c key)) (2 ^ 31)); [done|].
  f_equal. apply andb_false_iff. right. apply Z.leb_gt. lia.
Qed.

(** ** Theorems *)

(** C25. Routing, for every mask that the constructor accepts and every key.  With a mask
    of one to four bytes that lies in the key, [getHostForKey] returns a neighbour whose
    range contains the number [v] that the masked bytes spell, and throws
    [KEY_NOT_FOUND] exactly when no neighbour serves [v]: both the number and the bounds
    pass through [int], so the comparison stays right up to [2^32].  Without a mask it
    always throws [KEY_NOT_FOUND].  With a mask of five to eight bytes a byte is shifted
    as an [int] by 32 bits or more, and with a mask that leaves the key a byte outside of
    it is read: both are undefined. *)
Theorem dht_routing_exact o c key :
  DhtCore_init o = Ret c -> 0 <= maskLength o -> is_key key ->
  let v := le_value (key_bytes c key) in
  if maskLength o =? 0 then getHostForKey c key = Throw (OperationFailedException KEY_NOT_FOUND)
  else if (maskLength o <=? 4) && covers c key then
    match getHostForKey c key with
    | Ret n => n ∈ _neighbors c /\ serves v n
    | Throw e => e = OperationFailedException KEY_NOT_FOUND /\ forall n, n ∈ _neighbors c -> ~ serves v n
    | _ => False
    end
  else getHostForKey c key = Undef.
Proof.
  intros E Hm Hk v. destruct (DhtCore_init_tables o c E) as (Et & Em & _ & _ & _ & HF). rewrite <- Em in *.
  rewrite (getHostForKey_eq c key Hk Hm), Et.
  destruct (_ =? 0); [done|]. destruct (Z.leb_spec (_maskLength c) 4); [|done]. destruct (covers c key); [|done]. simpl.
  pose proof (table_finds (_neighbors c) v HF (key_value_range c key Hk ltac:(lia))) as HT. fold v. by destruct (first_host _ _).
Qed.

(** C26. One owner per key, for every mask that the constructor accepts.  Without a mask
    every key is local.  With a mask of one to four bytes that lies in the key, when the
    ranges of the local node and of the neighbours do not overlap and one of them serves
    the number [v] that the masked bytes spell: if it is a neighbour, the key is not local
    and routing finds just that neighbour; if it is the local node, routing finds nobody,
    and the key is local exactly when [v] is below [2^31]; above that nobody has it,
    because [isLocalKey] compares the sign-extended hash with [unsigned] bounds.  With
    five to eight bytes both questions are undefined. *)
Theorem dht_one_owner o c key :
  DhtCore_init o = Ret c -> 0 <= maskLength o -> is_key key ->
  let v := le_value (key_bytes c key) in
  (maskLength o = 0 -> isLocalKey c key = Ret true) /\
  (0 < maskLength o <= 4 -> covers c key = true ->
   (forall i j n n', (localNode c :: _neighbors c) !! i = Some n ->
      (localNode c :: _neighbors c) !! j = Some n' -> serves v n -> serves v n' -> i = j) ->
   forall n, n ∈ localNode c :: _neighbors c -> serves v n ->
   (n = localNode c /\ isLocalKey c key = Ret (bool_decide (v < 2 ^ 31)) /\
      getHostForKey c key = Throw (OperationFailedException KEY_NOT_FOUND)) \/
   (n ∈ _neighbors c /\ isLocalKey c key = Ret false /\ getHostForKey c key = Ret n)) /\
  (4 < maskLength o -> isLocalKey c key = Undef /\ getHostForKey c key = Undef).
Proof.
  intros E Hm Hk v. destruct (DhtCore_init_tables o c E) as (Et & Em & _ & _ & Hlo & HF). rewrite <- Em in *.
  rewrite (getHostForKey_eq c key Hk Hm), Et, (isLocalKey_eq c key Hk Hm Hlo).
  split_and!; intros H0; [by rewrite H0|intros Hc Hdis n Hin Hs; rewrite Hc|];
    destruct (Z.eqb_spec (_maskLength c) 0), (Z.leb_spec (_maskLength c) 4); try lia; [|done].
  cbn [andb]. fold v.
  pose proof (table_finds (_neighbors c) v HF (key_value_range c key Hk ltac:(lia))) as HT. fold v in HT.
  apply elem_of_cons in Hin as [->|Hin].
  - left. split; [done|]. rewrite !(proj2 (Z.leb_le _ _)) by apply Hs. split.
    { f_equal. rewrite !andb_true_r. by case_bool_decide; [apply Z.ltb_lt|apply Z.ltb_ge; lia]. }
    destruct (first_host _ _) as [n|]; [|done]. destruct HT as [Hn Hs'].
    apply list_elem_of_lookup in Hn as [i Hi]. by specialize (Hdis 0%nat (S i) _ n eq_refl Hi Hs Hs').
  - right. split; [done|]. apply list_elem_of_lookup in Hin as [i Hi]. split.
    + f_equal. destruct (_ && _) eqn:B; [|done]. b2p.
      by specialize (Hdis 0%nat (S i) _ n eq_refl Hi ltac:(done) Hs).
    + destruct (first_host _ _) as [n'|]; [|by apply list_elem_of_lookup_2, HT in Hi].
      destruct HT as [Hn Hs']. apply list_elem_of_lookup in Hn as [j Hj].
      specialize (Hdis (S i) (S j) n n' Hi Hj Hs Hs') as [= <-]. congruence.
Qed.

(** ** Concrete runs *)

Definition run_options : DhtOptions := mkDhtOptions
  [mkDhtNeighbor "10.0.0.1" 31851 "0" " 9" true; mkDhtNeighbor "10.0.0.2" 31852 "10" "19" false;
   mkDhtNeighbor "10.0.0.3" 31853 "20" "+29" false] 1 2.
Definition run_core : DhtCore :=
  match DhtCore_init run_options with Ret c => c | _ => mkDhtCore DhtNode_init [] [] 0 0 end.
Definition run_key : list Z := [1; 2; 15; 4].

Example run_routes :
  match getHostForKey run_core run_key with Ret n => ip n = "10.0.0.2"%string | _ => False end.
Proof. reflexivity. Qed.

Lemma run_is_key : is_key run_key.
Proof. repeat constructor; done. Qed.

Lemma dht_routing_exact_witness :
  match getHostForKey run_core run_key with
  | Ret n => n ∈ _neighbors run_core /\ serves 15 n
  | Throw e => e = OperationFailedException KEY_NOT_FOUND /\ forall n, n ∈ _neighbors run_core -> ~ serves 15 n
  | _ => False
  end.
Proof. apply (dht_routing_exact run_options run_core run_key eq_refl); [done|exact run_is_key]. Defined.

Lemma dht_one_owner_witness :
  isLocalKey run_core run_key = Ret false /\
  getHostForKey run_core run_key = Ret (mkDhtNode "10.0.0.2" 31852 (-1) 10 19 NODE_INIT).
Proof.
  destruct (dht_one_owner run_options run_core run_key eq_refl ltac:(done) run_is_key) as (_ & H & _).
  destruct (H ltac:(done) eq_refl) with (n := mkDhtNode "10.0.0.2" 31852 (-1) 10 19 NODE_INIT) as [(? & _)|(_ & ?)];
    [|right; left|by vm_compute|done|done].
  intros [|[|[|i]]] [|[|[|j]]] n n' Hi Hj; vm_compute in Hi, Hj; simplify_eq; unfold serves; simpl; try lia; done.
Defined.

(** The local node of these options has every number, up to [2^32 - 1]; the keys whose
    fourth byte is 128 or more are not local all the same, and a wide mask is accepted. *)
Definition all_options (mask : Z) : DhtOptions :=
  mkDhtOptions [mkDhtNeighbor "10.0.0.1" 31851 "0" "-1" true] mask 0.
Definition all_core (mask : Z) : DhtCore :=
  match DhtCore_init (all_options mask) with Ret c => c | _ => mkDhtCore DhtNode_init [] [] 0 0 end.

Example high_key_is_lost :
  end_ (localNode (all_core 4)) = 2 ^ 32 - 1 /\ isLocalKey (all_core 4) [1; 2; 3; 127] = Ret true /\
  isLocalKey (all_core 4) [1; 2; 3; 128] = Ret false /\
  getHostForKey (all_core 4) [1; 2; 3; 128] = Throw (OperationFailedException KEY_NOT_FOUND).
Proof. vm_compute. done. Qed.

Example wide_mask_accepted :
  DhtCore_init (all_options 8) = Ret (all_core 8) /\ isLocalKey (all_core 8) [1; 2; 3; 4; 5; 6; 7; 8] = Undef.
Proof. vm_compute. done. Qed.
