(* ===== verification/Poller.v ===== *)
(** * Request queues ([lib/common/Poller], [BlockingPoller])

    The two kinds of queues between the threads: [Poller] over an SPDK ring and
    [BlockingPoller] over a bounded buffer with condition variables.  The ring and
    [boost::circular_buffer] are libraries; what the code relies on is stated as
    type classes. *)

From S2P Require Import Prelude Status.

(** ** The SPDK ring

    [spdk_ring_enqueue] of one object returns 1 or, when the ring is full, 0;
    [spdk_ring_dequeue] of up to [n] objects returns the oldest ones. *)
Class SpdkRing (A R : Type) : Type := {
  ring_list : R -> list A;
  ring_room : R -> nat;
  ring_enqueue : A -> R -> Z * R;
  ring_dequeue : nat -> R -> list A * R;
  ring_enqueue_room : forall x r, (0 < ring_room r)%nat ->
    fst (ring_enqueue x r) = 1 /\ ring_list (snd (ring_enqueue x r)) = ring_list r ++ [x];
  ring_enqueue_full : forall x r, ring_room r = 0%nat ->
    fst (ring_enqueue x r) = 0 /\ snd (ring_enqueue x r) = r;
  ring_enqueue_takes : forall x r, (0 < ring_room r)%nat -> ring_room (snd (ring_enqueue x r)) = pred (ring_room r);
  ring_dequeue_list : forall n r,
    fst (ring_dequeue n r) = take n (ring_list r) /\ ring_list (snd (ring_dequeue n r)) = drop n (ring_list r);
  ring_dequeue_gives : forall n r, ring_room (snd (ring_dequeue n r)) = (ring_room r + length (fst (ring_dequeue n r)))%nat
}.

(** A ring as a list with the number of its free places. *)
Record list_ring (A : Type) : Type := mkListRing { lr_items : list A; lr_free : nat }.
Arguments mkListRing {A}. Arguments lr_items {A}. Arguments lr_free {A}.

#[refine] Definition simple_ring (A : Type) : SpdkRing A (list_ring A) :=
  {| ring_list := lr_items; ring_room := lr_free;
     ring_enqueue := fun x r =>
       match lr_free r with S n => (1, mkListRing (lr_items r ++ [x]) n) | O => (0, r) end;
     ring_dequeue := fun n r =>
       (take n (lr_items r), mkListRing (drop n (lr_items r)) (lr_free r + length (take n (lr_items r)))) |}.
Proof.
  - intros x [l [|n]] Hr; [simpl in Hr; lia|done].
  - intros x [l [|n]] Hr; [done|simpl in Hr; lia].
  - intros x [l [|n]] Hr; [simpl in Hr; lia|done].
  - done.
  - done.
Defined.

(** ** [class Poller] *)

Definition DEQUEUE_RING_LIMIT : nat := 1024.

Section Poller.
Context {T R : Type} `{SpdkRing T R}.
#[local] Abbreviation room r := (ring_room (A := T) r).

(** [requests] is the array that [dequeue] fills, [requestCount] how much of it
    is valid. *)
Record Poller : Type := mkPoller { rqstRing : R; requests : list T; requestCount : Z }.

Definition enqueue (rqst : T) (p : Poller) : bool * Poller :=
  let r := ring_enqueue rqst (rqstRing p) in
  (fst r =? 1, mkPoller (snd r) (requests p) (requestCount p)).

(** What was in the array behind the new entries stays. *)
Definition dequeue (cnt : nat) (p : Poller) : Poller :=
  let n := if (DEQUEUE_RING_LIMIT <=? cnt)%nat then DEQUEUE_RING_LIMIT else cnt in
  let r := ring_dequeue n (rqstRing p) in
  mkPoller (snd r) (fst r ++ drop (length (fst r)) (requests p)) (Z.of_nat (length (fst r))).

Definition pending (p : Poller) : list T := take (Z.to_nat (requestCount p)) (requests p).

(** A queue of requests between two threads: nothing is lost, duplicated or
    reordered, and a refused request leaves the queue as it was. *)
Lemma enqueue_spec (rqst : T) (p : Poller) :
  (0 < room (rqstRing p))%nat /\ enqueue rqst p =
    (true, mkPoller (snd (ring_enqueue rqst (rqstRing p))) (requests p) (requestCount p)) /\
    ring_list (rqstRing (snd (enqueue rqst p))) = ring_list (rqstRing p) ++ [rqst] \/
  room (rqstRing p) = 0%nat /\ enqueue rqst p = (false, p).
Proof.
  unfold enqueue. destruct (room (rqstRing p)) as [|n] eqn:E.
  - right. destruct (ring_enqueue_full rqst (rqstRing p) E) as [-> ->]. split; [done|].
    by destruct p.
  - left. destruct (ring_enqueue_room rqst (rqstRing p)) as [E1 E2]; [lia|]. rewrite E1. split_and!; [lia|done|done].
Qed.

Lemma dequeue_spec (cnt : nat) (p : Poller) :
  pending (dequeue cnt p) = take (Nat.min cnt DEQUEUE_RING_LIMIT) (ring_list (rqstRing p)) /\
  ring_list (rqstRing (dequeue cnt p)) = drop (Nat.min cnt DEQUEUE_RING_LIMIT) (ring_list (rqstRing p)).
Proof.
  unfold dequeue, pending. set (n := if (DEQUEUE_RING_LIMIT <=? cnt)%nat then DEQUEUE_RING_LIMIT else cnt).
  assert (En : n = Nat.min cnt DEQUEUE_RING_LIMIT).
  { unfold n. destruct (Nat.leb_spec DEQUEUE_RING_LIMIT cnt); lia. }
  rewrite <- En. destruct (ring_dequeue_list n (rqstRing p)) as [E1 E2].
  cbn [requestCount requests rqstRing]. rewrite Nat2Z.id, take_app_length, E1, E2. done.
Qed.

(** Taking a request makes room. *)
Lemma dequeue_room (p : Poller) : ring_list (rqstRing p) <> [] -> (0 < ring_room (A := T) (rqstRing (dequeue DEQUEUE_RING_LIMIT p)))%nat.
Proof.
  intros Hl. unfold dequeue. cbn [rqstRing]. rewrite ring_dequeue_gives.
  destruct (ring_dequeue_list (if (DEQUEUE_RING_LIMIT <=? DEQUEUE_RING_LIMIT)%nat then DEQUEUE_RING_LIMIT else DEQUEUE_RING_LIMIT) (rqstRing p)) as [-> _].
  destruct (ring_list (rqstRing p)); [done|]. cbn. lia.
Qed.
End Poller.

(** ** The circular buffer of Boost

    [push_front] of a full buffer drops the last element; [operator[]] counts from
    the front. *)
Class CircularBuffer (A B : Type) : Type := {
  cb_list : B -> list A;
  cb_capacity : B -> nat;
  cb_new : nat -> B;
  cb_push_front : A -> B -> B;
  cb_index : nat -> B -> option A;
  cb_new_list : forall n, cb_list (cb_new n) = [];
  cb_new_capacity : forall n, cb_capacity (cb_new n) = n;
  cb_push_list : forall x b, cb_list (cb_push_front x b) = take (cb_capacity b) (x :: cb_list b);
  cb_push_capacity : forall x b, cb_capacity (cb_push_front x b) = cb_capacity b;
  cb_index_list : forall i b, cb_index i b = cb_list b !! i
}.

(** A circular buffer as a list with its capacity. *)
Record list_circular (A : Type) : Type := mkListCircular { lc_items : list A; lc_capacity : nat }.
Arguments mkListCircular {A}. Arguments lc_items {A}. Arguments lc_capacity {A}.

#[refine] Definition simple_circular (A : Type) : CircularBuffer A (list_circular A) :=
  {| cb_list := lc_items; cb_capacity := lc_capacity; cb_new := mkListCircular [];
     cb_push_front := fun x b => mkListCircular (take (lc_capacity b) (x :: lc_items b)) (lc_capacity b);
     cb_index := fun i b => lc_items b !! i |}.
Proof. all: done. Defined.

(** ** [class BoundedBuffer] *)

Definition dequeueBufferLimit : nat := 1024.
Definition dequeueBufferQuant : nat := 1024.

Section BoundedBuffer.
Context {T B : Type} `{CircularBuffer T B}.

Record BoundedBuffer : Type := mkBoundedBuffer { _unread : Z; _qContainer : B }.

Definition isNotEmpty (b : BoundedBuffer) : bool := 0 <? _unread b.
Definition isNotFull (b : BoundedBuffer) : bool := _unread b <? Z.of_nat (cb_capacity (_qContainer b)).

(** The calls that wait give up after the timeout: [false] and no change when the
    condition does not hold. *)
Definition pushFront (item : T) (b : BoundedBuffer) : bool * BoundedBuffer :=
  if isNotFull b
  then (true, mkBoundedBuffer (u64 (_unread b + 1)) (cb_push_front item (_qContainer b)))
  else (false, b).

Fixpoint popBack_loop (fuel : nat) (acc : list T) : M exn BoundedBuffer (list T) := fun b =>
  match fuel with
  | O => (Ret acc, b)
  | S fuel =>
      if isNotEmpty b then
        let u := u64 (_unread b - 1) in
        match cb_index (Z.to_nat u) (_qContainer b) with
        | Some x => popBack_loop fuel (acc ++ [x]) (mkBoundedBuffer u (_qContainer b))
        | None => (Undef, b)
        end
      else (Ret acc, b)
  end.

(** [None] is the timeout. *)
Definition popBackVector : M exn BoundedBuffer (option (list T)) := fun b =>
  if isNotEmpty b then
    match popBack_loop dequeueBufferQuant [] b with
    | (Ret l, b') => (Ret (Some l), b')
    | (Throw e, b') => (Throw e, b')
    | (Crash, b') => (Crash, b')
    | (Undef, b') => (Undef, b')
    end
  else (Ret None, b).

(** One element. *)
Definition popBack : M exn BoundedBuffer (option T) := fun b =>
  if isNotEmpty b then
    let u := u64 (_unread b - 1) in
    match cb_index (Z.to_nat u) (_qContainer b) with
    | Some x => (Ret (Some x), mkBoundedBuffer u (_qContainer b))
    | None => (Undef, b)
    end
  else (Ret None, b).

(** The queue that a buffer implements: the first [_unread] elements of the
    container, from the back. *)
Definition queue_rep (b : BoundedBuffer) (q : list T) : Prop :=
  0 <= _unread b < 2 ^ 63 /\ (Z.to_nat (_unread b) <= cb_capacity (_qContainer b))%nat /\
  (Z.to_nat (_unread b) <= length (cb_list (_qContainer b)))%nat /\
  reverse (take (Z.to_nat (_unread b)) (cb_list (_qContainer b))) = q.

Lemma queue_rep_length b q : queue_rep b q -> _unread b = Z.of_nat (length q).
Proof. intros (H0 & _ & Hl & <-). rewrite length_reverse, length_take. lia. Qed.

Lemma queue_rep_pop b q :
  queue_rep b q ->
  match q with
  | [] => isNotEmpty b = false
  | x :: q' => isNotEmpty b = true /\
      cb_index (Z.to_nat (u64 (_unread b - 1))) (_qContainer b) = Some x /\
      queue_rep (mkBoundedBuffer (u64 (_unread b - 1)) (_qContainer b)) q'
  end.
Proof.
  intros R. pose proof (queue_rep_length _ _ R) as Hu. destruct R as (H0 & Hc & Hl & Hq).
  unfold isNotEmpty. destruct q as [|x q]; cbn [length] in Hu; [by rewrite Hu|].
  rewrite uwrap_id by lia. replace (Z.to_nat (_unread b - 1)) with (length q) by lia.
  replace (Z.to_nat (_unread b)) with (S (length q)) in * by lia.
  destruct (lookup_lt_is_Some_2 (cb_list (_qContainer b)) (length q) ltac:(lia)) as [y Hy].
  rewrite (take_S_r _ _ _ Hy), reverse_snoc in Hq. injection Hq as -> Hq.
  split_and!; [apply Z.ltb_lt; lia|by rewrite cb_index_list|].
  split_and!; simpl; try lia. by replace (Z.to_nat (_unread b - 1)) with (length q) by lia.
Qed.

Lemma popBack_loop_rep fuel : forall acc b q, queue_rep b q ->
  exists b', popBack_loop fuel acc b = (Ret (acc ++ take fuel q), b') /\ queue_rep b' (drop fuel q).
Proof.
  induction fuel as [|fuel IH]; intros acc b q R; cbn [popBack_loop].
  - exists b. by rewrite app_nil_r.
  - pose proof (queue_rep_pop b q R) as HP. destruct q as [|x q].
    + rewrite HP. exists b. by rewrite app_nil_r.
    + destruct HP as (-> & -> & R'). destruct (IH (acc ++ [x]) _ q R') as (b' & E & R'').
      exists b'. by rewrite E, <- app_assoc.
Qed.

Lemma pushFront_rep b q x :
  queue_rep b q -> Z.of_nat (cb_capacity (_qContainer b)) < 2 ^ 63 ->
  if (length q <? cb_capacity (_qContainer b))%nat
  then exists b', pushFront x b = (true, b') /\ queue_rep b' (q ++ [x])
  else pushFront x b = (false, b).
Proof.
  intros R Hcap. pose proof (queue_rep_length _ _ R) as Hu. destruct R as (H0 & Hc & Hl & Hq).
  unfold pushFront, isNotFull. rewrite Hu in *.
  destruct (Nat.ltb_spec (length q) (cb_capacity (_qContainer b))), (Z.ltb_spec (Z.of_nat (length q))
    (Z.of_nat (cb_capacity (_qContainer b)))); try lia; [|done].
  eexists. split; [done|]. rewrite uwrap_id by lia. rewrite Nat2Z.id in *. split_and!; simpl; try lia;
    rewrite ?cb_push_capacity, ?cb_push_list; replace (Z.to_nat (Z.of_nat (length q) + 1)) with (S (length q)) by lia.
  - lia.
  - rewrite length_take. simpl. lia.
  - rewrite take_take, Nat.min_l by lia. simpl. by rewrite reverse_cons, Hq.
Qed.

Lemma popBack_rep b q : queue_rep b q ->
  match q with
  | [] => popBack b = (Ret None, b)
  | x :: q' => exists b', popBack b = (Ret (Some x), b') /\ queue_rep b' q'
  end.
Proof.
  intros R. pose proof (queue_rep_pop b q R) as HP. unfold popBack. destruct q as [|x q]; [by rewrite HP|].
  destruct HP as (-> & HP). destruct (cb_index _ _) eqn:E; naive_solver.
Qed.

Lemma popBackVector_rep b q :
  queue_rep b q ->
  if bool_decide (q = [])
  then popBackVector b = (Ret None, b)
  else exists b', popBackVector b = (Ret (Some (take dequeueBufferQuant q)), b') /\
    queue_rep b' (drop dequeueBufferQuant q).
Proof.
  intros R. pose proof (queue_rep_pop b q R) as HP. unfold popBackVector.
  case_bool_decide as Hq; [subst q; by rewrite HP|].
  assert (isNotEmpty b = true) as -> by (destruct q; [done|apply HP]).
  destruct (popBack_loop_rep dequeueBufferQuant [] b q R) as (b' & E & R'). exists b'. by rewrite E.
Qed.
End BoundedBuffer.

(** ** [class BlockingPoller] *)

Section BlockingPoller.
Context {T B : Type} `{CircularBuffer T B}.

Record BlockingPoller : Type := mkBlockingPoller {
  rqstBuffer : @BoundedBuffer B; bp_requests : list T; bp_requestCount : Z }.

(** The constructor with its buffer, or the constructor without and [init]. *)
Definition BlockingPoller_init : BlockingPoller :=
  mkBlockingPoller (mkBoundedBuffer 0 (cb_new (A := T) dequeueBufferLimit)) [] 0.

Lemma BlockingPoller_init_rep : queue_rep (rqstBuffer BlockingPoller_init) ([] : list T).
Proof.
  unfold queue_rep, BlockingPoller_init. cbn [rqstBuffer _qContainer _unread].
  rewrite cb_new_list. split_and!; simpl; lia || reflexivity.
Qed.

Definition blocking_enqueue (rqst : T) (p : BlockingPoller) : bool * BlockingPoller :=
  let r := pushFront rqst (rqstBuffer p) in
  (fst r, mkBlockingPoller (snd r) (bp_requests p) (bp_requestCount p)).

(** After a timeout the count of the previous round stays. *)
Definition blocking_dequeue : M exn BlockingPoller bool := fun p =>
  match popBackVector (rqstBuffer p) with
  | (Ret (Some l), b) =>
      (Ret true, mkBlockingPoller b (l ++ drop (length l) (bp_requests p)) (Z.of_nat (length l)))
  | (Ret None, b) => (Ret false, mkBlockingPoller b (bp_requests p) (bp_requestCount p))
  | (Throw e, b) => (Throw e, mkBlockingPoller b (bp_requests p) (bp_requestCount p))
  | (Crash, b) => (Crash, mkBlockingPoller b (bp_requests p) (bp_requestCount p))
  | (Undef, b) => (Undef, mkBlockingPoller b (bp_requests p) (bp_requestCount p))
  end.

Definition bp_pending (p : BlockingPoller) : list T :=
  take (Z.to_nat (bp_requestCount p)) (bp_requests p).

(** The blocking queue is a bounded FIFO, empty when created: [enqueue] appends while there is room
    and otherwise refuses without a change; [dequeue] takes the oldest 1024 requests
    in order, and on an empty queue gives up without a change.  No call indexes out
    of the container. *)
Theorem blocking_poller_fifo (p : BlockingPoller) (q : list T) (x : T) :
  queue_rep (rqstBuffer p) q -> Z.of_nat (cb_capacity (A := T) (_qContainer (rqstBuffer p))) < 2 ^ 63 ->
  queue_rep (rqstBuffer BlockingPoller_init) ([] : list T) /\
  (if (length q <? cb_capacity (A := T) (_qContainer (rqstBuffer p)))%nat
   then exists p', blocking_enqueue x p = (true, p') /\ queue_rep (rqstBuffer p') (q ++ [x])
   else blocking_enqueue x p = (false, p)) /\
  (if bool_decide (q = [])
   then blocking_dequeue p = (Ret false, p)
   else exists p', blocking_dequeue p = (Ret true, p') /\
     bp_pending p' = take dequeueBufferQuant q /\ queue_rep (rqstBuffer p') (drop dequeueBufferQuant q)).
Proof.
  intros R Hcap. pose proof (pushFront_rep _ _ x R Hcap) as Hpush. pose proof (popBackVector_rep _ _ R) as Hpop.
  unfold blocking_enqueue, blocking_dequeue. destruct p as [b rs n]. cbn [rqstBuffer bp_requests bp_requestCount] in *.
  split; [apply BlockingPoller_init_rep|]. split.
  - destruct (length q <? _)%nat; [|by rewrite Hpush]. destruct Hpush as (b' & -> & Hr). by eexists.
  - case_bool_decide as Hq; [by rewrite Hpop|]. destruct Hpop as (b' & -> & Hr).
    eexists. split; [done|]. split; [|done]. unfold bp_pending. cbn [bp_requests bp_requestCount].
    by rewrite Nat2Z.id, take_app_length.
Qed.
End BlockingPoller.

(** The ring queue between two threads is a FIFO: what one side enqueues and the
    other dequeues is neither lost, duplicated nor reordered, a refused request
    leaves the queue as it was, and at most 1024 requests are taken at once. *)
Theorem poller_fifo {T R : Type} `{SpdkRing T R} (p : @Poller T R) (rqst : T) (cnt : nat) :
  let r := enqueue rqst p in
  ring_list (rqstRing (snd r)) = (if fst r then ring_list (rqstRing p) ++ [rqst] else ring_list (rqstRing p)) /\
  pending (dequeue cnt p) ++ ring_list (rqstRing (dequeue cnt p)) = ring_list (rqstRing p) /\
  (length (pending (dequeue cnt p)) <= DEQUEUE_RING_LIMIT)%nat.
Proof.
  intros r. destruct (dequeue_spec cnt p) as [-> ->]. split_and!; [|apply take_drop|rewrite length_take; lia].
  destruct (enqueue_spec rqst p) as [(_ & E & El)|[_ E]]; unfold r; rewrite E in *; [exact El|done].
Qed.

(** ** A concrete run *)

Section Runs.
#[local] Existing Instance simple_circular.

Definition run_blocking : @BlockingPoller Z (list_circular Z) :=
  mkBlockingPoller (mkBoundedBuffer 2 (mkListCircular [3; 2; 1] 4)) [] 0.

Lemma blocking_poller_fifo_witness :
  exists p', blocking_dequeue run_blocking = (Ret true, p') /\
    bp_pending p' = [2; 3] /\ queue_rep (rqstBuffer p') [].
Proof.
  destruct (blocking_poller_fifo run_blocking [2; 3] 4) as (_ & _ & E); [|vm_compute; reflexivity|exact E].
  split_and!; simpl; lia || reflexivity.
Defined.
End Runs.
