(* ===== verification/PrimaryKey.v ===== *)
(** * Primary keys and the queue of ready keys ([lib/primary])

    Some bytes of a key are its primary part.  They decide which node owns the
    key, and [PrimaryKeyNextQueue] keeps the primary parts of the local keys that
    were put, for [GetAny].  Keys are lists of bytes; the SPDK ring is the class
    of [Poller]. *)

From S2P Require Import Prelude Status Poller.

(** ** [struct KeyDescriptor] *)

Record KeyFieldDescriptor : Type := mkField { fsize : Z; isPrimary : bool }.
Definition KeyFieldDescriptor_init : KeyFieldDescriptor := mkField 0 false.
Definition KeyDescriptor : Type := list KeyFieldDescriptor.

Definition nfields (k : KeyDescriptor) : nat := length k.
Definition key_size (k : KeyDescriptor) : Z := fold_left (fun s f => u64 (s + fsize f)) k 0.

(** [field(idx, size, isPrimary)] grows the vector as needed. *)
Definition field_set (idx : nat) (size : Z) (primary : bool) (k : KeyDescriptor) : KeyDescriptor :=
  let k := if (nfields k <=? idx)%nat
           then k ++ replicate (idx + 1 - nfields k) KeyFieldDescriptor_init else k in
  <[idx := mkField size primary]> k.

Definition field (idx : nat) (k : KeyDescriptor) : KeyFieldDescriptor :=
  if (nfields k <=? idx)%nat then KeyFieldDescriptor_init else nth idx k KeyFieldDescriptor_init.

(** ** [class PrimaryKeyBase] *)

Record PrimaryKeyBase : Type := mkPrimaryKeyBase {
  _keySize : Z; _pKeySize : Z; _pKeyOffset : Z; _localNodeId : Z; _nNodes : Z }.

(** One round of the loop in the constructor: the sizes are [int]s. *)
Definition add_field (k : KeyDescriptor) (s : Z * Z * Z) (i : nat) : Z * Z * Z :=
  let '(ks, ps, po) := s in
  let f := field i k in
  if isPrimary f then (s32 (ks + fsize f), s32 (fsize f), ks) else (s32 (ks + fsize f), ps, po).

(** [_pKeySize > sizeof(uint64_t)] compares as [size_t]. *)
Definition PrimaryKeyBase_init (key : KeyDescriptor) (id nNodes : Z) : outcome exn PrimaryKeyBase :=
  let '(ks, ps, po) := fold_left (add_field key) (seq 0 (nfields key)) (0, 0, 0) in
  if 8 <? u64 ps then Throw (OperationFailedException (errnum NOT_SUPPORTED))
  else Ret (mkPrimaryKeyBase ks ps po (u32 id) (u32 nNodes)).

(** [modulo]: byte [n] is shifted by [n] bits, as an [int]. *)
Fixpoint modulo_loop (size : nat) (arr : list Z) (val : Z) : outcome exn Z :=
  match size with
  | O => Ret val
  | S n =>
      match arr !! n with
      | None => Undef
      | Some b =>
          if (n <? 32)%nat
          then modulo_loop n arr (Z.lor val (u64 (s32 (Z.shiftl b (Z.of_nat n)))))
          else Undef
      end
  end.

Definition modulo (arr : list Z) (size div : Z) : outcome exn Z :=
  match modulo_loop (Z.to_nat size) arr 0 with
  | Ret val => if div =? 0 then Undef else Ret (val mod div)
  | r => r
  end.

Definition isLocal (b : PrimaryKeyBase) (key : list Z) : outcome exn bool :=
  if _pKeyOffset b <? 0 then Undef
  else
    match modulo (drop (Z.to_nat (_pKeyOffset b)) key) (_pKeySize b) (_nNodes b) with
    | Ret m => Ret (m =? _localNodeId b)
    | Throw e => Throw e
    | Crash => Crash
    | Undef => Undef
    end.

(** ** [class PrimaryKeyNextQueue] *)

Section NextQueue.
Context {R : Type} `{SpdkRing (list Z) R}.

Record PrimaryKeyNextQueue : Type := mkNextQueue { base : PrimaryKeyBase; _readyKeys : R }.

(** [ring] is what [spdk_ring_create] returned, null or a ring. *)
Definition PrimaryKeyNextQueue_init (key : KeyDescriptor) (id nNodes : Z) (ring : option R) :
    outcome exn PrimaryKeyNextQueue :=
  match PrimaryKeyBase_init key id nNodes with
  | Ret b =>
      match ring with
      | Some r => Ret (mkNextQueue b r)
      | None => Throw (OperationFailedException (errnum SPDK_ALLOCATION_ERROR))
      end
  | Throw e => Throw e
  | Crash => Crash
  | Undef => Undef
  end.

(** The bytes that [memcpy] takes. *)
Definition _createPKeyBuff (b : PrimaryKeyBase) (src : list Z) : outcome exn (list Z) :=
  let buf := take (Z.to_nat (_pKeySize b)) (drop (Z.to_nat (_pKeyOffset b)) src) in
  if Z.of_nat (length buf) =? _pKeySize b then Ret buf else Undef.

Definition enqueueNext (key : list Z) : M exn PrimaryKeyNextQueue unit := fun q =>
  match isLocal (base q) key with
  | Ret false => (Ret tt, q)
  | Ret true =>
      match _createPKeyBuff (base q) key with
      | Ret buf =>
          let r := ring_enqueue buf (_readyKeys q) in
          if fst r =? 0 then (Throw (OperationFailedException (errnum QUEUE_FULL_ERROR)), mkNextQueue (base q) (snd r))
          else (Ret tt, mkNextQueue (base q) (snd r))
      | Throw e => (Throw e, q)
      | Crash => (Crash, q)
      | Undef => (Undef, q)
      end
  | Throw e => (Throw e, q)
  | Crash => (Crash, q)
  | Undef => (Undef, q)
  end.

(** [memcpy(l + i, buf, length buf)]. *)
Definition overwrite (i : nat) (buf l : list Z) : list Z :=
  take i l ++ buf ++ drop (i + length buf) l.

(** [dequeueNext] fills the buffer of the caller's key; the result is what the
    buffer holds afterwards. *)
Definition dequeueNext (key : list Z) : M exn PrimaryKeyNextQueue (list Z) := fun q =>
  let r := ring_dequeue 1 (_readyKeys q) in
  let q' := mkNextQueue (base q) (snd r) in
  match fst r with
  | [] => (Throw (OperationFailedException KEY_NOT_FOUND), q')
  | buf :: _ =>
      if Z.of_nat (length key) <? _keySize (base q) then (Undef, q')
      else
        let zeroed := overwrite 0 (replicate (Z.to_nat (_keySize (base q))) 0) key in
        (Ret (overwrite (Z.to_nat (_pKeyOffset (base q))) (take (Z.to_nat (_pKeySize (base q))) buf) zeroed), q')
  end.

(** ** [PrimaryKeyEngine]: the engine that [open] picks *)

Inductive PrimaryKeyEngine : Type := EBase (b : PrimaryKeyBase) | ENextQueue (q : PrimaryKeyNextQueue).

Definition PrimaryKeyEngine_open (key : KeyDescriptor) (id nNodes maxReadyKeys : Z) (ring : option R) :
    outcome exn PrimaryKeyEngine :=
  if negb (maxReadyKeys =? 0) then
    match PrimaryKeyNextQueue_init key id nNodes ring with
    | Ret q => Ret (ENextQueue q)
    | Throw e => Throw e
    | Crash => Crash
    | Undef => Undef
    end
  else
    match PrimaryKeyBase_init key id nNodes with
    | Ret b => Ret (EBase b)
    | Throw e => Throw e
    | Crash => Crash
    | Undef => Undef
    end.

Definition engine_enqueueNext (key : list Z) : M exn PrimaryKeyEngine unit := fun e =>
  match e with
  | EBase b => (Ret tt, e)
  | ENextQueue q => let r := enqueueNext key q in (fst r, ENextQueue (snd r))
  end.

Definition engine_dequeueNext (key : list Z) : M exn PrimaryKeyEngine (list Z) := fun e =>
  match e with
  | EBase b => (Throw NotSupportedFuncException, e)
  | ENextQueue q => let r := dequeueNext key q in (fst r, ENextQueue (snd r))
  end.
End NextQueue.

(** ** The layout of a key *)

(** Sizes that add up to less than [2^31], as every descriptor in use. *)
Definition wf_fields (k : KeyDescriptor) : Prop :=
  Forall (fun f => 0 <= fsize f) k /\ fold_right (fun f s => fsize f + s) 0 k < 2 ^ 31.

Record wf_base (b : PrimaryKeyBase) : Prop := {
  wb_size : 0 <= _pKeySize b <= 8;
  wb_offset : 0 <= _pKeyOffset b;
  wb_inside : _pKeyOffset b + _pKeySize b <= _keySize b }.

Definition layout_ok (s : Z * Z * Z) : Prop :=
  let '(ks, ps, po) := s in 0 <= ps /\ 0 <= po /\ po + ps <= ks.

Lemma add_fields_ok (k pre post : KeyDescriptor) : forall s,
  k = pre ++ post -> Forall (fun f => 0 <= fsize f) post -> layout_ok s ->
  fst (fst s) + fold_right (fun f s => fsize f + s) 0 post < 2 ^ 31 ->
  layout_ok (fold_left (add_field k) (seq (length pre) (length post)) s).
Proof.
  revert pre. induction post as [|f post IH]; intros pre [[ks ps] po] Hk HF Hs Hsum; [done|].
  apply Forall_cons in HF as [Hf HF]. simpl in Hsum, Hs. cbn [length seq fold_left].
  assert (0 <= fold_right (fun f s => fsize f + s) 0 post) as Hnn.
  { clear -HF. induction HF; simpl; lia. }
  assert (Ef : field (length pre) k = f).
  { subst k. unfold field, nfields. rewrite length_app. cbn [length].
    destruct (Nat.leb_spec (length pre + S (length post)) (length pre)); [lia|].
    rewrite app_nth2 by lia. by rewrite Nat.sub_diag. }
  replace (S (length pre)) with (length (pre ++ [f])) by (rewrite length_app; simpl; lia).
  apply IH; [by rewrite <- app_assoc|done| |]; unfold add_field; rewrite Ef.
  all: destruct (isPrimary f); simpl; rewrite !swrap_id by lia; lia.
Qed.

Lemma init_layout k id n b : wf_fields k -> PrimaryKeyBase_init k id n = Ret b ->
  wf_base b /\ _localNodeId b = u32 id /\ _nNodes b = u32 n.
Proof.
  intros [HF Hsum] E. pose proof (add_fields_ok k [] k (0, 0, 0) eq_refl HF) as HL.
  unfold PrimaryKeyBase_init, nfields in E. cbn [length] in HL.
  destruct (fold_left (add_field k) (seq 0 (length k)) (0, 0, 0)) as [[ks ps] po] eqn:Ef.
  destruct HL as (H1 & H2 & H3); [simpl; lia|simpl; lia|].
  destruct (Z.ltb_spec 8 (u64 ps)) as [|Hps]; [done|]. injection E as <-. split; [|done].
  assert (ps < 2 ^ 32).
  { assert (Hr : forall s l, snd (fst s) < 2 ^ 32 -> snd (fst (fold_left (add_field k) l s)) < 2 ^ 32).
    { intros s l. revert s. induction l as [|i l IH]; intros [[a b] c] Hb; [done|]. apply IH.
      unfold add_field. destruct (isPrimary _); simpl; [|done]. unfold swrap.
      pose proof (Z.mod_pos_bound (fsize (field i k) + 2 ^ (32 - 1)) (2 ^ 32) ltac:(lia)). lia. }
    specialize (Hr (0, 0, 0) (seq 0 (length k)) ltac:(simpl; lia)). by rewrite Ef in Hr. }
  rewrite uwrap_id in Hps by lia. split; simpl; lia.
Qed.

(** ** Ownership *)

Lemma modulo_loop_take (size m : nat) (arr : list Z) val : (size <= m)%nat ->
  modulo_loop size (take m arr) val = modulo_loop size arr val.
Proof.
  revert val. induction size as [|n IH]; intros val Hm; [done|]. cbn [modulo_loop].
  rewrite lookup_take_lt by lia. destruct (arr !! n); [|done]. destruct (n <? 32)%nat; [|done]. apply IH. lia.
Qed.

Lemma modulo_loop_total (size : nat) (arr : list Z) val : (size <= 32)%nat -> (size <= length arr)%nat ->
  exists v, modulo_loop size arr val = Ret v.
Proof.
  revert val. induction size as [|n IH]; intros val H32 Hl; [by eexists|]. cbn [modulo_loop].
  destruct (lookup_lt_is_Some_2 arr n ltac:(lia)) as [b ->].
  destruct (Nat.ltb_spec n 32); [|lia]. apply IH; lia.
Qed.

(** The primary part of a key. *)
Definition primary_part (b : PrimaryKeyBase) (key : list Z) : list Z :=
  take (Z.to_nat (_pKeySize b)) (drop (Z.to_nat (_pKeyOffset b)) key).

Definition part_value (part : list Z) : Z :=
  match modulo_loop (length part) part 0 with Ret v => v | _ => 0 end.

Lemma primary_part_length b key : wf_base b -> _keySize b <= Z.of_nat (length key) ->
  length (primary_part b key) = Z.to_nat (_pKeySize b).
Proof. intros [? ? ?] Hl. unfold primary_part. rewrite length_take, length_drop. lia. Qed.

Lemma isLocal_part b key : wf_base b -> _nNodes b <> 0 -> _keySize b <= Z.of_nat (length key) ->
  isLocal b key = Ret (part_value (primary_part b key) mod _nNodes b =? _localNodeId b).
Proof.
  intros Hb Hn Hl. pose proof (primary_part_length b key Hb Hl) as Hp. destruct Hb as [H1 H2 H3].
  unfold isLocal, modulo, part_value. destruct (Z.ltb_spec (_pKeyOffset b) 0); [lia|].
  rewrite Hp. unfold primary_part in *. rewrite (modulo_loop_take _ (Z.to_nat (_pKeySize b))) by lia.
  destruct (modulo_loop_total (Z.to_nat (_pKeySize b)) (drop (Z.to_nat (_pKeyOffset b)) key) 0) as [v ->].
  - lia.
  - rewrite length_drop. lia.
  - destruct (Z.eqb_spec (_nNodes b) 0); done.
Qed.

(** Every key has exactly one owner: whatever the layout of the key and the
    number of nodes, one node id makes [isLocal] true, and the nodes with other ids
    say false. *)
Theorem pkey_one_owner k n key b0 :
  wf_fields k -> 0 < n < 2 ^ 32 -> PrimaryKeyBase_init k 0 n = Ret b0 ->
  _keySize b0 <= Z.of_nat (length key) ->
  exists id, 0 <= id < n /\ forall id', 0 <= id' < n ->
    exists b, PrimaryKeyBase_init k id' n = Ret b /\ isLocal b key = Ret (id =? id').
Proof.
  intros Hk Hn E0 Hl. exists (part_value (primary_part b0 key) mod n).
  split; [apply Z.mod_pos_bound; lia|]. intros id Hid.
  destruct (init_layout _ _ _ _ Hk E0) as (_ & _ & Hn0).
  exists (mkPrimaryKeyBase (_keySize b0) (_pKeySize b0) (_pKeyOffset b0) (u32 id) (u32 n)).
  assert (E : PrimaryKeyBase_init k id n =
    Ret (mkPrimaryKeyBase (_keySize b0) (_pKeySize b0) (_pKeyOffset b0) (u32 id) (u32 n))).
  { unfold PrimaryKeyBase_init in *. destruct (fold_left _ _ _) as [[ks ps] po].
    destruct (8 <? u64 ps); [done|]. by injection E0 as <-. }
  split; [done|]. destruct (init_layout _ _ _ _ Hk E) as (Hb & Hi & Hnn).
  rewrite isLocal_part; [|done|rewrite Hnn, uwrap_id by lia; lia|done].
  cbn [_nNodes _localNodeId]. by rewrite !uwrap_id by lia.
Qed.

(** ** The queue of ready keys *)

Section NextQueueLemmas.
Context {R : Type} `{SpdkRing (list Z) R}.

#[local] Abbreviation ready q := (ring_list (A := list Z) (_readyKeys q)).
#[local] Abbreviation room q := (ring_room (A := list Z) (_readyKeys q)).

(** A part that the queue may hold: of the right size, and of a local key. *)
Definition local_part (b : PrimaryKeyBase) (part : list Z) : Prop :=
  length part = Z.to_nat (_pKeySize b) /\ part_value part mod _nNodes b = _localNodeId b.

Record nq_inv (q : @PrimaryKeyNextQueue R) : Prop := {
  nq_base : wf_base (base q);
  nq_nodes : _nNodes (base q) <> 0;
  nq_ready : Forall (local_part (base q)) (ready q) }.

Lemma overwrite_length i buf l : (i + length buf <= length l)%nat -> length (overwrite i buf l) = length l.
Proof. intros Hi. unfold overwrite. rewrite !length_app, length_take, length_drop. lia. Qed.

Lemma overwrite_part i buf l : (i <= length l)%nat -> take (length buf) (drop i (overwrite i buf l)) = buf.
Proof.
  intros Hi. unfold overwrite. rewrite drop_app_le by (rewrite length_take; lia).
  rewrite drop_ge by (rewrite length_take; lia). by rewrite app_nil_l, take_app_length.
Qed.

Lemma dequeue_key_part b (part out : list Z) :
  wf_base b -> length part = Z.to_nat (_pKeySize b) -> _keySize b <= Z.of_nat (length out) ->
  let key := overwrite (Z.to_nat (_pKeyOffset b)) part (overwrite 0 (replicate (Z.to_nat (_keySize b)) 0) out) in
  length key = length out /\ primary_part b key = part.
Proof.
  intros [H1 H2 H3] Hp Hl key.
  assert (Hz : length (overwrite 0 (replicate (Z.to_nat (_keySize b)) 0) out) = length out).
  { apply overwrite_length. rewrite length_replicate. lia. }
  split.
  - unfold key. rewrite overwrite_length; [done|]. lia.
  - unfold primary_part, key. rewrite <- Hp. apply overwrite_part. lia.
Qed.

Lemma enqueueNext_spec q key : nq_inv q -> _keySize (base q) <= Z.of_nat (length key) ->
  if part_value (primary_part (base q) key) mod _nNodes (base q) =? _localNodeId (base q) then
    if (room q =? 0)%nat
    then enqueueNext key q = (Throw (OperationFailedException (errnum QUEUE_FULL_ERROR)), q)
    else exists q', enqueueNext key q = (Ret tt, q') /\ nq_inv q' /\
      ready q' = ready q ++ [primary_part (base q) key]
  else enqueueNext key q = (Ret tt, q).
Proof.
  intros [Hb Hn Hr] Hl. unfold enqueueNext. rewrite isLocal_part by done.
  destruct (Z.eqb_spec (part_value (primary_part (base q) key) mod _nNodes (base q)) (_localNodeId (base q)))
    as [Hloc|]; [|done].
  pose proof (primary_part_length _ _ Hb Hl) as Hp. unfold _createPKeyBuff. fold (primary_part (base q) key).
  destruct (Z.eqb_spec (Z.of_nat (length (primary_part (base q) key))) (_pKeySize (base q))) as [|Hne];
    [|destruct Hb; lia].
  destruct (Nat.eqb_spec (room q) 0) as [E|E].
  - destruct (ring_enqueue_full (primary_part (base q) key) (_readyKeys q) E) as [-> ->]. by destruct q.
  - destruct (ring_enqueue_room (primary_part (base q) key) (_readyKeys q)) as [-> E2]; [lia|].
    eexists. split; [done|]. split; [|exact E2]. split; [done|done|]. cbn [base _readyKeys]. rewrite E2.
    apply Forall_app. split; [done|]. by apply Forall_singleton.
Qed.

Lemma dequeueNext_spec q out : nq_inv q -> _keySize (base q) <= Z.of_nat (length out) ->
  match ready q with
  | [] => exists q', dequeueNext out q = (Throw (OperationFailedException KEY_NOT_FOUND), q') /\
      nq_inv q' /\ ready q' = []
  | part :: rest => exists key q', dequeueNext out q = (Ret key, q') /\ nq_inv q' /\ ready q' = rest /\
      length key = length out /\ primary_part (base q) key = part /\ isLocal (base q) key = Ret true
  end.
Proof.
  intros [Hb Hn Hr] Hl. unfold dequeueNext. destruct (ring_dequeue_list 1 (_readyKeys q)) as [E1 E2].
  destruct (ready q) as [|part rest] eqn:Eq; rewrite E1; cbn [take].
  - eexists. split; [done|]. split; [|exact E2]. split; [done|done|]. cbn [base _readyKeys]. rewrite E2. by constructor.
  - destruct (Z.ltb_spec (Z.of_nat (length out)) (_keySize (base q))); [lia|].
    apply Forall_cons in Hr as [[Hp Hloc] Hr]. rewrite take_ge by lia.
    destruct (dequeue_key_part (base q) part out Hb Hp Hl) as [Hlen Hpart].
    do 2 eexists. split; [done|]. split_and!; [|exact E2|exact Hlen|exact Hpart|].
    + split; [done|done|]. cbn [base _readyKeys]. by rewrite E2.
    + rewrite isLocal_part by (done || lia). rewrite Hpart, Hloc. by rewrite Z.eqb_refl.
Qed.

(** A key that is queued takes one place. *)
Lemma enqueueNext_takes q key q' : isLocal (base q) key = Ret true -> (0 < room q)%nat -> enqueueNext key q = (Ret tt, q') ->
  room q' = pred (room q).
Proof.
  unfold enqueueNext. intros -> Hr E. destruct (_createPKeyBuff (base q) key) as [buf|e| |]; try done.
  destruct (_ =? 0); [done|]. injection E as <-. by apply ring_enqueue_takes.
Qed.

Lemma enqueueNext_base q key : base (snd (enqueueNext key q)) = base q.
Proof. unfold enqueueNext. repeat case_scrut; done. Qed.

Lemma dequeueNext_base q key : base (snd (dequeueNext key q)) = base q.
Proof. unfold dequeueNext. repeat case_scrut; done. Qed.

(** Puts and gets of keys of at least the size of the layout, in any order. *)
Inductive nq_step : @PrimaryKeyNextQueue R -> @PrimaryKeyNextQueue R -> Prop :=
| nq_enqueue q key : _keySize (base q) <= Z.of_nat (length key) -> nq_step q (snd (enqueueNext key q))
| nq_dequeue q out : _keySize (base q) <= Z.of_nat (length out) -> nq_step q (snd (dequeueNext out q)).

Lemma nq_step_inv q q' : nq_inv q -> nq_step q q' -> nq_inv q' /\ base q' = base q.
Proof.
  intros Hq Hs. destruct Hs as [q0 key Hl|q0 out Hl]; (split; [|apply enqueueNext_base || apply dequeueNext_base]).
  - pose proof (enqueueNext_spec q0 key Hq Hl) as HE. destruct (_ =? _); [|by rewrite HE].
    destruct (_ =? _)%nat; [by rewrite HE|]. by destruct HE as (q' & -> & ? & _).
  - pose proof (dequeueNext_spec q0 out Hq Hl) as HD. destruct (ring_list _).
    + by destruct HD as (q' & -> & ? & _).
    + by destruct HD as (key & q' & -> & ? & _).
Qed.

Lemma nq_reach_inv q q' : nq_inv q -> rtc nq_step q q' -> nq_inv q' /\ base q' = base q.
Proof.
  intros Hq HR. induction HR as [q|q q1 q2 Hs _ IH]; [done|].
  destruct (nq_step_inv _ _ Hq Hs) as [H1 E1]. destruct (IH H1) as [H2 E2]. by rewrite E2.
Qed.

(** The queue of ready keys: from an empty queue, after any sequence of
    [enqueueNext] and [dequeueNext], a local key is appended or, when the ring is
    full, refused without a change, a key of another node is ignored, and
    [dequeueNext] returns the oldest key: its primary part is the one that was put,
    and the key is local. *)
Theorem next_queue_fifo b ring q key out :
  wf_base b -> _nNodes b <> 0 -> ring_list (A := list Z) ring = [] ->
  rtc nq_step (mkNextQueue b ring) q ->
  _keySize b <= Z.of_nat (length key) -> _keySize b <= Z.of_nat (length out) ->
  (match isLocal b key with
   | Ret true =>
       if (room q =? 0)%nat
       then enqueueNext key q = (Throw (OperationFailedException (errnum QUEUE_FULL_ERROR)), q)
       else exists q', enqueueNext key q = (Ret tt, q') /\ ready q' = ready q ++ [primary_part b key]
   | Ret false => enqueueNext key q = (Ret tt, q)
   | _ => False
   end) /\
  (match ready q with
   | [] => fst (dequeueNext out q) = Throw (OperationFailedException KEY_NOT_FOUND)
   | part :: rest => exists key' q', dequeueNext out q = (Ret key', q') /\ ready q' = rest /\
       primary_part b key' = part /\ isLocal b key' = Ret true
   end).
Proof.
  intros Hb Hn Hring HR Hk Ho. destruct (nq_reach_inv _ _ (Build_nq_inv (mkNextQueue b ring) Hb Hn ltac:(cbn [_readyKeys]; rewrite Hring; constructor)) HR) as [Hq Eb].
  cbn [base] in Eb. subst b. split.
  - rewrite isLocal_part by done. pose proof (enqueueNext_spec q key Hq Hk) as HE.
    destruct (_ =? _); [|done]. destruct (_ =? _)%nat; [done|]. naive_solver.
  - pose proof (dequeueNext_spec q out Hq Ho) as HD. destruct (ready q).
    + by destruct HD as (q' & -> & _).
    + naive_solver.
Qed.
End NextQueueLemmas.

(** ** A concrete run *)

Section Runs.
#[local] Existing Instance simple_ring.

Definition run_fields : KeyDescriptor := field_set 1 2 true (field_set 0 1 false []).
Definition run_base : PrimaryKeyBase := mkPrimaryKeyBase 3 2 1 1 2.
Definition run_ring : list_ring (list Z) := mkListRing [] 4.
Definition run_queue := snd (enqueueNext [9; 1; 7] (mkNextQueue run_base run_ring)).

Lemma run_base_init : PrimaryKeyBase_init run_fields 1 2 = Ret run_base.
Proof. reflexivity. Qed.

Lemma pkey_one_owner_witness :
  exists id, 0 <= id < 2 /\ forall id', 0 <= id' < 2 ->
    exists b, PrimaryKeyBase_init run_fields id' 2 = Ret b /\ isLocal b [9; 1; 7] = Ret (id =? id').
Proof.
  apply (pkey_one_owner run_fields 2 [9; 1; 7] (mkPrimaryKeyBase 3 2 1 0 2)); [|lia|reflexivity|simpl; lia].
  split; [|vm_compute; reflexivity]. repeat constructor; simpl; lia.
Defined.

Lemma next_queue_fifo_witness :
  exists key' q', dequeueNext [5; 5; 5] run_queue = (Ret key', q') /\ lr_items (_readyKeys q') = [] /\
    primary_part run_base key' = [1; 7] /\ isLocal run_base key' = Ret true.
Proof.
  assert (HR : rtc nq_step (mkNextQueue run_base run_ring) run_queue).
  { apply rtc_once. unfold run_queue. apply nq_enqueue. simpl. lia. }
  destruct (next_queue_fifo run_base run_ring run_queue [9; 1; 7] [5; 5; 5]) as [_ E];
    [split; simpl; lia|simpl; lia|reflexivity|exact HR|simpl; lia|simpl; lia|exact E].
Defined.
End Runs.
