(* ===== verification/RTreeEngine.v ===== *)
(** * What the store asks of its tree ([lib/pmem/RTreeEngine.h])

    The pollers and the store use the tree through the virtual class
    [RTreeEngine].  Here it is a type class: the operations, and what a client may
    rely on while the tree is in a good state.  [ARTree] implements it. *)

From S2P Require Import Prelude Status ARTree.

(** A key has a [slot], the address and the size that were reserved for it, and
    what [Get] sees of it is its [view]; [rt_iovs] are the device addresses in
    persistent memory. *)
Class RTreeEngine (T : Type) : Type := {
  rt_Get : list Z -> M exn T (option positive * Z * LOCATIONS);
  rt_Put : list Z -> M exn T unit;
  rt_Remove : list Z -> M exn T unit;
  rt_AllocValueForKey : list Z -> Z -> M exn T positive;
  rt_AllocateAndUpdateValueWrapper : list Z -> Z -> DeviceAddr -> M exn T unit;
  rt_ok : T -> Prop;
  rt_key : list Z -> Prop;
  rt_view : T -> list Z -> option (option positive * Z * LOCATIONS);
  rt_slot : T -> list Z -> option (option positive * Z);
  rt_iovs : T -> gmap positive DeviceAddr;
  rt_view_location : forall s key a n l, rt_view s key = Some (a, n, l) -> l <> EMPTY;
  rt_view_slot : forall s key a n l, rt_view s key = Some (a, n, l) -> rt_slot s key = Some (a, n);
  rt_Get_view : forall s key, rt_ok s -> rt_key key ->
    rt_Get key s =
    match rt_view s key with
    | Some r => (Ret r, s)
    | None => (Throw (OperationFailedException KEY_NOT_FOUND), s)
    end;
  rt_Put_slot : forall s key, rt_ok s -> rt_key key ->
    match rt_slot s key with
    | None => rt_Put key s = (Throw (OperationFailedException KEY_NOT_FOUND), s)
    | Some (a, n) => exists s', rt_Put key s = (Ret tt, s') /\ rt_ok s' /\
        rt_view s' key = Some (a, n, PMEM) /\
        (forall k, rt_key k -> k <> key -> rt_view s' k = rt_view s k) /\
        (forall k, rt_key k -> rt_slot s' k = rt_slot s k)
    end;
  rt_Remove_throws : forall s key e s', rt_ok s -> rt_key key ->
    rt_Remove key s = (Throw e, s') -> e = OperationFailedException KEY_NOT_FOUND;
  rt_Alloc_slot : forall s key size, rt_ok s -> rt_key key ->
    exists r s', rt_AllocValueForKey key size s = (r, s') /\ rt_ok s' /\
      (forall k, rt_key k -> k <> key -> rt_view s' k = rt_view s k /\ rt_slot s' k = rt_slot s k) /\
      match r with
      | Ret a => rt_view s key = None /\ rt_view s' key = None /\ rt_slot s' key = Some (Some a, size) /\
          (forall k b n, rt_slot s k = Some (Some b, n) -> b <> a)
      | Throw e => e = OperationFailedException PMEM_ALLOCATION_ERROR /\ rt_view s' key = rt_view s key /\
          (forall b n, rt_slot s' key = Some (Some b, n) -> rt_slot s key = Some (Some b, n))
      | _ => False
      end;
  rt_Update_view : forall s key size dev s', rt_ok s -> rt_key key ->
    rt_AllocateAndUpdateValueWrapper key size dev s = (Ret tt, s') ->
    rt_ok s' /\ exists a b n, rt_slot s key = Some (b, n) /\ rt_view s' key = Some (Some a, n, DISK) /\
      rt_iovs s' = <[a := dev]> (rt_iovs s) /\ (a ∉ dom (rt_iovs s)) /\
      (forall k, rt_key k -> k <> key -> rt_view s' k = rt_view s k);
  rt_Remove_disk : forall s key a n, rt_ok s -> rt_key key -> rt_view s key = Some (a, n, DISK) ->
    exists s', rt_Remove key s = (Ret tt, s') /\ rt_ok s' /\ rt_iovs s' = rt_iovs s /\
      rt_view s' key = None /\ rt_Remove key s' = (Throw (OperationFailedException KEY_NOT_FOUND), s') /\
      (forall k, rt_key k -> k <> key -> rt_view s' k = rt_view s k)
}.

(** ** [ARTree] is such a tree *)

Section Instance_.
Context {P : Type} `{PmemPool P} (szN szL szW : Z).

Definition slot (s : @ARTree P) (key : list Z) : option (option positive * Z) :=
  (fun v => (locationPtr v, vsize v)) <$> wrapper_of s key.

Lemma view_slot_other (s s' : @ARTree P) key :
  (forall k, wf_key k -> k <> key -> wrapper_of s' k = wrapper_of s k) ->
  forall k, wf_key k -> k <> key -> view s' k = view s k /\ slot s' k = slot s k.
Proof. intros Hw k Hk Hne. unfold view, slot. by rewrite Hw. Qed.

Lemma visible_EMPTY v : location v = EMPTY -> visible v = None.
Proof. intros Hv. unfold visible. by rewrite Hv. Qed.

Lemma view_location (s : @ARTree P) key a n l : view s key = Some (a, n, l) -> l <> EMPTY.
Proof.
  unfold view, visible. destruct (wrapper_of s key) as [v|]; [|done].
  destruct (location v), (locationVolatile v); naive_solver.
Qed.

Lemma view_slot (s : @ARTree P) key a n l : view s key = Some (a, n, l) -> slot s key = Some (a, n).
Proof.
  unfold view, slot, visible. destruct (wrapper_of s key) as [v|]; [|done].
  destruct (location v), (locationVolatile v); naive_solver.
Qed.

(** Values and disk addresses that keys lead to are live blocks of the pool. *)
Lemma slot_live (s : @ARTree P) key a n : art_inv s -> slot s key = Some (Some a, n) -> a ∈ pm_live (pool (objs s)).
Proof.
  unfold slot, wrapper_of. intros I Hs. destruct (leaf_of _ key) as [w|]; [|done].
  destruct (wrappers (objs s) !! w) as [v|] eqn:Hv; [|done]. injection Hs as Hp _.
  exact (hi_ptr _ (ai_heap _ I) w v a Hv Hp).
Qed.

Lemma Put_slot s key : art_inv s -> wf_key key ->
  match slot s key with
  | None => Put szN szL szW key s = (Throw (OperationFailedException KEY_NOT_FOUND), s)
  | Some (a, n) => exists s', Put szN szL szW key s = (Ret tt, s') /\ art_inv s' /\
      view s' key = Some (a, n, PMEM) /\
      (forall k, wf_key k -> k <> key -> view s' k = view s k) /\
      (forall k, wf_key k -> slot s' k = slot s k)
  end.
Proof.
  intros I Hk. pose proof (Put_spec szN szL szW s key Hk I) as HP. unfold slot at 1.
  destruct (wrapper_of s key) as [v|] eqn:Hv; [|done]. destruct HP as (s' & E & I' & Hw & Ho & _).
  exists s'. split_and!; [done|done|by rewrite (view_wrapper _ _ _ Hw)| |].
  - intros k ? ?. by apply (view_slot_other s s' key).
  - intros k Hwk. destruct (decide (k = key)) as [->|Hne]; [|by apply (view_slot_other s s' key)].
    unfold slot. by rewrite Hw, Hv.
Qed.

Lemma Alloc_slot s key size : art_inv s -> wf_key key ->
  exists r s', AllocValueForKey szN szL szW key size s = (r, s') /\ art_inv s' /\
    (forall k, wf_key k -> k <> key -> view s' k = view s k /\ slot s' k = slot s k) /\
    match r with
    | Ret a => view s key = None /\ view s' key = None /\ slot s' key = Some (Some a, size) /\
        (forall k b n, slot s k = Some (Some b, n) -> b <> a)
    | Throw e => e = OperationFailedException PMEM_ALLOCATION_ERROR /\ view s' key = view s key /\
        (forall b n, slot s' key = Some (Some b, n) -> slot s key = Some (Some b, n))
    | _ => False
    end.
Proof.
  intros I Hk. destruct (Alloc_spec szN szL szW s key size Hk I) as (r & s' & E & I' & Ho & _ & Hr).
  exists r, s'. split_and!; [done|done|by apply view_slot_other|].
  assert (Hv0 : location (default fresh_wrapper (wrapper_of s key)) = EMPTY -> view s key = None).
  { unfold view. destruct (wrapper_of s key) as [v|]; [|done]. apply visible_EMPTY. }
  destruct r as [a|e| |]; try done.
  - destruct Hr as (Hl & Ha & Hw). rewrite (view_wrapper _ _ _ Hw). split_and!; [auto|done| |].
    + unfold slot. by rewrite Hw.
    + intros k b n Hs ->. by apply Ha, (slot_live s k a n).
  - destruct Hr as (-> & Hkeep & Hnone). split; [done|].
    destruct (decide (location (default fresh_wrapper (wrapper_of s key)) = EMPTY)) as [Hl|Hl].
    + destruct (Hnone Hl) as [Hn Hp]. rewrite Hn, Hv0 by done. split; [done|]. intros b n. unfold slot.
      destruct (wrapper_of s' key) as [v|]; [|done]. cbn in Hp |- *. rewrite Hp. done.
    + unfold view, slot. by rewrite Hkeep.
Qed.

Lemma Remove_throws s key e s' : art_inv s -> wf_key key ->
  Remove szN szL szW key s = (Throw e, s') -> e = OperationFailedException KEY_NOT_FOUND.
Proof.
  intros I Hk. unfold Remove. rewrite (cbind_ret _ _ _ _ _ (find_false szN szL szW key s Hk I)).
  destruct (leaf_wrapper s key Hk I) as [[-> _]|(w & v & -> & Hv & _)]; [by intros [= <- _]|].
  unfold cbind, in_pool, czoom, get_wrapper. rewrite Hv. cbn [fst snd].
  case_bool_decide; [by intros [= <- _]|]. destruct (_ && _); [|done].
  unfold set_wrapper, cancel_action. by destruct (actionValue v).
Qed.

Lemma Update_view s key size dev s' : art_inv s -> wf_key key ->
  AllocateAndUpdateValueWrapper szN szL szW key size dev s = (Ret tt, s') ->
  art_inv s' /\ exists a b n, slot s key = Some (b, n) /\ view s' key = Some (Some a, n, DISK) /\
    iovs (objs s') = <[a := dev]> (iovs (objs s)) /\ (a ∉ dom (iovs (objs s))) /\
    (forall k, wf_key k -> k <> key -> view s' k = view s k).
Proof.
  intros I Hk E. destruct (wrapper_of s key) as [v|] eqn:Hw.
  2:{ by rewrite (proj1 (no_wrapper szN szL szW s key Hk I Hw)) in E. }
  destruct (actionValue v) as [|value|] eqn:Ha.
  1,3: by rewrite (Update_unowned szN szL szW s key size dev v Hk I Hw) in E by congruence.
  pose proof (Update_spec szN szL szW s key size dev v value Hk I Hw Ha) as HU.
  destruct (pm_reserve _ _) as [[a p]|]; destruct HU as (s1 & HU); [|by rewrite HU in E].
  destruct HU as (E' & I' & Hw' & Ho & Hf & Hi). rewrite E in E'. injection E' as <-.
  split; [done|]. exists a, (locationPtr v), (vsize v). unfold slot. rewrite Hw, (view_wrapper _ _ _ Hw').
  split_and!; try done. intros k Hwk Hne. by apply (view_slot_other s s' key).
Qed.

Lemma Remove_disk s key a n : art_inv s -> wf_key key -> view s key = Some (a, n, DISK) ->
  exists s', Remove szN szL szW key s = (Ret tt, s') /\ art_inv s' /\ iovs (objs s') = iovs (objs s) /\
    view s' key = None /\ Remove szN szL szW key s' = (Throw (OperationFailedException KEY_NOT_FOUND), s') /\
    (forall k, wf_key k -> k <> key -> view s' k = view s k).
Proof.
  intros I Hk Hv. unfold view in Hv. destruct (wrapper_of s key) as [v|] eqn:Hw; [|done].
  assert (Hl : location v = DISK) by (unfold visible in Hv; destruct (location v), (locationVolatile v); naive_solver).
  pose proof (Remove_spec szN szL szW s key v Hk I Hw ltac:(congruence)) as HR.
  rewrite bool_decide_eq_false_2 in HR by congruence. destruct HR as (s' & E & I' & Hw' & Ho & Hi).
  pose proof (Remove_spec szN szL szW s' key _ Hk I' Hw' ltac:(done)) as HR'.
  rewrite bool_decide_eq_true_2 in HR' by done.
  exists s'. rewrite (view_wrapper _ _ _ Hw'). split_and!; try done.
  intros k Hwk Hne. by apply (view_slot_other s s' key).
Qed.

#[refine] Definition artree_engine : RTreeEngine (@ARTree P) :=
  {| rt_Get := Get szN szL szW; rt_Put := Put szN szL szW; rt_Remove := Remove szN szL szW;
     rt_AllocValueForKey := AllocValueForKey szN szL szW;
     rt_AllocateAndUpdateValueWrapper := AllocateAndUpdateValueWrapper szN szL szW;
     rt_ok := art_inv; rt_key := wf_key; rt_view := view; rt_slot := slot;
     rt_iovs := fun s => iovs (objs s) |}.
Proof.
  - intros s key a n l. apply view_location.
  - intros s key a n l. apply view_slot.
  - intros s key I Hk. by apply Get_view.
  - intros s key I Hk. by apply Put_slot.
  - intros s key e s' I Hk. by apply Remove_throws.
  - intros s key size I Hk. by apply Alloc_slot.
  - intros s key size dev s' I Hk. by apply Update_view.
  - intros s key a n I Hk. by apply Remove_disk.
Defined.
End Instance_.
