(* ===== verification/Rqst.v ===== *)
(** * Requests ([lib/common/Rqst.h])

    A request names its key by a pointer: to the memory of whoever made the
    request, or to the request's own buffer of 32 bytes.  The memory of the callers
    is a map from addresses to bytes, so that a key that was freed meanwhile can be
    told from one that was copied. *)

From S2P Require Import Prelude Status ARTree.

(** [struct ValCtx]. *)
Record ValCtx : Type := mkValCtx { vc_location : LOCATIONS; vc_size : Z; vc_val : option positive }.
Definition ValCtx_init : ValCtx := mkValCtx EMPTY 0 None.

(** [enum class RqstOperation] and [enum class OffloadOperation]. *)
Inductive RqstOperation : Type := RNONE | RGET | RPUT | RUPDATE.
Inductive OffloadOperation : Type := ONONE | OGET | OUPDATE | OREMOVE.
#[global] Instance OffloadOperation_eq_dec : EqDecision OffloadOperation.
Proof. solve_decision. Defined.

Abbreviation memory := (gmap positive (list Z)).

(** [BufferOf id] is the buffer of the request [id], [TaskKey bytes] the key array of a
    task, which its callbacks are given. *)
Inductive key_ptr : Type := CallerKey (a : positive) | BufferOf (id : positive) | TaskKey (bytes : list Z).

(** A call of a request's callback: the status, the key pointer, and the value. *)
Record call (C : Type) : Type := mkCall {
  c_clb : C; c_status : Z; c_key : key_ptr; c_keySize : Z; c_value : option (list Z) }.
Arguments mkCall {C}. Arguments c_clb {C}. Arguments c_status {C}. Arguments c_key {C}. Arguments c_value {C}.

Definition keyBuffer_size : Z := 32.

Section Rqst.
Context {Op C : Type}.

(** [rq_id] is the address of the request; a callback is a value of type [C]. *)
Record Rqst : Type := mkRqst {
  rq_id : positive; op : Op; key : key_ptr; keyBuffer : list Z; keySize : Z;
  value : option positive; valueSize : Z; clb : option C; loc : LOCATIONS }.

(** The [n] bytes at a caller's address. *)
Definition read_mem (mem : memory) (a : positive) (n : Z) : outcome exn (list Z) :=
  match mem !! a with
  | Some bytes => if n <=? Z.of_nat (length bytes) then Ret (take (Z.to_nat n) bytes) else Undef
  | None => Undef
  end.

(** The bytes that the request's key pointer leads to.  A pointer to the buffer of
    another request is taken as dangling: requests go back to their pools. *)
Definition read_key (mem : memory) (r : Rqst) : outcome exn (list Z) :=
  match key r with
  | CallerKey a => read_mem mem a (keySize r)
  | BufferOf id =>
      if bool_decide (id = rq_id r) then Ret (take (Z.to_nat (keySize r)) (keyBuffer r)) else Undef
  | TaskKey bytes => Ret (take (Z.to_nat (keySize r)) bytes)
  end.

(** [memcpy(keyBuffer, key, keySize)]. *)
Definition copy_key (mem : memory) (a : positive) (n : Z) (buf : list Z) : outcome exn (list Z) :=
  if keyBuffer_size <? n then Undef
  else match read_mem mem a n with
       | Ret bytes => Ret (bytes ++ drop (length bytes) buf)
       | r => r
       end.

(** The constructor copies the key, but [key] stays the caller's pointer. *)
Definition Rqst_init (id : positive) (buf : list Z) (mem : memory) (o : Op) (k : positive) (ks : Z)
    (v : option positive) (vs : Z) (c : option C) (l : LOCATIONS) : outcome exn Rqst :=
  match copy_key mem k ks buf with
  | Ret buf => Ret (mkRqst id o (CallerKey k) buf ks v vs c l)
  | Throw e => Throw e
  | Crash => Crash
  | Undef => Undef
  end.

Definition finalizeUpdate (UPDATE : Op) (mem : memory) (k : positive) (ks : Z) (v : option positive) (vs : Z)
    (c : option C) (l : LOCATIONS) (r : Rqst) : outcome exn Rqst :=
  match copy_key mem k ks (keyBuffer r) with
  | Ret buf => Ret (mkRqst (rq_id r) UPDATE (BufferOf (rq_id r)) buf ks v vs c l)
  | Throw e => Throw e
  | Crash => Crash
  | Undef => Undef
  end.

Definition finalizeGet (GET : Op) (k : key_ptr) (ks : Z) (v : option positive) (vs : Z) (c : option C)
    (r : Rqst) : Rqst :=
  mkRqst (rq_id r) GET k (keyBuffer r) ks v vs c (loc r).

Definition finalizeRemove (REMOVE : Op) (k : key_ptr) (ks : Z) (v : option positive) (vs : Z) (c : option C)
    (r : Rqst) : Rqst :=
  mkRqst (rq_id r) REMOVE k (keyBuffer r) ks v vs c (loc r).

(** How long a caller must keep its key.  A request made by [finalizeUpdate]
    keeps its own copy: it reads the same key whatever happens to the caller's
    memory.  A request made by the constructor, [finalizeGet] or [finalizeRemove]
    reads the caller's memory, and its key is lost once that is freed. *)
Theorem rqst_key_lifetime U G Rm id mem a ks v vs c l r r1 r2 :
  finalizeUpdate U mem a ks v vs c l r = Ret r1 ->
  Rqst_init id (keyBuffer r) mem G a ks v vs c l = Ret r2 ->
  (forall mem', read_key mem' r1 = read_mem mem a ks) /\
  read_key mem r2 = read_mem mem a ks /\ read_key (delete a mem) r2 = Undef /\
  read_key (delete a mem) (finalizeGet G (CallerKey a) ks v vs c r) = Undef /\
  read_key (delete a mem) (finalizeRemove Rm (CallerKey a) ks v vs c r) = Undef.
Proof.
  unfold finalizeUpdate, Rqst_init, copy_key. destruct (Z.ltb_spec keyBuffer_size ks) as [|Hks]; [done|].
  destruct (read_mem mem a ks) as [bytes|e| |] eqn:E; try done. intros [= <-] [= <-].
  unfold read_key. cbn [key keySize keyBuffer rq_id finalizeGet finalizeRemove]. rewrite bool_decide_eq_true_2 by done. unfold read_mem in E |- *.
  rewrite lookup_delete_eq. split_and!; try done.
  intros mem'. destruct (mem !! a) as [b|]; [|done]. destruct (Z.leb_spec ks (Z.of_nat (length b))); [|done].
  injection E as <-. f_equal. rewrite take_app_le by (rewrite length_take; lia).
  rewrite take_take. f_equal. lia.
Qed.
End Rqst.
Arguments Rqst : clear implicits.

(** A concrete run: a request that outlives its caller's key. *)
Definition run_mem : memory := {[1%positive := [7; 8]]}.
Definition run_rqst : Rqst OffloadOperation unit :=
  mkRqst 9 ONONE (BufferOf 9) (replicate 32 0) 0 None 0 None EMPTY.
Definition run_update : Rqst OffloadOperation unit :=
  mkRqst 9 OUPDATE (BufferOf 9) ([7; 8] ++ replicate 30 0) 2 None 0 (Some tt) PMEM.

Lemma rqst_key_lifetime_witness :
  finalizeUpdate OUPDATE run_mem 1 2 None 0 (Some tt) PMEM run_rqst = Ret run_update /\
  read_key ∅ run_update = Ret [7; 8].
Proof.
  assert (E1 : finalizeUpdate OUPDATE run_mem 1 2 None 0 (Some tt) PMEM run_rqst = Ret run_update)
    by reflexivity.
  assert (E2 : Rqst_init 5 (keyBuffer run_rqst) run_mem OGET 1 2 None 0 (Some tt) PMEM =
    Ret (mkRqst 5 OGET (CallerKey 1) ([7; 8] ++ replicate 30 0) 2 None 0 (Some tt) PMEM)) by reflexivity.
  destruct (rqst_key_lifetime OUPDATE OGET OREMOVE 5 run_mem 1 2 None 0 (Some tt) PMEM run_rqst _ _ E1 E2) as [E _].
  split; [exact E1|exact (E ∅)].
Defined.
