(* ===== verification/PmemPoller.v ===== *)
(** * The thread that serves asynchronous requests ([lib/pmem/PmemPoller])

    The poller takes requests from its ring and answers each by a callback; a value
    that is on disk is left to the offload poller, to which a new request is
    handed.  Callbacks are recorded in the order they are made. *)

From S2P Require Import Prelude Status ARTree RTreeEngine Poller Rqst.

(** ** The pools of requests

    [OffloadRqst::getPool] and its like are general pools; what a client sees of
    one is that a request it gets is nobody else's. *)
Class RqstPool (C PO : Type) : Type := {
  rp_get : PO -> Rqst OffloadOperation C * PO;
  rp_put : Rqst OffloadOperation C -> PO -> PO;
  rp_held : PO -> gset positive;
  rp_get_fresh : forall p, (rq_id (fst (rp_get p)) ∉ rp_held p) /\
    rp_held (snd (rp_get p)) = {[rq_id (fst (rp_get p))]} ∪ rp_held p;
  rp_put_held : forall r p, rp_held (rp_put r p) = rp_held p ∖ {[rq_id r]}
}.

#[refine] Definition simple_rqst_pool (C : Type) : RqstPool C (gset positive) :=
  {| rp_get := fun p => let a := fresh p in
       (mkRqst a ONONE (BufferOf a) (replicate 32 0) 0 None 0 None EMPTY, {[a]} ∪ p);
     rp_put := fun r p => p ∖ {[rq_id r]}; rp_held := fun p => p |}.
Proof.
  - intros p. split; [apply is_fresh|done].
  - done.
Defined.

Section PmemPoller.
Context {T C R1 R2 PO : Type} `{RTreeEngine T} `{SpdkRing (Rqst RqstOperation C) R1}
  `{SpdkRing (Rqst OffloadOperation C) R2} `{RqstPool C PO}.

#[local] Abbreviation PmemRqst := (Rqst RqstOperation C).
#[local] Abbreviation OffloadRqst := (Rqst OffloadOperation C).

(** [class PmemPoller], with what it works on: the tree, the callers' memory, the
    values in persistent memory, the offload poller's queue and the pool; [deleted] are the
    requests that [process] deleted. *)
Record PmemPoller : Type := mkPmemPoller {
  queue : @Poller PmemRqst R1; rtree : T; callers : memory; pmem : memory;
  offloadPoller : option (@Poller OffloadRqst R2); getPool : PO; calls : list (call C); deleted : list positive }.

#[local] Abbreviation PM A := (M exn PmemPoller A).

Definition on_tree {A} (m : M exn T A) : PM A :=
  czoom rtree (fun t s => mkPmemPoller (queue s) t (callers s) (pmem s) (offloadPoller s) (getPool s) (calls s) (deleted s)) m.

Definition _rqstClb (r : PmemRqst) (status : Z) (val : option (list Z)) : PM unit := fun s =>
  (Ret tt,
   match clb r with
   | Some c => mkPmemPoller (queue s) (rtree s) (callers s) (pmem s) (offloadPoller s) (getPool s)
                 (calls s ++ [mkCall c status (key r) (keySize r) val]) (deleted s)
   | None => s
   end).

Definition pool_get : PM OffloadRqst := fun s =>
  let r := rp_get (getPool s) in
  (Ret (fst r), mkPmemPoller (queue s) (rtree s) (callers s) (pmem s) (offloadPoller s) (snd r) (calls s) (deleted s)).
Definition pool_put (r : OffloadRqst) : PM unit := fun s =>
  (Ret tt, mkPmemPoller (queue s) (rtree s) (callers s) (pmem s) (offloadPoller s) (rp_put r (getPool s)) (calls s) (deleted s)).

(** [offloadPoller->enqueue(r)]. *)
Definition offload_enqueue (r : OffloadRqst) : PM bool := fun s =>
  match offloadPoller s with
  | None => (Undef, s)
  | Some q =>
      let b := enqueue r q in
      (Ret (fst b), mkPmemPoller (queue s) (rtree s) (callers s) (pmem s) (Some (snd b)) (getPool s) (calls s) (deleted s))
  end.

(** Without an offload poller the callback is called, and the code goes on. *)
Definition _processTransfer (r : PmemRqst) : PM unit :=
  let! s := cget in
  (match offloadPoller s with None => _rqstClb r OFFLOAD_DISABLED_ERROR None | Some _ => cret tt end) ;;;
  ccatch
    (let! g := pool_get in
     let g := finalizeGet OGET (key r) (keySize r) None 0 (clb r) g in
     let! ok := offload_enqueue g in
     if ok then cret tt else pool_put g ;;; _rqstClb r UNKNOWN_ERROR None)
    (fun e => match e with
              | OperationFailedException _ => _rqstClb r UNKNOWN_ERROR None
              | _ => cthrow e
              end).

(** The key that the request's pointer leads to, read by the tree. *)
Definition request_key (r : PmemRqst) : PM (list Z) := fun s => (read_key (callers s) r, s).

Definition _processGet (r : PmemRqst) : PM unit :=
  let! (rc, valCtx) :=
    ccatch (let! k := request_key r in
            let! (a, n, l) := on_tree (rt_Get k) in
            cret (OK, mkValCtx l n a))
           (fun _ => cret (UNKNOWN_ERROR, ValCtx_init)) in
  match vc_val valCtx with
  | None => _rqstClb r rc None
  | Some a =>
      if bool_decide (vc_location valCtx = DISK) then _processTransfer r
      else
        let! bytes := (fun s => (read_mem (pmem s) a (vc_size valCtx), s)) in
        _rqstClb r OK (Some bytes)
  end.

Definition _processPut (r : PmemRqst) : PM unit :=
  let! rc := ccatch (let! k := request_key r in on_tree (rt_Put k) ;;; cret OK)
                    (fun _ => cret UNKNOWN_ERROR) in
  _rqstClb r rc None.

Definition process_one (r : PmemRqst) : PM unit :=
  match op r with
  | RPUT => _processPut r
  | RGET => _processGet r
  | _ => cret tt
  end.

(** [delete requests[RqstIdx]]. *)
Definition delete_rqst (r : PmemRqst) : PM unit := fun s =>
  (Ret tt, mkPmemPoller (queue s) (rtree s) (callers s) (pmem s) (offloadPoller s) (getPool s) (calls s) (deleted s ++ [rq_id r])).

Fixpoint process_loop (rs : list PmemRqst) : PM unit :=
  match rs with
  | [] => cret tt
  | r :: rs => process_one r ;;; delete_rqst r ;;; process_loop rs
  end.

Definition process : PM unit := fun s =>
  if 0 <? requestCount (queue s) then
    (process_loop (pending (queue s)) ;;;
     fun s => (Ret tt, mkPmemPoller (mkPoller (rqstRing (queue s)) (requests (queue s)) 0) (rtree s) (callers s)
                         (pmem s) (offloadPoller s) (getPool s) (calls s) (deleted s))) s
  else (Ret tt, s).
End PmemPoller.

(** ** Every request is answered once *)

Section Answers.
Context {T C R1 R2 PO : Type} `{RTreeEngine T} `{SpdkRing (Rqst RqstOperation C) R1}
  `{SpdkRing (Rqst OffloadOperation C) R2} `{RqstPool C PO}.

#[local] Abbreviation state := (@PmemPoller T C R1 R2 PO).

(** The requests that wait at the offload poller. *)
Definition queued (s : state) : list (Rqst OffloadOperation C) :=
  match offloadPoller s with Some q => ring_list (rqstRing q) | None => [] end.

(** The callbacks that were made or handed on. *)
Definition answers (s : state) : list C := (c_clb <$> calls s) ++ omap clb (queued s).

(** The tree is good, the values it refers to are there, and the requests taken from the
    pool are those that wait at the offload poller. *)
Record pp_inv (s : state) : Prop := {
  pi_tree : rt_ok (rtree s);
  pi_bytes : forall k a n, rt_key (T := T) k ->
    rt_view (rtree s) k = Some (Some a, n, PMEM) \/ rt_slot (rtree s) k = Some (Some a, n) ->
    exists bytes, read_mem (pmem s) a n = Ret bytes;
  pi_pool : rp_held (getPool s) = list_to_set (rq_id <$> queued s) }.

(** A request that the poller can serve. *)
Definition servable (s : state) (r : Rqst RqstOperation C) : Prop :=
  (op r = RGET \/ op r = RPUT) /\ is_Some (clb r) /\
  exists k, read_key (callers s) r = Ret k /\ rt_key (T := T) k.

(** What serving one request leads to: one more answer, everything else kept. *)
Definition served (s s' : state) (c : C) : Prop :=
  pp_inv s' /\ callers s' = callers s /\ queue s' = queue s /\ answers s' ≡ₚ answers s ++ [c] /\
  deleted s' = deleted s /\ (is_Some (offloadPoller s) <-> is_Some (offloadPoller s')).

(** A get of a value on disk in a store without an offload poller. *)
Definition dangles (s : state) (r : Rqst RqstOperation C) : Prop :=
  offloadPoller s = None /\ op r = RGET /\
  exists k a n, read_key (callers s) r = Ret k /\ rt_view (rtree s) k = Some (Some a, n, DISK).

Lemma state_eta (s : state) :
  mkPmemPoller (queue s) (rtree s) (callers s) (pmem s) (offloadPoller s) (getPool s) (calls s) (deleted s) = s.
Proof. by destruct s. Qed.

Lemma clb_served s r c status val : pp_inv s -> clb r = Some c ->
  exists s', _rqstClb r status val s = (Ret tt, s') /\ served s s' c /\
    calls s' = calls s ++ [mkCall c status (key r) (keySize r) val] /\ queued s' = queued s.
Proof.
  intros [I1 I2 I4] Hc. unfold _rqstClb. rewrite Hc. eexists. split; [done|].
  split; [|done]. split_and!; [by split|done|done| |done|done].
  unfold answers. simpl. rewrite fmap_app. simpl. by rewrite <- !app_assoc, (Permutation_app_comm [c]).
Qed.

Lemma transfer_served s r c : pp_inv s -> clb r = Some c -> is_Some (offloadPoller s) ->
  exists s', _processTransfer r s = (Ret tt, s') /\ served s s' c.
Proof.
  intros I Hc [q Hq]. destruct I as [I1 I2 I4]. unfold _processTransfer, cbind at 1, cget. rewrite Hq.
  unfold cbind at 1, cret at 1.
  destruct (rp_get_fresh (getPool s)) as [Hf Hh]. unfold ccatch, cbind at 1, pool_get.
  destruct (rp_get (getPool s)) as [g p] eqn:Eg. cbn [fst snd] in Hf, Hh |- *.
  unfold cbind at 1, offload_enqueue. cbn [offloadPoller]. rewrite Hq.
  set (g' := finalizeGet OGET (key r) (keySize r) None 0 (clb r) g).
  destruct (enqueue_spec g' q) as [(_ & E & El)|[_ E]]; rewrite E in *; cbn [fst snd] in *.
  - eexists. split; [done|]. split_and!; [|done|done| |done|by rewrite Hq].
    + split; [done|done|]. cbn [getPool]. unfold queued. cbn [offloadPoller]. rewrite El, fmap_app.
      rewrite list_to_set_app_L, Hh, I4. unfold queued. rewrite Hq. simpl. set_solver.
    + unfold answers, queued. cbn [calls offloadPoller]. rewrite Hq, El, omap_app. simpl. rewrite Hc.
      by rewrite app_assoc.
  - unfold cbind, pool_put. cbn [fst snd getPool]. unfold _rqstClb. rewrite Hc. cbn [calls].
    eexists. split; [done|]. split_and!; [|done|done| |done|by rewrite Hq].
    + split; [done|done|]. cbn [getPool]. unfold queued. cbn [offloadPoller]. rewrite rp_put_held, Hh.
      unfold queued in I4. rewrite Hq in I4. cbn [rq_id finalizeGet g'] in *. set_solver.
    + unfold answers, queued. cbn [calls offloadPoller]. rewrite Hq, fmap_app. simpl.
      by rewrite <- !app_assoc, (Permutation_app_comm [c]).
Qed.

Lemma get_served s r c k : pp_inv s -> clb r = Some c -> read_key (callers s) r = Ret k -> rt_key (T := T) k -> op r = RGET ->
  ~ dangles s r -> exists s', _processGet r s = (Ret tt, s') /\ served s s' c.
Proof.
  intros I Hc Hk Hrk Hop Hnd. unfold _processGet, cbind at 1, ccatch, request_key, cbind at 1. rewrite Hk.
  unfold cbind at 1, on_tree, czoom. rewrite (rt_Get_view _ k (pi_tree _ I) Hrk).
  destruct (rt_view (rtree s) k) as [[[a n] l]|] eqn:Ev; cbn [fst snd]; rewrite (state_eta s).
  - unfold cret at 1. cbn [vc_val vc_location vc_size]. destruct a as [a|].
    + case_bool_decide as Hl.
      { apply transfer_served; [done|done|]. apply not_eq_None_Some. intros Ho. apply Hnd. subst l. split_and!; eauto. }
      assert (l = PMEM) as -> by (pose proof (rt_view_location _ _ _ _ _ Ev); by destruct l).
      destruct (pi_bytes _ I k a n Hrk (or_introl Ev)) as [bytes Hb].
      unfold cbind. rewrite Hb. destruct (clb_served s r c OK (Some bytes) I Hc) as (s' & E & Hs & _). eauto.
    + destruct (clb_served s r c OK None I Hc) as (s' & E & Hs & _). eauto.
  - unfold cret at 1. cbn [vc_val ValCtx_init]. destruct (clb_served s r c UNKNOWN_ERROR None I Hc) as (s' & E & Hs & _). eauto.
Qed.

Lemma put_served s r c k : pp_inv s -> clb r = Some c -> read_key (callers s) r = Ret k -> rt_key (T := T) k ->
  exists s', _processPut r s = (Ret tt, s') /\ served s s' c.
Proof.
  intros I Hc Hk Hrk. unfold _processPut, cbind at 1, ccatch, request_key, cbind at 1. rewrite Hk.
  unfold cbind at 1, on_tree, czoom.
  pose proof (rt_Put_slot _ k (pi_tree _ I) Hrk) as HP. destruct (rt_slot (rtree s) k) as [[a n]|] eqn:Es.
  - destruct HP as (t' & -> & Hok & Hv & Hvo & Hso). cbn [fst snd]. unfold cret at 1.
    assert (I' : pp_inv (mkPmemPoller (queue s) t' (callers s) (pmem s) (offloadPoller s) (getPool s) (calls s) (deleted s))).
    { destruct I as [_ I2 I4]. split; [done| |done]. intros k' a' n' Hk'. cbn [rtree pmem].
      rewrite Hso by done. destruct (decide (k' = k)) as [->|Hne]; [|rewrite Hvo by done; by apply I2].
      rewrite Hv, Es. intros [[= -> ->]|[= -> ->]]; apply (I2 k); auto. }
    destruct (clb_served _ r c OK None I' Hc) as (s' & E & Hs & _). eauto.
  - rewrite HP. cbn [fst snd]. rewrite (state_eta s). unfold cret at 1.
    destruct (clb_served s r c UNKNOWN_ERROR None I Hc) as (s' & E & Hs & _). eauto.
Qed.

(** One request that is served, and deleted. *)
Lemma one_served s r : pp_inv s -> servable s r -> ~ dangles s r ->
  exists s', process_one r s = (Ret tt, s') /\ pp_inv s' /\ callers s' = callers s /\ queue s' = queue s /\
    answers s' ≡ₚ answers s ++ omap clb [r] /\ deleted s' = deleted s /\ (is_Some (offloadPoller s) <-> is_Some (offloadPoller s')).
Proof.
  intros I (Hop & [c Hc] & k & Hk & Hrk) Hnd. simpl. rewrite Hc. unfold process_one.
  destruct Hop as [Ho|Ho]; rewrite Ho.
  - destruct (get_served s r c k I Hc Hk Hrk Ho Hnd) as (s' & E & Hs). by exists s'.
  - destruct (put_served s r c k I Hc Hk Hrk) as (s' & E & Hs). by exists s'.
Qed.

(** A get that cannot be handed on: the callback is called with
    [OFFLOAD_DISABLED_ERROR], and then the null pointer is followed. *)
Lemma one_dangles s r : pp_inv s -> servable s r -> dangles s r ->
  exists c (s' : state), clb r = Some c /\ process_one r s = (Undef, s') /\
    calls s' = calls s ++ [mkCall c OFFLOAD_DISABLED_ERROR (key r) (keySize r) None] /\ deleted s' = deleted s.
Proof.
  destruct s as [q t cs pm o gp cl de]. intros [Hok _ _] (_ & [c Hc] & k & Hk & Hrk) (Ho & Hop & k' & a & n & Hk' & Hv).
  cbn [rtree offloadPoller callers] in *. rewrite Hk in Hk'. injection Hk' as <-. subst o. exists c.
  unfold process_one. rewrite Hop. unfold _processGet, cbind at 1, ccatch at 1, request_key, cbind at 1. cbn [callers].
  rewrite Hk. unfold cbind at 1, on_tree, czoom. cbn [rtree]. rewrite (rt_Get_view t k Hok Hrk), Hv.
  cbn [fst snd]. unfold cret at 1. cbn [vc_val vc_location]. rewrite bool_decide_eq_true_2 by done.
  unfold _processTransfer, cbind at 1, cget. cbn [offloadPoller]. unfold cbind at 1, _rqstClb at 1. rewrite Hc.
  unfold ccatch, cbind at 1, pool_get. cbn [fst snd]. unfold cbind at 1, offload_enqueue. cbn [offloadPoller].
  eexists. split; [done|]. split; [reflexivity|]. done.
Qed.

#[local] Instance dangles_dec s r : Decision (dangles s r).
Proof.
  unfold dangles. destruct (offloadPoller s) as [q|]; [right; naive_solver|].
  destruct (op r) eqn:Ho; try (right; naive_solver).
  destruct (read_key (callers s) r) as [k|e| |] eqn:Ek; [|right; naive_solver..].
  destruct (rt_view (rtree s) k) as [[[[a|] n] []]|] eqn:Ev; try (right; naive_solver). left. eauto 10.
Defined.

(** What a batch leads to: the requests [done], all of them answered once and deleted,
    and then the rest [todo], which is empty or starts with a get that dangles. *)
Lemma process_loop_served rs : forall s, pp_inv s -> Forall (servable s) rs ->
  exists served todo s1, rs = served ++ todo /\ pp_inv s1 /\ queue s1 = queue s /\
    answers s1 ≡ₚ answers s ++ omap clb served /\ deleted s1 = deleted s ++ (rq_id <$> served) /\
    (is_Some (offloadPoller s) -> todo = []) /\
    match todo with
    | [] => process_loop rs s = (Ret tt, s1)
    | r :: _ => dangles s1 r /\ exists c s2, clb r = Some c /\ process_loop rs s = (Undef, s2) /\
        calls s2 = calls s1 ++ [mkCall c OFFLOAD_DISABLED_ERROR (key r) (keySize r) None] /\ deleted s2 = deleted s1
    end.
Proof.
  induction rs as [|r rs IH]; intros s I HF.
  - exists [], [], s. split_and!; try done; by rewrite app_nil_r.
  - apply Forall_cons in HF as [Hr HF]. destruct (decide (dangles s r)) as [Hd|Hnd].
    + exists [], (r :: rs), s. destruct (one_dangles s r I Hr Hd) as (c & s2 & Hc & E & Hcl & Hde).
      split_and!; try done; [by rewrite app_nil_r..|by destruct Hd as (-> & _); intros [? ?]|].
      exists c, s2. split_and!; try done. cbn [process_loop]. unfold cbind. by rewrite E.
    + destruct (one_served s r I Hr Hnd) as (s1 & E1 & I1 & Ec & Eq & Ea & Ed & Eo).
      set (s1' := mkPmemPoller (queue s1) (rtree s1) (callers s1) (pmem s1) (offloadPoller s1) (getPool s1) (calls s1) (deleted s1 ++ [rq_id r])).
      assert (EL : process_loop (r :: rs) s = process_loop rs s1').
      { cbn [process_loop]. rewrite (cbind_ret _ _ _ _ _ E1). by rewrite (cbind_ret (delete_rqst r) _ s1 tt s1' eq_refl). }
      destruct (IH s1') as (sv & td & s2 & -> & I2 & Eq2 & Ea2 & Ed2 & Eo2 & Hm).
      { by destruct I1. }
      { eapply Forall_impl; [exact HF|]. intros r' (? & ? & k' & ? & ?). split_and!; [done|done|]. exists k'. cbn. by rewrite Ec. }
      exists (r :: sv), td, s2. rewrite EL. split_and!; try done.
      * by rewrite Eq2.
      * rewrite Ea2. change (answers s1') with (answers s1). rewrite Ea, <- app_assoc. simpl. by destruct (clb r).
      * rewrite Ed2. cbn [deleted s1']. rewrite Ed, <- app_assoc. done.
      * intros Hs. apply Eo2. cbn. by apply Eo.
Qed.

(** C20. Every request is answered exactly once, as far as the poller gets.  When the poller
    runs on a batch of requests whose keys can be read, there is a part of the batch, from
    its start, whose callbacks were each either called or handed to the offload poller, once,
    and whose requests were deleted, once, with no request of the pool lost.  With an
    offload poller this part is the whole batch, the run ends and the batch is empty
    afterwards.  Without one it ends before the first get of a value that is on disk, if
    there is one: its callback is called with [OFFLOAD_DISABLED_ERROR], and then the run
    follows the null pointer. *)
Theorem pmem_process_answers (s : state) :
  pp_inv s -> 0 <= requestCount (queue s) -> Forall (servable s) (pending (queue s)) ->
  exists served todo s1, pending (queue s) = served ++ todo /\ pp_inv s1 /\
    answers s1 ≡ₚ answers s ++ omap clb served /\ deleted s1 = deleted s ++ (rq_id <$> served) /\
    (is_Some (offloadPoller s) -> todo = []) /\
    match todo with
    | [] => process s = (Ret tt, s1) /\ pending (queue s1) = []
    | r :: _ => dangles s1 r /\ exists c s2, clb r = Some c /\ process s = (Undef, s2) /\
        calls s2 = calls s1 ++ [mkCall c OFFLOAD_DISABLED_ERROR (key r) (keySize r) None] /\ deleted s2 = deleted s1
    end.
Proof.
  intros I Hn HF. unfold process. destruct (Z.ltb_spec 0 (requestCount (queue s))).
  - destruct (process_loop_served _ s I HF) as (sv & td & s1 & Ep & I1 & Eq & Ea & Ed & Eo & Hm). destruct td as [|r td].
    + exists sv, [], (mkPmemPoller (mkPoller (rqstRing (queue s1)) (requests (queue s1)) 0) (rtree s1) (callers s1) (pmem s1)
        (offloadPoller s1) (getPool s1) (calls s1) (deleted s1)).
      split_and!; try done; [by destruct I1|by rewrite (cbind_ret _ _ _ _ _ Hm)].
    + exists sv, (r :: td), s1. destruct Hm as (Hd & c & s2 & Hc & E & ? & ?).
      repeat (split; [assumption|]). exists c, s2. split_and!; try done. unfold cbind. by rewrite E.
  - exists [], [], s. replace (pending (queue s)) with (@nil (Rqst RqstOperation C)).
    + split_and!; try done; by rewrite app_nil_r.
    + unfold pending. by replace (Z.to_nat (requestCount (queue s))) with 0%nat by lia.
Qed.
End Answers.

(** ** A concrete run over [ARTree] *)

Section Runs.
#[local] Existing Instance simple_pool.
#[local] Instance run_engine : RTreeEngine (@ARTree (gset positive)) := artree_engine 1 1 1.
#[local] Instance run_ring1 : SpdkRing (Rqst RqstOperation nat) (list_ring (Rqst RqstOperation nat)) := simple_ring _.
#[local] Instance run_ring2 : SpdkRing (Rqst OffloadOperation nat) (list_ring (Rqst OffloadOperation nat)) := simple_ring _.
#[local] Instance run_rqst_pool : RqstPool nat (gset positive) := simple_rqst_pool nat.

Definition run_get : Rqst RqstOperation nat :=
  mkRqst 1 RGET (CallerKey 5) (replicate 32 0) 8 None 0 (Some 42%nat) EMPTY.

Definition run_poller (t : @ARTree (gset positive)) (o : bool) :
    @PmemPoller (@ARTree (gset positive)) nat (list_ring (Rqst RqstOperation nat))
      (list_ring (Rqst OffloadOperation nat)) (gset positive) :=
  mkPmemPoller (mkPoller (mkListRing [] 4) [run_get] 1) t {[5%positive := key1]} {[11%positive := replicate 100 0]}
    (if o then Some (mkPoller (mkListRing [] 4) [] 0) else None) ∅ [] [].

Lemma run_put_wrapper k v : wrapper_of run_put k = Some v ->
  v = mkValueWrapper PMEM (Some 11%positive) 100 PMEM (AOwned 11).
Proof.
  assert (E : wrappers (objs run_put) = {[10%positive := mkValueWrapper PMEM (Some 11%positive) 100 PMEM (AOwned 11)]})
    by (vm_compute; reflexivity).
  unfold wrapper_of. rewrite E. destruct (leaf_of _ k); [|done]. rewrite lookup_singleton_Some. naive_solver.
Qed.

Lemma one_wrapper (t : @ARTree (gset positive)) b m :
  (forall k v, wrapper_of t k = Some v -> v = mkValueWrapper PMEM (Some b) m PMEM (AOwned b)) ->
  forall k a n, view t k = Some (Some a, n, PMEM) \/ slot t k = Some (Some a, n) -> a = b /\ n = m.
Proof.
  intros Hw k a n Hv. unfold view, slot in Hv. destruct (wrapper_of t k) as [v|] eqn:E; [|naive_solver].
  apply Hw in E as ->. destruct Hv as [Hv|Hv]; injection Hv as <- <-; done.
Qed.

Lemma run_poller_inv o : pp_inv (run_poller run_put o).
Proof.
  split; [exact (reachable_inv 1 1 1 run_put run_put_reachable)| |by destruct o].
  intros k a n _ Hv. exists (replicate 100 0).
  destruct (one_wrapper run_put 11 100 run_put_wrapper k a n Hv) as [-> ->]. reflexivity.
Qed.

Lemma run_servable t o : servable (run_poller t o) run_get.
Proof. split_and!; [by left|by eexists|]. exists key1. split; [reflexivity|exact wf_key1]. Qed.

Lemma pmem_process_answers_witness :
  exists s', process (run_poller run_put true) = (Ret tt, s') /\ answers s' ≡ₚ [42%nat] /\ deleted s' = [1%positive].
Proof.
  destruct (pmem_process_answers (run_poller run_put true) (run_poller_inv true)) as (sv & td & s' & Ep & _ & Ea & Ed & Ho & Hm).
  - simpl. lia.
  - apply Forall_singleton. exact (run_servable run_put true).
  - specialize (Ho ltac:(by eexists)). subst td. rewrite app_nil_r in Ep.
    exists s'. split; [exact (proj1 Hm)|]. rewrite <- Ep in Ea, Ed. split; [exact Ea|exact Ed].
Defined.
End Runs.
