(* ===== verification/SpdkIoBuf.v ===== *)
(** * The buffers of the block device ([lib/spdk/SpdkIoBuf])

    Buffers of up to 28 kB come from pools, one for each multiple of 4 kB and each
    direction; larger ones are made by [new].  A buffer keeps its DMA memory when it
    goes back to its pool, so the memory that was allocated at the first use serves
    all later ones. *)

From S2P Require Import Prelude Status.

(** The two pools of each class [SpdkIoSizedBuf<Size>]. *)
Inductive rw : Type := Write | Read.

#[global] Instance rw_eq_dec : EqDecision rw.
Proof. solve_decision. Defined.
#[global] Instance rw_countable : Countable rw.
Proof.
  refine (inj_countable' (fun k => match k with Write => true | Read => false end)
                         (fun b => if b then Write else Read) _). by intros [].
Defined.

(** The address of a buffer, with the pool it was made for; [None] is one that was
    made by [new]. *)
Abbreviation buf_ptr := (option (rw * nat) * positive)%type.

(** [class SpdkIoSizedBuf]: [spdkDmaBuf] is null or the memory it points to, which
    belongs to no other buffer; [sizeClass] stands for the template argument,
    [(i + 1) * 4096] for [i] below 8 and [1 << 16] for 8. *)
Record SpdkIoBuf : Type := mkIoBuf {
  spdkDmaBuf : option (list Z); bufSize : Z; backIdx : Z; sizeClass : nat }.

Definition blockSize : nat := 8.

(** [SpdkIoSizedBuf()], as the pools make them. *)
Definition pooled_buf (c : nat) : SpdkIoBuf := mkIoBuf None 0 0 c.

(** ** The pools, and the DMA memory of SPDK

    While every buffer goes back to the pool it came from, a pool hands out buffers
    of its own that nobody holds. *)
Class IoBufPools (PO : Type) : Type := {
  bp_get : rw -> nat -> PO -> buf_ptr * PO;
  bp_put : rw -> nat -> buf_ptr -> PO -> PO;
  bp_ok : PO -> Prop;
  bp_held : PO -> gset buf_ptr;
  bp_get_fresh : forall k c p, bp_ok p -> exists a p', bp_get k c p = ((Some (k, c), a), p') /\ bp_ok p' /\
    ((Some (k, c), a) ∉ bp_held p) /\ bp_held p' = {[(Some (k, c), a)]} ∪ bp_held p;
  bp_put_held : forall k c a p, bp_ok p -> (Some (k, c), a) ∈ bp_held p ->
    bp_ok (bp_put k c (Some (k, c), a) p) /\
    bp_held (bp_put k c (Some (k, c), a) p) = bp_held p ∖ {[(Some (k, c), a)]};
  bp_pooled : forall a p, bp_ok p -> (None, a) ∉ bp_held p
}.

(** [spdk_dma_zmalloc] answers zeroed memory of the size or null. *)
Class DmaAlloc (H : Type) : Type := { dma_zmalloc : Z -> Z -> H -> bool * H }.

Section SpdkIoBufMgr.
Context {PO H : Type} `{IoBufPools PO} `{DmaAlloc H}.

(** [class SpdkIoBufMgr]; the buffers that exist are in [io_bufs]. *)
Record SpdkIoBufMgr : Type := mkIoBufMgr { io_bufs : gmap buf_ptr SpdkIoBuf; io_pools : PO; io_dma : H }.

#[local] Abbreviation BM A := (M exn SpdkIoBufMgr A).

Definition get_buf (b : buf_ptr) : BM SpdkIoBuf := fun s =>
  match io_bufs s !! b with Some x => (Ret x, s) | None => (Undef, s) end.
Definition put_buf (b : buf_ptr) (x : SpdkIoBuf) : BM unit := fun s =>
  (Ret tt, mkIoBufMgr (<[b := x]> (io_bufs s)) (io_pools s) (io_dma s)).

(** [getWriteBuf] and [getReadBuf] of [block[c]]: a buffer that the pool makes for
    the call is default constructed. *)
Definition pool_buf (k : rw) (c : nat) : BM buf_ptr := fun s =>
  let r := bp_get k c (io_pools s) in
  (Ret (fst r),
   mkIoBufMgr (match io_bufs s !! fst r with
               | Some _ => io_bufs s
               | None => <[fst r := pooled_buf c]> (io_bufs s)
               end) (snd r) (io_dma s)).

(** [new SpdkIoSizedBuf<1 << 16>(1 << 16, -1)]. *)
Definition new_buf : BM buf_ptr := fun s =>
  let b := (None, fresh (set_map (C := gset buf_ptr) (D := gset positive) snd (dom (io_bufs s)))) in
  (Ret b, mkIoBufMgr (<[b := mkIoBuf None (2 ^ 16) (-1) blockSize]> (io_bufs s)) (io_pools s) (io_dma s)).

(** [buf->setSpdkDmaBuf(spdk_dma_zmalloc(ioSize, align, NULL))]. *)
Definition alloc_dma (b : buf_ptr) (ioSize align : Z) : BM unit :=
  let! x := get_buf b in
  fun s =>
    let r := dma_zmalloc ioSize align (io_dma s) in
    let m := if fst r then Some (replicate (Z.to_nat ioSize) 0) else None in
    put_buf b (mkIoBuf m (bufSize x) (backIdx x) (sizeClass x)) (mkIoBufMgr (io_bufs s) (io_pools s) (snd r)).

(** [if (!buf->getSpdkDmaBuf())]. *)
Definition ensure_dma (b : buf_ptr) (ioSize align : Z) : BM unit :=
  let! x := get_buf b in
  match spdkDmaBuf x with Some _ => cret tt | None => alloc_dma b ioSize align end.

Definition setIdx (b : buf_ptr) (idx : Z) : BM unit :=
  let! x := get_buf b in put_buf b (mkIoBuf (spdkDmaBuf x) (bufSize x) idx (sizeClass x)).

(** [getIoWriteBuf] and [getIoReadBuf]; the second sets the index. *)
Definition getIoBuf (k : rw) (size align : Z) : BM buf_ptr :=
  let ioSize := u32 size in
  let bufIdx := ioSize / 4096 in
  if bufIdx <? Z.of_nat blockSize then
    let! b := pool_buf k (Z.to_nat bufIdx) in
    (match k with Write => cret tt | Read => setIdx b bufIdx end) ;;;
    ensure_dma b ioSize align ;;; cret b
  else
    let! b := new_buf in alloc_dma b ioSize align ;;; cret b.

Definition getIoWriteBuf : Z -> Z -> BM buf_ptr := getIoBuf Write.
Definition getIoReadBuf : Z -> Z -> BM buf_ptr := getIoBuf Read.

(** [putIoWriteBuf] and [putIoReadBuf]: the pool is that of the buffer's class. *)
Definition putIoBuf (k : rw) (b : buf_ptr) : BM unit :=
  let! x := get_buf b in
  if negb (backIdx x =? -1)
  then fun s => (Ret tt, mkIoBufMgr (io_bufs s) (bp_put k (sizeClass x) b (io_pools s)) (io_dma s))
  else fun s => (Ret tt, mkIoBufMgr (delete b (io_bufs s)) (io_pools s) (io_dma s)).

Definition putIoWriteBuf : buf_ptr -> BM unit := putIoBuf Write.
Definition putIoReadBuf : buf_ptr -> BM unit := putIoBuf Read.

(** ** The invariant *)

(** What a buffer is, by where it was made: the memory of a pooled buffer has the
    size of its class. *)
Definition buf_ok (b : buf_ptr) (x : SpdkIoBuf) : Prop :=
  match fst b with
  | Some (_, c) => sizeClass x = c /\ (c < blockSize)%nat /\ backIdx x <> -1 /\
      (forall m, spdkDmaBuf x = Some m -> Z.of_nat (length m) = 4096 * Z.of_nat c)
  | None => backIdx x = -1
  end.

Record mgr_inv (s : SpdkIoBufMgr) : Prop := {
  mi_pools : bp_ok (io_pools s);
  mi_held : forall b, b ∈ bp_held (io_pools s) -> is_Some (io_bufs s !! b);
  mi_bufs : forall b x, io_bufs s !! b = Some x -> buf_ok b x }.

(** The buffers in use: those the pools gave out, and those made by [new]. *)
Definition in_use (s : SpdkIoBufMgr) (b : buf_ptr) : Prop :=
  match fst b with
  | Some _ => b ∈ bp_held (io_pools s)
  | None => is_Some (io_bufs s !! b)
  end.

(** The direction that a buffer serves. *)
Definition serves (k : rw) (b : buf_ptr) : Prop := forall k' c, fst b = Some (k', c) -> k' = k.

Lemma in_use_buf s b : mgr_inv s -> in_use s b -> exists x, io_bufs s !! b = Some x /\ buf_ok b x.
Proof.
  intros I Hu. assert (is_Some (io_bufs s !! b)) as [x Hx].
  { unfold in_use in Hu. destruct (fst b); [by apply I|done]. }
  exists x. split; [done|]. by apply (mi_bufs _ I).
Qed.

(** A buffer that exists is changed: nothing else is. *)
Lemma change_buf s b x0 x h : mgr_inv s -> io_bufs s !! b = Some x0 -> buf_ok b x ->
  let s' := mkIoBufMgr (<[b := x]> (io_bufs s)) (io_pools s) h in
  mgr_inv s' /\ (forall b', in_use s' b' <-> in_use s b').
Proof.
  intros [I1 I2 I3] Hb Hx s'.
  assert (HS : forall b', is_Some (<[b := x]> (io_bufs s) !! b') <-> is_Some (io_bufs s !! b')).
  { intros b'. destruct (decide (b' = b)) as [->|]; [by rewrite lookup_insert_eq, Hb|by rewrite lookup_insert_ne by done]. }
  split.
  - split; simpl; [done|intros b' Hh; apply HS; by apply I2|].
    intros b' y. rewrite lookup_insert_Some. intros [[<- <-]|[_ Hy]]; [done|by apply I3].
  - intros b'. unfold in_use. simpl. by destruct (fst b').
Qed.

Lemma pool_buf_spec k c s : mgr_inv s -> (c < blockSize)%nat ->
  exists a s' x, let b : buf_ptr := (Some (k, c), a) in
    pool_buf k c s = (Ret b, s') /\ mgr_inv s' /\ io_bufs s' !! b = Some x /\ io_dma s' = io_dma s /\
    ~ in_use s b /\ (forall b', in_use s' b' <-> b' = b \/ in_use s b') /\
    (forall b', b' <> b -> io_bufs s' !! b' = io_bufs s !! b').
Proof.
  intros [I1 I2 I3] Hc. destruct (bp_get_fresh k c (io_pools s) I1) as (a & p' & E & Hok & Hf & Hh).
  unfold pool_buf. rewrite E. cbn [fst snd]. set (b := (Some (k, c), a) : buf_ptr) in *.
  set (m := match io_bufs s !! b with Some _ => io_bufs s | None => <[b := pooled_buf c]> (io_bufs s) end).
  assert (Hm : exists x, m !! b = Some x /\ buf_ok b x).
  { unfold m. destruct (io_bufs s !! b) as [x|] eqn:Eb; [exists x; split; [done|by apply I3]|].
    rewrite lookup_insert_eq. eexists. split; [done|]. split_and!; done. }
  assert (Hm' : forall b', b' <> b -> m !! b' = io_bufs s !! b').
  { intros b' Hne. unfold m. destruct (io_bufs s !! b); [done|]. by rewrite lookup_insert_ne. }
  destruct Hm as (x & Hx & Hok').
  exists a, (mkIoBufMgr m p' (io_dma s)), x. split_and!; try done.
  - split; simpl; [done| |].
    + intros b'. rewrite Hh, elem_of_union, elem_of_singleton. destruct (decide (b' = b)) as [->|Hne]; [by eexists|].
      intros [?|Hin]; [done|]. rewrite Hm' by done. by apply I2.
    + intros b' y Hy. destruct (decide (b' = b)) as [->|Hne]; [congruence|]. rewrite Hm' in Hy by done. by apply I3.
  - intros b'. unfold in_use. simpl. rewrite Hh. destruct (fst b') as [kc|] eqn:Eb'; [set_solver|].
    assert (b' <> b) by (intros ->; done). rewrite Hm' by done. naive_solver.
Qed.

Lemma new_buf_spec s : mgr_inv s ->
  exists a s' x, let b : buf_ptr := (None, a) in
    new_buf s = (Ret b, s') /\ mgr_inv s' /\ io_bufs s' !! b = Some x /\ io_dma s' = io_dma s /\
    ~ in_use s b /\ (forall b', in_use s' b' <-> b' = b \/ in_use s b') /\
    (forall b', b' <> b -> io_bufs s' !! b' = io_bufs s !! b').
Proof.
  intros [I1 I2 I3]. unfold new_buf.
  set (X := set_map (C := gset buf_ptr) (D := gset positive) snd (dom (io_bufs s))).
  set (b := (None, fresh X) : buf_ptr). pose proof (is_fresh X) as Hf.
  assert (Hn : io_bufs s !! b = None).
  { apply not_elem_of_dom. intros Hin. apply Hf. apply elem_of_map. by exists b. }
  eexists (fresh X), _, _. split_and!; [done| |apply lookup_insert_eq|done| | |].
  - split; simpl; [done| |].
    + intros b' Hb'. destruct (decide (b' = b)) as [->|]; [by rewrite lookup_insert_eq|]. rewrite lookup_insert_ne by done. by apply I2.
    + intros b' y. rewrite lookup_insert_Some. intros [[<- <-]|[_ Hy]]; [done|by apply I3].
  - unfold in_use. simpl. fold b. rewrite Hn. by intros [? ?].
  - intros b'. unfold in_use. simpl. destruct (fst b') as [kc|] eqn:Eb'.
    + split; [by right|]. intros [->|?]; done.
    + destruct (decide (b' = b)) as [->|Hne]; [rewrite lookup_insert_eq; split; [by left|by eexists]|].
      rewrite lookup_insert_ne by done. naive_solver.
  - intros b' Hne. simpl. by rewrite lookup_insert_ne.
Qed.

(** The memory of a buffer after it was made sure of. *)
Definition dma_of (x : SpdkIoBuf) (ioSize align : Z) : Prop :=
  match spdkDmaBuf x with
  | Some m => Z.of_nat (length m) = ioSize
  | None => exists h, fst (dma_zmalloc ioSize align h) = false
  end.

Lemma alloc_dma_spec s b x ioSize align : mgr_inv s -> io_bufs s !! b = Some x -> 0 <= ioSize ->
  (forall k c, fst b = Some (k, c) -> ioSize = 4096 * Z.of_nat c) ->
  exists s' x', alloc_dma b ioSize align s = (Ret tt, s') /\ mgr_inv s' /\ io_bufs s' !! b = Some x' /\
    dma_of x' ioSize align /\ (forall b', in_use s' b' <-> in_use s b') /\
    (forall b', b' <> b -> io_bufs s' !! b' = io_bufs s !! b').
Proof.
  intros I Hb Hz Hs. unfold alloc_dma, cbind, get_buf. rewrite Hb. unfold put_buf. cbn [io_bufs io_pools io_dma].
  set (r := dma_zmalloc ioSize align (io_dma s)).
  set (x' := mkIoBuf (if fst r then _ else _) _ _ _).
  assert (Hx' : buf_ok b x').
  { pose proof (mi_bufs _ I b x Hb) as Hx. unfold buf_ok in *. destruct (fst b) as [[k c]|] eqn:Eb; [|done].
    destruct Hx as (? & ? & ? & _). split_and!; try done. intros m. simpl. rewrite (Hs k c eq_refl) in *.
    destruct (fst r); intros [= <-]. rewrite length_replicate. lia. }
  destruct (change_buf s b x x' (snd r) I Hb Hx') as [I' Hu].
  eexists _, x'. split_and!; [done|done|apply lookup_insert_eq| |done|].
  - unfold dma_of. simpl. destruct (fst r) eqn:Er; [rewrite length_replicate; lia|by eexists].
  - intros b' Hne. simpl. by rewrite lookup_insert_ne.
Qed.

Lemma ensure_dma_spec s b x ioSize align : mgr_inv s -> io_bufs s !! b = Some x -> 0 <= ioSize ->
  (exists k c, fst b = Some (k, c) /\ ioSize = 4096 * Z.of_nat c) ->
  exists s' x', ensure_dma b ioSize align s = (Ret tt, s') /\ mgr_inv s' /\ io_bufs s' !! b = Some x' /\
    dma_of x' ioSize align /\ (forall b', in_use s' b' <-> in_use s b') /\
    (forall b', b' <> b -> io_bufs s' !! b' = io_bufs s !! b').
Proof.
  intros I Hb Hz (k & c & Ek & Es). unfold ensure_dma, cbind at 1, get_buf. rewrite Hb.
  destruct (spdkDmaBuf x) as [m|] eqn:Em.
  - exists s, x. split_and!; try done. unfold dma_of. rewrite Em.
    pose proof (mi_bufs _ I b x Hb) as Hx. unfold buf_ok in Hx. rewrite Ek in Hx. destruct Hx as (_ & _ & _ & Hx).
    rewrite Es. by apply Hx.
  - apply (alloc_dma_spec s b x); try done. intros k' c'. rewrite Ek. by intros [= <- <-].
Qed.

Lemma setIdx_spec s b x idx : mgr_inv s -> io_bufs s !! b = Some x -> is_Some (fst b) -> idx <> -1 ->
  exists s' x', setIdx b idx s = (Ret tt, s') /\ mgr_inv s' /\ io_bufs s' !! b = Some x' /\
    (forall b', in_use s' b' <-> in_use s b') /\ (forall b', b' <> b -> io_bufs s' !! b' = io_bufs s !! b').
Proof.
  intros I Hb [[k c] Eb] Hi. unfold setIdx, cbind, get_buf. rewrite Hb. unfold put_buf.
  set (x' := mkIoBuf _ _ _ _).
  destruct (change_buf s b x x' (io_dma s) I Hb) as [I' Hu].
  { pose proof (mi_bufs _ I b x Hb) as Hx. unfold buf_ok in *. rewrite Eb in *. by destruct Hx as (? & ? & ? & ?). }
  eexists _, x'. split_and!; [done|done|apply lookup_insert_eq|done|].
  intros b' Hne. simpl. by rewrite lookup_insert_ne.
Qed.

(** What a call for a buffer leads to. *)
Definition handed_out (k : rw) (size align : Z) (s : SpdkIoBufMgr) (b : buf_ptr) (s' : SpdkIoBufMgr) : Prop :=
  mgr_inv s' /\ ~ in_use s b /\ (forall b', in_use s' b' <-> b' = b \/ in_use s b') /\ serves k b /\
  (exists x, io_bufs s' !! b = Some x /\ dma_of x size align) /\
  (forall b', b' <> b -> io_bufs s' !! b' = io_bufs s !! b').

Lemma getIoBuf_spec k size align s : mgr_inv s -> 0 <= size < 2 ^ 32 -> (4096 | size) ->
  exists b s', getIoBuf k size align s = (Ret b, s') /\ handed_out k size align s b s'.
Proof.
  intros I Hs [c ->]. unfold getIoBuf. rewrite uwrap_id by done. rewrite Z.div_mul by lia.
  destruct (Z.ltb_spec c (Z.of_nat blockSize)) as [Hc|Hc].
  - destruct (pool_buf_spec k (Z.to_nat c) s I) as (a & s1 & x1 & E1 & I1 & Hx1 & _ & Hf & Hu1 & Ho1); [lia|].
    set (b := (Some (k, Z.to_nat c), a) : buf_ptr) in *. rewrite (cbind_ret _ _ _ _ _ E1).
    assert (exists s2 x2, (match k with Write => cret tt | Read => setIdx b c end) s1 = (Ret tt, s2) /\ mgr_inv s2 /\
      io_bufs s2 !! b = Some x2 /\ (forall b', in_use s2 b' <-> in_use s1 b') /\
      (forall b', b' <> b -> io_bufs s2 !! b' = io_bufs s1 !! b')) as (s2 & x2 & E2 & I2 & Hx2 & Hu2 & Ho2).
    { destruct k; [by exists s1, x1|]. apply (setIdx_spec s1 b x1); [done|done|by eexists|lia]. }
    rewrite (cbind_ret _ _ _ _ _ E2).
    destruct (ensure_dma_spec s2 b x2 (c * 4096) align I2 Hx2) as (s3 & x3 & E3 & I3 & Hx3 & Hd & Hu3 & Ho3);
      [lia|exists k, (Z.to_nat c); split; [done|lia]|].
    rewrite (cbind_ret _ _ _ _ _ E3). exists b, s3. split; [done|]. split_and!; [done|done| | |by exists x3|].
    + intros b'. by rewrite Hu3, Hu2.
    + intros k' c'. by intros [= <- _].
    + intros b' Hne. by rewrite Ho3, Ho2, Ho1.
  - destruct (new_buf_spec s I) as (a & s1 & x1 & E1 & I1 & Hx1 & _ & Hf & Hu1 & Ho1).
    rewrite (cbind_ret _ _ _ _ _ E1).
    destruct (alloc_dma_spec s1 (None, a) x1 (c * 4096) align I1 Hx1) as (s2 & x2 & E2 & I2 & Hx2 & Hd & Hu2 & Ho2); [lia|done|].
    rewrite (cbind_ret _ _ _ _ _ E2). exists (None, a), s2. split; [done|]. split_and!; [done|done| |done|by exists x2|].
    + intros b'. by rewrite Hu2.
    + intros b' Hne. by rewrite Ho2, Ho1.
Qed.

Lemma putIoBuf_spec k b s : mgr_inv s -> in_use s b -> serves k b ->
  exists s', putIoBuf k b s = (Ret tt, s') /\ mgr_inv s' /\ (forall b', in_use s' b' <-> b' <> b /\ in_use s b') /\
    (forall b', b' <> b -> io_bufs s' !! b' = io_bufs s !! b').
Proof.
  intros I Hu Hk. destruct (in_use_buf s b I Hu) as (x & Hx & Hok). destruct I as [I1 I2 I3].
  unfold putIoBuf, cbind, get_buf. rewrite Hx. unfold buf_ok in Hok. destruct b as [[[k' c]|] a]; simpl in Hok, Hk.
  - assert (k' = k) as -> by by apply (Hk k' c). destruct Hok as (-> & _ & Hi & _).
    destruct (Z.eqb_spec (backIdx x) (-1)); [done|]. cbn [negb].
    destruct (bp_put_held k c a (io_pools s) I1 Hu) as [Hok' Hh].
    eexists. split; [done|]. split_and!; [|intros b'|done].
    + split; simpl; [done| |done]. intros b'. rewrite Hh. set_solver.
    + unfold in_use. simpl. rewrite Hh. destruct b' as [[kc|] a']; simpl; [set_solver|naive_solver].
  - rewrite Hok. cbn [negb Z.eqb Pos.eqb]. eexists. split; [done|]. split_and!; [|intros b'|].
    + split; simpl; [done| |].
      * intros b' Hb'. destruct (decide (b' = (None, a))) as [->|Hne]; [by destruct (bp_pooled a (io_pools s) I1)|].
        rewrite lookup_delete_ne by done. by apply I2.
      * intros b' y. rewrite lookup_delete_Some. intros [_ ?]. by apply I3.
    + unfold in_use. simpl. destruct b' as [[kc|] a']; simpl; [naive_solver|].
      destruct (decide (a' = a)) as [->|Hne]; [rewrite lookup_delete_eq; split; [by intros [? ?]|naive_solver]|].
      rewrite lookup_delete_ne by congruence. naive_solver.
    + intros b' Hne. simpl. by rewrite lookup_delete_ne.
Qed.

End SpdkIoBufMgr.

(** ** Pools as the set of what is held *)

Definition fresh_in (kc : rw * nat) (p : gset buf_ptr) : positive :=
  fresh (set_map (C := gset buf_ptr) (D := gset positive) snd p).

#[refine] Definition simple_buf_pools : IoBufPools (gset buf_ptr) :=
  {| bp_get := fun k c p => let b := (Some (k, c), fresh_in (k, c) p) in (b, {[b]} ∪ p);
     bp_put := fun _ _ b p => p ∖ {[b]};
     bp_ok := fun p => forall a, (None, a) ∉ p; bp_held := fun p => p |}.
Proof.
  - intros k c p Hp. eexists _, _. split_and!; [done| | |done].
    + intros a. rewrite elem_of_union, elem_of_singleton. intros [?|Hin]; [done|]. by apply (Hp a).
    + intros Hin. apply (is_fresh (set_map (C := gset buf_ptr) (D := gset positive) snd p)).
      apply elem_of_map. eexists. split; [|exact Hin]. done.
  - intros k c a p Hp _. split; [|done]. intros a' [Hin _]%elem_of_difference. by apply (Hp a').
  - done.
Defined.

#[global] Instance simple_dma : DmaAlloc unit := {| dma_zmalloc := fun _ _ h => (true, h) |}.

(** ** Buffers are exclusive and large enough *)

(** A buffer for an I/O is nobody else's and has the size of the I/O.  For a size
    that is a multiple of 4096, [getIoWriteBuf] and [getIoReadBuf] return a buffer
    that is not in use, whose DMA memory is exactly as large as asked for (unless
    SPDK has no memory), also when the buffer had been used before; no other buffer
    changes.  Given back, it is free again and all others are in use as before. *)
Theorem iobuf_exclusive {PO H : Type} `{IoBufPools PO} `{DmaAlloc H} (k : rw) (size align : Z)
    (s : @SpdkIoBufMgr PO H) :
  mgr_inv s -> 0 <= size < 2 ^ 32 -> (4096 | size) ->
  exists b s1 s2, getIoBuf k size align s = (Ret b, s1) /\ handed_out k size align s b s1 /\
    putIoBuf k b s1 = (Ret tt, s2) /\ mgr_inv s2 /\ (forall b', in_use s2 b' <-> in_use s b') /\
    (forall b', b' <> b -> io_bufs s2 !! b' = io_bufs s !! b').
Proof.
  intros I Hs Hd. destruct (getIoBuf_spec k size align s I Hs Hd) as (b & s1 & E1 & HO).
  pose proof HO as (I1 & Hf & Hu1 & Hk & _ & Ho1).
  destruct (putIoBuf_spec k b s1 I1) as (s2 & E2 & I2 & Hu2 & Ho2); [by apply Hu1; left|done|].
  exists b, s1, s2. split_and!; try done.
  - intros b'. rewrite Hu2, Hu1. split; [by intros [? [?|?]]|]. intros Hb'. split; [by intros ->|by right].
  - intros b' Hne. by rewrite Ho2, Ho1.
Qed.

Section Runs.
#[local] Existing Instance simple_buf_pools.

Definition run_mgr : @SpdkIoBufMgr (gset buf_ptr) unit := mkIoBufMgr ∅ ∅ tt.

Lemma run_mgr_inv : mgr_inv run_mgr.
Proof. split; simpl; [intros a Ha; set_solver|intros b Hb; set_solver|intros b x Hx; by rewrite lookup_empty in Hx]. Qed.

Lemma iobuf_exclusive_witness :
  exists b s1, getIoBuf Read 8192 512 run_mgr = (Ret b, s1) /\ handed_out Read 8192 512 run_mgr b s1.
Proof.
  destruct (iobuf_exclusive Read 8192 512 run_mgr run_mgr_inv) as (b & s1 & _ & E & HO & _); [lia|by exists 2|].
  exists b, s1. split; [exact E|exact HO].
Defined.
End Runs.
