(* ===== verification/SpdkDevice.v ===== *)
(** * The device as the pollers see it ([lib/spdk/SpdkDevice.h])

    Tasks for a device, the arithmetic of sizes of [SpdkBdev], and the interface of
    a device as a type class.  [SpdkBdev] implements it. *)

From Stdlib Require String.
From S2P Require Import Prelude Status ARTree Poller Rqst SpdkIoBuf.

(** ** [struct DeviceTask] *)

(** [bdevAddr]: null, the address of a [DeviceAddr] in persistent memory, or the
    one kept in the request's buffer. *)
Inductive dev_ptr : Type := DNull | DPmem (a : positive) | DBuf (d : DeviceAddr).

(** [char key[64]]. *)
Definition task_key_size : Z := 64.

(** A task lies in the buffer of its request, and whoever has it hands it on whole,
    so it is a value here; [t_buff] is the address of its I/O buffer.  [rtree] is the
    same for all tasks, and [bdev] is the device that has the task; they are left
    out. *)
Record DeviceTask (C : Type) : Type := mkDeviceTask {
  t_buff : option buf_ptr; t_size : Z; t_blockSize : Z; t_keySize : Z; t_bdevAddr : dev_ptr;
  t_updatePmemIOV : bool; t_clb : option C; t_rqst : Rqst OffloadOperation C; t_op : OffloadOperation;
  t_key : list Z; t_result : bool; t_freeLba : Z; t_routing : bool }.
Arguments mkDeviceTask {C}. Arguments t_rqst {C}. Arguments t_op {C}. Arguments t_clb {C}.
Arguments t_key {C}. Arguments t_routing {C}. Arguments t_bdevAddr {C}. Arguments t_size {C}.
Arguments t_buff {C}. Arguments t_blockSize {C}. Arguments t_keySize {C}. Arguments t_updatePmemIOV {C}.
Arguments t_result {C}. Arguments t_freeLba {C}.

(** The initialiser of a task: what it does not name is zero, and [routing] is true. *)
Definition new_task {C} (size blockSize keySize : Z) (d : dev_ptr) (iov : bool) (r : Rqst OffloadOperation C)
    (o : OffloadOperation) (k : list Z) : DeviceTask C :=
  mkDeviceTask None size blockSize keySize d iov (clb r) r o k false 0 true.

Section Setters.
Context {C : Type}.
Implicit Types t : DeviceTask C.

Definition set_buff (b : option buf_ptr) t : DeviceTask C :=
  mkDeviceTask b (t_size t) (t_blockSize t) (t_keySize t) (t_bdevAddr t) (t_updatePmemIOV t) (t_clb t) (t_rqst t)
    (t_op t) (t_key t) (t_result t) (t_freeLba t) (t_routing t).
Definition set_blockSize (n : Z) t : DeviceTask C :=
  mkDeviceTask (t_buff t) (t_size t) n (t_keySize t) (t_bdevAddr t) (t_updatePmemIOV t) (t_clb t) (t_rqst t)
    (t_op t) (t_key t) (t_result t) (t_freeLba t) (t_routing t).
Definition set_result (r : bool) t : DeviceTask C :=
  mkDeviceTask (t_buff t) (t_size t) (t_blockSize t) (t_keySize t) (t_bdevAddr t) (t_updatePmemIOV t) (t_clb t)
    (t_rqst t) (t_op t) (t_key t) r (t_freeLba t) (t_routing t).
Definition set_freeLba (l : Z) t : DeviceTask C :=
  mkDeviceTask (t_buff t) (t_size t) (t_blockSize t) (t_keySize t) (t_bdevAddr t) (t_updatePmemIOV t) (t_clb t)
    (t_rqst t) (t_op t) (t_key t) (t_result t) l (t_routing t).
Definition set_routing (b : bool) t : DeviceTask C :=
  mkDeviceTask (t_buff t) (t_size t) (t_blockSize t) (t_keySize t) (t_bdevAddr t) (t_updatePmemIOV t) (t_clb t)
    (t_rqst t) (t_op t) (t_key t) (t_result t) (t_freeLba t) b.
End Setters.

(** The key of a new task, and [memcpy(task->key, rqst->key, rqst->keySize)]. *)
Definition no_key : list Z := replicate (Z.to_nat task_key_size) 0.
Definition task_key (k : list Z) : outcome exn (list Z) :=
  if task_key_size <? Z.of_nat (length k) then Undef else Ret (k ++ drop (length k) no_key).

(** ** Sizes *)

(** [enum CSpdkBdevState]. *)
Inductive CSpdkBdevState : Type := SPDK_BDEV_INIT | SPDK_BDEV_NOT_FOUND | SPDK_BDEV_READY | SPDK_BDEV_ERROR.

#[global] Instance CSpdkBdevState_eq_dec : EqDecision CSpdkBdevState.
Proof. solve_decision. Defined.

(** [SpdkBdevCtx] without the handles that SPDK gave; [state] is written when the
    device is opened. *)
Record SpdkBdevCtx : Type := mkSpdkBdevCtx {
  bdev_name : String.string; bdev_addr : String.string; blk_size : Z; data_blk_size : Z; buf_align : Z; blk_num : Z;
  io_pool_size : Z; io_cache_size : Z; io_min_size : Z; ctx_state : CSpdkBdevState; pci_addr : PciAddr }.

(** A device with blocks of [bs] bytes, for concrete runs. *)
Definition ctx_of (bs : Z) (p : PciAddr) : SpdkBdevCtx :=
  mkSpdkBdevCtx String.EmptyString String.EmptyString bs bs 1 100000 16 16 4096 SPDK_BDEV_READY p.

Definition getOptimalSize (c : SpdkBdevCtx) (size : Z) : Z :=
  if size =? 0 then 0 else u64 (u64 ((size - 1) / 4096 + 1) * io_min_size c).

(** [x + blk_size - 1 & ~(blk_size - 1)]: the mask is a [uint32_t]. *)
Definition getAlignedSize (c : SpdkBdevCtx) (size : Z) : Z :=
  Z.land (u64 (getOptimalSize c size + blk_size c - 1)) (u32 (Z.lnot (u32 (blk_size c - 1)))).

(** [blk_size] is positive once the device is open. *)
Definition getSizeInBlk (c : SpdkBdevCtx) (size : Z) : Z := u32 (getOptimalSize c size / blk_size c).

(** ** The interface *)

(** What the device reads of persistent memory: the values and the device addresses. *)
Record pmem_view : Type := mkPmemView { pv_values : memory; pv_iovs : gmap positive DeviceAddr }.

(** [*task->bdevAddr]. *)
Definition task_addr (pv : pmem_view) {C} (t : DeviceTask C) : option DeviceAddr :=
  match t_bdevAddr t with
  | DNull => None
  | DPmem a => pv_iovs pv !! a
  | DBuf d => Some d
  end.

(** A task that is to be routed is taken, or refused without a change of what the
    device has to do; [dev_tasks] are the tasks it has taken and not started.
    [dev_knows] are the addresses that a read or a removal may name. *)
Class SpdkDevice (C D : Type) : Type := {
  dev_ctx : D -> SpdkBdevCtx;
  dev_ok : D -> Prop;
  dev_knows : DeviceAddr -> Prop;
  dev_read : pmem_view -> DeviceTask C -> M exn D bool;
  dev_write : pmem_view -> DeviceTask C -> M exn D bool;
  dev_remove : pmem_view -> DeviceTask C -> M exn D bool;
  dev_tasks : D -> list (DeviceTask C);
  dev_accepts : forall f pv t d, dev_ok d -> t_routing t = true ->
    f = dev_write \/ (f = dev_read \/ f = dev_remove) /\ (exists a, task_addr pv t = Some a /\ dev_knows a) ->
    exists b d', f pv t d = (Ret b, d') /\ dev_ok d' /\ dev_ctx d' = dev_ctx d /\
      dev_tasks d' ≡ₚ (if b then t :: dev_tasks d else dev_tasks d)
}.

(** ** The sizes are large enough *)

Lemma getOptimalSize_mult c size : io_min_size c = 4096 -> 0 < size < 2 ^ 63 ->
  exists m, getOptimalSize c size = 4096 * m /\ 4096 * (m - 1) < size <= 4096 * m.
Proof.
  intros Hm Hs. exists ((size - 1) / 4096 + 1). unfold getOptimalSize. destruct (Z.eqb_spec size 0); [lia|].
  rewrite Hm. pose proof (Z.div_mod (size - 1) 4096 ltac:(lia)). pose proof (Z.mod_pos_bound (size - 1) 4096 ltac:(lia)).
  assert (0 <= (size - 1) / 4096) by (apply Z.div_pos; lia).
  rewrite (uwrap_id 64 ((size - 1) / 4096 + 1)) by lia. rewrite uwrap_id by lia. lia.
Qed.

(** The mask of a power of two clears the low bits of a number below [2^32]. *)
Lemma land_mask k x : 0 <= k <= 32 -> 0 <= x < 2 ^ 32 ->
  Z.land x (u32 (Z.lnot (u32 (2 ^ k - 1)))) = x / 2 ^ k * 2 ^ k.
Proof.
  intros Hk Hx. rewrite (uwrap_id 32 (2 ^ k - 1)) by (pose proof (Z.pow_le_mono_r 2 k 32); lia).

  assert (Em : Z.lnot (2 ^ k - 1) = - 2 ^ k) by (unfold Z.lnot; lia).
  apply Z.bits_inj'. intros n Hn. rewrite Z.land_spec, Em. unfold uwrap.
  rewrite <- Z.shiftr_div_pow2, <- Z.shiftl_mul_pow2 by lia.
  rewrite <- Z.land_ones, Z.land_spec by lia.
  replace (- 2 ^ k) with (Z.shiftl (-1) k) by (rewrite Z.shiftl_mul_pow2; lia).
  destruct (Z.ltb_spec n k) as [Hnk|Hnk].
  - rewrite !Z.shiftl_spec_low by lia. by rewrite andb_false_r.
  - rewrite !Z.shiftl_spec by lia. rewrite Z.bits_m1, Z.shiftr_spec by lia.
    replace (n - k + k) with n by lia. destruct (Z.ltb_spec n 32) as [H32|H32].
    + rewrite Z.ones_spec_low by lia. by rewrite !andb_true_r.
    + rewrite Z.ones_spec_high by lia. rewrite andb_false_r. symmetry.
      rewrite <- (Z.mod_small x (2 ^ 32)) by lia. by apply Z.mod_pow2_bits_high.
Qed.

Lemma sizes_cover c k size :
  0 <= k <= 12 -> blk_size c = 2 ^ k -> io_min_size c = 4096 -> 0 < size <= 2 ^ 31 ->
  let aligned := getAlignedSize c size in
  size <= aligned < size + 4096 /\ aligned = getOptimalSize c size /\
  (blk_size c | aligned) /\ getSizeInBlk c aligned * blk_size c = aligned.
Proof.
  intros Hk Hb Hm Hs aligned. destruct (getOptimalSize_mult c size Hm ltac:(lia)) as (m & Eo & Hr).
  assert (H2 : 0 < 2 ^ k <= 4096) by (split; [apply Z.pow_pos_nonneg; lia|]; change 4096 with (2 ^ 12); apply Z.pow_le_mono_r; lia).
  assert (Ed : 4096 = 2 ^ (12 - k) * 2 ^ k) by (rewrite <- Z.pow_add_r by lia; by replace (12 - k + k) with 12 by lia).
  assert (Ea : aligned = 4096 * m).
  { unfold aligned, getAlignedSize. rewrite Hb, Eo, uwrap_id by lia. rewrite land_mask by lia.
    rewrite Ed. replace (2 ^ (12 - k) * 2 ^ k * m + 2 ^ k - 1) with (2 ^ k - 1 + 2 ^ (12 - k) * m * 2 ^ k) by lia.
    rewrite Z.div_add, (Z.div_small (2 ^ k - 1)) by lia. lia. }
  rewrite Ea, Eo, Hb. split_and!; [lia|lia|done| |].
  - exists (2 ^ (12 - k) * m). rewrite Ed at 1. ring.
  - unfold getSizeInBlk. destruct (getOptimalSize_mult c (4096 * m) Hm ltac:(lia)) as (m' & -> & Hr').
    assert (m' = m) as -> by lia. rewrite Hb, Ed. replace (2 ^ (12 - k) * 2 ^ k * m) with (2 ^ (12 - k) * m * 2 ^ k) by lia.
    rewrite Z.div_mul by lia.
    assert (0 < 2 ^ (12 - k) <= 4096) by (split; [apply Z.pow_pos_nonneg; lia|]; change 4096 with (2 ^ 12); apply Z.pow_le_mono_r; lia).
    rewrite uwrap_id by nia. done.
Qed.

(** The buffers and block counts of an I/O cover the value: on a device whose
    block size is a power of two of at most 4096 bytes, the aligned size of a value
    of up to 2 GiB is at least its size and less than 4096 bytes more, a whole
    number of blocks, and the block count of the write spans exactly the aligned
    size. *)
Theorem bdev_sizes_cover c k size :
  0 <= k <= 12 -> blk_size c = 2 ^ k -> io_min_size c = 4096 -> 0 < size <= 2 ^ 31 ->
  let aligned := getAlignedSize c size in
  size <= aligned < size + 4096 /\ aligned = getOptimalSize c size /\
  (blk_size c | aligned) /\ getSizeInBlk c aligned * blk_size c = aligned.
Proof. apply sizes_cover. Qed.

Lemma bdev_sizes_cover_witness :
  getAlignedSize (ctx_of 512 (mkPciAddr 0 0 0 0)) 5000 = 8192 /\
  getSizeInBlk (ctx_of 512 (mkPciAddr 0 0 0 0)) 8192 * 512 = 8192.
Proof.
  split; [reflexivity|].
  destruct (bdev_sizes_cover (ctx_of 512 (mkPciAddr 0 0 0 0)) 9 5000) as (_ & _ & _ & E); [lia|reflexivity|reflexivity|lia|exact E].
Defined.
