(* ===== verification/SpdkBdev.v ===== *)
(** * The block device ([lib/spdk/SpdkBdev])

    [SpdkBdev] after [init]: its I/O thread takes tasks from the I/O engine, gets
    an LBA and a buffer for each, and submits them to SPDK; SPDK calls back when an
    I/O is done or can be tried again; finished tasks go to the finalizer.  The disk
    is part of the state, so that what an I/O transfers can be followed.  Waiting in
    [deinit], which the I/O thread does for itself, is the outcome [Crash]. *)

From S2P Require Import Prelude Status Pmem FreeList LbaAlloc ARTree Poller Rqst SpdkIoBuf SpdkDevice.

(** ** What SPDK answers

    A submission returns 0 and is done later, or a negative error number at once:
    -12 when SPDK is short of buffers, -22 when the blocks are not on the device. *)
Definition ENOMEM : Z := 12.
Definition EINVAL : Z := 22.

Class SpdkNvme (N : Type) : Type := {
  nv_submit : rw -> Z -> Z -> N -> Z * N;
  nv_queue_wait : N -> Z * N;
  nv_blk_num : N -> Z;
  nv_blk_num_kept : forall k o n s, nv_blk_num (snd (nv_submit k o n s)) = nv_blk_num s;
  nv_wait_kept : forall s, nv_blk_num (snd (nv_queue_wait s)) = nv_blk_num s;
  nv_out_of_range : forall k o n s, nv_blk_num s < o + n -> fst (nv_submit k o n s) = - EINVAL
}.

(** A device that takes everything in its range. *)
#[refine] Definition simple_nvme : SpdkNvme Z :=
  {| nv_submit := fun _ o n s => (if s <? o + n then - EINVAL else 0, s);
     nv_queue_wait := fun s => (0, s); nv_blk_num := fun s => s |}.
Proof.
  - done.
  - done.
  - intros k o n s Hs. simpl. by destruct (Z.ltb_spec s (o + n)); [|lia].
Defined.

(** ** The state *)

Inductive IOState : Type :=
| BDEV_IO_INIT | BDEV_IO_READY | BDEV_IO_ERROR | BDEV_IO_QUIESCING | BDEV_IO_QUIESCENT
| BDEV_IO_STOPPED | BDEV_IO_ABORTED.

#[global] Instance IOState_eq_dec : EqDecision IOState.
Proof. solve_decision. Defined.

Record BdevStats : Type := mkBdevStats {
  write_compl_cnt : Z; write_err_cnt : Z; read_compl_cnt : Z; read_err_cnt : Z; outstanding_io_cnt : Z }.

(** [FinalizePoller::State]. *)
Inductive FpState : Type := FP_READY | FP_QUIESCING | FP_QUIESCENT.

#[global] Instance FpState_eq_dec : EqDecision FpState.
Proof. solve_decision. Defined.

(** An I/O that SPDK has taken; its callback is [writeComplete] or [readComplete]. *)
Record io (C : Type) : Type := mkIo { io_dir : rw; io_off : Z; io_num : Z; io_task : DeviceTask C }.
Arguments mkIo {C}. Arguments io_dir {C}. Arguments io_off {C}. Arguments io_num {C}. Arguments io_task {C}.

Section State.
Context {C R PO H N : Type} `{SpdkRing (DeviceTask C) R} `{IoBufPools PO} `{DmaAlloc H} `{SpdkNvme N}.

Record FinalizePoller : Type := mkFinalizePoller { fin_queue : @Poller (DeviceTask C) R; _state : FpState }.

(** [class SpdkBdev]; [inflight] and [io_wait] are the I/Os and the waiting tasks that
    SPDK knows, [disk] the bytes of each block, [b_calls] the callbacks that were made
    and [b_returned] the requests that were put back, each with its pool. *)
Record SpdkBdev : Type := mkSpdkBdev {
  spBdevCtx : SpdkBdevCtx; ioEngine : @Poller (DeviceTask C) R; finalizer : FinalizePoller;
  _IoState : IOState; stats : BdevStats; isRunning : Z; maxIoBufs : Z; ioBufsInUse : Z;
  lbaAllocator : OffloadLbaAlloc; ioPoolMgr : @SpdkIoBufMgr PO H;
  nvme : N; inflight : list (io C); io_wait : list (DeviceTask C); disk : Z -> list Z;
  b_calls : list (call C); b_returned : list (OffloadOperation * Rqst OffloadOperation C) }.

Implicit Types s : SpdkBdev.

Definition set_ioEngine q s := mkSpdkBdev (spBdevCtx s) q (finalizer s) (_IoState s) (stats s) (isRunning s)
  (maxIoBufs s) (ioBufsInUse s) (lbaAllocator s) (ioPoolMgr s) (nvme s) (inflight s) (io_wait s) (disk s) (b_calls s) (b_returned s).
Definition set_finalizer f s := mkSpdkBdev (spBdevCtx s) (ioEngine s) f (_IoState s) (stats s) (isRunning s)
  (maxIoBufs s) (ioBufsInUse s) (lbaAllocator s) (ioPoolMgr s) (nvme s) (inflight s) (io_wait s) (disk s) (b_calls s) (b_returned s).
Definition set_IoState x s := mkSpdkBdev (spBdevCtx s) (ioEngine s) (finalizer s) x (stats s) (isRunning s)
  (maxIoBufs s) (ioBufsInUse s) (lbaAllocator s) (ioPoolMgr s) (nvme s) (inflight s) (io_wait s) (disk s) (b_calls s) (b_returned s).
Definition set_stats x s := mkSpdkBdev (spBdevCtx s) (ioEngine s) (finalizer s) (_IoState s) x (isRunning s)
  (maxIoBufs s) (ioBufsInUse s) (lbaAllocator s) (ioPoolMgr s) (nvme s) (inflight s) (io_wait s) (disk s) (b_calls s) (b_returned s).
Definition set_isRunning x s := mkSpdkBdev (spBdevCtx s) (ioEngine s) (finalizer s) (_IoState s) (stats s) x
  (maxIoBufs s) (ioBufsInUse s) (lbaAllocator s) (ioPoolMgr s) (nvme s) (inflight s) (io_wait s) (disk s) (b_calls s) (b_returned s).
Definition set_ioBufsInUse x s := mkSpdkBdev (spBdevCtx s) (ioEngine s) (finalizer s) (_IoState s) (stats s) (isRunning s)
  (maxIoBufs s) x (lbaAllocator s) (ioPoolMgr s) (nvme s) (inflight s) (io_wait s) (disk s) (b_calls s) (b_returned s).
Definition set_lbaAllocator x s := mkSpdkBdev (spBdevCtx s) (ioEngine s) (finalizer s) (_IoState s) (stats s) (isRunning s)
  (maxIoBufs s) (ioBufsInUse s) x (ioPoolMgr s) (nvme s) (inflight s) (io_wait s) (disk s) (b_calls s) (b_returned s).
Definition set_ioPoolMgr x s := mkSpdkBdev (spBdevCtx s) (ioEngine s) (finalizer s) (_IoState s) (stats s) (isRunning s)
  (maxIoBufs s) (ioBufsInUse s) (lbaAllocator s) x (nvme s) (inflight s) (io_wait s) (disk s) (b_calls s) (b_returned s).
Definition set_spdk n i w s := mkSpdkBdev (spBdevCtx s) (ioEngine s) (finalizer s) (_IoState s) (stats s) (isRunning s)
  (maxIoBufs s) (ioBufsInUse s) (lbaAllocator s) (ioPoolMgr s) n i w (disk s) (b_calls s) (b_returned s).
Definition set_disk d s := mkSpdkBdev (spBdevCtx s) (ioEngine s) (finalizer s) (_IoState s) (stats s) (isRunning s)
  (maxIoBufs s) (ioBufsInUse s) (lbaAllocator s) (ioPoolMgr s) (nvme s) (inflight s) (io_wait s) d (b_calls s) (b_returned s).
Definition set_logs c r s := mkSpdkBdev (spBdevCtx s) (ioEngine s) (finalizer s) (_IoState s) (stats s) (isRunning s)
  (maxIoBufs s) (ioBufsInUse s) (lbaAllocator s) (ioPoolMgr s) (nvme s) (inflight s) (io_wait s) (disk s) c r.
End State.
Arguments FinalizePoller : clear implicits.
Arguments SpdkBdev : clear implicits.

(** Computes the fields of a device after updates. *)
Ltac bdev_fields :=
  cbv beta iota delta [set_ioEngine set_finalizer set_IoState set_stats set_isRunning set_ioBufsInUse set_lbaAllocator
    set_ioPoolMgr set_spdk set_disk set_logs spBdevCtx ioEngine finalizer _IoState stats isRunning maxIoBufs ioBufsInUse
    lbaAllocator ioPoolMgr nvme inflight io_wait disk b_calls b_returned].

(** ** Blocks of the disk *)

Section Disk.
Variable bs : nat.

(** The bytes of [n] blocks from [o] on. *)
Definition read_blocks (d : Z -> list Z) (o : Z) (n : nat) : list Z :=
  concat ((fun i => d (o + Z.of_nat i)) <$> seq 0 n).

(** The blocks [o] to [o + n - 1] become the pieces of [bytes]. *)
Definition write_blocks (bytes : list Z) (o : Z) (n : nat) (d : Z -> list Z) : Z -> list Z := fun b =>
  if (o <=? b) && (b <? o + Z.of_nat n) then take bs (drop (Z.to_nat (b - o) * bs) bytes) else d b.

(** What was written is what is read. *)
Lemma read_write_blocks bytes o n d : (n * bs <= length bytes)%nat ->
  read_blocks (write_blocks bytes o n d) o n = take (n * bs) bytes.
Proof.
  intros Hl. unfold read_blocks, write_blocks.
  rewrite (list_fmap_ext _ (fun i => take bs (drop (i * bs) bytes))).
  2:{ intros i x Hx. apply lookup_seq in Hx as [-> Hi]. simpl.
      destruct (Z.leb_spec o (o + Z.of_nat i)), (Z.ltb_spec (o + Z.of_nat i) (o + Z.of_nat n)); try lia. cbn [andb].
      by replace (Z.to_nat (o + Z.of_nat i - o)) with i by lia. }
  revert bytes Hl. induction n as [|n IH]; intros bytes Hl; [done|].
  rewrite seq_S, fmap_app, concat_app. cbn [fmap list_fmap concat]. rewrite app_nil_r, IH by (simpl in Hl; lia).
  replace (S n * bs)%nat with (n * bs + bs)%nat by lia.
  by rewrite take_take_drop.
Qed.

Lemma read_blocks_app d o n k : exists tl, read_blocks d o (n + k) = read_blocks d o n ++ tl.
Proof. unfold read_blocks. rewrite seq_app, fmap_app, concat_app. by eexists. Qed.

Lemma length_read_blocks d o n : (forall i, (i < n)%nat -> length (d (o + Z.of_nat i)) = bs) ->
  length (read_blocks d o n) = (n * bs)%nat.
Proof.
  unfold read_blocks. induction n as [|n IH]; intros Hd; [done|].
  rewrite seq_S, fmap_app, concat_app, length_app, IH by (intros i Hi; apply Hd; lia).
  cbn [fmap list_fmap concat]. rewrite app_nil_r, Hd by lia. lia.
Qed.

(** The first blocks of what was written. *)
Lemma read_write_prefix bytes o n k d : (k <= n)%nat -> (n * bs <= length bytes)%nat ->
  read_blocks (write_blocks bytes o n d) o k = take (k * bs) bytes.
Proof.
  intros Hk Hl. set (d' := write_blocks bytes o n d).
  assert (Hlen : length (read_blocks d' o k) = (k * bs)%nat).
  { apply length_read_blocks. intros i Hi. unfold d', write_blocks.
    destruct (Z.leb_spec o (o + Z.of_nat i)), (Z.ltb_spec (o + Z.of_nat i) (o + Z.of_nat n)); try lia. cbn [andb].
    rewrite length_take, length_drop. replace (Z.to_nat (o + Z.of_nat i - o)) with i by lia. nia. }
  destruct (read_blocks_app d' o k (n - k)) as [tl Htl]. replace (k + (n - k))%nat with n in Htl by lia.
  pose proof (read_write_blocks bytes o n d Hl) as HR. fold d' in HR. rewrite Htl in HR.
  apply (f_equal (take (k * bs))) in HR. rewrite take_take, Nat.min_l in HR by nia.
  rewrite <- HR, <- Hlen. by rewrite take_app_length.
Qed.

(** Other blocks are kept. *)
Lemma read_write_disjoint bytes o n d o' n' : o' + Z.of_nat n' <= o \/ o + Z.of_nat n <= o' ->
  read_blocks (write_blocks bytes o n d) o' n' = read_blocks d o' n'.
Proof.
  intros Hd. unfold read_blocks, write_blocks. f_equal. apply list_fmap_ext. intros i x Hx.
  apply lookup_seq in Hx as [-> Hi]. simpl.
  destruct (Z.leb_spec o (o' + Z.of_nat i)), (Z.ltb_spec (o' + Z.of_nat i) (o + Z.of_nat n)); try done; lia.
Qed.
End Disk.

(** ** Operations of the I/O thread *)

Section Operations.
Context {C R PO H N : Type} `{SpdkRing (DeviceTask C) R} `{IoBufPools PO} `{DmaAlloc H} `{SpdkNvme N}
  `{PmemTx} `{PmemHeap FreeLba}.

#[local] Abbreviation Bdev := (SpdkBdev C R PO H N).
#[local] Abbreviation IM A := (M exn Bdev A).
Implicit Types t : DeviceTask C.

(** [deinit], called by the thread whose loop it waits for. *)
Definition deinit {A} : IM A := fun s => (Crash, set_isRunning 4 s).

Definition stateMachine : IM bool := fun s =>
  match _IoState s with
  | BDEV_IO_INIT | BDEV_IO_READY | BDEV_IO_STOPPED => (Ret false, s)
  | BDEV_IO_ERROR => deinit s
  | BDEV_IO_QUIESCING =>
      if outstanding_io_cnt (stats s) =? 0 then (Ret true, set_IoState BDEV_IO_QUIESCENT s) else (Ret false, s)
  | BDEV_IO_QUIESCENT => (Ret true, s)
  | BDEV_IO_ABORTED => deinit s
  end.

Definition IOQuiesce : IM unit := fun s =>
  (Ret tt, set_IoState BDEV_IO_QUIESCING (set_finalizer (mkFinalizePoller (fin_queue (finalizer s)) FP_QUIESCING) s)).
Definition isQuiescent (f : FinalizePoller C R) : bool := bool_decide (_state f = FP_QUIESCENT).
Definition isIOQuiescent (s : Bdev) : bool :=
  (bool_decide (_IoState s = BDEV_IO_QUIESCENT) || bool_decide (_IoState s = BDEV_IO_ABORTED)) &&
  isQuiescent (finalizer s).
Definition IOAbort : IM unit := cmod (set_IoState BDEV_IO_ABORTED).

Definition canQueue (s : Bdev) : Z := if ioBufsInUse s <? maxIoBufs s then maxIoBufs s - ioBufsInUse s else 0.

Definition on_bufs {A} (m : M exn (@SpdkIoBufMgr PO H) A) : IM A := czoom ioPoolMgr set_ioPoolMgr m.
Definition getFreeLba (ioSize : Z) : IM Z := czoom lbaAllocator set_lbaAllocator (getLba ioSize).
Definition putFreeLba (lba ioSize : Z) : IM unit := czoom lbaAllocator set_lbaAllocator (putLba lba ioSize).

(** [ioBufsInUse++] and [ioBufsInUse--] on a [uint32_t]. *)
Definition buf_inc : IM unit := cmod (fun s => set_ioBufsInUse (u32 (ioBufsInUse s + 1)) s).
Definition buf_dec : IM unit := cmod (fun s => set_ioBufsInUse (u32 (ioBufsInUse s - 1)) s).

Definition on_stats (f : BdevStats -> BdevStats) : IM unit := cmod (fun s => set_stats (f (stats s)) s).
Definition add_write_compl st := mkBdevStats (u64 (write_compl_cnt st + 1)) (write_err_cnt st) (read_compl_cnt st) (read_err_cnt st) (outstanding_io_cnt st).
Definition add_write_err d st := mkBdevStats (write_compl_cnt st) (u64 (write_err_cnt st + d)) (read_compl_cnt st) (read_err_cnt st) (outstanding_io_cnt st).
Definition add_read_compl st := mkBdevStats (write_compl_cnt st) (write_err_cnt st) (u64 (read_compl_cnt st + 1)) (read_err_cnt st) (outstanding_io_cnt st).
Definition add_read_err d st := mkBdevStats (write_compl_cnt st) (write_err_cnt st) (read_compl_cnt st) (u64 (read_err_cnt st + d)) (outstanding_io_cnt st).
Definition add_outstanding st := mkBdevStats (write_compl_cnt st) (write_err_cnt st) (read_compl_cnt st) (read_err_cnt st) (u64 (outstanding_io_cnt st + 1)).
(** [if (stats.outstanding_io_cnt) stats.outstanding_io_cnt--]. *)
Definition sub_outstanding st := mkBdevStats (write_compl_cnt st) (write_err_cnt st) (read_compl_cnt st) (read_err_cnt st)
  (if outstanding_io_cnt st =? 0 then 0 else outstanding_io_cnt st - 1).

(** [spdk_bdev_read_blocks] and [spdk_bdev_write_blocks] with the completion callback of
    the direction; [spdk_bdev_queue_io_wait]. *)
Definition submit (k : rw) (o n : Z) t : IM Z := fun s =>
  let r := nv_submit k o n (nvme s) in
  (Ret (fst r), set_spdk (snd r) (if fst r =? 0 then inflight s ++ [mkIo k o n t] else inflight s) (io_wait s) s).
Definition queue_io_wait t : IM Z := fun s =>
  let r := nv_queue_wait (nvme s) in
  (Ret (fst r), set_spdk (snd r) (inflight s) (if fst r =? 0 then io_wait s ++ [t] else io_wait s) s).

(** [reschedule] sets the callback [writeQueueIoWait], whatever the task is; it is the
    only place that sets one. *)
Definition reschedule t : IM Z := queue_io_wait t.

Definition writeQueueIoWait t : IM unit :=
  let! w_rc := submit Write (u64 (t_blockSize t * t_freeLba t)) (t_blockSize t) t in
  if negb (w_rc =? 0) then
    let! w_rc := queue_io_wait t in
    if negb (w_rc =? 0) then deinit else cret tt
  else on_stats (add_write_err (-1)).

(** [task->bdevAddr->lba]. *)
Definition bdev_lba (pv : pmem_view) t : IM Z := fun s =>
  match task_addr pv t with Some d => (Ret (lba d), s) | None => (Undef, s) end.

(** Not used: [reschedule] names [writeQueueIoWait] for reads too. *)
Definition readQueueIoWait (pv : pmem_view) t : IM unit :=
  let! l := bdev_lba pv t in
  let! r_rc := submit Read (u64 (t_blockSize t * l)) (t_blockSize t) t in
  if negb (r_rc =? 0) then
    let! r_rc := queue_io_wait t in
    if negb (r_rc =? 0) then deinit else cret tt
  else on_stats (add_read_err (-1)).

(** [if (task->buff) ioPoolMgr->putIo...Buf(task->buff)]. *)
Definition put_task_buf (k : rw) t : IM unit :=
  match t_buff t with Some b => on_bufs (putIoBuf k b) | None => cret tt end.

(** What follows a submission that was refused with [rc]. *)
Definition submit_failed (k : rw) (rc : Z) t : IM bool :=
  on_stats (match k with Write => add_write_err 1 | Read => add_read_err 1 end) ;;;
  if rc =? - ENOMEM then
    let! rc := reschedule t in
    if negb (rc =? 0) then put_task_buf k t ;;; deinit else cret true
  else put_task_buf k t ;;; deinit.

Definition doRead (pv : pmem_view) t : IM bool :=
  let! stopped := stateMachine in
  if stopped then put_task_buf Read t ;;; buf_dec ;;; cret false
  else
    let! s := cget in
    let algnSize := getAlignedSize (spBdevCtx s) (valueSize (t_rqst t)) in
    let t := set_blockSize (getSizeInBlk (spBdevCtx s) algnSize) t in
    buf_inc ;;;
    let! b := on_bufs (getIoReadBuf (t_size t) (buf_align (spBdevCtx s))) in
    let t := set_buff (Some b) t in
    let! l := bdev_lba pv t in
    let! r_rc := submit Read (u64 (t_blockSize t * l)) (t_blockSize t) t in
    on_stats add_outstanding ;;;
    if negb (r_rc =? 0) then submit_failed Read r_rc t else cret true.

(** [memcpy(task->buff->getSpdkDmaBuf(), task->rqst->value, valSize)]. *)
Definition fill_buf (pv : pmem_view) (b : buf_ptr) (v : option positive) (n : Z) : IM unit := fun s =>
  match v with
  | None => (Undef, s)
  | Some a =>
      match read_mem (pv_values pv) a n with
      | Ret bytes =>
          on_bufs (let! x := get_buf b in
                   match spdkDmaBuf x with
                   | Some m => if Z.of_nat (length m) <? n then cundef
                               else put_buf b (mkIoBuf (Some (bytes ++ drop (length bytes) m)) (bufSize x) (backIdx x) (sizeClass x))
                   | None => cundef
                   end) s
      | _ => (Undef, s)
      end
  end.

Definition doWrite (pv : pmem_view) t : IM bool :=
  let! stopped := stateMachine in
  if stopped then put_task_buf Write t ;;; buf_dec ;;; cret false
  else
    let! s := cget in
    let valSize := valueSize (t_rqst t) in
    let valSizeAlign := getAlignedSize (spBdevCtx s) valSize in
    let! t := (if bool_decide (loc (t_rqst t) = PMEM)
               then let! l := getFreeLba valSize in cret (set_freeLba (u64 l) t) else cret t) in
    buf_inc ;;;
    let! b := on_bufs (getIoWriteBuf valSizeAlign (buf_align (spBdevCtx s))) in
    let t := set_buff (Some b) t in
    fill_buf pv b (value (t_rqst t)) valSize ;;;
    let! w_rc := submit Write (u64 (t_blockSize t * t_freeLba t)) (t_blockSize t) t in
    on_stats add_outstanding ;;;
    if negb (w_rc =? 0) then submit_failed Write w_rc t else cret true.

Definition pool_put (p : OffloadOperation) (r : Rqst OffloadOperation C) : IM unit :=
  cmod (fun s => set_logs (b_calls s) (b_returned s ++ [(p, r)]) s).

Definition finalizer_enqueue t : IM bool := fun s =>
  let r := enqueue t (fin_queue (finalizer s)) in
  (Ret (fst r), set_finalizer (mkFinalizePoller (snd r) (_state (finalizer s))) s).

Definition doRemove (pv : pmem_view) t : IM bool :=
  let! stopped := stateMachine in
  if stopped then pool_put OREMOVE (t_rqst t) ;;; cret false
  else
    let! s := cget in
    let valSizeAlign := getAlignedSize (spBdevCtx s) (valueSize (t_rqst t)) in
    let! l := bdev_lba pv t in
    putFreeLba l valSizeAlign ;;;
    finalizer_enqueue (set_result true t).

(** [read], [write] and [remove]: a routed task goes to the I/O engine. *)
Definition routed (direct : pmem_view -> DeviceTask C -> IM bool) (pv : pmem_view) t : IM bool :=
  if t_routing t then fun s =>
    let r := enqueue t (ioEngine s) in (Ret (fst r), set_ioEngine (snd r) s)
  else direct pv t.
Definition read : pmem_view -> DeviceTask C -> IM bool := routed doRead.
Definition write : pmem_view -> DeviceTask C -> IM bool := routed doWrite.
Definition remove : pmem_view -> DeviceTask C -> IM bool := routed doRemove.

(** ** Completions *)

Definition writeComplete (success : bool) t : IM unit :=
  (match t_buff t with Some b => on_bufs (putIoWriteBuf b) | None => cundef end) ;;;
  buf_dec ;;;
  on_stats sub_outstanding ;;; on_stats add_write_compl ;;;
  let! _ := stateMachine in
  let! _ := finalizer_enqueue (set_result success t) in
  cret tt.

Definition readComplete (success : bool) t : IM unit :=
  on_stats sub_outstanding ;;; on_stats add_read_compl ;;;
  let! _ := stateMachine in
  let! _ := finalizer_enqueue (set_result success t) in
  cret tt.

(** The DMA of an I/O: whole blocks between the buffer and the disk.  What an I/O that
    fails leaves behind is [junk]. *)
Definition transfer (x : io C) (success : bool) (junk : list Z) : IM unit := fun s =>
  match t_buff (io_task x) with
  | None => (Undef, s)
  | Some b =>
      match io_bufs (ioPoolMgr s) !! b with
      | Some (mkIoBuf (Some m) bz bi sc) =>
          let bs := Z.to_nat (blk_size (spBdevCtx s)) in
          let n := Z.to_nat (io_num x) in
          if (length m <? n * bs)%nat then (Undef, s)
          else match io_dir x with
               | Write => (Ret tt, set_disk (write_blocks bs (if success then m else junk) (io_off x) n (disk s)) s)
               | Read =>
                   let bytes := take (n * bs) (if success then read_blocks (disk s) (io_off x) n else junk) in
                   on_bufs (put_buf b (mkIoBuf (Some (bytes ++ drop (length bytes) m)) bz bi sc)) s
               end
      | _ => (Undef, s)
      end
  end.

(** SPDK finishes the I/O number [i] and calls back. *)
Definition io_done (i : nat) (success : bool) (junk : list Z) : IM unit := fun s =>
  match inflight s !! i with
  | None => (Ret tt, s)
  | Some x =>
      (transfer x success junk ;;;
       match io_dir x with
       | Write => writeComplete success (io_task x)
       | Read => readComplete success (io_task x)
       end) (set_spdk (nvme s) (delete i (inflight s)) (io_wait s) s)
  end.

(** SPDK has buffers again and calls back the waiting task number [i]. *)
Definition io_retry (i : nat) : IM unit := fun s =>
  match io_wait s !! i with
  | None => (Ret tt, s)
  | Some t => writeQueueIoWait t (set_spdk (nvme s) (inflight s) (delete i (io_wait s)) s)
  end.

(** ** [SpdkIoEngine] *)

Definition rqstClb (r : Rqst OffloadOperation C) (status : Z) : IM unit :=
  match clb r with
  | Some c => cmod (fun s => set_logs (b_calls s ++ [mkCall c status (key r) (keySize r) None]) (b_returned s) s)
  | None => cret tt
  end.

Definition engine_one (pv : pmem_view) t : IM unit :=
  let t := set_routing false t in
  match t_op t with
  | OGET => let! ret := read pv t in
            if ret then cret tt else rqstClb (t_rqst t) UNKNOWN_ERROR ;;; pool_put OGET (t_rqst t)
  | OUPDATE => let! ret := write pv t in
               if ret then cret tt else rqstClb (t_rqst t) UNKNOWN_ERROR ;;; pool_put OUPDATE (t_rqst t)
  | OREMOVE => let! ret := remove pv t in
               if ret then cret tt else rqstClb (t_rqst t) UNKNOWN_ERROR ;;; pool_put OREMOVE (t_rqst t)
  | ONONE => cret tt
  end.

Fixpoint engine_loop (pv : pmem_view) (ts : list (DeviceTask C)) : IM unit :=
  match ts with
  | [] => cret tt
  | t :: ts => engine_one pv t ;;; engine_loop pv ts
  end.

(** [SpdkIoEngine::process]. *)
Definition engine_process (pv : pmem_view) : IM unit := fun s =>
  if 0 <? requestCount (ioEngine s) then
    (engine_loop pv (pending (ioEngine s)) ;;;
     cmod (fun s => set_ioEngine (mkPoller (rqstRing (ioEngine s)) (requests (ioEngine s)) 0) s)) s
  else (Ret tt, s).

Definition ioEngineIoFunction (pv : pmem_view) : IM unit :=
  let! s := cget in
  if isRunning s =? 0 then cret tt
  else
    let can_queue_cnt := canQueue s in
    if can_queue_cnt =? 0 then cret tt
    else
      cmod (fun s => set_ioEngine (dequeue (Z.to_nat can_queue_cnt) (ioEngine s)) s) ;;;
      engine_process pv.

(** [SpdkBdev] is a device. *)
Lemma routed_accepts f pv t (s : Bdev) : t_routing t = true ->
  exists b s', routed f pv t s = (Ret b, s') /\ spBdevCtx s' = spBdevCtx s /\
    ring_list (rqstRing (ioEngine s')) ≡ₚ
    (if b then t :: ring_list (rqstRing (ioEngine s)) else ring_list (rqstRing (ioEngine s))).
Proof.
  intros Ht. unfold routed. rewrite Ht.
  destruct (enqueue_spec t (ioEngine s)) as [(_ & E & El)|[_ E]]; rewrite E in *; eexists _, _; (split; [reflexivity|split; [reflexivity|]]).
  - cbn [ioEngine set_ioEngine]. by rewrite El, Permutation_app_comm.
  - reflexivity.
Qed.

#[refine] Definition bdev_device : SpdkDevice C Bdev :=
  {| dev_ctx := spBdevCtx; dev_ok := fun _ => True; dev_knows := fun _ => True; dev_read := read; dev_write := write; dev_remove := remove;
     dev_tasks := fun s => ring_list (rqstRing (ioEngine s)) |}.
Proof.
  intros f pv t s _ Ht Hf.
  assert (exists g, f = routed g) as [g ->] by (destruct Hf as [-> | [[-> | ->] _]]; by eexists).
  destruct (routed_accepts g pv t s Ht) as (b & s' & E & Ec & El). by exists b, s'.
Defined.
End Operations.

(** ** A concrete device: blocks of 512 bytes, 16 I/Os at a time *)

Section Runs.
#[local] Existing Instances simple_tx simple_heap simple_buf_pools simple_nvme.

Definition run_ctx : SpdkBdevCtx := ctx_of 512 (mkPciAddr 0 0 0 0).
Definition run_queue (C : Type) : @Poller (DeviceTask C) (list_ring (DeviceTask C)) := mkPoller (mkListRing [] 4) [] 0.

Definition run_device (C : Type) : SpdkBdev C (list_ring (DeviceTask C)) (gset buf_ptr) unit Z :=
  mkSpdkBdev run_ctx (run_queue C) (mkFinalizePoller (run_queue C) FP_READY) BDEV_IO_READY
    (mkBdevStats 0 0 0 0 0) 1 16 0 LbaAlloc.run_alloc run_mgr 100000 [] [] (fun _ => replicate 512 0) [] [].
End Runs.
