(* ===== verification/FinalizePoller.v ===== *)
(** * The thread that finishes I/Os ([lib/offload/FinalizePoller])

    Tasks that SPDK is done with come here: the callback of the request is called,
    the tree learns the new place of a value that was written, buffers and requests
    go back to their pools. *)

From S2P Require Import Prelude Status Pmem FreeList LbaAlloc ARTree RTreeEngine Poller Rqst SpdkIoBuf SpdkDevice SpdkBdev.

Section FinalizePoller.
Context {T C R PO H N : Type} `{RTreeEngine T} `{SpdkRing (DeviceTask C) R} `{IoBufPools PO} `{DmaAlloc H}
  `{SpdkNvme N} `{PmemTx} `{PmemHeap FreeLba}.

#[local] Abbreviation Bdev := (SpdkBdev C R PO H N).
Implicit Types t : DeviceTask C.

(** The device with the tree that its tasks refer to. *)
Record FinState : Type := mkFinState { f_bdev : Bdev; f_rtree : T }.
#[local] Abbreviation FM A := (M exn FinState A).

Definition f_on_bdev {A} (m : M exn Bdev A) : FM A := czoom f_bdev (fun b s => mkFinState b (f_rtree s)) m.
Definition f_on_tree {A} (m : M exn T A) : FM A := czoom f_rtree (fun r s => mkFinState (f_bdev s) r) m.

(** [if (task->clb) task->clb(nullptr, status, task->key, task->keySize, value, ...)]. *)
Definition task_clb t (status : Z) (val : option (list Z)) : FM unit :=
  match t_clb t with
  | Some c => f_on_bdev (cmod (fun s =>
      set_logs (b_calls s ++ [mkCall c status (TaskKey (t_key t)) (t_keySize t) val]) (b_returned s) s))
  | None => cret tt
  end.

(** [valueSize] bytes from [task->buff->getSpdkDmaBuf()]. *)
Definition buf_value t : FM (list Z) := fun s =>
  match t_buff t with
  | None => (Undef, s)
  | Some b =>
      match io_bufs (ioPoolMgr (f_bdev s)) !! b with
      | Some x =>
          match spdkDmaBuf x with
          | Some m => if valueSize (t_rqst t) <=? Z.of_nat (length m)
                      then (Ret (take (Z.to_nat (valueSize (t_rqst t))) m), s) else (Undef, s)
          | None => (Undef, s)
          end
      | None => (Undef, s)
      end
  end.

Definition fin_processGet t : FM unit :=
  (if t_result t then
     match t_clb t with
     | Some _ => let! v := buf_value t in task_clb t OK (Some v)
     | None => cret tt
     end
   else task_clb t UNKNOWN_ERROR None) ;;;
  f_on_bdev (match t_buff t with Some b => on_bufs (putIoReadBuf b) | None => cundef end) ;;;
  f_on_bdev buf_dec ;;;
  f_on_bdev (pool_put OGET (t_rqst t)).

(** [sizeof(DeviceAddr)]. *)
Definition sizeof_DeviceAddr : Z := 16.

(** The key of a task as the tree reads it. *)
Definition task_tree_key t : list Z := take (Z.to_nat (t_keySize t)) (t_key t).

Definition fin_processUpdate t : FM unit :=
  let! s := cget in
  let devAddr := mkDeviceAddr (t_freeLba t) (pci_addr (spBdevCtx (f_bdev s))) in
  let finish (status : Z) := task_clb t status None ;;; f_on_bdev (pool_put OUPDATE (t_rqst t)) in
  if t_result t then
    if t_updatePmemIOV t then
      let! ok := ccatch (f_on_tree (rt_AllocateAndUpdateValueWrapper (task_tree_key t) sizeof_DeviceAddr devAddr) ;;;
                         cret true)
                        (fun _ => cret false) in
      if ok then finish OK else finish UNKNOWN_ERROR
    else finish OK
  else finish UNKNOWN_ERROR.

(** An exception of [Remove] is not caught: it leaves the thread. *)
Definition fin_processRemove (callers : memory) t : FM unit :=
  (if t_result t then
     let! k := (fun s => (read_key callers (t_rqst t), s)) in
     f_on_tree (rt_Remove k) ;;; task_clb t OK None
   else task_clb t UNKNOWN_ERROR None) ;;;
  f_on_bdev (pool_put OREMOVE (t_rqst t)).

(** One round of the loop of [process]; a finalizer that is not ready drops the task. *)
Definition fin_one (callers : memory) t : FM unit :=
  let! s := cget in
  let dropIt := negb (bool_decide (_state (finalizer (f_bdev s)) = FP_READY)) in
  match t_op t with
  | OGET => if dropIt then f_on_bdev (pool_put OGET (t_rqst t)) else fin_processGet t
  | OUPDATE => if dropIt then f_on_bdev (pool_put OUPDATE (t_rqst t)) else fin_processUpdate t
  | OREMOVE => if dropIt then f_on_bdev (pool_put OREMOVE (t_rqst t)) else fin_processRemove callers t
  | ONONE => cret tt
  end.

Fixpoint fin_loop (callers : memory) (ts : list (DeviceTask C)) : FM unit :=
  match ts with
  | [] => cret tt
  | t :: ts => fin_one callers t ;;; fin_loop callers ts
  end.

Definition set_fin_queue (f : @Poller (DeviceTask C) R -> @Poller (DeviceTask C) R) (s : FinState) : FinState :=
  let fin := finalizer (f_bdev s) in
  mkFinState (set_finalizer (mkFinalizePoller (f (fin_queue fin)) (_state fin)) (f_bdev s)) (f_rtree s).

(** [FinalizePoller::process]; a quiescent finalizer with nothing to do stays
    quiescent. *)
Definition fin_process (callers : memory) : FM unit := fun s =>
  let q := fin_queue (finalizer (f_bdev s)) in
  if 0 <? requestCount q then
    (fin_loop callers (pending q) ;;;
     cmod (set_fin_queue (fun q => mkPoller (rqstRing q) (requests q) 0))) s
  else (Ret tt, s).

(** A round of the thread: [dequeue] and [process]. *)
Definition fin_round (callers : memory) : FM unit :=
  cmod (set_fin_queue (dequeue DEQUEUE_RING_LIMIT)) ;;; fin_process callers.
End FinalizePoller.
Arguments FinState : clear implicits.
