(* ===== verification/OffloadPath.v ===== *)
(** * A value on its way to disk and back

    The I/O thread, SPDK and the finalizer composed: an update task writes the value
    to the disk and the address into the tree, and a later get task brings the same
    bytes to its callback. *)

From S2P Require Import Prelude Status Pmem FreeList LbaAlloc ARTree RTreeEngine Poller Rqst SpdkIoBuf SpdkDevice SpdkBdev FinalizePoller.

(** A device that was opened: blocks of a power of two of at most 4096 bytes. *)
Definition ctx_ok (c : SpdkBdevCtx) : Prop :=
  io_min_size c = 4096 /\ exists k, 0 <= k <= 12 /\ blk_size c = 2 ^ k.

(** The number of blocks of a value. *)
Definition blocks_of (c : SpdkBdevCtx) (n : Z) : Z := getSizeInBlk c (getAlignedSize c n).

Lemma blocks_of_spec c n : ctx_ok c -> 0 < n <= 2 ^ 31 ->
  n <= getAlignedSize c n < n + 4096 /\ getAlignedSize c n = getOptimalSize c n /\ (4096 | getAlignedSize c n) /\
  0 < blk_size c <= 4096 /\ 0 < blocks_of c n < 2 ^ 32 /\ blocks_of c n * blk_size c = getAlignedSize c n.
Proof.
  intros (Hm & k & Hk & Hb) Hn. destruct (sizes_cover c k n Hk Hb Hm Hn) as (H1 & H2 & H3 & H4).
  fold (blocks_of c n) in H4.
  assert (H0 : 0 < blk_size c <= 4096).
  { rewrite Hb. split; [apply Z.pow_pos_nonneg; lia|]. change 4096 with (2 ^ 12). apply Z.pow_le_mono_r; lia. }
  assert (Hlt : 0 <= blocks_of c n < 2 ^ 32) by (apply uwrap_range; lia).
  split_and!; try done; try lia; try nia.
  rewrite H2. destruct (getOptimalSize_mult c n Hm ltac:(lia)) as (m & -> & _). exists m. lia.
Qed.

(** The bytes [v] are on the disk under the LBA [l]. *)
Definition value_at (c : SpdkBdevCtx) (d : Z -> list Z) (l : Z) (v : list Z) : Prop :=
  let n := blocks_of c (Z.of_nat (length v)) in
  take (length v) (read_blocks d (u64 (n * l)) (Z.to_nat n)) = v.

Section Path.
Context {T C R PO H N : Type} `{RTreeEngine T} `{SpdkRing (DeviceTask C) R} `{IoBufPools PO} `{DmaAlloc H}
  `{SpdkNvme N} `{PmemTx} `{PmemHeap FreeLba}.

#[local] Abbreviation Bdev := (SpdkBdev C R PO H N).
#[local] Abbreviation state := (FinState T C R PO H N).
Implicit Types (t : DeviceTask C) (s : Bdev).

(** SPDK has DMA memory. *)
Hypothesis dma_available : forall n a h, fst (dma_zmalloc n a h) = true.

(** A device that takes I/Os. *)
Definition ready s : Prop :=
  _IoState s = BDEV_IO_INIT \/ _IoState s = BDEV_IO_READY \/ _IoState s = BDEV_IO_STOPPED.

Lemma stateMachine_ready s : ready s -> stateMachine s = (Ret false, s).
Proof. unfold stateMachine. by intros [-> | [-> | ->]]. Qed.

Lemma dma_of_memory x n a : dma_of x n a -> exists m, spdkDmaBuf x = Some m /\ Z.of_nat (length m) = n.
Proof.
  unfold dma_of. destruct (spdkDmaBuf x) as [m|]; [by exists m|]. intros [h Hh]. by rewrite dma_available in Hh.
Qed.

(** The buffers after the contents of [b] were set. *)
Definition set_dma (b : buf_ptr) (x : SpdkIoBuf) (m : list Z) (g : @SpdkIoBufMgr PO H) : SpdkIoBufMgr :=
  mkIoBufMgr (<[b := mkIoBuf (Some m) (bufSize x) (backIdx x) (sizeClass x)]> (io_bufs g)) (io_pools g) (io_dma g).

Lemma set_dma_spec b x m m0 g : mgr_inv g -> io_bufs g !! b = Some x -> spdkDmaBuf x = Some m0 -> length m = length m0 ->
  mgr_inv (set_dma b x m g) /\ (forall b', in_use (set_dma b x m g) b' <-> in_use g b').
Proof.
  intros I Hx Hm Hl. apply (change_buf g b x); [done..|].
  pose proof (mi_bufs _ I b x Hx) as Hok. unfold buf_ok in *. destruct (fst b) as [[k c]|]; [|done].
  destruct Hok as (? & ? & ? & Hok). split_and!; try done. intros m' [= <-]. rewrite Hl. by apply Hok.
Qed.

(** A buffer for an I/O, filled or not. *)
Lemma buffer_for k n align g : mgr_inv g -> 0 <= n < 2 ^ 32 -> (4096 | n) ->
  exists b g' x m, getIoBuf k n align g = (Ret b, g') /\ handed_out k n align g b g' /\
    io_bufs g' !! b = Some x /\ spdkDmaBuf x = Some m /\ Z.of_nat (length m) = n.
Proof.
  intros I Hn Hd. destruct (getIoBuf_spec k n align g I Hn Hd) as (b & g' & E & HO).
  pose proof HO as (_ & _ & _ & _ & (x & Hx & Hdx) & _). destruct (dma_of_memory x n align Hdx) as (m & Hm & Hl).
  by exists b, g', x, m.
Qed.

Lemma fill_buf_run pv b a n s v x m :
  read_mem (pv_values pv) a n = Ret v -> io_bufs (ioPoolMgr s) !! b = Some x -> spdkDmaBuf x = Some m ->
  n <= Z.of_nat (length m) ->
  fill_buf pv b (Some a) n s = (Ret tt, set_ioPoolMgr (set_dma b x (v ++ drop (length v) m) (ioPoolMgr s)) s).
Proof.
  intros Hv Hx Hm Hl. unfold fill_buf. rewrite Hv. unfold on_bufs, czoom, cbind, get_buf. rewrite Hx, Hm.
  destruct (Z.ltb_spec (Z.of_nat (length m)) n); [lia|]. done.
Qed.

Lemma read_mem_length (mem : memory) a n v : 0 <= n -> read_mem mem a n = Ret v -> Z.of_nat (length v) = n.
Proof.
  intros Hn. unfold read_mem. destruct (mem !! a) as [x|]; [|done].
  destruct (Z.leb_spec n (Z.of_nat (length x))); [|done]. intros [= <-]. rewrite length_take. lia.
Qed.

(** The outcome of [doWrite] when SPDK takes the write. *)
Lemma doWrite_run pv t s n a v l la nv :
  ready s -> ctx_ok (spBdevCtx s) -> mgr_inv (ioPoolMgr s) ->
  valueSize (t_rqst t) = n -> 0 < n <= 2 ^ 31 -> value (t_rqst t) = Some a -> read_mem (pv_values pv) a n = Ret v ->
  loc (t_rqst t) = PMEM -> t_blockSize t = blocks_of (spBdevCtx s) n ->
  getLba n (lbaAllocator s) = (Ret l, la) ->
  nv_submit Write (u64 (t_blockSize t * u64 l)) (t_blockSize t) (nvme s) = (0, nv) ->
  exists b x m g,
    let t' := set_buff (Some b) (set_freeLba (u64 l) t) in
    doWrite pv t s = (Ret true,
      set_stats (add_outstanding (stats s))
        (set_spdk nv (inflight s ++ [mkIo Write (u64 (t_blockSize t * u64 l)) (t_blockSize t) t']) (io_wait s)
          (set_ioPoolMgr g (set_ioBufsInUse (u32 (ioBufsInUse s + 1)) (set_lbaAllocator la s))))) /\
    mgr_inv g /\ ~ in_use (ioPoolMgr s) b /\ (forall b', in_use g b' <-> b' = b \/ in_use (ioPoolMgr s) b') /\
    serves Write b /\ io_bufs g !! b = Some x /\ spdkDmaBuf x = Some m /\
    Z.of_nat (length m) = getAlignedSize (spBdevCtx s) n /\ take (length v) m = v /\
    (forall b', b' <> b -> io_bufs g !! b' = io_bufs (ioPoolMgr s) !! b').
Proof.
  intros Hr Hc I Hvs Hn Ha Hv Hloc Hbl Hl Hs.
  destruct (blocks_of_spec _ _ Hc Hn) as (Hcov & _ & Hdiv & _).
  destruct (buffer_for Write (getAlignedSize (spBdevCtx s) n) (buf_align (spBdevCtx s)) (ioPoolMgr s) I) as
    (b & g & x & m & E & (I' & Hf & Hu & Hk & _ & Ho) & Hx & Hm & Hlm); [lia|done|].
  pose proof (read_mem_length (pv_values pv) a n v ltac:(lia) Hv) as Hlv.
  set (m' := v ++ drop (length v) m).
  assert (Hlm' : length m' = length m) by (unfold m'; rewrite length_app, length_drop; lia).
  destruct (set_dma_spec b x m' m g I' Hx Hm Hlm') as [I2 Hu2].
  exists b, (mkIoBuf (Some m') (bufSize x) (backIdx x) (sizeClass x)), m', (set_dma b x m' g).
  split.
  { unfold doWrite. rewrite (cbind_ret _ _ _ _ _ (stateMachine_ready s Hr)). unfold cbind at 1, cget.
    rewrite Hloc, bool_decide_eq_true_2 by done. rewrite Hvs.
    unfold cbind at 1, cbind at 1, getFreeLba at 1, czoom. rewrite Hl. cbn [fst snd]. unfold cret at 1.
    unfold cbind at 1, buf_inc at 1, cmod. unfold cbind at 1, on_bufs at 1, czoom, getIoWriteBuf.
    cbn [ioPoolMgr set_ioBufsInUse set_lbaAllocator]. rewrite E. cbn [fst snd t_rqst set_buff set_freeLba]. rewrite Ha.
    erewrite cbind_ret by (apply fill_buf_run; [exact Hv|exact Hx|exact Hm|lia]).
    unfold cbind at 1, submit. cbn [nvme set_ioPoolMgr set_ioBufsInUse set_lbaAllocator t_blockSize t_freeLba set_buff set_freeLba].
    rewrite Hs. cbn [fst snd]. unfold cbind, on_stats, cmod. cbn [Z.eqb negb]. done. }
  split_and!; try done.
  - intros b'. by rewrite Hu2.
  - simpl. by rewrite lookup_insert_eq.
  - by rewrite Hlm'.
  - unfold m'. apply take_app_length.
  - intros b' Hne. simpl. rewrite lookup_insert_ne by done. by apply Ho.
Qed.
(** The outcome of [doRead] when SPDK takes the read. *)
Lemma doRead_run pv t s n l nv :
  ready s -> ctx_ok (spBdevCtx s) -> mgr_inv (ioPoolMgr s) ->
  valueSize (t_rqst t) = n -> 0 < n <= 2 ^ 31 -> t_size t = getOptimalSize (spBdevCtx s) n ->
  bdev_lba pv t = (fun s => (Ret l, s)) ->
  let bl := blocks_of (spBdevCtx s) n in
  nv_submit Read (u64 (bl * l)) bl (nvme s) = (0, nv) ->
  exists b x m g,
    let t' := set_buff (Some b) (set_blockSize bl t) in
    doRead pv t s = (Ret true,
      set_stats (add_outstanding (stats s))
        (set_spdk nv (inflight s ++ [mkIo Read (u64 (bl * l)) bl t']) (io_wait s)
          (set_ioPoolMgr g (set_ioBufsInUse (u32 (ioBufsInUse s + 1)) s)))) /\
    handed_out Read (t_size t) (buf_align (spBdevCtx s)) (ioPoolMgr s) b g /\
    io_bufs g !! b = Some x /\ spdkDmaBuf x = Some m /\ Z.of_nat (length m) = getAlignedSize (spBdevCtx s) n.
Proof.
  intros Hr Hc I Hvs Hn Hsz Hl bl Hs.
  destruct (blocks_of_spec _ _ Hc Hn) as (Hcov & Eopt & Hdiv & _).
  destruct (buffer_for Read (t_size t) (buf_align (spBdevCtx s)) (ioPoolMgr s) I) as
    (b & g & x & m & E & HO & Hx & Hm & Hlm); [rewrite Hsz, <- Eopt; lia|by rewrite Hsz, <- Eopt|].
  exists b, x, m, g. split; [|split_and!; [done|done|done|by rewrite Hlm, Hsz, Eopt]].
  unfold doRead. rewrite (cbind_ret _ _ _ _ _ (stateMachine_ready s Hr)). unfold cbind at 1, cget. rewrite Hvs.
  unfold cbind at 1, buf_inc at 1, cmod. unfold cbind at 1, on_bufs at 1, czoom, getIoReadBuf.
  cbn [ioPoolMgr set_ioBufsInUse t_size set_blockSize]. rewrite E. cbn [fst snd].
  change (bdev_lba pv (set_buff _ _)) with (bdev_lba (C := C) (R := R) (PO := PO) (H := H) (N := N) pv t). rewrite Hl.
  unfold cbind at 1, cbind at 1, submit. cbn [nvme set_ioPoolMgr set_ioBufsInUse t_blockSize set_buff set_blockSize].
  fold (blocks_of (spBdevCtx s) n). fold bl. rewrite Hs. unfold cbind, on_stats, cmod. cbn [fst snd Z.eqb negb]. done.
Qed.

(** The finalizer's queue takes a task. *)
Lemma finalizer_enqueue_run t s : (0 < ring_room (A := DeviceTask C) (rqstRing (fin_queue (finalizer s))))%nat ->
  exists q, finalizer_enqueue t s = (Ret true, set_finalizer (mkFinalizePoller q (_state (finalizer s))) s) /\
    ring_list (rqstRing q) = ring_list (rqstRing (fin_queue (finalizer s))) ++ [t].
Proof.
  intros Hr. unfold finalizer_enqueue.
  destruct (enqueue_spec t (fin_queue (finalizer s))) as [(_ & E & El)|[E _]]; [|lia].
  exists (snd (enqueue t (fin_queue (finalizer s)))). by rewrite E.
Qed.

Lemma transfer_fits c n (m : list Z) : ctx_ok c -> 0 < n <= 2 ^ 31 -> Z.of_nat (length m) = getAlignedSize c n ->
  (Z.to_nat (blocks_of c n) * Z.to_nat (blk_size c) = length m)%nat.
Proof. intros Hc Hn Hm. destruct (blocks_of_spec c n Hc Hn) as (_ & _ & _ & ? & ? & E). nia. Qed.

(** The callback of a write. *)
Lemma writeComplete_run ok t s b : ready s -> mgr_inv (ioPoolMgr s) -> t_buff t = Some b ->
  in_use (ioPoolMgr s) b -> serves Write b ->
  (0 < ring_room (A := DeviceTask C) (rqstRing (fin_queue (finalizer s))))%nat ->
  exists g q, writeComplete ok t s = (Ret tt,
      set_finalizer (mkFinalizePoller q (_state (finalizer s)))
        (set_stats (add_write_compl (sub_outstanding (stats s)))
          (set_ioBufsInUse (u32 (ioBufsInUse s - 1)) (set_ioPoolMgr g s)))) /\
    ring_list (rqstRing q) = ring_list (rqstRing (fin_queue (finalizer s))) ++ [set_result ok t] /\
    mgr_inv g /\ (forall b', in_use g b' <-> b' <> b /\ in_use (ioPoolMgr s) b').
Proof.
  intros Hr I Hb Hu Hk Hroom. destruct (putIoBuf_spec Write b (ioPoolMgr s) I Hu Hk) as (g & Eg & Ig & Hug & _).
  destruct (finalizer_enqueue_run (set_result ok t) (set_stats (add_write_compl (sub_outstanding (stats s)))
    (set_ioBufsInUse (u32 (ioBufsInUse s - 1)) (set_ioPoolMgr g s))) Hroom) as (q & Eq & Hq).
  exists g, q. split_and!; [|exact Hq|exact Ig|exact Hug].
  unfold writeComplete. rewrite Hb. unfold cbind at 1, on_bufs, czoom, putIoWriteBuf. rewrite Eg. cbn [fst snd].
  unfold cbind at 1, buf_dec, cmod. unfold cbind at 1, on_stats, cmod. unfold cbind at 1.
  unfold cbind at 1. rewrite stateMachine_ready by exact Hr. by rewrite (cbind_ret _ _ _ _ _ Eq).
Qed.

(** SPDK finishes the write that was submitted last. *)
Lemma write_done s i n t b x m junk :
  ready s -> ctx_ok (spBdevCtx s) -> mgr_inv (ioPoolMgr s) -> 0 < n <= 2 ^ 31 ->
  let bl := blocks_of (spBdevCtx s) n in
  inflight s = i ++ [mkIo Write (u64 (bl * t_freeLba t)) bl t] ->
  t_buff t = Some b -> in_use (ioPoolMgr s) b -> serves Write b ->
  io_bufs (ioPoolMgr s) !! b = Some x -> spdkDmaBuf x = Some m -> Z.of_nat (length m) = getAlignedSize (spBdevCtx s) n ->
  (0 < ring_room (A := DeviceTask C) (rqstRing (fin_queue (finalizer s))))%nat ->
  exists g q st', io_done (length i) true junk s = (Ret tt,
      set_finalizer (mkFinalizePoller q (_state (finalizer s)))
        (set_stats st' (set_ioBufsInUse (u32 (ioBufsInUse s - 1)) (set_ioPoolMgr g
          (set_disk (write_blocks (Z.to_nat (blk_size (spBdevCtx s))) m (u64 (bl * t_freeLba t)) (Z.to_nat bl) (disk s))
            (set_spdk (nvme s) i (io_wait s) s)))))) /\
    ring_list (rqstRing q) = ring_list (rqstRing (fin_queue (finalizer s))) ++ [set_result true t] /\
    mgr_inv g /\ (forall b', in_use g b' <-> b' <> b /\ in_use (ioPoolMgr s) b').
Proof.
  intros Hr Hc I Hn bl Hi Hb Hu Hk Hx Hm Hl Hroom.
  set (s1 := set_disk (write_blocks (Z.to_nat (blk_size (spBdevCtx s))) m (u64 (bl * t_freeLba t)) (Z.to_nat bl) (disk s))
               (set_spdk (nvme s) i (io_wait s) s)).
  destruct (writeComplete_run true t s1 b Hr I Hb Hu Hk Hroom) as (g & q & E & Hq & Ig & Hug).
  exists g, q, (add_write_compl (sub_outstanding (stats s))). split_and!; [|exact Hq|exact Ig|exact Hug].
  unfold io_done. rewrite Hi, lookup_snoc, delete_snoc.
  unfold cbind at 1, transfer. cbn [io_task]. rewrite Hb.
  change (ioPoolMgr (set_spdk (nvme s) i (io_wait s) s)) with (ioPoolMgr s). rewrite Hx.
  destruct x as [dm bz bi sc]. simpl in Hm. subst dm.
  change (spBdevCtx (set_spdk (nvme s) i (io_wait s) s)) with (spBdevCtx s). cbn [io_num io_dir io_off]. fold bl.
  pose proof (transfer_fits _ _ _ Hc Hn Hl) as Hf. fold bl in Hf. rewrite Hf, Nat.ltb_irrefl. exact E.
Qed.

(** SPDK finishes the read that was submitted last: the buffer has the bytes of the
    blocks. *)
Lemma read_done s i n l t b x m junk :
  ready s -> ctx_ok (spBdevCtx s) -> mgr_inv (ioPoolMgr s) -> 0 < n <= 2 ^ 31 ->
  let bl := blocks_of (spBdevCtx s) n in
  inflight s = i ++ [mkIo Read (u64 (bl * l)) bl t] ->
  t_buff t = Some b -> io_bufs (ioPoolMgr s) !! b = Some x -> spdkDmaBuf x = Some m ->
  Z.of_nat (length m) = getAlignedSize (spBdevCtx s) n ->
  (0 < ring_room (A := DeviceTask C) (rqstRing (fin_queue (finalizer s))))%nat ->
  let bytes := take (length m) (read_blocks (disk s) (u64 (bl * l)) (Z.to_nat bl)) in
  let m' := bytes ++ drop (length bytes) m in
  exists q st', io_done (length i) true junk s = (Ret tt,
      set_finalizer (mkFinalizePoller q (_state (finalizer s)))
        (set_stats st' (set_ioPoolMgr (set_dma b x m' (ioPoolMgr s)) (set_spdk (nvme s) i (io_wait s) s)))) /\
    ring_list (rqstRing q) = ring_list (rqstRing (fin_queue (finalizer s))) ++ [set_result true t] /\
    mgr_inv (set_dma b x m' (ioPoolMgr s)) /\
    (forall b', in_use (set_dma b x m' (ioPoolMgr s)) b' <-> in_use (ioPoolMgr s) b').
Proof.
  intros Hr Hc I Hn bl Hi Hb Hx Hm Hl Hroom bytes m'.
  assert (Hm' : length m' = length m).
  { unfold m', bytes. rewrite length_app, length_drop, length_take. lia. }
  destruct (set_dma_spec b x m' m _ I Hx Hm Hm') as [I' Hu'].
  unfold io_done. rewrite Hi, lookup_snoc, delete_snoc.
  set (s1 := set_spdk _ _ _ _). unfold cbind at 1, transfer. cbn [io_task]. rewrite Hb.
  change (ioPoolMgr s1) with (ioPoolMgr s). rewrite Hx. destruct x as [dm bz bi sc]. simpl in Hm. subst dm.
  change (spBdevCtx s1) with (spBdevCtx s). cbn [io_num io_dir io_off]. fold bl.
  pose proof (transfer_fits _ _ _ Hc Hn Hl) as Hf. fold bl in Hf. rewrite Hf, Nat.ltb_irrefl.
  change (disk s1) with (disk s). fold bytes. unfold on_bufs, czoom, put_buf. cbn [fst snd].
  unfold readComplete. unfold cbind at 1, on_stats, cmod. unfold cbind at 1. unfold cbind at 1.
  rewrite stateMachine_ready by done.
  set (s2 := set_stats _ _). destruct (finalizer_enqueue_run (set_result true t) s2 Hroom) as (q & Eq & Hq).
  rewrite (cbind_ret _ _ _ _ _ Eq).
  exists q, (add_read_compl (sub_outstanding (stats s))). split_and!; [unfold s2, s1; bdev_fields; reflexivity|exact Hq|exact I'|exact Hu'].
Qed.
(** ** The whole way of one task *)

(** A schedule: the I/O engine starts the task, SPDK finishes the I/O, and the
    finalizer runs. *)
Definition run_io (pv : pmem_view) (callers : memory) (junk : list Z) t : M exn state unit :=
  f_on_bdev (engine_one pv t) ;;;
  f_on_bdev (fun s => io_done (pred (length (inflight s))) true junk s) ;;;
  fin_round callers.

(** The device takes I/Os, its finalizer is ready and has nothing to do. *)
Record calm (s : Bdev) : Prop := {
  ca_ready : ready s;
  ca_ctx : ctx_ok (spBdevCtx s);
  ca_bufs : mgr_inv (ioPoolMgr s);
  ca_fin : _state (finalizer s) = FP_READY;
  ca_queue : ring_list (rqstRing (fin_queue (finalizer s))) = [];
  ca_room : (0 < ring_room (A := DeviceTask C) (rqstRing (fin_queue (finalizer s))))%nat;
  ca_bufs_cnt : 0 <= ioBufsInUse s < 2 ^ 32 }.

(** The value [v] of [key] is on disk: the tree says so, and the blocks have it. *)
Definition stored (st : state) (k v : list Z) : Prop :=
  exists a d, rt_view (f_rtree st) k = Some (Some a, Z.of_nat (length v), DISK) /\
    rt_iovs (f_rtree st) !! a = Some d /\ value_at (spBdevCtx (f_bdev st)) (disk (f_bdev st)) (lba d) v.

(** A finalizer with one task in its queue handles it. *)
Lemma fin_round_one callers t (st : state) st' :
  ring_list (rqstRing (fin_queue (finalizer (f_bdev st)))) = [t] ->
  fin_one callers t (set_fin_queue (dequeue DEQUEUE_RING_LIMIT) st) = (Ret tt, st') ->
  fin_round callers st = (Ret tt, set_fin_queue (fun q => mkPoller (rqstRing q) (requests q) 0) st').
Proof.
  intros Hq E. unfold fin_round, cbind at 1, cmod. unfold fin_process. set (st1 := set_fin_queue _ st) in *.
  assert (Hp : pending (fin_queue (finalizer (f_bdev st1))) = [t]).
  { unfold st1, set_fin_queue. cbn [f_bdev finalizer set_finalizer fin_queue].
    destruct (dequeue_spec DEQUEUE_RING_LIMIT (fin_queue (finalizer (f_bdev st)))) as [-> _]. by rewrite Hq. }
  assert (Hc : 0 < requestCount (fin_queue (finalizer (f_bdev st1)))).
  { unfold pending in Hp. destruct (Z.to_nat (requestCount (fin_queue (finalizer (f_bdev st1))))) eqn:En; [done|lia]. }
  destruct (Z.ltb_spec 0 (requestCount (fin_queue (finalizer (f_bdev st1))))); [|lia].
  rewrite Hp. cbn [fin_loop]. unfold cbind at 1, cbind at 1. rewrite E. done.
Qed.

(** The finalizer's queue is empty after such a round. *)
Lemma dequeue_one (q : @Poller (DeviceTask C) R) t : ring_list (rqstRing q) = [t] ->
  ring_list (rqstRing (dequeue DEQUEUE_RING_LIMIT q)) = [].
Proof. intros Hq. destruct (dequeue_spec DEQUEUE_RING_LIMIT q) as [_ ->]. by rewrite Hq. Qed.

Lemma u32_inc_dec x : 0 <= x < 2 ^ 32 -> u32 (u32 (x + 1) - 1) = x.
Proof. intros Hx. unfold uwrap. rewrite Zminus_mod_idemp_l. replace (x + 1 - 1) with x by lia. by apply Z.mod_small. Qed.

Lemma engine_update pv t s s1 : t_op t = OUPDATE -> doWrite pv (set_routing false t) s = (Ret true, s1) ->
  engine_one pv t s = (Ret tt, s1).
Proof.
  intros Ho E. unfold engine_one. change (t_op (set_routing false t)) with (t_op t). rewrite Ho.
  unfold write, routed. cbn [t_routing set_routing]. by rewrite (cbind_ret _ _ _ _ _ E).
Qed.

Lemma engine_get pv t s s1 : t_op t = OGET -> doRead pv (set_routing false t) s = (Ret true, s1) ->
  engine_one pv t s = (Ret tt, s1).
Proof.
  intros Ho E. unfold engine_one. change (t_op (set_routing false t)) with (t_op t). rewrite Ho.
  unfold read, routed. cbn [t_routing set_routing]. by rewrite (cbind_ret _ _ _ _ _ E).
Qed.

Lemma run_io_steps pv callers junk t (st : state) s1 i x s2 t2 st3 :
  engine_one pv t (f_bdev st) = (Ret tt, s1) -> inflight s1 = i ++ [x] ->
  io_done (length i) true junk s1 = (Ret tt, s2) -> ring_list (rqstRing (fin_queue (finalizer s2))) = [t2] ->
  fin_one callers t2 (set_fin_queue (dequeue DEQUEUE_RING_LIMIT) (mkFinState s2 (f_rtree st))) = (Ret tt, st3) ->
  run_io pv callers junk t st = (Ret tt, set_fin_queue (fun q => mkPoller (rqstRing q) (requests q) 0) st3).
Proof.
  intros E1 Hi E2 Hq E3. unfold run_io, f_on_bdev, cbind at 1, czoom at 1. rewrite E1. cbn [fst snd].
  unfold cbind at 1, czoom at 1. cbn [f_bdev f_rtree]. rewrite Hi, length_app, Nat.add_comm. cbn [Nat.add length Nat.pred].
  rewrite E2. cbn [fst snd]. by apply (fin_round_one callers t2).
Qed.

Lemma fin_one_ready callers t (st : state) : _state (finalizer (f_bdev st)) = FP_READY ->
  fin_one callers t st =
  match t_op t with
  | OGET => fin_processGet t st
  | OUPDATE => fin_processUpdate t st
  | OREMOVE => fin_processRemove callers t st
  | ONONE => (Ret tt, st)
  end.
Proof. intros Hf. unfold fin_one, cbind at 1, cget. rewrite bool_decide_eq_true_2 by done. by destruct (t_op t). Qed.

Lemma fin_update_run t (st : state) c tr : t_result t = true -> t_updatePmemIOV t = true -> t_clb t = Some c ->
  let s := f_bdev st in
  rt_AllocateAndUpdateValueWrapper (task_tree_key t) sizeof_DeviceAddr
    (mkDeviceAddr (t_freeLba t) (pci_addr (spBdevCtx s))) (f_rtree st) = (Ret tt, tr) ->
  fin_processUpdate t st = (Ret tt, mkFinState
    (set_logs (b_calls s ++ [mkCall c OK (TaskKey (t_key t)) (t_keySize t) None]) (b_returned s ++ [(OUPDATE, t_rqst t)]) s) tr).
Proof.
  intros Hr Hi Hc s Hup. unfold fin_processUpdate, cbind at 1, cget. rewrite Hr, Hi.
  unfold cbind at 1, ccatch, cbind at 1, f_on_tree, czoom. fold s. rewrite Hup. cbn [fst snd cret].
  unfold task_clb. by rewrite Hc.
Qed.

Lemma fin_get_run t (st : state) c b x m : t_result t = true -> t_clb t = Some c -> t_buff t = Some b ->
  let s := f_bdev st in
  mgr_inv (ioPoolMgr s) -> in_use (ioPoolMgr s) b -> serves Read b ->
  io_bufs (ioPoolMgr s) !! b = Some x -> spdkDmaBuf x = Some m -> valueSize (t_rqst t) <= Z.of_nat (length m) ->
  exists g, mgr_inv g /\ (forall b', in_use g b' <-> b' <> b /\ in_use (ioPoolMgr s) b') /\
  fin_processGet t st = (Ret tt, mkFinState
    (set_logs (b_calls s ++ [mkCall c OK (TaskKey (t_key t)) (t_keySize t) (Some (take (Z.to_nat (valueSize (t_rqst t))) m))])
       (b_returned s ++ [(OGET, t_rqst t)]) (set_ioBufsInUse (u32 (ioBufsInUse s - 1)) (set_ioPoolMgr g s))) (f_rtree st)).
Proof.
  intros Hr Hc Hb s I Hu Hk Hx Hm Hv. destruct (putIoBuf_spec Read b (ioPoolMgr s) I Hu Hk) as (g & Eg & Ig & Hug & _).
  exists g. split; [done|]. split; [done|]. unfold fin_processGet. rewrite Hr, Hc.
  unfold cbind at 1, cbind at 1, buf_value. rewrite Hb. fold s. rewrite Hx, Hm.
  destruct (Z.leb_spec (valueSize (t_rqst t)) (Z.of_nat (length m))); [|lia].
  unfold task_clb. rewrite Hc. unfold f_on_bdev, cmod, czoom. cbn [fst snd].
  unfold cbind at 1, on_bufs, czoom, putIoReadBuf. cbn [f_bdev]. fold s.
  change (ioPoolMgr (set_logs _ _ s)) with (ioPoolMgr s). rewrite Eg. done.
Qed.

(** What a run of one task leaves as it was. *)
Definition calm_again (st st' : state) : Prop :=
  let s := f_bdev st in let s' := f_bdev st' in
  ready s' /\ spBdevCtx s' = spBdevCtx s /\ mgr_inv (ioPoolMgr s') /\ _state (finalizer s') = FP_READY /\
  ring_list (rqstRing (fin_queue (finalizer s'))) = [] /\
  (0 < ring_room (A := DeviceTask C) (rqstRing (fin_queue (finalizer s'))))%nat /\ ioBufsInUse s' = ioBufsInUse s /\
  inflight s' = inflight s /\ (forall b, in_use (ioPoolMgr s') b <-> in_use (ioPoolMgr s) b).

Lemma update_path pv callers junk (st : state) r n a v l la nv kb ks c tr :
  let s := f_bdev st in
  let bl := blocks_of (spBdevCtx s) n in
  let t := new_task (getOptimalSize (spBdevCtx s) n) bl ks DNull true r OUPDATE kb in
  calm s -> rt_ok (f_rtree st) -> rt_key (T := T) (task_tree_key t) ->
  loc r = PMEM -> valueSize r = n -> 0 < n <= 2 ^ 31 -> value r = Some a -> read_mem (pv_values pv) a n = Ret v ->
  clb r = Some c -> option_map snd (rt_slot (f_rtree st) (task_tree_key t)) = Some n ->
  getLba n (lbaAllocator s) = (Ret l, la) -> nv_submit Write (u64 (bl * u64 l)) bl (nvme s) = (0, nv) ->
  rt_AllocateAndUpdateValueWrapper (task_tree_key t) sizeof_DeviceAddr (mkDeviceAddr (u64 l) (pci_addr (spBdevCtx s)))
    (f_rtree st) = (Ret tt, tr) ->
  exists st' m, run_io pv callers junk t st = (Ret tt, st') /\ calm_again st st' /\ f_rtree st' = tr /\
    stored st' (task_tree_key t) v /\
    disk (f_bdev st') = write_blocks (Z.to_nat (blk_size (spBdevCtx s))) m (u64 (bl * u64 l)) (Z.to_nat bl) (disk s) /\
    b_calls (f_bdev st') = b_calls s ++ [mkCall c OK (TaskKey kb) ks None] /\
    b_returned (f_bdev st') = b_returned s ++ [(OUPDATE, r)].
Proof.
  intros s bl t [Hr Hc I Hf Hq Hroom Hcnt] Hok Hrk Hloc Hvs Hn Ha Hv Hcl Hslot Hl Hs Hup.
  destruct (doWrite_run pv (set_routing false t) s n a v l la nv Hr Hc I Hvs Hn Ha Hv Hloc eq_refl Hl Hs)
    as (b & x & m & g & E1 & I1 & Hfr & Hu1 & Hk & Hx & Hm & Hlm & Htk & _).
  set (t1 := set_buff (Some b) (set_freeLba (u64 l) (set_routing false t))) in *.
  match type of E1 with _ = (_, ?s1) => set (s1' := s1) in * end.
  destruct (write_done s1' (inflight s) n t1 b x m junk) as (g' & q & st1 & E2 & Hq2 & I2 & Hu2); try done.
  { by apply Hu1; left. }
  match type of E2 with _ = (_, ?s2) => set (s2' := s2) in * end.
  change (ring_list (rqstRing (fin_queue (finalizer s1')))) with (ring_list (rqstRing (fin_queue (finalizer s)))) in Hq2.
  rewrite Hq in Hq2.
  pose proof (rt_Update_view _ _ _ _ _ Hok Hrk Hup) as (_ & a' & b0 & n' & Hsl & Hview & Hiov & _ & _).
  rewrite Hsl in Hslot. simpl in Hslot. injection Hslot as ->.
  set (d := mkDeviceAddr (u64 l) (pci_addr (spBdevCtx s))) in *.
  assert (Hd : rt_iovs tr !! a' = Some d) by (rewrite Hiov; apply lookup_insert_eq).
  eexists _, m. split.
  { eapply (run_io_steps pv callers junk t st s1' (inflight s) _ s2');
      [by apply engine_update|reflexivity|exact E2|exact Hq2|].
    rewrite fin_one_ready by exact Hf. by apply (fin_update_run _ _ c tr). }
  split_and!; try done.
  - split_and!; try done.
    + cbn -[dequeue]. by apply (dequeue_one _ (set_result true t1)).
    + cbn -[dequeue]. apply dequeue_room. cbn in Hq2 |- *. by rewrite Hq2.
    + cbn. by apply u32_inc_dec.
    + intros b'. cbn. rewrite Hu2. change (ioPoolMgr s1') with g. rewrite Hu1. split; [by intros [? [?|?]]|].
      intros Hb'. split; [by intros ->|by right].
  - pose proof (read_mem_length (pv_values pv) a n v ltac:(lia) Hv) as Hlv.
    exists a', d. rewrite Hlv. split_and!; [exact Hview|exact Hd|].
    unfold value_at. rewrite Hlv. cbn. change (spBdevCtx s1') with (spBdevCtx s).
    fold bl. pose proof (transfer_fits _ _ _ Hc Hn Hlm) as Hfit. fold bl in Hfit.
    rewrite read_write_blocks by lia. rewrite Hfit, take_take.
    rewrite Nat.min_l; [done|]. apply (f_equal length) in Htk. rewrite length_take in Htk. lia.
Qed.

Lemma get_path pv callers junk (st : state) r v a d nv k kb ks c :
  let s := f_bdev st in
  let n := Z.of_nat (length v) in
  let bl := blocks_of (spBdevCtx s) n in
  let t := new_task (getOptimalSize (spBdevCtx s) n) 0 ks (DPmem a) false r OGET kb in
  calm s -> 0 < n <= 2 ^ 31 -> valueSize r = n -> clb r = Some c ->
  rt_view (f_rtree st) k = Some (Some a, n, DISK) -> pv_iovs pv = rt_iovs (f_rtree st) ->
  rt_iovs (f_rtree st) !! a = Some d -> value_at (spBdevCtx s) (disk s) (lba d) v ->
  nv_submit Read (u64 (bl * lba d)) bl (nvme s) = (0, nv) ->
  exists st', run_io pv callers junk t st = (Ret tt, st') /\ calm_again st st' /\ f_rtree st' = f_rtree st /\
    disk (f_bdev st') = disk s /\
    b_calls (f_bdev st') = b_calls s ++ [mkCall c OK (TaskKey kb) ks (Some v)] /\
    b_returned (f_bdev st') = b_returned s ++ [(OGET, r)].
Proof.
  intros s n bl t [Hr Hc I Hf Hq Hroom Hcnt] Hn Hvs Hcl Hview Hpv Hd Hat Hs.
  destruct (doRead_run pv (set_routing false t) s n (lba d) nv Hr Hc I Hvs Hn eq_refl) as
    (b & x & m & g & E1 & HO & Hx & Hm & Hlm); [|exact Hs|].
  { unfold bdev_lba, task_addr. cbn [t_bdevAddr set_routing t new_task]. by rewrite Hpv, Hd. }
  fold bl in E1. destruct HO as (I1 & Hfr & Hu1 & Hk & _ & _).
  set (t1 := set_buff (Some b) (set_blockSize bl (set_routing false t))) in *.
  match type of E1 with _ = (_, ?s1) => set (s1' := s1) in * end.
  destruct (read_done s1' (inflight s) n (lba d) t1 b x m junk) as (q & st1 & E2 & Hq2 & I2 & Hu2); try done.
  match type of E2 with _ = (_, ?s2) => set (s2' := s2) in * end.
  change (ring_list (rqstRing (fin_queue (finalizer s1')))) with (ring_list (rqstRing (fin_queue (finalizer s)))) in Hq2.
  rewrite Hq in Hq2.
  set (m2 := _ ++ drop _ m) in *.
  assert (Hm2 : take (Z.to_nat n) m2 = v).
  { pose proof (transfer_fits _ _ _ Hc Hn Hlm) as Hfit. destruct (blocks_of_spec _ _ Hc Hn) as (Hcov & _).
    unfold value_at in Hat. fold n in Hat. fold bl in Hat.
    assert (Hlr : (length v <= length (read_blocks (disk s) (u64 (bl * lba d)) (Z.to_nat bl)))%nat).
    { rewrite <- Hat at 1. rewrite length_take. lia. }
    unfold m2. change (disk s1') with (disk s). change (spBdevCtx s1') with (spBdevCtx s). fold bl.
    unfold n at 1. rewrite Nat2Z.id, take_app_le by (rewrite length_take; lia).
    rewrite take_take, Nat.min_l by lia. exact Hat. }
  assert (Hlm2 : Z.of_nat (length v) <= Z.of_nat (length m2)).
  { rewrite <- Hm2 at 1. rewrite length_take. lia. }
  destruct (fin_get_run (set_result true t1)
      (set_fin_queue (dequeue DEQUEUE_RING_LIMIT) (mkFinState s2' (f_rtree st))) c b
      (mkIoBuf (Some m2) (bufSize x) (backIdx x) (sizeClass x)) m2) as (g2 & Ig2 & Hug2 & E3); try done.
  { apply Hu2. change (ioPoolMgr s1') with g. apply Hu1. by left. }
  { cbn. by rewrite lookup_insert_eq. }
  { cbn [t_rqst set_result t1 set_buff set_blockSize set_routing t new_task]. by rewrite Hvs. }
  eexists. split.
  { eapply (run_io_steps pv callers junk t st s1' (inflight s) _ s2');
      [by apply engine_get|reflexivity|exact E2|exact Hq2|].
    rewrite fin_one_ready by exact Hf. exact E3. }
  split_and!; try done.
  - split_and!; try done.
    + cbn -[dequeue]. by apply (dequeue_one _ (set_result true t1)).
    + cbn -[dequeue]. apply dequeue_room. cbn in Hq2 |- *. by rewrite Hq2.
    + cbn. by apply u32_inc_dec.
    + intros b'. etransitivity; [apply Hug2|]. etransitivity; [apply and_iff_compat_l, Hu2|].
      change (ioPoolMgr s1') with g. rewrite Hu1.
      split; [by intros [? [?|?]]|]. intros Hb'. split; [by intros ->|by right].
  - cbn. rewrite Hvs, Hm2. done.
Qed.

Lemma calm_kept st st' : calm (f_bdev st) -> calm_again st st' -> calm (f_bdev st').
Proof. intros [] (? & E & ? & ? & ? & ? & Eb & _). split; try done; [by rewrite E|by rewrite Eb]. Qed.

Lemma calm_again_trans st st1 st2 : calm_again st st1 -> calm_again st1 st2 -> calm_again st st2.
Proof.
  intros (? & E1 & ? & ? & ? & ? & B1 & I1 & U1) (? & E2 & ? & ? & ? & ? & B2 & I2 & U2). split_and!; try done; try congruence.
  intros b. by rewrite U2, U1.
Qed.

(** ** I/Os in between *)

(** A complete I/O of another request: the update of another key, which writes none of the
    blocks from [lo] to [hi], or a get. *)
Inductive other_io (k : list Z) (lo hi : Z) (st st' : state) : Prop :=
| oi_update pv callers junk r n a v l la nv kb ks c tr :
    let s := f_bdev st in
    let bl := blocks_of (spBdevCtx s) n in
    let t := new_task (getOptimalSize (spBdevCtx s) n) bl ks DNull true r OUPDATE kb in
    rt_key (T := T) (task_tree_key t) -> task_tree_key t <> k ->
    loc r = PMEM -> valueSize r = n -> 0 < n <= 2 ^ 31 -> value r = Some a -> read_mem (pv_values pv) a n = Ret v ->
    clb r = Some c -> option_map snd (rt_slot (f_rtree st) (task_tree_key t)) = Some n ->
    getLba n (lbaAllocator s) = (Ret l, la) -> nv_submit Write (u64 (bl * u64 l)) bl (nvme s) = (0, nv) ->
    rt_AllocateAndUpdateValueWrapper (task_tree_key t) sizeof_DeviceAddr (mkDeviceAddr (u64 l) (pci_addr (spBdevCtx s)))
      (f_rtree st) = (Ret tt, tr) ->
    hi <= u64 (bl * u64 l) \/ u64 (bl * u64 l) + bl <= lo ->
    run_io pv callers junk t st = (Ret tt, st') -> other_io k lo hi st st'
| oi_get pv callers junk r v a d nv k' kb ks c :
    let s := f_bdev st in
    let n := Z.of_nat (length v) in
    let bl := blocks_of (spBdevCtx s) n in
    let t := new_task (getOptimalSize (spBdevCtx s) n) 0 ks (DPmem a) false r OGET kb in
    0 < n <= 2 ^ 31 -> valueSize r = n -> clb r = Some c ->
    rt_view (f_rtree st) k' = Some (Some a, n, DISK) -> pv_iovs pv = rt_iovs (f_rtree st) ->
    rt_iovs (f_rtree st) !! a = Some d -> value_at (spBdevCtx s) (disk s) (lba d) v ->
    nv_submit Read (u64 (bl * lba d)) bl (nvme s) = (0, nv) ->
    run_io pv callers junk t st = (Ret tt, st') -> other_io k lo hi st st'.

(** The value [v] of [k] is on disk under the address [d], and the device is calm. *)
Record kept (k v : list Z) (a : positive) (d : DeviceAddr) (st : state) : Prop := {
  kp_calm : calm (f_bdev st);
  kp_ok : rt_ok (f_rtree st);
  kp_view : rt_view (f_rtree st) k = Some (Some a, Z.of_nat (length v), DISK);
  kp_iov : rt_iovs (f_rtree st) !! a = Some d;
  kp_value : value_at (spBdevCtx (f_bdev st)) (disk (f_bdev st)) (lba d) v }.

Definition start_of (c : SpdkBdevCtx) (v : list Z) (d : DeviceAddr) : Z := u64 (blocks_of c (Z.of_nat (length v)) * lba d).

Lemma other_io_kept k v a d c st st' : rt_key (T := T) k -> 0 < Z.of_nat (length v) <= 2 ^ 31 -> spBdevCtx (f_bdev st) = c ->
  kept k v a d st -> other_io k (start_of c v d) (start_of c v d + blocks_of c (Z.of_nat (length v))) st st' ->
  kept k v a d st' /\ calm_again st st'.
Proof.
  intros Hk Hn <- [Hc Hok Hv Hi Hat] [pv callers junk r n a' v' l la nv kb ks cl tr s bl t Hkt Hne Hl Hvs Hn' Hva Hr Hcl Hsl Hg Hs Hup Hd E
    |pv callers junk r v' a' d' nv k' kb ks cl s n bl t Hn' Hvs Hcl Hv' Hpv Hi' Hat' Hs E].
  - destruct (update_path pv callers junk st r n a' v' l la nv kb ks cl tr Hc Hok Hkt Hl Hvs Hn' Hva Hr Hcl Hsl Hg Hs Hup)
      as (st1 & m & E1 & CA & Ht & _ & Hdisk & _).
    fold s bl t in E1. rewrite E in E1. injection E1 as <-. split; [|done].
    pose proof (rt_Update_view _ _ _ _ _ Hok Hkt Hup) as (Hok' & a1 & _ & _ & _ & _ & Hiov & Hfr & Hoth).
    split; [by eapply calm_kept|by rewrite Ht| | |]; rewrite ?Ht.
    + by rewrite Hoth by done.
    + rewrite Hiov, lookup_insert_ne; [done|]. intros ->. apply Hfr. by apply elem_of_dom.
    + destruct CA as (_ & -> & _). rewrite Hdisk. unfold value_at in *. fold (start_of (spBdevCtx (f_bdev st)) v d) in *.
      destruct (blocks_of_spec _ _ (ca_ctx _ Hc) Hn) as (_ & _ & _ & _ & Hb & _).
      destruct (blocks_of_spec _ _ (ca_ctx _ Hc) Hn') as (_ & _ & _ & _ & Hb' & _).
      rewrite read_write_disjoint; [done|]. fold s bl in Hb', Hb |- *. fold s in Hd. rewrite !Z2Nat.id by lia. exact Hd.
  - destruct (get_path pv callers junk st r v' a' d' nv k' kb ks cl Hc Hn' Hvs Hcl Hv' Hpv Hi' Hat' Hs)
      as (st1 & E1 & CA & Ht & Hdisk & _).
    fold s n bl t in E1. rewrite E in E1. injection E1 as <-. split; [|done].
    split; [by eapply calm_kept|by rewrite Ht..|]. rewrite Hdisk. by destruct CA as (_ & -> & _).
Qed.

Lemma others_kept k v a d c st st' : rt_key (T := T) k -> 0 < Z.of_nat (length v) <= 2 ^ 31 -> spBdevCtx (f_bdev st) = c ->
  kept k v a d st -> rtc (other_io k (start_of c v d) (start_of c v d + blocks_of c (Z.of_nat (length v)))) st st' ->
  kept k v a d st' /\ (st' = st \/ calm_again st st').
Proof.
  intros Hk Hn Hc Hkp Hr. revert Hc Hkp. induction Hr as [st|st st1 st2 Ho _ IH]; intros Hc Hkp; [by split; [|left]|].
  destruct (other_io_kept _ _ _ _ _ _ _ Hk Hn Hc Hkp Ho) as [Hkp1 CA].
  destruct IH as [Hkp2 [-> |CA2]]; [by destruct CA as (_ & -> & _)|done|by split; [|right]|].
  split; [done|]. right. by eapply calm_again_trans.
Qed.
End Path.

(** ** Theorems *)

Section Theorems.
Context {T C R PO H N : Type} `{RTreeEngine T} `{SpdkRing (DeviceTask C) R} `{IoBufPools PO} `{DmaAlloc H}
  `{SpdkNvme N} `{PmemTx} `{PmemHeap FreeLba}.

#[local] Abbreviation state := (FinState T C R PO H N).

(** C10. An offloaded value comes back.  When the value [v] of a key in persistent
    memory is updated to disk, the LBA allocator has an LBA, SPDK has DMA memory and takes
    and finishes the write, the callback is called with [OK] and the tree says that the value
    is on disk.  Then let any number of other I/Os run, gets and updates of other keys,
    as long as none of these updates was given an LBA whose blocks overlap those of the
    value; values of the same number of blocks under other LBAs do not overlap
    ([same_size_lbas_apart]), values of other sizes may ([different_size_lbas_collide]).  A get
    of the key that SPDK takes and finishes after that calls its callback with the
    same bytes.  The requests go back to their pools, and no buffer stays in use. *)
Theorem offload_roundtrip pv callers junk (st : state) r v a l la nv kb ks c tr :
  let s := f_bdev st in
  let n := Z.of_nat (length v) in
  let bl := blocks_of (spBdevCtx s) n in
  let t := new_task (getOptimalSize (spBdevCtx s) n) bl ks DNull true r OUPDATE kb in
  let lo := u64 (bl * u64 l) in
  (forall n a h, fst (dma_zmalloc n a h) = true) ->
  calm s -> rt_ok (f_rtree st) -> rt_key (T := T) (task_tree_key t) ->
  loc r = PMEM -> valueSize r = n -> 0 < n <= 2 ^ 31 -> value r = Some a -> read_mem (pv_values pv) a n = Ret v ->
  clb r = Some c -> option_map snd (rt_slot (f_rtree st) (task_tree_key t)) = Some n ->
  getLba n (lbaAllocator s) = (Ret l, la) -> nv_submit Write (u64 (bl * u64 l)) bl (nvme s) = (0, nv) ->
  rt_AllocateAndUpdateValueWrapper (task_tree_key t) sizeof_DeviceAddr (mkDeviceAddr (u64 l) (pci_addr (spBdevCtx s)))
    (f_rtree st) = (Ret tt, tr) ->
  exists st1 a1, run_io pv callers junk t st = (Ret tt, st1) /\ calm_again st st1 /\
    rt_view (f_rtree st1) (task_tree_key t) = Some (Some a1, n, DISK) /\
    b_calls (f_bdev st1) = b_calls s ++ [mkCall c OK (TaskKey kb) ks None] /\
    b_returned (f_bdev st1) = b_returned s ++ [(OUPDATE, r)] /\
    forall st2 r' kb' ks' c' nv' pv' callers' junk',
      rtc (other_io (task_tree_key t) lo (lo + bl)) st1 st2 ->
      valueSize r' = n -> clb r' = Some c' -> pv_iovs pv' = rt_iovs (f_rtree st2) ->
      nv_submit Read lo bl (nvme (f_bdev st2)) = (0, nv') ->
      rt_view (f_rtree st2) (task_tree_key t) = Some (Some a1, n, DISK) /\
      exists st3,
        run_io pv' callers' junk' (new_task (getOptimalSize (spBdevCtx s) n) 0 ks' (DPmem a1) false r' OGET kb') st2
          = (Ret tt, st3) /\ calm_again st st3 /\
        b_calls (f_bdev st3) = b_calls (f_bdev st2) ++ [mkCall c' OK (TaskKey kb') ks' (Some v)] /\
        b_returned (f_bdev st3) = b_returned (f_bdev st2) ++ [(OGET, r')].
Proof.
  intros s n bl t lo Hdma Hcalm Hok Hrk Hloc Hvs Hn Ha Hv Hcl Hslot Hl Hs Hup.
  destruct (update_path Hdma pv callers junk st r n a v l la nv kb ks c tr Hcalm Hok Hrk Hloc Hvs Hn Ha Hv Hcl Hslot
    Hl Hs Hup) as (st1 & m & E1 & CA & Ht & (a1 & d & Hview & Hd & Hat) & _ & Hc1 & Hr1).
  pose proof (rt_Update_view _ _ _ _ _ Hok Hrk Hup) as (Hok1 & a' & _ & n' & _ & Hview' & Hiov & _ & _).
  rewrite Ht in Hview, Hd. pose proof (eq_trans (eq_sym Hview') Hview) as Heq. injection Heq as -> ->.
  rewrite Hiov, lookup_insert_eq in Hd. injection Hd as <-.
  exists st1, a1. split_and!; [done|done|by rewrite Ht, Hview'|done|done|].
  intros st2 r' kb' ks' c' nv' pv' callers' junk' Hbet Hvs' Hcl' Hpv Hs'.
  pose proof CA as (_ & Ectx & _).
  destruct (others_kept Hdma (task_tree_key t) v a1 (mkDeviceAddr (u64 l) (pci_addr (spBdevCtx s))) (spBdevCtx s) st1 st2)
    as [[Hcalm2 Hok2 Hview2 Hiov2 Hat2] Hca]; try done.
  { split; try done; [by eapply calm_kept|by rewrite Ht|by rewrite Ht, Hview'|by rewrite Ht, Hiov, lookup_insert_eq]. }
  assert (Ectx2 : spBdevCtx (f_bdev st2) = spBdevCtx s).
  { destruct Hca as [-> |(_ & -> & _)]; done. }
  split; [done|].
  destruct (get_path Hdma pv' callers' junk' st2 r' v a1 (mkDeviceAddr (u64 l) (pci_addr (spBdevCtx s))) nv'
    (task_tree_key t) kb' ks' c') as (st3 & E3 & CA3 & _ & _ & Hc3 & Hr3); try done.
  - cbn [lba]. by rewrite Ectx2.
  - exists st3. rewrite Ectx2 in E3. split; [exact E3|]. split_and!; [|exact Hc3|exact Hr3].
    eapply calm_again_trans; [exact CA|]. destruct Hca as [-> |Hca]; [done|]. by eapply calm_again_trans.
Qed.

(** Reading from disk.  Whatever happened before: when the tree says that a key's
    value is on disk and the blocks of its LBA have the value, a get that SPDK takes
    and finishes calls the callback once with exactly the bytes of the value, changes
    neither tree nor disk, and leaves no buffer in use. *)
Theorem offload_get_back pv callers junk (st : state) r v a d nv k kb ks c :
  let s := f_bdev st in
  let n := Z.of_nat (length v) in
  let bl := blocks_of (spBdevCtx s) n in
  let t := new_task (getOptimalSize (spBdevCtx s) n) 0 ks (DPmem a) false r OGET kb in
  (forall n a h, fst (dma_zmalloc n a h) = true) ->
  calm s -> 0 < n <= 2 ^ 31 -> valueSize r = n -> clb r = Some c ->
  rt_view (f_rtree st) k = Some (Some a, n, DISK) -> pv_iovs pv = rt_iovs (f_rtree st) ->
  rt_iovs (f_rtree st) !! a = Some d -> value_at (spBdevCtx s) (disk s) (lba d) v ->
  nv_submit Read (u64 (bl * lba d)) bl (nvme s) = (0, nv) ->
  exists st', run_io pv callers junk t st = (Ret tt, st') /\ calm_again st st' /\ f_rtree st' = f_rtree st /\
    disk (f_bdev st') = disk s /\
    b_calls (f_bdev st') = b_calls s ++ [mkCall c OK (TaskKey kb) ks (Some v)] /\
    b_returned (f_bdev st') = b_returned s ++ [(OGET, r)].
Proof. intros s n bl t Hdma. by apply get_path. Qed.
End Theorems.

(** The block where a value of [n] bytes starts under the LBA [l]. *)
Definition first_block (c : SpdkBdevCtx) (n l : Z) : Z := u64 (blocks_of c n * l).

(** Values of the same number of blocks do not disturb each other: a write under
    one LBA keeps the value that is stored under another, as long as the device has
    fewer than [2^64] blocks. *)
Theorem same_size_lbas_apart c d l l' (v v' m : list Z) :
  let bl := blocks_of c (Z.of_nat (length v)) in
  ctx_ok c -> 0 < Z.of_nat (length v) <= 2 ^ 31 -> blocks_of c (Z.of_nat (length v')) = bl ->
  0 <= l -> 0 <= l' -> l <> l' -> bl * (l + 1) <= 2 ^ 64 -> bl * (l' + 1) <= 2 ^ 64 ->
  value_at c d l v ->
  value_at c (write_blocks (Z.to_nat (blk_size c)) m (first_block c (Z.of_nat (length v')) l') (Z.to_nat bl) d) l v.
Proof.
  intros bl Hc Hn Hbl Hl Hl' Hne Hr Hr' Hat. destruct (blocks_of_spec c _ Hc Hn) as (_ & _ & _ & _ & Hb & _).
  fold bl in Hb. unfold first_block. rewrite Hbl. unfold value_at in *. fold bl in Hat |- *.
  rewrite !uwrap_id in * by nia. rewrite read_write_disjoint; [done|]. rewrite Z2Nat.id by lia. nia.
Qed.

(** Values of different sizes collide: for any two block counts there are two
    different LBAs, each for one of them, that start at the same block, so a write
    under one replaces the value under the other. *)
Theorem different_size_lbas_collide c d (v v' m : list Z) :
  let n := Z.of_nat (length v) in let n' := Z.of_nat (length v') in
  let l := blocks_of c n' in let l' := blocks_of c n in
  ctx_ok c -> 0 < n <= 2 ^ 31 -> 0 < n' <= 2 ^ 31 -> blocks_of c n < blocks_of c n' ->
  Z.of_nat (length m) = getAlignedSize c n' ->
  l <> l' /\ first_block c n l = first_block c n' l' /\
  let d' := write_blocks (Z.to_nat (blk_size c)) m (first_block c n' l') (Z.to_nat (blocks_of c n')) d in
  take (length v) (read_blocks d' (first_block c n l) (Z.to_nat (blocks_of c n))) = take (length v) m.
Proof.
  intros n n' l l' Hc Hn Hn' Hlt Hm. destruct (blocks_of_spec c _ Hc Hn) as (Hcov & _ & _ & Hbs & Hb & Hal).
  destruct (blocks_of_spec c _ Hc Hn') as (_ & _ & _ & _ & Hb' & Hal').
  assert (Heq : first_block c n l = first_block c n' l').
  { unfold first_block, l, l'. by rewrite Z.mul_comm. }
  split_and!; [unfold l, l'; lia|done|]. intros d'. rewrite Heq.
  unfold d'. rewrite read_write_prefix by nia. rewrite take_take. f_equal. nia.
Qed.

(** ** A concrete run: 100 bytes in persistent memory, moved to disk and read back *)

Section Runs.
#[local] Existing Instances simple_pool simple_tx simple_heap simple_buf_pools simple_nvme.
#[local] Instance run_tree : RTreeEngine (@ARTree (gset positive)) := artree_engine 1 1 1.
#[local] Instance run_rings (A : Type) : SpdkRing A (list_ring A) := simple_ring A.

Definition run_value : list Z := replicate 100 7.
Definition run_pv : pmem_view := mkPmemView {[11%positive := run_value]} ∅.
Definition run_key : list Z := key1 ++ drop 8 no_key.
Definition run_upd : Rqst OffloadOperation nat :=
  mkRqst 1 OUPDATE (BufferOf 1) (key1 ++ replicate 24 0) 8 (Some 11%positive) 100 (Some 42%nat) PMEM.
Definition run_get : Rqst OffloadOperation nat :=
  mkRqst 2 OGET (BufferOf 2) (key1 ++ replicate 24 0) 8 None 100 (Some 43%nat) EMPTY.
Definition run_state : FinState (@ARTree (gset positive)) nat (list_ring (DeviceTask nat)) (gset buf_ptr) unit Z :=
  mkFinState (run_device nat) run_put.

Definition run_lba : Z := 1025.
Definition run_la : OffloadLbaAlloc := snd (getLba 100 LbaAlloc.run_alloc).
Definition run_moved : @ARTree (gset positive) :=
  snd (AllocateAndUpdateValueWrapper 1 1 1 key1 16 (mkDeviceAddr run_lba (pci_addr run_ctx)) run_put).

Lemma run_calm : calm (run_device nat).
Proof.
  split; [by right; left| |exact run_mgr_inv|done|done|simpl; lia|simpl; lia].
  split; [done|]. exists 9. split; [lia|done].
Qed.

Lemma run_lba_ok : getLba 100 LbaAlloc.run_alloc = (Ret run_lba, run_la).
Proof. vm_compute. reflexivity. Qed.
Lemma run_moved_ok : AllocateAndUpdateValueWrapper 1 1 1 key1 16 (mkDeviceAddr run_lba (pci_addr run_ctx)) run_put = (Ret tt, run_moved).
Proof. vm_compute. reflexivity. Qed.
Lemma run_put_slot : option_map snd (slot run_put key1) = Some 100.
Proof. vm_compute. reflexivity. Qed.

(** The value is moved, read once and read again. *)
Lemma offload_roundtrip_witness :
  exists st1 a1 st2 st3, run_io run_pv ∅ [] (new_task 4096 8 8 DNull true run_upd OUPDATE run_key) run_state = (Ret tt, st1) /\
    rt_view (f_rtree st1) key1 = Some (Some a1, 100, DISK) /\
    run_io (mkPmemView ∅ (rt_iovs (f_rtree st1))) ∅ [] (new_task 4096 0 8 (DPmem a1) false run_get OGET run_key) st1 = (Ret tt, st2) /\
    run_io (mkPmemView ∅ (rt_iovs (f_rtree st2))) ∅ [] (new_task 4096 0 8 (DPmem a1) false run_get OGET run_key) st2 = (Ret tt, st3) /\
    b_calls (f_bdev st3) = b_calls (f_bdev st2) ++ [mkCall 43%nat OK (TaskKey run_key) 8 (Some run_value)].
Proof.
  destruct (offload_roundtrip run_pv ∅ [] run_state run_upd run_value 11 run_lba run_la 100000 run_key 8 42%nat run_moved)
    as (st1 & a1 & E & _ & Hv & _ & _ & H).
  - done.
  - exact run_calm.
  - exact (reachable_inv 1 1 1 run_put run_put_reachable).
  - exact wf_key1.
  - reflexivity.
  - reflexivity.
  - simpl. lia.
  - reflexivity.
  - reflexivity.
  - reflexivity.
  - exact run_put_slot.
  - exact run_lba_ok.
  - reflexivity.
  - exact run_moved_ok.
  - assert (Es : snd (run_io run_pv ∅ [] (new_task 4096 8 8 DNull true run_upd OUPDATE run_key) run_state) = st1) by exact (f_equal snd E).
    assert (Ea : a1 = 11%positive) by (rewrite <- Es in Hv; vm_compute in Hv; congruence). subst a1.
    assert (En : nvme (f_bdev st1) = 100000) by (rewrite <- Es; vm_compute; reflexivity).
    assert (Hg : forall st2 : FinState (@ARTree (gset positive)) nat (list_ring (DeviceTask nat)) (gset buf_ptr) unit Z,
      nvme (f_bdev st2) = 100000 -> nv_submit Read (u64 (8 * u64 run_lba)) 8 (nvme (f_bdev st2)) = (0, 100000))
      by (intros st2 ->; vm_compute; reflexivity).
    destruct (H st1 run_get run_key 8 43%nat 100000 (mkPmemView ∅ (rt_iovs (f_rtree st1))) ∅ [])
      as (_ & st2 & E2 & _); [apply rtc_refl|reflexivity..|exact (Hg st1 En)|].
    assert (Es2 : snd (run_io (mkPmemView ∅ (rt_iovs (f_rtree st1))) ∅ [] (new_task 4096 0 8 (DPmem 11) false run_get OGET run_key) st1) = st2)
      by exact (f_equal snd E2).
    assert (En2 : nvme (f_bdev st2) = 100000) by (rewrite <- Es2, <- Es; vm_compute; reflexivity).
    destruct (H st2 run_get run_key 8 43%nat 100000 (mkPmemView ∅ (rt_iovs (f_rtree st2))) ∅ [])
      as (_ & st3 & E3 & _ & Hc3 & _); [|reflexivity..|exact (Hg st2 En2)|].
    { apply rtc_once. apply (oi_get _ _ _ _ _ (mkPmemView ∅ (rt_iovs (f_rtree st1))) ∅ [] run_get run_value 11
        (mkDeviceAddr run_lba (pci_addr run_ctx)) 100000 key1 run_key 8 43%nat).
      - simpl. lia.
      - reflexivity.
      - reflexivity.
      - exact Hv.
      - reflexivity.
      - rewrite <- Es. vm_compute. reflexivity.
      - rewrite <- Es. vm_compute. reflexivity.
      - rewrite <- Es. vm_compute. reflexivity.
      - rewrite <- E2. do 2 f_equal. rewrite <- Es. reflexivity. }
    exists st1, 11%positive, st2, st3. split; [exact E|]. split; [exact Hv|]. split; [exact E2|]. split; [exact E3|exact Hc3].
Defined.

(** A device all of whose blocks are full of the same byte. *)
Definition run_full : FinState (@ARTree (gset positive)) nat (list_ring (DeviceTask nat)) (gset buf_ptr) unit Z :=
  mkFinState (set_disk (fun _ => replicate 512 7) (run_device nat)) run_moved.

Lemma run_moved_view : view run_moved key1 = Some (Some 11%positive, 100, DISK).
Proof. vm_compute. reflexivity. Qed.
Lemma run_moved_iov : iovs (objs run_moved) !! 11%positive = Some (mkDeviceAddr run_lba (pci_addr run_ctx)).
Proof. vm_compute. reflexivity. Qed.

Lemma offload_get_back_witness :
  exists st', run_io (mkPmemView ∅ (rt_iovs (f_rtree run_full))) ∅ [] (new_task 4096 0 8 (DPmem 11) false run_get OGET run_key)
                run_full = (Ret tt, st') /\
    b_calls (f_bdev st') = [mkCall 43%nat OK (TaskKey run_key) 8 (Some run_value)].
Proof.
  destruct (offload_get_back (mkPmemView ∅ (rt_iovs (f_rtree run_full))) ∅ [] run_full run_get run_value 11
    (mkDeviceAddr run_lba (pci_addr run_ctx)) 100000 key1 run_key 8 43%nat) as (st' & E & _ & _ & _ & Hc & _).
  - done.
  - destruct run_calm. by split.
  - simpl. lia.
  - reflexivity.
  - reflexivity.
  - exact run_moved_view.
  - reflexivity.
  - exact run_moved_iov.
  - vm_compute. reflexivity.
  - reflexivity.
  - exists st'. split; [exact E|exact Hc].
Defined.

Lemma same_size_lbas_apart_witness :
  value_at run_ctx (write_blocks 512 (replicate (Z.to_nat 4096) 9) (first_block run_ctx 100 6) 8 (fun _ => replicate 512 7)) 5 run_value.
Proof.
  apply (same_size_lbas_apart run_ctx (fun _ => replicate 512 7) 5 6 run_value (replicate 100 9) (replicate (Z.to_nat 4096) 9)).
  - split; [done|]. exists 9. split; [lia|done].
  - simpl. lia.
  - reflexivity.
  - lia.
  - lia.
  - lia.
  - vm_compute. discriminate.
  - vm_compute. discriminate.
  - vm_compute. reflexivity.
Defined.

Definition run_big : list Z := replicate (Z.to_nat 5000) 9.
Definition run_big_buf : list Z := replicate (Z.to_nat 8192) 9.

Lemma different_size_lbas_collide_witness :
  let n := Z.of_nat (length run_value) in let n' := Z.of_nat (length run_big) in
  blocks_of run_ctx n' <> blocks_of run_ctx n /\
  first_block run_ctx n (blocks_of run_ctx n') = first_block run_ctx n' (blocks_of run_ctx n).
Proof.
  destruct (different_size_lbas_collide run_ctx (fun _ => replicate 512 7) run_value run_big run_big_buf)
    as (E & E' & _).
  - split; [done|]. exists 9. split; [lia|done].
  - simpl. lia.
  - unfold run_big. rewrite length_replicate. lia.
  - vm_compute. reflexivity.
  - vm_compute. reflexivity.
  - split; [exact E|exact E'].
Defined.
End Runs.
