(* ===== verification/BdevSystem.v ===== *)
(** * The device as a system: all interleavings of its threads

    The offload thread hands tasks over, the I/O thread takes and starts them, SPDK finishes
    I/Os in any order and with any result, waiting tasks are tried again, and the
    finalizer takes tasks and finishes them.  Each task is one step of its thread; what holds
    in all reachable states is proved by induction on steps.  [ioBufsInUse] is a plain
    integer that two threads change, so a step may leave any number in it. *)

From S2P Require Import Prelude Status Pmem FreeList LbaAlloc ARTree RTreeEngine Poller Rqst SpdkIoBuf SpdkDevice SpdkBdev FinalizePoller OffloadPath.

(** ** Who holds which buffer *)

Section Ownership.
Context {PO H : Type} `{IoBufPools PO} `{DmaAlloc H}.
Implicit Types (g : @SpdkIoBufMgr PO H) (l : list (rw * option buf_ptr)).

(** Each holder has a buffer of its own, which is in use and of its direction. *)
Definition owned g l : Prop :=
  NoDup (snd <$> l) /\ Forall (fun h => exists b, snd h = Some b /\ in_use g b /\ serves (fst h) b) l.

#[global] Instance owned_perm g : Proper ((≡ₚ) ==> iff) (owned g).
Proof. intros l l' Hl. unfold owned. by rewrite Hl. Qed.

Lemma owned_cons g k b l : owned g ((k, Some b) :: l) <->
  owned g l /\ in_use g b /\ serves k b /\ (Some b ∉ (snd <$> l)).
Proof. unfold owned. rewrite fmap_cons, NoDup_cons, Forall_cons. simpl. naive_solver. Qed.

Lemma owned_app_r g l1 l2 : owned g (l1 ++ l2) -> owned g l2.
Proof. unfold owned. rewrite fmap_app, NoDup_app, Forall_app. naive_solver. Qed.

Lemma owned_mono g g' l : (forall b, in_use g b -> in_use g' b) -> owned g l -> owned g' l.
Proof. intros Hu [Hd HF]. split; [done|]. eapply Forall_impl; [exact HF|]. naive_solver. Qed.

Lemma owned_get k size align g b g' l : handed_out k size align g b g' -> owned g l -> owned g' ((k, Some b) :: l).
Proof.
  intros (_ & Hf & Hu & Hk & _) Ho. apply owned_cons. split_and!; [|by apply Hu; left|done|].
  - eapply owned_mono; [|exact Ho]. intros b' Hb'. apply Hu. by right.
  - rewrite list_elem_of_fmap. intros ([k' o] & Eo & Hin). simpl in Eo. subst o.
    destruct Ho as [_ HF]. rewrite Forall_forall in HF. destruct (HF _ Hin) as (b' & [= <-] & Hb' & _). done.
Qed.

Lemma owned_put k b g g' r l : mgr_inv g -> owned g ((k, Some b) :: l) -> putIoBuf k b g = (r, g') ->
  r = Ret tt /\ mgr_inv g' /\ owned g' l.
Proof.
  intros I Ho E. apply owned_cons in Ho as ([Hd HF] & Hu & Hk & Hn).
  destruct (putIoBuf_spec k b g I Hu Hk) as (g1 & E1 & I1 & Hu1 & _). rewrite E in E1. injection E1 as -> ->.
  split_and!; [done|done|]. split; [done|]. rewrite Forall_forall in HF |- *. intros h Hh.
  destruct (HF h Hh) as (b' & Eb & Hb' & Hk'). exists b'. split_and!; [done| |done]. apply Hu1. split; [|done].
  intros ->. apply Hn. rewrite <- Eb. by apply list_elem_of_fmap_2.
Qed.
End Ownership.

Section System.
Context {T C R PO H N : Type} `{RTreeEngine T} `{SpdkRing (DeviceTask C) R} `{IoBufPools PO} `{DmaAlloc H}
  `{SpdkNvme N} `{PmemTx} `{PmemHeap FreeLba}.

#[local] Abbreviation Bdev := (SpdkBdev C R PO H N).
#[local] Abbreviation state := (FinState T C R PO H N).
Implicit Types (t : DeviceTask C) (s : Bdev) (ts : list (DeviceTask C)).

(** ** What the operations that return have done *)

Lemma submit_failed_ret k rc t s ok s' : submit_failed k rc t s = (Ret ok, s') ->
  ok = true /\ rc = - ENOMEM /\ exists st nv, s' = set_stats st (set_spdk nv (inflight s) (io_wait s ++ [t]) s).
Proof.
  unfold submit_failed, on_stats, cbind at 1, cmod. destruct (Z.eqb_spec rc (- ENOMEM)) as [->|Hne].
  - unfold cbind at 1, reschedule, queue_io_wait. cbn [nvme set_stats].
    destruct (nv_queue_wait (nvme s)) as [rc nv] eqn:Eq. cbn [fst snd]. destruct (rc =? 0).
    + intros [= <- <-]. split_and!; try done. by eexists _, _.
    + intros E. apply cbind_inv in E as (? & ? & _ & E). done.
  - intros E. apply cbind_inv in E as (? & ? & _ & E). done.
Qed.

Lemma doRead_ret pv t s ok s' : ready s -> doRead pv t s = (Ret ok, s') ->
  ok = true /\ exists b g nv st inf wt t',
    getIoBuf Read (t_size t) (buf_align (spBdevCtx s)) (ioPoolMgr s) = (Ret b, g) /\ t_buff t' = Some b /\ t_op t' = t_op t /\
    s' = set_stats st (set_spdk nv inf wt (set_ioPoolMgr g (set_ioBufsInUse (u32 (ioBufsInUse s + 1)) s))) /\
    ((exists o bl, inf = inflight s ++ [mkIo Read o bl t'] /\ wt = io_wait s) \/ (inf = inflight s /\ wt = io_wait s ++ [t'])).
Proof.
  intros Hr. unfold doRead. rewrite (cbind_ret _ _ _ _ _ (stateMachine_ready s Hr)). unfold cbind at 1, cget.
  unfold cbind at 1, buf_inc, cmod. intros E. apply cbind_inv in E as (b & s1 & E1 & E).
  unfold on_bufs, czoom, getIoReadBuf in E1. cbn [ioPoolMgr set_ioBufsInUse t_size set_blockSize] in E1.
  destruct (getIoBuf Read (t_size t) _ (ioPoolMgr s)) as [r g] eqn:Eg. injection E1 as -> <-.
  apply cbind_inv in E as (l & s2 & E2 & E).
  assert (s2 = set_ioPoolMgr g (set_ioBufsInUse (u32 (ioBufsInUse s + 1)) s)) as ->.
  { unfold bdev_lba in E2. destruct (task_addr pv _); [by injection E2|done]. }
  unfold cbind at 1, submit in E. cbn [nvme set_ioPoolMgr set_ioBufsInUse] in E.
  set (bl := getSizeInBlk _ _) in *. cbn [t_blockSize set_buff set_blockSize] in E.
  destruct (nv_submit Read (u64 (bl * l)) bl (nvme s)) as [rc nv]. cbn [fst snd] in *.
  unfold cbind at 1, on_stats, cmod in E. set (t' := set_buff (Some b) (set_blockSize bl t)) in *.
  destruct (Z.eqb_spec rc 0) as [->|Hz]; cbn [negb] in E.
  - injection E as <- <-. split; [done|]. eexists b, g, nv, _, _, _, t'. split_and!; try done. left. by eexists _, _.
  - apply submit_failed_ret in E as (-> & _ & st & nv' & ->). split; [done|].
    eexists b, g, nv', st, _, _, t'. split_and!; try done. by right.
Qed.

Lemma fill_buf_ret pv b v n s s' : fill_buf pv b v n s = (Ret tt, s') ->
  exists x m m0, io_bufs (ioPoolMgr s) !! b = Some x /\ spdkDmaBuf x = Some m0 /\ length m = length m0 /\
    s' = set_ioPoolMgr (set_dma b x m (ioPoolMgr s)) s.
Proof.
  unfold fill_buf. destruct v as [a|]; [|done]. destruct (read_mem (pv_values pv) a n) as [bytes|e| |] eqn:Em; try done.
  unfold on_bufs, czoom, cbind, get_buf. destruct (io_bufs (ioPoolMgr s) !! b) as [x|]; [|done].
  destruct (spdkDmaBuf x) as [m|] eqn:Ex; [|done]. destruct (Z.ltb_spec (Z.of_nat (length m)) n); [done|].
  intros [= <-]. exists x, (bytes ++ drop (length bytes) m), m. split_and!; try done.
  assert (length bytes <= length m)%nat.
  { unfold read_mem in Em. destruct (pv_values pv !! a) as [y|]; [|done]. destruct (n <=? _); [|done].
    injection Em as <-. rewrite length_take. lia. }
  rewrite length_app, length_drop. lia.
Qed.

Lemma doWrite_ret pv t s ok s' : ready s -> doWrite pv t s = (Ret ok, s') ->
  ok = true /\ exists b g x m m0 nv st la inf wt t',
    getIoBuf Write (getAlignedSize (spBdevCtx s) (valueSize (t_rqst t))) (buf_align (spBdevCtx s)) (ioPoolMgr s) = (Ret b, g) /\
    io_bufs g !! b = Some x /\ spdkDmaBuf x = Some m0 /\ length m = length m0 /\
    t_buff t' = Some b /\ t_op t' = t_op t /\
    s' = set_stats st (set_spdk nv inf wt (set_ioPoolMgr (set_dma b x m g)
           (set_ioBufsInUse (u32 (ioBufsInUse s + 1)) (set_lbaAllocator la s)))) /\
    ((exists o bl, inf = inflight s ++ [mkIo Write o bl t'] /\ wt = io_wait s) \/
     (inf = inflight s /\ wt = io_wait s ++ [t'])).
Proof.
  intros Hr. unfold doWrite. rewrite (cbind_ret _ _ _ _ _ (stateMachine_ready s Hr)). unfold cbind at 1, cget.
  intros E. apply cbind_inv in E as (t1 & s1 & E1 & E).
  assert (exists l la, t1 = set_freeLba l t /\ s1 = set_lbaAllocator la s) as (l & la & -> & ->).
  { case_bool_decide.
    - unfold cbind, getFreeLba, czoom in E1. destruct (getLba _ _) as [[l|e| |] la]; try done. injection E1 as <- <-.
      by exists (u64 l), la.
    - injection E1 as <- <-. exists (t_freeLba t), (lbaAllocator s). split; [by destruct t|by destruct s]. }
  unfold cbind at 1, buf_inc, cmod in E. apply cbind_inv in E as (b & s2 & E2 & E).
  unfold on_bufs, czoom, getIoWriteBuf in E2. cbn [ioPoolMgr set_ioBufsInUse set_lbaAllocator] in E2.
  destruct (getIoBuf Write _ _ (ioPoolMgr s)) as [r g] eqn:Eg. injection E2 as -> <-.
  apply cbind_inv in E as ([] & s3 & E3 & E). apply fill_buf_ret in E3 as (x & m & m0 & Hx & Hm & Hl & ->).
  cbn [ioPoolMgr set_ioPoolMgr] in Hx, E.
  unfold cbind at 1, submit in E. cbn [nvme set_ioPoolMgr set_ioBufsInUse set_lbaAllocator] in E.
  set (t' := set_buff (Some b) (set_freeLba l t)) in *. set (o := u64 _) in E.
  destruct (nv_submit Write o (t_blockSize t') (nvme s)) as [rc nv] eqn:En. cbn [fst snd] in E.
  unfold cbind at 1, on_stats, cmod in E. destruct (Z.eqb_spec rc 0) as [->|Hz]; cbn [negb] in E.
  - injection E as <- <-. split; [done|]. eexists b, g, x, m, m0, nv, _, la, _, _, t'.
    split_and!; try done. left. by eexists _, _.
  - apply submit_failed_ret in E as (-> & -> & st & nv' & ->). split; [done|].
    eexists b, g, x, m, m0, nv', st, la, _, _, t'. split_and!; try done. by right.
Qed.

(** ** The invariant *)

Definition gets ts : list (DeviceTask C) := filter (fun t => t_op t = OGET) ts.

(** The holders of buffers: I/Os at SPDK, waiting writes, and reads that the finalizer
    has in its queue or ([todo]) has taken from it. *)
Definition holders (todo : list (DeviceTask C)) s : list (rw * option buf_ptr) :=
  ((fun x => (io_dir x, t_buff (io_task x))) <$> inflight s) ++ ((fun t => (Write, t_buff t)) <$> io_wait s) ++
  ((fun t => (Read, t_buff t)) <$> gets (ring_list (rqstRing (fin_queue (finalizer s))))) ++
  ((fun t => (Read, t_buff t)) <$> gets todo).

(** A task that the I/O engine can start. *)
Definition startable (c : SpdkBdevCtx) t : Prop :=
  (t_op t = OGET -> 0 <= t_size t < 2 ^ 32 /\ (4096 | t_size t)) /\
  (t_op t = OUPDATE -> 0 < valueSize (t_rqst t) <= 2 ^ 31).

Record dev_inv (todo : list (DeviceTask C)) s : Prop := {
  di_ready : ready s;
  di_ctx : ctx_ok (spBdevCtx s);
  di_mgr : mgr_inv (ioPoolMgr s);
  di_owned : owned (ioPoolMgr s) (holders todo s);
  di_io : Forall (fun x => t_op (io_task x) = match io_dir x with Read => OGET | Write => OUPDATE end) (inflight s);
  di_wait : Forall (fun t => t_op t = OUPDATE) (io_wait s);
  di_queue : Forall (startable (spBdevCtx s)) (ring_list (rqstRing (ioEngine s))) }.

Lemma gets_app ts1 ts2 : gets (ts1 ++ ts2) = gets ts1 ++ gets ts2.
Proof. apply filter_app. Qed.

(** Every waiting task is an update: no read was refused for want of buffers. *)
Definition no_read_waits s : Prop := Forall (fun t => t_op t = OUPDATE) (io_wait s).

(** A new holder. *)
Lemma inv_start todo s s' k b g size align :
  dev_inv todo s -> handed_out k size align (ioPoolMgr s) b g ->
  ready s' -> spBdevCtx s' = spBdevCtx s ->
  mgr_inv (ioPoolMgr s') -> (forall b', in_use (ioPoolMgr s') b' <-> in_use g b') ->
  holders todo s' ≡ₚ (k, Some b) :: holders todo s ->
  Forall (fun x => t_op (io_task x) = match io_dir x with Read => OGET | Write => OUPDATE end) (inflight s') ->
  no_read_waits s' ->
  ring_list (rqstRing (ioEngine s')) = ring_list (rqstRing (ioEngine s)) -> dev_inv todo s'.
Proof.
  intros [Hr Hc I Ho Hio Hw Hq] HO Hr' Ec I' Hu Hh Hio' Hw' Eq.
  split; try done; rewrite ?Ec, ?Hh, ?Eq; try done.
  eapply owned_mono; [|by eapply owned_get]. intros b'. apply Hu.
Qed.

Lemma engine_read_inv pv todo t s ok s' : dev_inv todo s -> startable (spBdevCtx s) t ->
  t_op t = OGET -> doRead pv t s = (Ret ok, s') -> no_read_waits s' ->
  ok = true /\ dev_inv todo s' /\ spBdevCtx s' = spBdevCtx s.
Proof.
  intros I [Hst _] Hop E Hnw. destruct (Hst Hop) as [Hsz Hdiv].
  apply doRead_ret in E as (-> & b & g & nv & st & inf & wt & t' & Eg & Hb & Ho & -> & HW); [|by apply I].
  destruct (getIoBuf_spec Read (t_size t) (buf_align (spBdevCtx s)) _ (di_mgr _ _ I) Hsz Hdiv) as (b' & g' & Eg' & HO).
  rewrite Eg in Eg'. injection Eg' as <- <-. split; [done|]. split; [|done].
  destruct HW as [(o & bl & -> & ->)|[-> ->]].
  2:{ unfold no_read_waits in Hnw. cbn [io_wait set_stats set_spdk] in Hnw. apply Forall_app in Hnw as [_ Hn]. apply Forall_cons in Hn as [Hn _]. congruence. }
  eapply (inv_start todo s); [exact I|exact HO|..]; try apply I; try done.
  - apply HO.
  - unfold holders. cbn [inflight set_stats set_spdk io_wait finalizer set_ioPoolMgr set_ioBufsInUse].
    rewrite fmap_app. cbn [fmap list_fmap io_dir io_task]. rewrite Hb, <- app_assoc. symmetry. apply Permutation_middle.
  - cbn. apply Forall_app. split; [apply I|]. apply Forall_singleton. cbn. by rewrite Ho.
Qed.

Lemma engine_write_inv pv todo t s ok s' : dev_inv todo s -> startable (spBdevCtx s) t ->
  t_op t = OUPDATE -> doWrite pv t s = (Ret ok, s') -> ok = true /\ dev_inv todo s' /\ spBdevCtx s' = spBdevCtx s.
Proof.
  intros I [_ Hst] Hop E. specialize (Hst Hop). destruct (blocks_of_spec _ _ (di_ctx _ _ I) Hst) as (Hcov & _ & Hdiv & _).
  apply doWrite_ret in E as (-> & b & g & x & m & m0 & nv & st & la & inf & wt & t' & Eg & Hx & Hm & Hl & Hb & Ho & -> & HW);
    [|by apply I].
  destruct (getIoBuf_spec Write (getAlignedSize (spBdevCtx s) (valueSize (t_rqst t))) (buf_align (spBdevCtx s)) _ (di_mgr _ _ I) ltac:(lia) Hdiv) as (b' & g' & Eg' & HO).
  rewrite Eg in Eg'. injection Eg' as <- <-. split; [done|]. split; [|done].
  destruct (set_dma_spec b x m m0 g (proj1 HO) Hx Hm Hl) as [I2 Hu2].
  eapply (inv_start todo s); [exact I|exact HO|..]; try apply I; try done.
  - unfold holders. cbn [inflight set_stats set_spdk io_wait finalizer set_ioPoolMgr set_ioBufsInUse set_lbaAllocator].
    destruct HW as [(o & bl & -> & ->)|[-> ->]]; rewrite fmap_app; cbn [fmap list_fmap io_dir io_task]; rewrite Hb.
    + rewrite <- app_assoc. symmetry. apply Permutation_middle.
    + rewrite <- app_assoc. symmetry. rewrite Permutation_middle. apply Permutation_app_head, Permutation_middle.
  - cbn. destruct HW as [(o & bl & -> & ->)|[-> ->]]; [|apply I]. apply Forall_app. split; [apply I|]. apply Forall_singleton. simpl. by rewrite Ho.
  - unfold no_read_waits. cbn. destruct HW as [(o & bl & -> & ->)|[-> ->]]; [apply I|]. apply Forall_app. split; [apply I|]. apply Forall_singleton. by rewrite Ho.
Qed.

(** Changes that concern none of the holders. *)
Lemma inv_same todo s s' : dev_inv todo s -> ready s' -> spBdevCtx s' = spBdevCtx s ->
  mgr_inv (ioPoolMgr s') -> (forall b, in_use (ioPoolMgr s) b -> in_use (ioPoolMgr s') b) ->
  holders todo s' ≡ₚ holders todo s ->
  Forall (fun x => t_op (io_task x) = match io_dir x with Read => OGET | Write => OUPDATE end) (inflight s') ->
  Forall (fun t => t_op t = OUPDATE) (io_wait s') ->
  Forall (startable (spBdevCtx s)) (ring_list (rqstRing (ioEngine s'))) -> dev_inv todo s'.
Proof.
  intros [Hr Hc I Ho Hio Hw Hq] Hr' Ec I' Hu Hh Hio' Hw' Hq'.
  split; try done; rewrite ?Ec, ?Hh; try done. by eapply owned_mono.
Qed.

(** A holder is gone, its buffer put back or not. *)
Lemma inv_less todo todo' s s' h : dev_inv todo s -> holders todo s ≡ₚ h :: holders todo' s' ->
  ready s' -> spBdevCtx s' = spBdevCtx s -> mgr_inv (ioPoolMgr s') ->
  owned (ioPoolMgr s') (holders todo' s') ->
  Forall (fun x => t_op (io_task x) = match io_dir x with Read => OGET | Write => OUPDATE end) (inflight s') ->
  Forall (fun t => t_op t = OUPDATE) (io_wait s') ->
  ring_list (rqstRing (ioEngine s')) = ring_list (rqstRing (ioEngine s)) -> dev_inv todo' s'.
Proof.
  intros [Hr Hc I Ho Hio Hw Hq] Hh Hr' Ec I' Ho' Hio' Hw' Eq. split; try done; rewrite ?Ec, ?Eq; done.
Qed.

Lemma finalizer_enqueue_ret t s ok s' : finalizer_enqueue t s = (Ret ok, s') ->
  exists q, s' = set_finalizer (mkFinalizePoller q (_state (finalizer s))) s /\
    ring_list (rqstRing q) = (if ok then ring_list (rqstRing (fin_queue (finalizer s))) ++ [t]
                              else ring_list (rqstRing (fin_queue (finalizer s)))).
Proof.
  unfold finalizer_enqueue. destruct (enqueue_spec t (fin_queue (finalizer s))) as [(_ & E & El)|[_ E]];
    rewrite E in *; intros [= <- <-]; by eexists.
Qed.

(** A task that is not a get holds nothing in the finalizer's queue. *)
Lemma gets_snoc ts t : t_op t <> OGET -> gets (ts ++ [t]) = gets ts.
Proof. intros Ht. rewrite gets_app. unfold gets at 2. rewrite filter_cons_False by done. by rewrite app_nil_r. Qed.
Lemma gets_snoc_get ts t : t_op t = OGET -> gets (ts ++ [t]) = gets ts ++ [t].
Proof. intros Ht. rewrite gets_app. unfold gets at 2. by rewrite filter_cons_True. Qed.

Lemma engine_remove_inv pv todo t s ok s' : dev_inv todo s -> t_op t = OREMOVE ->
  doRemove pv t s = (Ret ok, s') ->
  dev_inv todo s' /\ spBdevCtx s' = spBdevCtx s.
Proof.
  intros I Hop. unfold doRemove. rewrite (cbind_ret _ _ _ _ _ (stateMachine_ready s (di_ready _ _ I))).
  unfold cbind at 1, cget. intros E. apply cbind_inv in E as (l & s1 & E1 & E).
  assert (s1 = s) as ->.
  { unfold bdev_lba in E1. destruct (task_addr pv _); [by injection E1|done]. }
  apply cbind_inv in E as ([] & s2 & E2 & E). unfold putFreeLba, czoom in E2.
  destruct (putLba _ _ _) as [r la]. injection E2 as -> <-. cbn [fst snd] in E.
  apply finalizer_enqueue_ret in E as (q & -> & Hq). split_and!; try done.
  apply (inv_same todo s); try done; try apply I.
  unfold holders. cbn [inflight io_wait finalizer set_finalizer set_lbaAllocator fin_queue].
  cbn [finalizer set_lbaAllocator] in Hq. rewrite Hq. destruct ok; [|done]. by rewrite gets_snoc by (simpl; congruence).
Qed.

Lemma inv_logs todo s cl rt : dev_inv todo s -> dev_inv todo (set_logs cl rt s).
Proof. intros I. by apply (inv_same todo s); try done; try apply I. Qed.

Lemma refused_logs p r s : exists cl rt, (rqstClb r UNKNOWN_ERROR ;;; pool_put p r) s = (Ret tt, set_logs cl rt s).
Proof.
  unfold rqstClb, pool_put, cbind, cmod. destruct (clb r).
  - by eexists _, _.
  - by eexists _, _.
Qed.

(** One task of the I/O engine. *)
Lemma engine_one_inv pv todo t s s' : dev_inv todo s -> startable (spBdevCtx s) t ->
  engine_one pv t s = (Ret tt, s') -> no_read_waits s' -> dev_inv todo s' /\ spBdevCtx s' = spBdevCtx s.
Proof.
  intros I Hst. unfold engine_one. change (t_op (set_routing false t)) with (t_op t).
  destruct (t_op t) eqn:Hop; [by intros [= <-]|..]; unfold read, write, remove, routed;
    cbn [t_routing set_routing]; intros E Hnw; apply cbind_inv in E as (ok & s1 & E1 & E).
  - assert (ok = true) as -> by (apply doRead_ret in E1; [tauto|apply I]). injection E as <-.
    by apply (engine_read_inv pv todo) in E1 as (_ & ? & ?).
  - apply (engine_write_inv pv todo) in E1 as (-> & I1 & Hc); try done. by injection E as <-.
  - apply (engine_remove_inv pv todo) in E1 as (I1 & Ec); [|done|done].
    destruct ok; [by injection E as <-|].
    destruct (refused_logs OREMOVE (t_rqst (set_routing false t)) s1) as (cl & rt & El). rewrite El in E. injection E as <-.
    split; [by apply inv_logs|done].
Qed.

Lemma inv_set_engine todo s q : dev_inv todo s -> Forall (startable (spBdevCtx s)) (ring_list (rqstRing q)) ->
  dev_inv todo (set_ioEngine q s).
Proof. intros I Hq. by apply (inv_same todo s); try done; try apply I. Qed.

(** The I/O engine takes tasks from its ring. *)
Lemma engine_take_inv todo n s : dev_inv todo s ->
  let q := dequeue n (ioEngine s) in
  dev_inv todo (set_ioEngine q s) /\ Forall (startable (spBdevCtx s)) (pending q).
Proof.
  intros I q. destruct (dequeue_spec n (ioEngine s)) as [Hp Hq]. fold q in Hp, Hq.
  pose proof (di_queue _ _ I) as HF. rewrite <- (take_drop (Nat.min n DEQUEUE_RING_LIMIT)) in HF.
  rewrite <- Hp, <- Hq in HF. apply Forall_app in HF as [HFp HFq]. split; [by apply inv_set_engine|done].
Qed.

(** ** SPDK calls back *)

Lemma transfer_ret x ok junk s s' : mgr_inv (ioPoolMgr s) -> transfer x ok junk s = (Ret tt, s') ->
  exists g d, s' = set_disk d (set_ioPoolMgr g s) /\ mgr_inv g /\
    (forall b, in_use g b <-> in_use (ioPoolMgr s) b).
Proof.
  intros I. unfold transfer. destruct (t_buff (io_task x)) as [b|]; [|done].
  destruct (io_bufs (ioPoolMgr s) !! b) as [[[m|] bz bi sc]|] eqn:Eb; try done.
  destruct (Nat.ltb_spec (length m) (Z.to_nat (io_num x) * Z.to_nat (blk_size (spBdevCtx s)))); [done|].
  destruct (io_dir x).
  - intros [= <-]. exists (ioPoolMgr s). eexists. split; [by destruct s|done].
  - set (bytes := take _ _). intros [= <-].
    destruct (set_dma_spec b (mkIoBuf (Some m) bz bi sc) (bytes ++ drop (length bytes) m) m _ I Eb eq_refl) as [I' Hu].
    { unfold bytes. rewrite length_app, length_drop, length_take. lia. }
    eexists _, (disk s). split; [done|]. split; [exact I'|exact Hu].
Qed.

(** The holders without the I/O number [i]. *)
Lemma holders_io todo s i x : inflight s !! i = Some x ->
  holders todo s ≡ₚ (io_dir x, t_buff (io_task x)) ::
    holders todo (set_spdk (nvme s) (delete i (inflight s)) (io_wait s) s).
Proof. intros Hx. unfold holders. cbn. by rewrite (delete_Permutation _ _ _ Hx) at 1. Qed.

Lemma complete_inv todo s s' ok t i x g d st cnt q :
  dev_inv todo s -> inflight s !! i = Some x -> t = set_result ok (io_task x) ->
  s' = set_finalizer (mkFinalizePoller q (_state (finalizer s))) (set_stats st (set_ioBufsInUse cnt (set_ioPoolMgr g
         (set_disk d (set_spdk (nvme s) (delete i (inflight s)) (io_wait s) s))))) ->
  mgr_inv g ->
  (ring_list (rqstRing q) = ring_list (rqstRing (fin_queue (finalizer s))) \/
   ring_list (rqstRing q) = ring_list (rqstRing (fin_queue (finalizer s))) ++ [t]) ->
  (if bool_decide (io_dir x = Read)
   then forall b, in_use (ioPoolMgr s) b -> in_use g b
   else owned g (holders todo (set_spdk (nvme s) (delete i (inflight s)) (io_wait s) s))) ->
  dev_inv todo s'.
Proof.
  intros I Hx Ht -> Ig Hq Hd. pose proof (holders_io todo s i x Hx) as Hh. pose proof (di_owned _ _ I) as Ho.
  rewrite Hh in Ho. pose proof (Forall_lookup_1 _ _ _ _ (di_io _ _ I) Hx) as Hop. cbn beta in Hop.
  assert (Hio : Forall (fun x => t_op (io_task x) = match io_dir x with Read => OGET | Write => OUPDATE end)
    (delete i (inflight s))) by (apply Forall_delete, I).
  destruct (io_dir x) eqn:Ed; [rewrite bool_decide_eq_false_2 in Hd by done|rewrite bool_decide_eq_true_2 in Hd by done].
  - rename Hd into Hog.
    assert (Hg : gets (ring_list (rqstRing q)) = gets (ring_list (rqstRing (fin_queue (finalizer s))))).
    { destruct Hq as [-> | ->]; [done|]. rewrite gets_snoc; [done|]. rewrite Ht. cbn. by rewrite Hop. }
    eapply (inv_less todo todo s); [exact I| |..]; try apply I; try done.
    + rewrite Hh. unfold holders. cbn. by rewrite Hg.
    + unfold holders. cbn. rewrite Hg. exact Hog.
  - rename Hd into Hu. destruct Hq as [Hq|Hq].
    + eapply (inv_less todo todo s); [exact I| |..]; try apply I; try done.
      * rewrite Hh. unfold holders. cbn. by rewrite Hq.
      * unfold holders. cbn. rewrite Hq. eapply owned_mono; [exact Hu|].
        by apply (owned_app_r _ [(Read, t_buff (io_task x))]).
    + eapply (inv_same todo s); [exact I|..]; try apply I; try done.
      rewrite Hh. unfold holders. cbn. rewrite Hq, gets_snoc_get by (rewrite Ht; cbn; by rewrite Hop).
      rewrite fmap_app, Ht. cbn. rewrite <- app_assoc. cbn.
      by rewrite !app_assoc, <- Permutation_middle.
Qed.

(** The end of a completion that returned: the task is with the finalizer, when there was
    room. *)
Lemma readComplete_ret ok t s s' : ready s -> readComplete ok t s = (Ret tt, s') ->
  exists st q, s' = set_finalizer (mkFinalizePoller q (_state (finalizer s))) (set_stats st s) /\
    (ring_list (rqstRing q) = ring_list (rqstRing (fin_queue (finalizer s))) \/
     ring_list (rqstRing q) = ring_list (rqstRing (fin_queue (finalizer s))) ++ [set_result ok t]).
Proof.
  intros Hr E. unfold readComplete in E. rewrite !(cbind_ret (on_stats _) _ _ tt _ eq_refl) in E.
  rewrite (cbind_ret _ _ _ _ _ (stateMachine_ready _ (Hr : ready (set_stats _ (set_stats _ s))))) in E.
  apply cbind_inv in E as (oq & s2 & E2 & E). injection E as <-.
  apply finalizer_enqueue_ret in E2 as (q & -> & Hq). eexists _, q. split; [reflexivity|]. destruct oq; [right|left]; exact Hq.
Qed.

(** The same for a write, whose buffer goes back first. *)
Lemma writeComplete_ret ok t b s s' : ready s -> t_buff t = Some b -> writeComplete ok t s = (Ret tt, s') ->
  exists r g st q, putIoBuf Write b (ioPoolMgr s) = (r, g) /\
    s' = set_finalizer (mkFinalizePoller q (_state (finalizer s))) (set_stats st (set_ioBufsInUse (u32 (ioBufsInUse s - 1)) (set_ioPoolMgr g s))) /\
    (ring_list (rqstRing q) = ring_list (rqstRing (fin_queue (finalizer s))) \/
     ring_list (rqstRing q) = ring_list (rqstRing (fin_queue (finalizer s))) ++ [set_result ok t]).
Proof.
  intros Hr Eb E. unfold writeComplete in E. rewrite Eb in E. apply cbind_inv in E as ([] & s3 & E3 & E).
  unfold on_bufs, czoom, putIoWriteBuf in E3. destruct (putIoBuf Write b (ioPoolMgr s)) as [r g] eqn:Eg.
  injection E3 as -> <-. rewrite (cbind_ret buf_dec _ _ tt _ eq_refl), !(cbind_ret (on_stats _) _ _ tt _ eq_refl) in E.
  rewrite (cbind_ret _ _ _ _ _ (stateMachine_ready _ (Hr : ready (set_stats _ (set_stats _ (set_ioBufsInUse _ (set_ioPoolMgr _ s))))))) in E.
  apply cbind_inv in E as (oq & s4 & E4 & E). injection E as <-.
  apply finalizer_enqueue_ret in E4 as (q & -> & Hq). eexists _, g, _, q. split; [done|]. split; [reflexivity|].
  destruct oq; [right|left]; exact Hq.
Qed.

Lemma io_done_inv todo i ok junk s s' : dev_inv todo s -> io_done i ok junk s = (Ret tt, s') -> dev_inv todo s'.
Proof.
  intros I. unfold io_done. destruct (inflight s !! i) as [x|] eqn:Hx; [|by intros [= <-]].
  set (s1 := set_spdk _ _ _ s). intros E. apply cbind_inv in E as ([] & s2 & E2 & E).
  apply transfer_ret in E2 as (g & d & -> & Ig & Hug); [|apply I].
  pose proof (di_owned _ _ I) as Ho. rewrite (holders_io todo s i x Hx) in Ho. fold s1 in Ho.
  assert (Hr : ready (set_disk d (set_ioPoolMgr g s1))) by apply I.
  destruct (io_dir x) eqn:Ed.
  - assert (Ho' : owned g ((Write, t_buff (io_task x)) :: holders todo s1)).
    { eapply owned_mono; [|exact Ho]. intros b. apply Hug. }
    destruct (t_buff (io_task x)) as [b|] eqn:Eb; [|by destruct Ho' as [_ (? & ? & _)%Forall_cons%proj1]].
    destruct (writeComplete_ret _ _ b _ _ Hr Eb E) as (r & g' & st & q & Eg & -> & Hq).
    destruct (owned_put _ _ _ _ _ _ Ig Ho' Eg) as (_ & Ig' & Ho'').
    eapply (complete_inv todo s _ ok _ i x g' d); [exact I|exact Hx|reflexivity|reflexivity|exact Ig'|exact Hq|].
    rewrite bool_decide_eq_false_2 by congruence. exact Ho''.
  - destruct (readComplete_ret _ _ _ _ Hr E) as (st & q & -> & Hq).
    eapply (complete_inv todo s _ ok _ i x g d); [exact I|exact Hx|reflexivity|reflexivity|exact Ig|exact Hq|].
    rewrite bool_decide_eq_true_2 by done. intros b. apply Hug.
Qed.

Lemma writeQueueIoWait_ret t s s' : writeQueueIoWait t s = (Ret tt, s') ->
  exists st nv inf wt, s' = set_stats st (set_spdk nv inf wt s) /\
    ((exists o bl, inf = inflight s ++ [mkIo Write o bl t] /\ wt = io_wait s) \/
     (inf = inflight s /\ wt = io_wait s ++ [t])).
Proof.
  unfold writeQueueIoWait, cbind at 1, submit.
  destruct (nv_submit Write _ _ _) as [rc nv]. cbn [fst snd]. destruct (rc =? 0); cbn [negb].
  - intros [= <-]. eexists _, nv, _, _. split; [done|]. left. by eexists _, _.
  - unfold cbind, queue_io_wait. cbn [nvme set_spdk]. destruct (nv_queue_wait nv) as [rc' nv']. cbn [fst snd].
    destruct (rc' =? 0); cbn [negb]; [|done]. intros [= <-]. exists (stats s), nv', (inflight s), (io_wait s ++ [t]).
    split; [by destruct s|by right].
Qed.

Lemma io_retry_inv todo i s s' : dev_inv todo s -> io_retry i s = (Ret tt, s') -> dev_inv todo s'.
Proof.
  intros I. unfold io_retry. destruct (io_wait s !! i) as [t|] eqn:Ht; [|by intros [= <-]].
  intros E. apply writeQueueIoWait_ret in E as (st & nv & inf & wt & -> & HW).
  pose proof (Forall_lookup_1 _ _ _ _ (di_wait _ _ I) Ht) as Hop. cbn beta in Hop.
  cbn [inflight io_wait set_spdk] in HW.
  assert (Hwt : Forall (fun t => t_op t = OUPDATE) (delete i (io_wait s))) by (apply Forall_delete, I).
  eapply (inv_same todo s); [exact I|..]; try apply I; try done.
  - unfold holders. cbn. rewrite (delete_Permutation _ _ _ Ht).
    destruct HW as [(o & bl & -> & ->)|[-> ->]]; rewrite fmap_app; cbn.
    + rewrite <- !app_assoc. by apply Permutation_app_head.
    + rewrite <- app_assoc. apply Permutation_app_head. symmetry. apply Permutation_middle.
  - cbn. destruct HW as [(o & bl & -> & ->)|[-> ->]]; [|apply I]. apply Forall_app. split; [apply I|by apply Forall_singleton].
  - cbn. destruct HW as [(o & bl & -> & ->)|[-> ->]]; [done|]. apply Forall_app. split; [done|by apply Forall_singleton].
Qed.

(** ** The finalizer *)

Lemma task_clb_ret t status v (st : state) : exists cl,
  task_clb t status v st = (Ret tt, mkFinState (set_logs cl (b_returned (f_bdev st)) (f_bdev st)) (f_rtree st)).
Proof.
  unfold task_clb. destruct (t_clb t).
  - by eexists.
  - exists (b_calls (f_bdev st)). by destruct st as [[] tr].
Qed.

(** The end of an update or a removal. *)
Lemma finish_ret p t status v (st : state) :
  exists cl rt, (task_clb t status v ;;; f_on_bdev (pool_put p (t_rqst t))) st =
    (Ret tt, mkFinState (set_logs cl rt (f_bdev st)) (f_rtree st)).
Proof.
  destruct (task_clb_ret t status v st) as [cl E]. rewrite (cbind_ret _ _ _ _ _ E). by eexists _, _.
Qed.

Lemma fin_update_ret t (st : state) st' : fin_processUpdate t st = (Ret tt, st') ->
  exists cl rt, f_bdev st' = set_logs cl rt (f_bdev st).
Proof.
  unfold fin_processUpdate, cbind at 1, cget.
  assert (Hfin : forall status (x : state), f_bdev x = f_bdev st ->
    (task_clb t status None ;;; f_on_bdev (pool_put OUPDATE (t_rqst t))) x = (Ret tt, st') ->
    exists cl rt, f_bdev st' = set_logs cl rt (f_bdev st)).
  { intros status x Ex E. destruct (finish_ret OUPDATE t status None x) as (cl & rt & E'). rewrite E in E'.
    injection E' as ->. rewrite Ex. by eexists _, _. }
  destruct (t_result t); [|by apply Hfin]. destruct (t_updatePmemIOV t); [|by apply Hfin].
  intros E. apply cbind_inv in E as (ok & x & E1 & E).
  assert (f_bdev x = f_bdev st) as Ex.
  { unfold ccatch, cbind, f_on_tree, czoom in E1. destruct (rt_AllocateAndUpdateValueWrapper _ _ _ _) as [[] tr];
      cbn [fst snd] in E1; try done; by injection E1 as <- <-. }
  destruct ok; by eapply Hfin.
Qed.

Lemma fin_remove_ret callers t (st : state) st' : fin_processRemove callers t st = (Ret tt, st') ->
  exists cl rt, f_bdev st' = set_logs cl rt (f_bdev st).
Proof.
  unfold fin_processRemove. intros E. apply cbind_inv in E as ([] & x & E1 & E).
  assert (exists cl, f_bdev x = set_logs cl (b_returned (f_bdev st)) (f_bdev st)) as (cl & Ex).
  { destruct (t_result t).
    - apply cbind_inv in E1 as (k & y & Ey & E1). injection Ey as _ <-. apply cbind_inv in E1 as ([] & y & Ey & E1).
      unfold f_on_tree, czoom in Ey. injection Ey as _ <-.
      destruct (task_clb_ret t OK None (mkFinState (f_bdev st) (snd (rt_Remove k (f_rtree st))))) as [cl Ec].
      rewrite E1 in Ec. injection Ec as ->. by eexists.
    - destruct (task_clb_ret t UNKNOWN_ERROR None st) as [cl Ec]. rewrite E1 in Ec. injection Ec as ->. by eexists. }
  unfold f_on_bdev, czoom, pool_put, cmod in E. injection E as <-. cbn [f_bdev]. rewrite Ex. by eexists _, _.
Qed.

(** The holders when the first task is done with. *)
Lemma holders_done t todo s : t_op t <> OGET -> holders (t :: todo) s = holders todo s.
Proof. intros Ht. unfold holders, gets. by rewrite (filter_cons_False _ t) by done. Qed.
Lemma holders_done_get t todo s : t_op t = OGET -> holders (t :: todo) s ≡ₚ (Read, t_buff t) :: holders todo s.
Proof.
  intros Ht. unfold holders, gets. rewrite (filter_cons_True _ t) by done. cbn [fmap list_fmap].
  rewrite !app_assoc. symmetry. apply Permutation_middle.
Qed.

Lemma inv_done t todo s : t_op t <> OGET -> dev_inv (t :: todo) s -> dev_inv todo s.
Proof.
  intros Ht [? ? ? Ho ? ? ?]. rewrite holders_done in Ho by done. by split.
Qed.

(** A get that is dropped: its buffer stays in use. *)
Lemma inv_drop t todo s cl rt : t_op t = OGET -> dev_inv (t :: todo) s -> dev_inv todo (set_logs cl rt s).
Proof.
  intros Ht I. eapply (inv_less (t :: todo) todo s); [exact I|exact (holders_done_get t todo s Ht)|..]; try apply I; try done.
  pose proof (di_owned _ _ I) as Ho. rewrite holders_done_get in Ho by done. by apply (owned_app_r _ [(Read, t_buff t)]).
Qed.

Lemma fin_get_inv t todo (st : state) st' : t_op t = OGET -> dev_inv (t :: todo) (f_bdev st) ->
  fin_processGet t st = (Ret tt, st') -> dev_inv todo (f_bdev st').
Proof.
  intros Ht I. unfold fin_processGet. intros E. apply cbind_inv in E as ([] & x & E1 & E).
  assert (exists cl, f_bdev x = set_logs cl (b_returned (f_bdev st)) (f_bdev st)) as (cl & Ex).
  { destruct (t_result t).
    - destruct (t_clb t) eqn:Ec; [|injection E1 as <-; exists (b_calls (f_bdev st)); by destruct (f_bdev st)].
      apply cbind_inv in E1 as (v & y & Ey & E1).
      assert (y = st) as ->.
      { unfold buf_value in Ey. destruct (t_buff t) as [b|]; [|done].
        destruct (io_bufs (ioPoolMgr (f_bdev st)) !! b) as [z|]; [|done].
        destruct (spdkDmaBuf z); [|done]. destruct (_ <=? _); [by injection Ey|done]. }
      destruct (task_clb_ret t OK (Some v) st) as [cl El]. rewrite E1 in El. injection El as ->. by eexists.
    - destruct (task_clb_ret t UNKNOWN_ERROR None st) as [cl El]. rewrite E1 in El. injection El as ->. by eexists. }
  pose proof (di_owned _ _ I) as Ho. rewrite holders_done_get in Ho by done.
  destruct (t_buff t) as [b|] eqn:Eb; [|by destruct Ho as [_ (? & ? & _)%Forall_cons%proj1]].
  apply cbind_inv in E as ([] & y & Ey & E). unfold f_on_bdev, czoom, on_bufs, putIoReadBuf in Ey. rewrite Ex in Ey.
  unfold czoom in Ey. cbn [ioPoolMgr set_logs] in Ey.
  destruct (putIoBuf Read b (ioPoolMgr (f_bdev st))) as [r g] eqn:Eg. injection Ey as -> <-.
  destruct (owned_put _ _ _ _ _ _ (di_mgr _ _ I) Ho Eg) as (_ & Ig & Hog).
  unfold f_on_bdev, czoom, buf_dec, pool_put, cbind, cmod in E. injection E as <-. cbn [f_bdev fst snd].
  eapply (inv_less (t :: todo) todo (f_bdev st)); [exact I|exact (holders_done_get t todo (f_bdev st) Ht)|..];
    try apply I; done.
Qed.

Lemma fin_one_inv callers t todo (st : state) st' : dev_inv (t :: todo) (f_bdev st) ->
  fin_one callers t st = (Ret tt, st') -> dev_inv todo (f_bdev st').
Proof.
  intros I. unfold fin_one, cbind at 1, cget. destruct (t_op t) eqn:Hop.
  - intros [= <-]. apply (inv_done t); [congruence|done].
  - destruct (negb _); [|by apply fin_get_inv]. unfold f_on_bdev, czoom, pool_put, cmod. intros [= <-].
    by apply (inv_drop t).
  - intros E. assert (exists cl rt, f_bdev st' = set_logs cl rt (f_bdev st)) as (cl & rt & ->).
    { destruct (negb _); [|by apply (fin_update_ret t)]. injection E as <-. by eexists _, _. }
    apply inv_logs, (inv_done t); [congruence|done].
  - intros E. assert (exists cl rt, f_bdev st' = set_logs cl rt (f_bdev st)) as (cl & rt & ->).
    { destruct (negb _); [|by apply (fin_remove_ret callers t)]. injection E as <-. by eexists _, _. }
    apply inv_logs, (inv_done t); [congruence|done].
Qed.

Lemma inv_fin_queue todo todo' (st : state) f : dev_inv todo (f_bdev st) ->
  gets (ring_list (rqstRing (f (fin_queue (finalizer (f_bdev st)))))) ++ gets todo' ≡ₚ
  gets (ring_list (rqstRing (fin_queue (finalizer (f_bdev st))))) ++ gets todo ->
  dev_inv todo' (f_bdev (set_fin_queue f st)).
Proof.
  intros [? ? ? Ho ? ? ?] Hg.
  assert (Hh : holders todo' (f_bdev (set_fin_queue f st)) ≡ₚ holders todo (f_bdev st)).
  { unfold holders. cbn. apply Permutation_app_head, Permutation_app_head. by rewrite <- !fmap_app, Hg. }
  split; try done; cbn [ioPoolMgr f_bdev set_fin_queue set_finalizer ioBufsInUse maxIoBufs]; by rewrite Hh.
Qed.

(** The finalizer takes tasks from its ring. *)
Lemma fin_take_inv (st : state) : dev_inv [] (f_bdev st) ->
  dev_inv (pending (dequeue DEQUEUE_RING_LIMIT (fin_queue (finalizer (f_bdev st))))) (f_bdev (set_fin_queue (dequeue DEQUEUE_RING_LIMIT) st)).
Proof.
  intros I. destruct (dequeue_spec DEQUEUE_RING_LIMIT (fin_queue (finalizer (f_bdev st)))) as [Hp Hq].
  apply (inv_fin_queue []); [done|]. rewrite Hp, Hq, app_nil_r, Permutation_app_comm, <- gets_app. by rewrite take_drop.
Qed.

(** ** Steps *)

(** The device with the tasks that the I/O engine and the finalizer have taken from their
    rings and not yet handled. *)
Record config : Type := mkConfig { cf_engine : list (DeviceTask C); cf_todo : list (DeviceTask C); cf_st : state }.

(** The state [x] after [m] ran on the device. *)
Definition ran {A} (m : M exn Bdev A) (st : state) (a : A) (x : state) : Prop := f_on_bdev m st = (Ret a, x).

Inductive dev_step : config -> config -> Prop :=
| ds_task f pv t b e d st x : f = read \/ f = write \/ f = remove -> t_routing t = true ->
    startable (spBdevCtx (f_bdev st)) t -> ran (f pv t) st b x -> dev_step (mkConfig e d st) (mkConfig e d x)
| ds_take d st : isRunning (f_bdev st) <> 0 -> canQueue (f_bdev st) <> 0 ->
    let q := dequeue (Z.to_nat (canQueue (f_bdev st))) (ioEngine (f_bdev st)) in
    dev_step (mkConfig [] d st) (mkConfig (pending q) d (mkFinState (set_ioEngine q (f_bdev st)) (f_rtree st)))
| ds_start pv t e d st x : ran (engine_one pv t) st tt x -> dev_step (mkConfig (t :: e) d st) (mkConfig e d x)
| ds_done i ok junk d st x : ran (io_done i ok junk) st tt x -> dev_step (mkConfig [] d st) (mkConfig [] d x)
| ds_retry i d st x : ran (io_retry i) st tt x -> dev_step (mkConfig [] d st) (mkConfig [] d x)
| ds_fin_take e st :
    dev_step (mkConfig e [] st)
      (mkConfig e (pending (dequeue DEQUEUE_RING_LIMIT (fin_queue (finalizer (f_bdev st))))) (set_fin_queue (dequeue DEQUEUE_RING_LIMIT) st))
| ds_fin callers t e d st x : fin_one callers t st = (Ret tt, x) -> dev_step (mkConfig e (t :: d) st) (mkConfig e d x)
| ds_counter n e d st : dev_step (mkConfig e d st) (mkConfig e d (mkFinState (set_ioBufsInUse n (f_bdev st)) (f_rtree st))).

Definition cfg_inv (c : config) : Prop :=
  dev_inv (cf_todo c) (f_bdev (cf_st c)) /\ Forall (startable (spBdevCtx (f_bdev (cf_st c)))) (cf_engine c).

Lemma ran_bdev {A} (m : M exn Bdev A) st a x : ran m st a x -> m (f_bdev st) = (Ret a, f_bdev x).
Proof. unfold ran, f_on_bdev, czoom. destruct (m (f_bdev st)) as [r y]. by intros [= -> <-]. Qed.

Lemma dev_step_inv c c' : cfg_inv c -> dev_step c c' -> no_read_waits (f_bdev (cf_st c')) -> cfg_inv c'.
Proof.
  intros [I HF] Hs Hnw.
  assert (HFa : forall ts cx, Forall (startable cx) ts -> Forall (startable (spBdevCtx (f_bdev (cf_st c')))) ts) by done.
  destruct Hs as [f pv t b e d st x Hf Hrt Hst E|d st _ _ q|pv t e d st x E|i ok junk d st x E|i d st x E|e st|callers t e d st x E|n e d st];
    cbn [cf_todo cf_engine cf_st] in *; try apply ran_bdev in E; split; cbn [cf_todo cf_engine cf_st]; eauto.
  - assert (Hr : exists d, f = routed d) by (destruct Hf as [-> | [-> | ->]]; by eexists). destruct Hr as [d0 ->].
    unfold routed in E. rewrite Hrt in E.
    destruct (enqueue_spec t (ioEngine (f_bdev st))) as [(_ & Ee & El)|[_ Ee]]; rewrite Ee in *;
      injection E as _ <-; (apply inv_set_engine; [done|]); [|apply I].
    cbn [snd] in *. rewrite El. apply Forall_app. split; [apply I|by apply Forall_singleton].
  - by apply engine_take_inv.
  - eapply HFa. by apply (engine_take_inv d (Z.to_nat (canQueue (f_bdev st))) (f_bdev st)).
  - apply Forall_cons in HF as [Ht _]. by eapply engine_one_inv.
  - apply Forall_cons in HF as [_ HF]. by eapply HFa.
  - by eapply io_done_inv.
  - by eapply io_retry_inv.
  - by apply fin_take_inv.
  - by eapply fin_one_inv.
  - by apply (inv_same d (f_bdev st)); try apply I.
Qed.

(** A device that was just opened. *)
Record fresh_device s : Prop := {
  fd_ready : ready s; fd_ctx : ctx_ok (spBdevCtx s); fd_mgr : mgr_inv (ioPoolMgr s);
  fd_idle : inflight s = [] /\ io_wait s = [] /\ ring_list (rqstRing (fin_queue (finalizer s))) = [] /\
    ring_list (rqstRing (ioEngine s)) = [] }.

Lemma fresh_device_inv s : fresh_device s -> dev_inv [] s.
Proof.
  intros [Hr Hc I (Ei & Ew & Ef & Ee)].
  assert (Hh : holders [] s = []) by (unfold holders; by rewrite Ei, Ew, Ef).
  split; rewrite ?Hh, ?Ei, ?Ew, ?Ee; try done. split; simpl; constructor.
Qed.

(** Steps of the device during which no read is refused for want of buffers. *)
Definition step_ok (c c' : config) : Prop := dev_step c c' /\ no_read_waits (f_bdev (cf_st c')).

Lemma step_ok_inv c c' : cfg_inv c -> rtc step_ok c c' -> cfg_inv c'.
Proof. intros I Hr. induction Hr as [|c c1 c2 [Hs Hn] _ IH]; [done|]. apply IH. by eapply dev_step_inv. Qed.

(** C11. I/Os do not share buffers.  In every state that a newly opened device can reach
    as long as it is not quiesced, with tasks enqueued, taken and started, completions in any
    order and with any result, refused writes that wait and are tried again, and tasks of
    the finalizer interleaved task by task, and whatever the unsynchronised counter
    [ioBufsInUse] holds: the I/Os at SPDK, the waiting writes, and the finished reads whose
    callbacks are still to be called each have a buffer of their own, of their direction,
    which the pools count as in use.  The claim goes up to the first read that SPDK refuses
    for want of buffers: such a read is tried again as a write ([read_retried_as_write]). *)
Theorem bdev_buffers_apart st c :
  fresh_device (f_bdev st) -> rtc step_ok (mkConfig [] [] st) c ->
  let s := f_bdev (cf_st c) in
  owned (ioPoolMgr s)
    (((fun y => (io_dir y, t_buff (io_task y))) <$> inflight s) ++ ((fun t => (Write, t_buff t)) <$> io_wait s) ++
     ((fun t => (Read, t_buff t)) <$> gets (ring_list (rqstRing (fin_queue (finalizer s))) ++ cf_todo c))).
Proof.
  intros Hf Hrun s.
  assert (I : cfg_inv c).
  { eapply step_ok_inv; [|exact Hrun]. split; [by apply fresh_device_inv|constructor]. }
  pose proof (di_owned _ _ (proj1 I)) as Ho. unfold holders in Ho. by rewrite gets_app, fmap_app.
Qed.

(** ** Quiescence *)

(** The state of the finalizer, of which only [IOQuiesce] changes anything. *)
Definition fin_state s : FpState := _state (finalizer s).

Lemma keeps_stateMachine : keeps fin_state (stateMachine (C := C) (R := R) (PO := PO) (H := H) (N := N)).
Proof. intros s. unfold stateMachine. destruct (_IoState s); try done. by destruct (_ =? 0). Qed.
Lemma keeps_submit k o n t : keeps (A := Z) fin_state (submit (PO := PO) (H := H) (R := R) (N := N) k o n t).
Proof. done. Qed.
Lemma keeps_wait t : keeps fin_state (queue_io_wait (PO := PO) (H := H) (R := R) (N := N) t).
Proof. done. Qed.
Lemma keeps_deinit {A} : keeps fin_state (deinit (A := A) (C := C) (R := R) (PO := PO) (H := H) (N := N)).
Proof. done. Qed.
Lemma keeps_lba pv t : keeps fin_state (bdev_lba (PO := PO) (H := H) (R := R) (N := N) pv t).
Proof. intros s. unfold bdev_lba. by destruct (task_addr pv t). Qed.
Lemma keeps_fin_enqueue t : keeps fin_state (finalizer_enqueue (PO := PO) (H := H) (R := R) (N := N) t).
Proof. done. Qed.
Lemma keeps_fill pv b v n : keeps fin_state (fill_buf (C := C) (PO := PO) (H := H) (R := R) (N := N) pv b v n).
Proof. intros s. unfold fill_buf. destruct v as [a|]; [|done]. by destruct (read_mem _ a n). Qed.
#[local] Hint Resolve keeps_stateMachine keeps_submit keeps_wait (@keeps_deinit) keeps_lba keeps_fin_enqueue keeps_fill : core.

#[local] Ltac keep_fin := repeat first [keeps_step | solve [auto]].

Lemma keeps_failed k rc t : keeps fin_state (submit_failed (PO := PO) (H := H) (R := R) (N := N) k rc t).
Proof. unfold submit_failed, on_stats, reschedule, put_task_buf, on_bufs. keep_fin. Qed.
#[local] Hint Resolve keeps_failed : core.

Lemma keeps_doRead pv t : keeps fin_state (doRead (PO := PO) (H := H) (R := R) (N := N) pv t).
Proof. unfold doRead, put_task_buf, on_bufs, buf_dec, buf_inc, on_stats. keep_fin. Qed.
Lemma keeps_doWrite pv t : keeps fin_state (doWrite (PO := PO) (H := H) (R := R) (N := N) pv t).
Proof. unfold doWrite, put_task_buf, on_bufs, buf_dec, buf_inc, on_stats, getFreeLba. keep_fin. Qed.
Lemma keeps_doRemove pv t : keeps fin_state (doRemove (PO := PO) (H := H) (R := R) (N := N) pv t).
Proof. unfold doRemove, pool_put, putFreeLba. keep_fin. Qed.

Lemma keeps_routed d pv t : (forall pv t, keeps fin_state (d pv t)) ->
  keeps fin_state (routed (PO := PO) (H := H) (R := R) (N := N) d pv t).
Proof. intros Hd. unfold routed. by destruct (t_routing t). Qed.
#[local] Hint Resolve keeps_doRead keeps_doWrite keeps_doRemove keeps_routed : core.

Lemma keeps_device f pv t : f = read \/ f = write \/ f = remove ->
  keeps fin_state (f pv t : M exn Bdev bool).
Proof. intros [-> | [-> | ->]]; apply keeps_routed; auto. Qed.

Lemma keeps_engine pv : keeps fin_state (ioEngineIoFunction (C := C) (PO := PO) (H := H) (R := R) (N := N) pv).
Proof.
  assert (H1' : forall t, keeps fin_state (engine_one (C := C) (PO := PO) (H := H) (R := R) (N := N) pv t)).
  { intros t. unfold engine_one, rqstClb, pool_put.
    repeat first [keeps_step | solve [auto] | apply keeps_device; tauto]. }
  assert (H2' : forall ts, keeps fin_state (engine_loop (C := C) (PO := PO) (H := H) (R := R) (N := N) pv ts)).
  { induction ts as [|t ts IH]; cbn [engine_loop]; keep_fin. }
  unfold ioEngineIoFunction. keeps_step; [done|]. destruct (_ =? 0); [done|]. destruct (_ =? 0); [done|].
  keeps_step; [done|]. intros s. unfold engine_process. destruct (0 <? _); [|done].
  apply (keeps_bind fin_state); [done|]. intros ?. done.
Qed.

Lemma keeps_done i ok junk : keeps fin_state (io_done (C := C) (PO := PO) (H := H) (R := R) (N := N) i ok junk).
Proof.
  intros s. unfold io_done. destruct (inflight s !! i) as [x|]; [|done].
  match goal with |- fin_state (snd (?m ?y)) = _ => assert (Hk : keeps fin_state m) end.
  { apply keeps_bind.
    - intros y. unfold transfer. destruct (t_buff (io_task x)) as [b|]; [|done].
      destruct (io_bufs (ioPoolMgr y) !! b) as [[[m|] ? ? ?]|]; try done. destruct (_ <? _)%nat; [done|].
      by destruct (io_dir x).
    - intros _. unfold writeComplete, readComplete, on_bufs, buf_dec, on_stats. keep_fin. }
  by rewrite Hk.
Qed.

Lemma keeps_retry i : keeps fin_state (io_retry (C := C) (PO := PO) (H := H) (R := R) (N := N) i).
Proof.
  intros s. unfold io_retry. destruct (io_wait s !! i) as [t|]; [|done].
  assert (Hk : keeps fin_state (writeQueueIoWait (PO := PO) (H := H) (R := R) (N := N) t)).
  { unfold writeQueueIoWait, on_stats. keep_fin. }
  by rewrite Hk.
Qed.

(** The same for the finalizer's own code. *)
Definition st_fin (st : state) : FpState := fin_state (f_bdev st).

Lemma keeps_on_bdev {A} (m : M exn Bdev A) : keeps fin_state m -> keeps st_fin (f_on_bdev (T := T) m).
Proof. intros Hm st. apply Hm. Qed.

Lemma keeps_fin callers : keeps st_fin (fin_round callers).
Proof.
  assert (Hone : forall t, keeps st_fin (fin_one callers t)).
  { intros t. unfold fin_one, fin_processGet, fin_processUpdate, fin_processRemove, task_clb, f_on_tree, pool_put, buf_dec,
      on_bufs, putIoReadBuf.
    repeat first [keeps_step | apply keeps_on_bdev | done].
    intros st. unfold buf_value. destruct (t_buff t) as [b|]; [|done].
    destruct (_ !! b) as [y|]; [|done]. destruct (spdkDmaBuf y); [|done]. by destruct (_ <=? _). }
  assert (Hloop : forall ts, keeps st_fin (fin_loop callers ts)).
  { induction ts as [|t ts IH]; cbn [fin_loop]; repeat first [keeps_step | solve [auto]]. }
  unfold fin_round. keeps_step; [done|]. intros st. unfold fin_process. destruct (0 <? _); [|done].
  apply (keeps_bind st_fin); [done|]. intros ?. done.
Qed.

(** Whatever can happen to the device, with any outcome. *)
Inductive any_step : state -> state -> Prop :=
| as_task f pv t st r x : f = read \/ f = write \/ f = remove -> f_on_bdev (f pv t) st = (r, x) -> any_step st x
| as_engine pv st r x : f_on_bdev (ioEngineIoFunction pv) st = (r, x) -> any_step st x
| as_done i ok junk st r x : f_on_bdev (io_done i ok junk) st = (r, x) -> any_step st x
| as_retry i st r x : f_on_bdev (io_retry i) st = (r, x) -> any_step st x
| as_fin callers st r x : fin_round callers st = (r, x) -> any_step st x
| as_quiesce st r x : f_on_bdev IOQuiesce st = (r, x) -> any_step st x
| as_abort st r x : f_on_bdev IOAbort st = (r, x) -> any_step st x.

Lemma keeps_run {A} (m : M exn state A) st r x : keeps st_fin m -> m st = (r, x) -> st_fin x = st_fin st.
Proof. intros Hk E. specialize (Hk st). by rewrite E in Hk. Qed.

Lemma any_step_fin st x : any_step st x -> st_fin st <> FP_QUIESCENT -> st_fin x <> FP_QUIESCENT.
Proof.
  intros Hs Hq. destruct Hs as [f pv t st r x Hf E|pv st r x E|i ok junk st r x E|i st r x E|callers st r x E|st r x E|st r x E].
  1-5,7: apply keeps_run in E; [by rewrite E|]; first [apply keeps_fin | apply keeps_on_bdev;
    first [by apply keeps_device | apply keeps_engine | apply keeps_done | apply keeps_retry | done]].
  injection E as _ <-. done.
Qed.

Lemma any_run_fin st x : rtc any_step st x -> st_fin st <> FP_QUIESCENT -> isIOQuiescent (f_bdev x) = false.
Proof.
  intros Hr Hq. assert (Hx : st_fin x <> FP_QUIESCENT).
  { induction Hr as [|st y x Hs _ IH]; [done|]. apply IH. by eapply any_step_fin. }
  unfold isIOQuiescent, isQuiescent. rewrite andb_false_iff. right. by apply bool_decide_eq_false_2.
Qed.

(** [KVStore::QuiesceOffload]: [polls] are the states of the device that the condition of
    the loop sees; [None] when the loop goes on after them, otherwise whether it ended
    with an abort. *)
Fixpoint QuiesceOffload_loop (forceAbort : bool) (num_tries : Z) (polls : list Bdev) : option bool :=
  match polls with
  | [] => None
  | s :: polls =>
      if isIOQuiescent s then Some false
      else if forceAbort && (20 <? num_tries) then Some true
      else QuiesceOffload_loop forceAbort (if forceAbort then num_tries + 1 else num_tries) polls
  end.

Lemma quiesce_goes_on polls : forall n, Forall (fun s => isIOQuiescent s = false) polls ->
  QuiesceOffload_loop false n polls = None.
Proof.
  induction polls as [|s polls IH]; intros n HF; [done|]. apply Forall_cons in HF as [Hs HF].
  cbn [QuiesceOffload_loop]. rewrite Hs. by apply IH.
Qed.

Lemma quiesce_aborts polls : forall n, 0 <= n <= 21 -> Forall (fun s => isIOQuiescent s = false) polls ->
  QuiesceOffload_loop true n polls = if (Z.to_nat (21 - n) <? length polls)%nat then Some true else None.
Proof.
  induction polls as [|s polls IH]; intros n Hn HF; [done|]. apply Forall_cons in HF as [Hs HF].
  cbn [QuiesceOffload_loop length]. rewrite Hs. cbn [andb]. destruct (Z.ltb_spec 20 n).
  - by replace (Z.to_nat (21 - n)) with 0%nat by lia.
  - rewrite IH by (done || lia). replace (Z.to_nat (21 - n)) with (S (Z.to_nat (21 - (n + 1)))) by lia. done.
Qed.

(** C40. Quiescing the offload never succeeds.  A finalizer that was told to quiesce
    never reaches [FP_QUIESCENT]: [process] assigns that state only where it already
    is.  So, whatever the device does, [QuiesceOffload(false)] waits for ever, and
    [QuiesceOffload(true)] gives up by aborting at the 22nd poll and returns false. *)
Theorem quiesce_never_succeeds st polls x :
  st_fin st <> FP_QUIESCENT ->
  Forall (fun s => exists y, rtc any_step st y /\ f_bdev y = s) polls -> rtc any_step st x ->
  QuiesceOffload_loop false 0 polls = None /\
  QuiesceOffload_loop true 0 polls = (if (21 <? length polls)%nat then Some true else None) /\
  isIOQuiescent (f_bdev x) = false.
Proof.
  intros Hq HF Hx.
  assert (HF' : Forall (fun s => isIOQuiescent s = false) polls).
  { eapply Forall_impl; [exact HF|]. intros s (y & Hy & <-). by eapply any_run_fin. }
  split_and!; [by apply quiesce_goes_on|by apply (quiesce_aborts polls 0)|by eapply any_run_fin].
Qed.
End System.

(** ** Concrete runs *)

Section Runs.
#[local] Existing Instances simple_pool simple_tx simple_heap simple_buf_pools simple_nvme.
#[local] Instance sys_tree : RTreeEngine (@ARTree (gset positive)) := artree_engine 1 1 1.
#[local] Instance sys_rings (A : Type) : SpdkRing A (list_ring A) := simple_ring A.

Definition run_routed : DeviceTask nat := new_task 4096 8 8 DNull true run_upd OUPDATE run_key.

(** The update task is at the I/O engine. *)
Definition run_queued : FinState (@ARTree (gset positive)) nat (list_ring (DeviceTask nat)) (gset buf_ptr) unit Z :=
  mkFinState (set_ioEngine (snd (enqueue run_routed (run_queue nat))) (run_device nat)) run_put.

Lemma run_fresh : fresh_device (f_bdev run_state).
Proof. destruct run_calm. by split. Qed.

Lemma run_queued_step e d : dev_step (mkConfig e d run_state) (mkConfig e d run_queued).
Proof.
  apply (ds_task write run_pv run_routed true); [by right; left|done| |reflexivity].
  split; [done|]. intros _. cbn. lia.
Qed.

(** The I/O engine has taken the task, and has started it. *)
Definition run_taken : FinState (@ARTree (gset positive)) nat (list_ring (DeviceTask nat)) (gset buf_ptr) unit Z :=
  mkFinState (set_ioEngine (dequeue (Z.to_nat (canQueue (f_bdev run_queued))) (ioEngine (f_bdev run_queued))) (f_bdev run_queued)) run_put.
Definition run_started := snd (f_on_bdev (engine_one run_pv run_routed) run_taken).

(** One write is with SPDK, and it has a buffer for itself. *)
Lemma bdev_buffers_apart_witness :
  let s := f_bdev run_started in
  length (inflight s) = 1%nat /\
  owned (ioPoolMgr s)
    (((fun y => (io_dir y, t_buff (io_task y))) <$> inflight s) ++ ((fun t => (Write, t_buff t)) <$> io_wait s) ++
     ((fun t => (Read, t_buff t)) <$> gets (ring_list (rqstRing (fin_queue (finalizer s))) ++ []))).
Proof.
  intros s. split; [vm_compute; reflexivity|].
  apply (bdev_buffers_apart run_state (mkConfig [] [] run_started)); [exact run_fresh|].
  apply (rtc_l _ _ (mkConfig [] [] run_queued)); [split; [apply run_queued_step|constructor]|].
  apply (rtc_l _ _ (mkConfig [run_routed] [] run_taken)).
  { split; [|constructor]. pose proof (ds_take [] run_queued) as Ht. cbv zeta in Ht.
    replace (pending (dequeue (Z.to_nat (canQueue (f_bdev run_queued))) (ioEngine (f_bdev run_queued)))) with [run_routed] in Ht
      by (vm_compute; reflexivity). apply Ht; vm_compute; discriminate. }
  apply rtc_once. split; [apply (ds_start run_pv run_routed [] [] run_taken); reflexivity|]. vm_compute. constructor.
Defined.

Lemma quiesce_never_succeeds_witness :
  QuiesceOffload_loop true 0 (replicate 22 (f_bdev run_state)) = Some true /\
  isIOQuiescent (f_bdev run_queued) = false.
Proof.
  destruct (quiesce_never_succeeds run_state (replicate 22 (f_bdev run_state)) run_queued) as (_ & E & E').
  - discriminate.
  - apply Forall_replicate. exists run_state. split; [apply rtc_refl|reflexivity].
  - apply rtc_once. by apply (as_task write run_pv run_routed _ (Ret true)); [right; left|].
  - split; [exact E|exact E'].
Defined.
End Runs.
