(* ===== verification/BdevErrors.v ===== *)
(** * Error paths of the device

    What the I/O thread and the finalizer do when SPDK refuses an I/O, when there is
    no LBA for a value, when the device is quiescent, and when a key is removed
    twice, as the code does it. *)

From S2P Require Import Prelude Status Pmem FreeList LbaAlloc ARTree RTreeEngine Poller Rqst SpdkIoBuf SpdkDevice SpdkBdev FinalizePoller OffloadPath.

Section Errors.
Context {T C R PO H N : Type} `{RTreeEngine T} `{SpdkRing (DeviceTask C) R} `{IoBufPools PO} `{DmaAlloc H}
  `{SpdkNvme N} `{PmemTx} `{PmemHeap FreeLba}.

#[local] Abbreviation Bdev := (SpdkBdev C R PO H N).
#[local] Abbreviation state := (FinState T C R PO H N).
Implicit Types (t : DeviceTask C) (s : Bdev).

(** ** A read that has to wait *)

(** [doRead] when SPDK is short of buffers: the task waits. *)
Lemma doRead_waits pv t s n l nv1 nv2 :
  (forall n a h, fst (dma_zmalloc n a h) = true) ->
  ready s -> ctx_ok (spBdevCtx s) -> mgr_inv (ioPoolMgr s) ->
  valueSize (t_rqst t) = n -> 0 < n <= 2 ^ 31 -> t_size t = getOptimalSize (spBdevCtx s) n ->
  bdev_lba pv t = (fun s => (Ret l, s)) ->
  let bl := blocks_of (spBdevCtx s) n in
  nv_submit Read (u64 (bl * l)) bl (nvme s) = (- ENOMEM, nv1) -> nv_queue_wait nv1 = (0, nv2) ->
  exists b x m g st,
    doRead pv t s = (Ret true, set_stats st
        (set_spdk nv2 (inflight s) (io_wait s ++ [set_buff (Some b) (set_blockSize bl t)])
          (set_ioPoolMgr g (set_ioBufsInUse (u32 (ioBufsInUse s + 1)) s)))) /\
    io_bufs g !! b = Some x /\ spdkDmaBuf x = Some m /\ Z.of_nat (length m) = getAlignedSize (spBdevCtx s) n.
Proof.
  intros Hdma Hr Hc I Hvs Hn Hsz Hl bl Hs Hw.
  destruct (blocks_of_spec _ _ Hc Hn) as (Hcov & Eopt & Hdiv & _).
  destruct (buffer_for Hdma Read (t_size t) (buf_align (spBdevCtx s)) (ioPoolMgr s) I) as
    (b & g & x & m & E & HO & Hx & Hm & Hlm); [rewrite Hsz, <- Eopt; lia|by rewrite Hsz, <- Eopt|].
  exists b, x, m, g. eexists. split; [|split_and!; [done|done|by rewrite Hlm, Hsz, Eopt]].
  unfold doRead. rewrite (cbind_ret _ _ _ _ _ (stateMachine_ready s Hr)). unfold cbind at 1, cget. rewrite Hvs.
  unfold cbind at 1, buf_inc at 1, cmod. unfold cbind at 1, on_bufs at 1, czoom, getIoReadBuf.
  cbn [ioPoolMgr set_ioBufsInUse t_size set_blockSize]. rewrite E. cbn [fst snd].
  change (bdev_lba pv (set_buff _ _)) with (bdev_lba (C := C) (R := R) (PO := PO) (H := H) (N := N) pv t). rewrite Hl.
  unfold cbind at 1, cbind at 1, submit. cbn [nvme set_ioPoolMgr set_ioBufsInUse t_blockSize set_buff set_blockSize].
  fold (blocks_of (spBdevCtx s) n). fold bl. rewrite Hs. unfold cbind at 1, on_stats, cmod. cbn [fst snd].
  change (- ENOMEM =? 0) with false. cbn [negb]. unfold submit_failed, on_stats, cbind at 1, cmod.
  change (- ENOMEM =? - ENOMEM) with true. cbv iota.
  unfold cbind at 1, reschedule, queue_io_wait. cbn [nvme set_stats set_spdk]. rewrite Hw. reflexivity.
Qed.

(** [writeComplete] on a buffer that exists returns, whatever pool the buffer is from. *)
Lemma writeComplete_any ok t s b x : ready s -> t_buff t = Some b -> io_bufs (ioPoolMgr s) !! b = Some x ->
  exists s', writeComplete ok t s = (Ret tt, s') /\ disk s' = disk s.
Proof.
  intros Hr Hb Hx. unfold writeComplete. rewrite Hb.
  assert (exists g, putIoWriteBuf b (ioPoolMgr s) = (Ret tt, g)) as [g Eg].
  { unfold putIoWriteBuf, putIoBuf, cbind, get_buf. rewrite Hx. destruct (negb _); by eexists. }
  unfold cbind at 1, on_bufs, czoom. rewrite Eg. cbn [fst snd].
  unfold cbind at 1, buf_dec, cmod. unfold cbind at 1, on_stats, cmod. unfold cbind at 1. unfold cbind at 1.
  rewrite stateMachine_ready by exact Hr. by eexists.
Qed.

(** A read that SPDK could not take at once is carried out as a write.  When SPDK
    answers [-ENOMEM] to a read, the task is queued with the callback for writes:
    when SPDK calls back, the task's uninitialised buffer is written to the blocks 0
    and following, which belong to other values. *)
Theorem read_retried_as_write pv t s n l nv1 nv2 nv3 junk :
  (forall n a h, fst (dma_zmalloc n a h) = true) ->
  ready s -> ctx_ok (spBdevCtx s) -> mgr_inv (ioPoolMgr s) ->
  valueSize (t_rqst t) = n -> 0 < n <= 2 ^ 31 -> t_size t = getOptimalSize (spBdevCtx s) n ->
  bdev_lba pv t = (fun s => (Ret l, s)) -> t_freeLba t = 0 ->
  let bl := blocks_of (spBdevCtx s) n in
  nv_submit Read (u64 (bl * l)) bl (nvme s) = (- ENOMEM, nv1) -> nv_queue_wait nv1 = (0, nv2) ->
  nv_submit Write 0 bl nv2 = (0, nv3) ->
  exists s1 s2 s3 m, doRead pv t s = (Ret true, s1) /\ io_retry (length (io_wait s)) s1 = (Ret tt, s2) /\
    io_done (length (inflight s)) true junk s2 = (Ret tt, s3) /\
    Z.of_nat (length m) = getAlignedSize (spBdevCtx s) n /\
    disk s3 = write_blocks (Z.to_nat (blk_size (spBdevCtx s))) m 0 (Z.to_nat bl) (disk s).
Proof.
  intros Hdma Hr Hc I Hvs Hn Hsz Hl Hfl bl Hs Hw Hs3.
  destruct (doRead_waits pv t s n l nv1 nv2 Hdma Hr Hc I Hvs Hn Hsz Hl Hs Hw) as (b & x & m & g & st & E1 & Hx & Hm & Hlm).
  fold bl in E1. set (t' := set_buff (Some b) (set_blockSize bl t)) in *.
  assert (E2 : forall y : Bdev, io_wait y = io_wait s ++ [t'] -> nvme y = nv2 -> exists st',
    io_retry (length (io_wait s)) y = (Ret tt, set_stats st' (set_spdk nv3 (inflight y ++ [mkIo Write 0 bl t']) (io_wait s) y))).
  { intros y Hy Hny. unfold io_retry. rewrite Hy, lookup_snoc, delete_snoc.
    unfold writeQueueIoWait, cbind at 1, submit. cbn [nvme set_spdk]. rewrite Hny.
    change (t_blockSize t') with bl. change (t_freeLba t') with (t_freeLba t). rewrite Hfl, Z.mul_0_r.
    change (u64 0) with 0. rewrite Hs3. by eexists. }
  match type of E1 with _ = (_, ?y) => destruct (E2 y eq_refl eq_refl) as (st' & E2'); set (s1 := y) in * end.
  match type of E2' with _ = (_, ?y) => set (s2 := y) in * end.
  assert (Hi : inflight s2 = inflight s ++ [mkIo Write 0 bl t']) by reflexivity.
  set (s2' := set_disk (write_blocks (Z.to_nat (blk_size (spBdevCtx s))) m 0 (Z.to_nat bl) (disk s))
                (set_spdk (nvme s2) (inflight s) (io_wait s2) s2)).
  destruct (writeComplete_any true t' s2' b x Hr eq_refl Hx) as (s3 & E3 & Hd3).
  exists s1, s2, s3, m. split_and!; [exact E1|exact E2'| |done|exact Hd3].
  unfold io_done. rewrite Hi, lookup_snoc, delete_snoc. unfold cbind at 1, transfer. cbn [io_task].
  change (t_buff t') with (Some b). cbv iota. change (ioPoolMgr (set_spdk _ _ _ s2)) with g. rewrite Hx.
  destruct x as [dm bz bi sc]. simpl in Hm. subst dm. cbn [io_num io_dir io_off].
  change (spBdevCtx (set_spdk _ _ _ s2)) with (spBdevCtx s).
  pose proof (transfer_fits _ _ _ Hc Hn Hlm) as Hf. fold bl in Hf. rewrite Hf, Nat.ltb_irrefl. exact E3.
Qed.

(** ** A value without an LBA *)

Lemma getLba_large n la : 32768 <= n < 2 ^ 32 -> getLba n la = (Ret (-1), la).
Proof.
  intros Hn. unfold getLba, bucketNum. assert (8 <= n / 4096 < 2 ^ 32).
  { split; [apply Z.div_le_lower_bound; lia|]. apply Z.div_lt_upper_bound; lia. }
  rewrite uwrap_id by lia. change (Z.of_nat _maxBuckets) with 8. by destruct (Z.leb_spec 8 (n / 4096)); [|lia].
Qed.

(** A value of 32 kB or more cannot be moved to disk: there are no LBAs for its
    size, the answer -1 is taken as an LBA, SPDK refuses the blocks it stands for, and
    the I/O thread enters [deinit], where it waits for its own loop to end. *)
Theorem large_value_stops_device pv t s n a v :
  (forall n a h, fst (dma_zmalloc n a h) = true) ->
  ready s -> ctx_ok (spBdevCtx s) -> mgr_inv (ioPoolMgr s) -> nv_blk_num (nvme s) < 2 ^ 64 ->
  valueSize (t_rqst t) = n -> 32768 <= n <= 2 ^ 31 -> value (t_rqst t) = Some a -> read_mem (pv_values pv) a n = Ret v ->
  loc (t_rqst t) = PMEM -> t_blockSize t = blocks_of (spBdevCtx s) n ->
  exists s', doWrite pv t s = (Crash, s') /\ isRunning s' = 4 /\ disk s' = disk s /\ inflight s' = inflight s.
Proof.
  intros Hdma Hr Hc I Hnum Hvs Hn Ha Hv Hloc Hbl.
  destruct (blocks_of_spec _ n Hc ltac:(lia)) as (Hcov & _ & Hdiv & _ & Hb & _).
  destruct (buffer_for Hdma Write (getAlignedSize (spBdevCtx s) n) (buf_align (spBdevCtx s)) (ioPoolMgr s) I) as
    (b & g & x & m & E & HO & Hx & Hm & Hlm); [lia|done|].
  unfold doWrite. rewrite (cbind_ret _ _ _ _ _ (stateMachine_ready s Hr)). unfold cbind at 1, cget.
  rewrite Hloc, bool_decide_eq_true_2 by done. rewrite Hvs.
  unfold cbind at 1, cbind at 1, getFreeLba at 1, czoom. rewrite getLba_large by lia. cbn [fst snd]. unfold cret at 1.
  unfold cbind at 1, buf_inc at 1, cmod. unfold cbind at 1, on_bufs at 1, czoom, getIoWriteBuf.
  cbn [ioPoolMgr set_ioBufsInUse set_lbaAllocator]. rewrite E. cbn [fst snd t_rqst set_buff set_freeLba]. rewrite Ha.
  erewrite cbind_ret by (apply fill_buf_run; [exact Hv|exact Hx|exact Hm|lia]).
  unfold cbind at 1, submit. cbn [nvme set_ioPoolMgr set_ioBufsInUse set_lbaAllocator t_blockSize t_freeLba set_buff set_freeLba].
  rewrite Hbl. set (bl := blocks_of (spBdevCtx s) n) in *.
  assert (Eo : u64 (bl * u64 (-1)) = 2 ^ 64 - bl).
  { change (u64 (-1)) with (2 ^ 64 - 1). unfold uwrap. replace (bl * (2 ^ 64 - 1)) with (2 ^ 64 - bl + (bl - 1) * 2 ^ 64) by ring.
    rewrite Z.mod_add by lia. apply Z.mod_small. lia. }
  rewrite Eo. assert (Hrc : fst (nv_submit Write (2 ^ 64 - bl) bl (nvme s)) = - EINVAL) by (apply nv_out_of_range; lia).
  destruct (nv_submit Write (2 ^ 64 - bl) bl (nvme s)) as [rc nv]. cbn [fst snd] in *. subst rc.
  unfold cbind at 1, on_stats, cmod. change (- EINVAL =? 0) with false. cbn [negb].
  unfold submit_failed, on_stats, cbind at 1, cmod, put_task_buf. cbn [Z.eqb negb t_buff set_buff].
  change (- EINVAL =? - ENOMEM) with false. cbv iota.
  unfold cbind at 1, on_bufs, czoom, putIoBuf, cbind at 1, get_buf. cbn [ioPoolMgr set_stats set_spdk set_ioPoolMgr].
  unfold set_dma at 1. cbn [io_bufs]. rewrite lookup_insert_eq.
  destruct (negb _); cbn [fst snd]; unfold deinit; eexists; split_and!; reflexivity.
Qed.

(** ** A device that is quiescent *)

(** A read that a quiescent device refuses stops its queue: the number of buffers
    in use goes from 0 to [2^32 - 1], so the device finds no room for further tasks,
    and the I/O thread takes nothing more from its queue. *)
Theorem refused_read_stops_queue pv pv' t s :
  _IoState s = BDEV_IO_QUIESCENT -> ioBufsInUse s = 0 -> maxIoBufs s < 2 ^ 32 - 1 -> t_buff t = None -> t_op t = OGET ->
  exists s', engine_one pv t s = (Ret tt, s') /\ b_returned s' = b_returned s ++ [(OGET, t_rqst t)] /\
    canQueue s' = 0 /\ ioEngineIoFunction pv' s' = (Ret tt, s').
Proof.
  intros Hq Hc Hm Hb Ho. unfold engine_one. change (t_op (set_routing false t)) with (t_op t). rewrite Ho.
  unfold read, routed. cbn [t_routing set_routing]. unfold doRead, cbind at 1, cbind at 1, stateMachine. rewrite Hq.
  unfold put_task_buf. cbn [t_buff set_routing]. rewrite Hb.
  unfold cbind at 1, cret at 1, cbind at 1, buf_dec, cmod, cret at 1. rewrite Hc. change (u32 (0 - 1)) with (2 ^ 32 - 1).
  set (s1 := set_ioBufsInUse _ s).
  assert (Hcq : forall cl rt, canQueue (set_logs cl rt s1) = 0).
  { intros cl rt. unfold canQueue. cbn [ioBufsInUse maxIoBufs set_logs s1 set_ioBufsInUse].
    destruct (Z.ltb_spec (2 ^ 32 - 1) (maxIoBufs s)); [lia|done]. }
  assert (Hio : forall cl rt, ioEngineIoFunction pv' (set_logs cl rt s1) = (Ret tt, set_logs cl rt s1)).
  { intros cl rt. unfold ioEngineIoFunction, cbind at 1, cget. rewrite Hcq. by destruct (isRunning _ =? 0). }
  unfold cbind, rqstClb, pool_put. cbn [t_rqst set_routing]. destruct (clb (t_rqst t)) as [c|].
  - eexists. split_and!; [reflexivity|reflexivity|apply Hcq|apply Hio].
  - eexists. split_and!; [reflexivity|reflexivity|apply Hcq|apply Hio].
Qed.

(** ** Removing twice *)

(** Removal, once and twice.  The finalizer of a removal takes the key of a value on
    disk out of the tree, calls back with [OK] and returns the request.  When the same
    key is removed a second time before that, which no part of the store prevents, the
    second removal throws out of the thread, which ends the process. *)
Theorem remove_twice_throws callers t1 t2 (st : state) k a n c :
  _state (finalizer (f_bdev st)) = FP_READY -> rt_ok (f_rtree st) -> rt_key (T := T) k ->
  rt_view (f_rtree st) k = Some (a, n, DISK) ->
  t_op t1 = OREMOVE -> t_result t1 = true -> t_clb t1 = Some c -> read_key callers (t_rqst t1) = Ret k ->
  t_op t2 = OREMOVE -> t_result t2 = true -> read_key callers (t_rqst t2) = Ret k ->
  exists st1, fin_loop callers [t1] st = (Ret tt, st1) /\ rt_view (f_rtree st1) k = None /\
    (forall k', rt_key k' -> k' <> k -> rt_view (f_rtree st1) k' = rt_view (f_rtree st) k') /\
    b_calls (f_bdev st1) = b_calls (f_bdev st) ++ [mkCall c OK (TaskKey (t_key t1)) (t_keySize t1) None] /\
    b_returned (f_bdev st1) = b_returned (f_bdev st) ++ [(OREMOVE, t_rqst t1)] /\
    fin_loop callers [t1; t2] st = (Throw (OperationFailedException KEY_NOT_FOUND), st1).
Proof.
  intros Hf Hok Hk Hv Ho1 Hr1 Hc1 Hk1 Ho2 Hr2 Hk2.
  destruct (rt_Remove_disk _ _ _ _ Hok Hk Hv) as (tr & Er & _ & _ & Hnone & Eagain & Hother).
  set (st1 := mkFinState (set_logs (b_calls (f_bdev st) ++ [mkCall c OK (TaskKey (t_key t1)) (t_keySize t1) None])
    (b_returned (f_bdev st) ++ [(OREMOVE, t_rqst t1)]) (f_bdev st)) tr).
  assert (E1 : fin_one callers t1 st = (Ret tt, st1)).
  { rewrite fin_one_ready by done. rewrite Ho1. unfold fin_processRemove. rewrite Hr1.
    unfold cbind at 1, cbind at 1. rewrite Hk1. unfold cbind at 1, f_on_tree, czoom. rewrite Er. cbn [fst snd].
    unfold task_clb. rewrite Hc1. reflexivity. }
  assert (E2 : fin_one callers t2 st1 = (Throw (OperationFailedException KEY_NOT_FOUND), st1)).
  { rewrite fin_one_ready by done. rewrite Ho2. unfold fin_processRemove. rewrite Hr2.
    unfold cbind at 1, cbind at 1. rewrite Hk2. unfold cbind at 1, f_on_tree, czoom. cbn [f_rtree st1]. rewrite Eagain.
    reflexivity. }
  exists st1. split_and!; try done; cbn [fin_loop]; rewrite (cbind_ret _ _ _ _ _ E1); [done|].
  by rewrite (cbind_throw _ _ _ _ _ E2).
Qed.
End Errors.

(** ** Concrete runs *)

(** A device that is always short of buffers for reads. *)
#[refine] Definition busy_nvme : SpdkNvme Z :=
  {| nv_submit := fun k o n s =>
       (if s <? o + n then - EINVAL else match k with Read => - ENOMEM | Write => 0 end, s);
     nv_queue_wait := fun s => (0, s); nv_blk_num := fun s => s |}.
Proof.
  - done.
  - done.
  - intros k o n s Hs. simpl. by destruct (Z.ltb_spec s (o + n)); [|lia].
Defined.

Section Busy.
#[local] Existing Instances simple_tx simple_heap simple_buf_pools busy_nvme.
#[local] Instance busy_rings (A : Type) : SpdkRing A (list_ring A) := simple_ring A.

Definition run_read : DeviceTask nat := new_task 4096 0 8 (DBuf (mkDeviceAddr 5 (pci_addr run_ctx))) false run_get OGET run_key.

Lemma run_ready : ready (run_device nat) /\ ctx_ok run_ctx /\ mgr_inv (ioPoolMgr (run_device nat)).
Proof. destruct run_calm. split_and!; done. Qed.

Lemma read_retried_as_write_witness :
  exists s1 s2 s3 m, doRead run_pv run_read (run_device nat) = (Ret true, s1) /\
    io_retry 0 s1 = (Ret tt, s2) /\ io_done 0 true [] s2 = (Ret tt, s3) /\
    disk s3 = write_blocks 512 m 0 8 (fun _ => replicate 512 0).
Proof.
  destruct run_ready as (Hr & Hc & Hi).
  destruct (read_retried_as_write run_pv run_read (run_device nat) 100 5 100000 100000 100000 [])
    as (s1 & s2 & s3 & m & E1 & E2 & E3 & _ & E4);
    [done|exact Hr|exact Hc|exact Hi|reflexivity|lia|reflexivity|reflexivity|reflexivity|reflexivity|reflexivity|reflexivity|].
  exists s1, s2, s3, m. split_and!; [exact E1|exact E2|exact E3|exact E4].
Defined.
End Busy.

Section Runs.
#[local] Existing Instances simple_pool simple_tx simple_heap simple_buf_pools simple_nvme.
#[local] Instance err_tree : RTreeEngine (@ARTree (gset positive)) := artree_engine 1 1 1.
#[local] Instance err_rings (A : Type) : SpdkRing A (list_ring A) := simple_ring A.

Definition run_big_value : list Z := replicate (Z.to_nat 40000) 7.
Definition run_big_rqst : Rqst OffloadOperation nat :=
  mkRqst 1 OUPDATE (BufferOf 1) (key1 ++ replicate 24 0) 8 (Some 11%positive) 40000 (Some 42%nat) PMEM.
Definition run_big_task : DeviceTask nat := new_task 40960 80 8 DNull true run_big_rqst OUPDATE run_key.

Lemma large_value_stops_device_witness :
  exists s', doWrite (mkPmemView {[11%positive := run_big_value]} ∅) run_big_task (run_device nat) = (Crash, s') /\
    isRunning s' = 4.
Proof.
  destruct run_ready as (Hr & Hc & Hi).
  destruct (large_value_stops_device (mkPmemView {[11%positive := run_big_value]} ∅) run_big_task (run_device nat)
    40000 11 (take (Z.to_nat 40000) run_big_value)) as (s' & E & Er & _);
    [done|exact Hr|exact Hc|exact Hi|reflexivity|reflexivity|lia|reflexivity| |reflexivity|reflexivity|].
  - unfold read_mem. cbn [pv_values]. rewrite lookup_singleton_eq. unfold run_big_value at 1. rewrite length_replicate.
    rewrite Z2Nat.id by lia. reflexivity.
  - exists s'. split; [exact E|exact Er].
Defined.

Lemma refused_read_stops_queue_witness :
  exists s', engine_one run_pv run_read (set_IoState BDEV_IO_QUIESCENT (run_device nat)) = (Ret tt, s') /\ canQueue s' = 0.
Proof.
  destruct (refused_read_stops_queue run_pv run_pv run_read (set_IoState BDEV_IO_QUIESCENT (run_device nat)))
    as (s' & E & _ & Ec & _); [reflexivity|reflexivity|reflexivity|reflexivity|reflexivity|].
  exists s'. split; [exact E|exact Ec].
Defined.

Definition run_rem (id : positive) : Rqst OffloadOperation nat :=
  mkRqst id OREMOVE (BufferOf id) (key1 ++ replicate 24 0) 8 None 0 (Some 44%nat) EMPTY.
Definition run_rem_task (id : positive) : DeviceTask nat :=
  set_result true (new_task 0 0 8 (DPmem 11) false (run_rem id) OREMOVE no_key).

Lemma remove_twice_throws_witness :
  exists st1, fin_loop ∅ [run_rem_task 1; run_rem_task 2] run_full =
    (Throw (OperationFailedException KEY_NOT_FOUND), st1).
Proof.
  destruct (remove_twice_throws ∅ (run_rem_task 1) (run_rem_task 2) run_full key1 (Some 11%positive) 100 44%nat)
    as (st1 & _ & _ & _ & _ & _ & E);
    [reflexivity| |exact wf_key1|exact run_moved_view|reflexivity|reflexivity|reflexivity|reflexivity|reflexivity|reflexivity|reflexivity|].
  - apply (reachable_inv 1 1 1). eapply reachable_step; [exact run_put_reachable|].
    eapply st_update; [exact wf_key1|exact run_moved_ok|exact I].
  - exists st1. exact E.
Defined.
End Runs.
