(* ===== verification/OffloadPoller.v ===== *)
(** * The thread that moves values to and from disk ([lib/offload/OffloadPoller])

    The poller turns requests into device tasks.  Each request ends in one of two
    ways: the device takes its task, or its callback is called and the request goes
    back to the pool of its kind. *)

From S2P Require Import Prelude Status Pmem ARTree RTreeEngine Poller Rqst PmemPoller SpdkIoBuf SpdkDevice SpdkBdev.

Section OffloadPoller.
Context {T C R D : Type} `{RTreeEngine T} `{SpdkRing (Rqst OffloadOperation C) R} `{SpdkDevice C D}.

#[local] Abbreviation OffloadRqst := (Rqst OffloadOperation C).

(** [returned] records which request went back to which pool, the pool named by
    its operation. *)
Record OffloadPoller : Type := mkOffloadPoller {
  o_queue : @Poller OffloadRqst R; o_rtree : T; o_callers : memory; o_pmem : memory;
  o_dev : D; o_calls : list (call C); returned : list (OffloadOperation * OffloadRqst) }.

#[local] Abbreviation OM A := (M exn OffloadPoller A).

Definition o_rqstClb (r : OffloadRqst) (status : Z) : OM unit := fun s =>
  (Ret tt,
   match clb r with
   | Some c => mkOffloadPoller (o_queue s) (o_rtree s) (o_callers s) (o_pmem s) (o_dev s)
                 (o_calls s ++ [mkCall c status (key r) (keySize r) None]) (returned s)
   | None => s
   end).

(** [OffloadRqst::getPool.put(r)] and the same of the other pools. *)
Definition put_back (pool : OffloadOperation) (r : OffloadRqst) : OM unit := fun s =>
  (Ret tt, mkOffloadPoller (o_queue s) (o_rtree s) (o_callers s) (o_pmem s) (o_dev s) (o_calls s)
             (returned s ++ [(pool, r)])).

Definition on_dev (f : pmem_view -> DeviceTask C -> M exn D bool) (t : DeviceTask C) : OM bool :=
  let! s := cget in
  czoom o_dev (fun d s => mkOffloadPoller (o_queue s) (o_rtree s) (o_callers s) (o_pmem s) d (o_calls s) (returned s)) (f (mkPmemView (o_pmem s) (rt_iovs (o_rtree s))) t).

Definition o_tree {A} (m : M exn T A) : OM A :=
  czoom o_rtree (fun t s => mkOffloadPoller (o_queue s) t (o_callers s) (o_pmem s) (o_dev s) (o_calls s) (returned s)) m.

Definition o_key (r : OffloadRqst) : OM (list Z) := fun s => (read_key (o_callers s) r, s).
Definition lift_outcome {A} (o : outcome exn A) : OM A := fun s => (o, s).

Definition _getValCtx (r : OffloadRqst) : OM (Z * ValCtx) :=
  ccatch (let! k := o_key r in
          let! (a, n, l) := o_tree (rt_Get k) in
          cret (OK, mkValCtx l n a))
         (fun _ => cret (UNKNOWN_ERROR, ValCtx_init)).

(** A callback and the way back to the pool. *)
Definition refuse (pool : OffloadOperation) (r : OffloadRqst) (status : Z) : OM unit :=
  o_rqstClb r status ;;; put_back pool r.

Definition dev_addr (a : option positive) : dev_ptr := match a with Some a => DPmem a | None => DNull end.

(** [rqst->valueSize = size]. *)
Definition set_valueSize (n : Z) (r : OffloadRqst) : OffloadRqst :=
  mkRqst (rq_id r) (op r) (key r) (keyBuffer r) (keySize r) (value r) n (clb r) (loc r).

Definition o_processGet (r : OffloadRqst) : OM unit :=
  let! (rc, valCtx) := _getValCtx r in
  if negb (rc =? OK) then refuse OGET r rc
  else if bool_decide (vc_location valCtx = PMEM) then refuse OGET r KEY_NOT_FOUND
  else
    let r := set_valueSize (vc_size valCtx) r in
    let! s := cget in
    let! k := o_key r in
    let! k := lift_outcome (task_key k) in
    let t := new_task (getOptimalSize (dev_ctx (o_dev s)) (vc_size valCtx)) 0 (keySize r)
               (dev_addr (vc_val valCtx)) false r OGET k in
    let! ok := on_dev dev_read t in
    if ok then cret tt else refuse OGET r UNKNOWN_ERROR.

(** The task of an update; [bdevAddr] and [updatePmemIOV] depend on the location. *)
Definition update_task (s : OffloadPoller) (r : OffloadRqst) (d : dev_ptr) (iov : bool) (k : list Z) : DeviceTask C :=
  let ctx := dev_ctx (o_dev s) in
  new_task (getOptimalSize ctx (valueSize r)) (getSizeInBlk ctx (getAlignedSize ctx (valueSize r)))
    (keySize r) d iov r OUPDATE k.

(** [memcpy(bdevAddr, rqst->value, sizeof(DeviceAddr))]: the value of a request for a
    key on disk is the address of its [DeviceAddr]. *)
Definition read_iov (a : option positive) : OM DeviceAddr := fun s =>
  match a with
  | Some a => match rt_iovs (o_rtree s) !! a with Some d => (Ret d, s) | None => (Undef, s) end
  | None => (Undef, s)
  end.

Definition write_or_refuse (t : DeviceTask C) (r : OffloadRqst) : OM unit :=
  let! ok := on_dev dev_write t in
  if ok then cret tt else refuse OUPDATE r UNKNOWN_ERROR.

Definition o_processUpdate (r : OffloadRqst) : OM unit :=
  let! s := cget in
  match loc r with
  | PMEM =>
      let! k := o_key r in
      let! k := lift_outcome (task_key k) in
      write_or_refuse (update_task s r DNull true k) r
  | DISK =>
      if valueSize r =? 0 then refuse OUPDATE r OK
      else
        let! k := o_key r in
        let! k := lift_outcome (task_key k) in
        let! d := read_iov (value r) in
        write_or_refuse (update_task s r (DBuf d) false k) r
  | EMPTY => refuse OUPDATE r KEY_NOT_FOUND
  end.

(** On the two error paths of a removal a value that the request carries is deleted,
    which nothing here depends on; [lba] is read and not used. *)
Definition o_processRemove (r : OffloadRqst) : OM unit :=
  let! (rc, valCtx) := _getValCtx r in
  if negb (rc =? OK) then refuse OREMOVE r rc
  else if bool_decide (vc_location valCtx = PMEM) then refuse OREMOVE r KEY_NOT_FOUND
  else
    let! s := cget in
    let! _lba := read_iov (vc_val valCtx) in
    let t := new_task (getOptimalSize (dev_ctx (o_dev s)) (valueSize r)) 0 (keySize r)
               (dev_addr (vc_val valCtx)) false r OREMOVE no_key in
    let! ok := on_dev dev_remove t in
    if ok then cret tt else refuse OREMOVE r UNKNOWN_ERROR.

Definition o_process_one (r : OffloadRqst) : OM unit :=
  match op r with
  | OGET => o_processGet r
  | OUPDATE => o_processUpdate r
  | OREMOVE => o_processRemove r
  | ONONE => cret tt
  end.

Fixpoint o_process_loop (rs : list OffloadRqst) : OM unit :=
  match rs with
  | [] => cret tt
  | r :: rs => o_process_one r ;;; o_process_loop rs
  end.

Definition o_process : OM unit := fun s =>
  if 0 <? requestCount (o_queue s) then
    (o_process_loop (pending (o_queue s)) ;;;
     fun s => (Ret tt, mkOffloadPoller (mkPoller (rqstRing (o_queue s)) (requests (o_queue s)) 0) (o_rtree s)
                         (o_callers s) (o_pmem s) (o_dev s) (o_calls s) (returned s))) s
  else (Ret tt, s).
End OffloadPoller.

(** ** Every request has one fate *)

Section Accounting.
Context {T C R D : Type} `{RTreeEngine T} `{SpdkRing (Rqst OffloadOperation C) R} `{SpdkDevice C D}.

#[local] Abbreviation state := (@OffloadPoller T C R D).
#[local] Abbreviation rqst := (Rqst OffloadOperation C).

(** The requests that the device has, and those that went back to a pool. *)
Definition at_device (s : state) : list positive := (fun t => rq_id (t_rqst t)) <$> dev_tasks (o_dev s).
Definition in_pools (s : state) : list positive := (fun p => rq_id (snd p)) <$> returned s.

(** The tree and the device are good, and the device addresses that the tree refers
    to are there and known to the device. *)
Record op_inv (s : state) : Prop := {
  oi_tree : rt_ok (o_rtree s);
  oi_dev : dev_ok (o_dev s);
  oi_iovs : forall k a n, rt_key (T := T) k -> rt_view (o_rtree s) k = Some (a, n, DISK) ->
    exists a' d, a = Some a' /\ rt_iovs (o_rtree s) !! a' = Some d /\ dev_knows (C := C) (D := D) d }.

(** A request that the poller can serve; an update of a value on disk refers to a
    device address. *)
Definition o_servable (s : state) (r : rqst) : Prop :=
  op r <> ONONE /\ is_Some (clb r) /\
  (exists k, read_key (o_callers s) r = Ret k /\ rt_key (T := T) k /\ Z.of_nat (length k) <= task_key_size) /\
  (op r = OUPDATE -> loc r = DISK -> valueSize r <> 0 ->
    exists a d, value r = Some a /\ rt_iovs (o_rtree s) !! a = Some d).

(** Everything but the device, the callbacks and the pools is kept. *)
Definition kept (s s' : state) : Prop :=
  o_queue s' = o_queue s /\ o_rtree s' = o_rtree s /\ o_callers s' = o_callers s /\ o_pmem s' = o_pmem s /\
  (dev_ok (o_dev s) -> dev_ok (o_dev s')).

(** The two fates of a request. *)
Inductive fate (s s' : state) (r : rqst) : Prop :=
| fate_device t : rq_id (t_rqst t) = rq_id r -> t_op t = op r ->
    dev_tasks (o_dev s') ≡ₚ t :: dev_tasks (o_dev s) ->
    o_calls s' = o_calls s -> returned s' = returned s -> fate s s' r
| fate_refused r' c status : rq_id r' = rq_id r -> clb r = Some c ->
    dev_tasks (o_dev s') ≡ₚ dev_tasks (o_dev s) ->
    o_calls s' = o_calls s ++ [mkCall c status (key r) (keySize r) None] ->
    returned s' = returned s ++ [(op r, r')] -> fate s s' r.

Definition o_served (s s' : state) (r : rqst) : Prop := kept s s' /\ fate s s' r.

Lemma refuse_served s r r' status : is_Some (clb r) ->
  rq_id r' = rq_id r -> op r' = op r -> key r' = key r -> keySize r' = keySize r -> clb r' = clb r ->
  exists s', refuse (op r) r' status s = (Ret tt, s') /\ o_served s s' r.
Proof.
  intros [c Hc] Hi Ho Hk Hks Hcl. unfold refuse, cbind, o_rqstClb, put_back. rewrite Hcl, Hc.
  eexists. split; [done|]. split; [done|]. eapply (fate_refused s _ r r' c status); try done.
  simpl. by rewrite Hk, Hks.
Qed.

Lemma device_served s r r' f t : op_inv s ->
  f = dev_write \/ (f = dev_read \/ f = dev_remove) /\
    (exists a, task_addr (mkPmemView (o_pmem s) (rt_iovs (o_rtree s))) t = Some a /\ dev_knows (C := C) (D := D) a) ->
  is_Some (clb r) ->
  rq_id r' = rq_id r -> op r' = op r -> key r' = key r -> keySize r' = keySize r -> clb r' = clb r ->
  t_rqst t = r' -> t_op t = op r -> t_routing t = true ->
  exists s', (let! ok := on_dev f t in if ok then cret tt else refuse (op r) r' UNKNOWN_ERROR) s = (Ret tt, s') /\
    o_served s s' r.
Proof.
  intros I Hf Hc Hi Ho Hk Hks Hcl Ht Hto Hr.
  destruct (dev_accepts f (mkPmemView (o_pmem s) (rt_iovs (o_rtree s))) t (o_dev s) (oi_dev _ I) Hr Hf) as (b & d' & Ef & Hok & _ & HA).
  unfold cbind at 1, on_dev, cbind at 1, cget, czoom. rewrite Ef. destruct b; cbn [fst snd] in *.
  - eexists. split; [done|]. split; [done|]. apply (fate_device s _ r t); try done. by rewrite Ht.
  - set (s1 := mkOffloadPoller _ _ _ _ _ _ _).
    destruct (refuse_served s1 r r' UNKNOWN_ERROR Hc Hi Ho Hk Hks Hcl) as (s' & E & K & F).
    exists s'. split; [done|]. split; [destruct K as (? & ? & ? & ? & Hd); split_and!; try done; intros _; by apply Hd|].
    destruct F as [t' ? ? Ed Ec Er|r'' c st ? ? Ed Ec Er]; cbn [o_dev o_calls returned s1] in *.
    + eapply (fate_device s s' r t'); try done. by rewrite Ed, HA.
    + eapply (fate_refused s s' r r'' c st); try done. by rewrite Ed, HA.
Qed.

Lemma offload_eta (s : state) :
  mkOffloadPoller (o_queue s) (o_rtree s) (o_callers s) (o_pmem s) (o_dev s) (o_calls s) (returned s) = s.
Proof. by destruct s. Qed.

Lemma getValCtx_spec s r k : op_inv s -> read_key (o_callers s) r = Ret k -> rt_key (T := T) k ->
  _getValCtx r s =
  (match rt_view (o_rtree s) k with
   | Some (a, n, l) => Ret (OK, mkValCtx l n a)
   | None => Ret (UNKNOWN_ERROR, ValCtx_init)
   end, s).
Proof.
  intros I Hk Hrk. unfold _getValCtx, ccatch, cbind at 1, o_key. rewrite Hk.
  unfold cbind, o_tree, czoom. rewrite (rt_Get_view _ k (oi_tree _ I) Hrk).
  destruct (rt_view (o_rtree s) k) as [[[a n] l]|]; cbn [fst snd]; by rewrite offload_eta.
Qed.

Lemma task_key_ok k : Z.of_nat (length k) <= task_key_size -> task_key k = Ret (k ++ drop (length k) no_key).
Proof. intros Hl. unfold task_key. destruct (Z.ltb_spec task_key_size (Z.of_nat (length k))); [lia|done]. Qed.

Lemma view_disk (t : T) k a n l : rt_view t k = Some (a, n, l) -> l <> PMEM -> l = DISK.
Proof. intros Ev Hl. pose proof (rt_view_location _ _ _ _ _ Ev). by destruct l. Qed.

Lemma o_get_served s r : op_inv s -> o_servable s r -> op r = OGET ->
  exists s', o_processGet r s = (Ret tt, s') /\ o_served s s' r.
Proof.
  intros I (_ & Hc & (k & Hk & Hrk & Hl) & _) Hop. unfold o_processGet, cbind at 1.
  rewrite (getValCtx_spec s r k I Hk Hrk).
  destruct (rt_view (o_rtree s) k) as [[[a n] l]|] eqn:Ev; cbn [negb].
  - change (OK =? OK) with true. cbn [negb vc_location vc_size vc_val].
    case_bool_decide as Hloc; [rewrite <- Hop; by apply refuse_served|].
    unfold cbind at 1, cget, cbind at 1, o_key. change (read_key (o_callers s) (set_valueSize n r)) with (read_key (o_callers s) r).
    rewrite Hk. unfold cbind at 1, lift_outcome. rewrite task_key_ok by done. rewrite <- Hop.
    pose proof (view_disk _ _ _ _ _ Ev Hloc) as ->. destruct (oi_iovs _ I k a n Hrk Ev) as (a' & d & -> & Hd & Hkn).
    apply device_served; try done. right. split; [by left|]. by exists d.
  - rewrite <- Hop. by apply refuse_served.
Qed.

Lemma o_update_served s r : op_inv s -> o_servable s r -> op r = OUPDATE ->
  exists s', o_processUpdate r s = (Ret tt, s') /\ o_served s s' r.
Proof.
  intros I (_ & Hc & (k & Hk & Hrk & Hl) & Hd) Hop. unfold o_processUpdate, cbind at 1, cget.
  destruct (loc r) eqn:El.
  - rewrite <- Hop. by apply refuse_served.
  - unfold cbind at 1, o_key. rewrite Hk. unfold cbind at 1, lift_outcome. rewrite task_key_ok by done.
    unfold write_or_refuse. rewrite <- Hop. apply device_served; try done; by left.
  - destruct (Z.eqb_spec (valueSize r) 0) as [|Hv]; [rewrite <- Hop; by apply refuse_served|].
    unfold cbind at 1, o_key. rewrite Hk. unfold cbind at 1, lift_outcome. rewrite task_key_ok by done.
    destruct (Hd Hop eq_refl Hv) as (a & d & Ea & Ed). unfold cbind at 1, read_iov. rewrite Ea, Ed.
    unfold write_or_refuse. rewrite <- Hop. apply device_served; try done; by left.
Qed.

Lemma o_remove_served s r : op_inv s -> o_servable s r -> op r = OREMOVE ->
  exists s', o_processRemove r s = (Ret tt, s') /\ o_served s s' r.
Proof.
  intros I (_ & Hc & (k & Hk & Hrk & Hl) & _) Hop. unfold o_processRemove, cbind at 1.
  rewrite (getValCtx_spec s r k I Hk Hrk).
  destruct (rt_view (o_rtree s) k) as [[[a n] l]|] eqn:Ev; cbn [negb].
  - change (OK =? OK) with true. cbn [negb vc_location vc_size vc_val].
    case_bool_decide as Hloc; [rewrite <- Hop; by apply refuse_served|].
    pose proof (view_disk _ _ _ _ _ Ev Hloc) as ->. destruct (oi_iovs _ I k a n Hrk Ev) as (a' & d & -> & Hd & Hkn).
    unfold cbind at 1, cget, cbind at 1, read_iov. rewrite Hd. rewrite <- Hop.
    apply device_served; try done. right. split; [by right|]. by exists d.
  - rewrite <- Hop. by apply refuse_served.
Qed.

Lemma o_one_served s r : op_inv s -> o_servable s r ->
  exists s', o_process_one r s = (Ret tt, s') /\ o_served s s' r.
Proof.
  intros I Hr. pose proof Hr as (Hop & _). unfold o_process_one. destruct (op r) eqn:E; [done| | |].
  - by apply o_get_served.
  - by apply o_update_served.
  - by apply o_remove_served.
Qed.

(** What a run adds: every request has reached the device or its pool, a request
    goes back to the pool of its kind, and a callback is called for each request
    that went back. *)
Definition accounted (s s' : state) (rs : list rqst) : Prop :=
  (at_device s' ++ in_pools s' ≡ₚ at_device s ++ in_pools s ++ (rq_id <$> rs)) /\
  exists back, returned s' = returned s ++ back /\
    (forall p r', (p, r') ∈ back -> exists r, r ∈ rs /\ rq_id r = rq_id r' /\ op r = p) /\
    length (o_calls s') = (length (o_calls s) + length back)%nat.

Lemma fate_accounted s s' r : fate s s' r -> accounted s s' [r].
Proof.
  unfold accounted, at_device, in_pools. intros [t Hi _ Ed Ec Er|r' c st Hi Hc Ed Ec Er].
  - rewrite Ed, Er, Ec. cbn [fmap list_fmap]. rewrite Hi. split.
    + change ([rq_id r] ++ ((fun t => rq_id (t_rqst t)) <$> dev_tasks (o_dev s)) ++ ((fun p => rq_id p.2) <$> returned s) ≡ₚ
        ((fun t => rq_id (t_rqst t)) <$> dev_tasks (o_dev s)) ++ ((fun p => rq_id p.2) <$> returned s) ++ [rq_id r]).
      by rewrite Permutation_app_comm, <- app_assoc.
    + exists []. rewrite app_nil_r. split_and!; [done| |simpl; lia]. intros p r' Hin. by apply elem_of_nil in Hin.
  - rewrite Ed, Er, Ec, fmap_app. simpl. rewrite Hi. split; [done|].
    exists [(op r, r')]. split_and!; [done| |by rewrite length_app].
    intros p r'' Hin. apply list_elem_of_singleton in Hin. injection Hin as -> ->. exists r. split; [by left|done].
Qed.

Lemma accounted_trans s s1 s2 r rs : accounted s s1 [r] -> accounted s1 s2 rs -> accounted s s2 (r :: rs).
Proof.
  intros (E1 & b1 & Er1 & Hb1 & Hl1) (E2 & b2 & Er2 & Hb2 & Hl2). split.
  - rewrite E2, app_assoc, E1, <- !app_assoc. done.
  - exists (b1 ++ b2). rewrite Er2, Er1, <- app_assoc, length_app. split_and!; [done| |lia].
    intros p r' [Hin|Hin]%elem_of_app.
    + destruct (Hb1 p r' Hin) as (r0 & Hr0 & ? & ?). apply list_elem_of_singleton in Hr0 as ->. exists r. split; [by left|done].
    + destruct (Hb2 p r' Hin) as (r0 & Hr0 & ? & ?). exists r0. split; [by right|done].
Qed.

Lemma kept_inv s s' : kept s s' -> op_inv s -> op_inv s'.
Proof. intros (_ & Et & _ & _ & Hd) [I1 I2 I3]. split; rewrite ?Et; auto. Qed.

Lemma kept_servable s s' r : kept s s' -> o_servable s r -> o_servable s' r.
Proof. intros (_ & Et & Ec & _ & _). unfold o_servable. by rewrite Ec, Et. Qed.

Lemma o_loop_served rs : forall s, op_inv s -> Forall (o_servable s) rs ->
  exists s', o_process_loop rs s = (Ret tt, s') /\ kept s s' /\ accounted s s' rs.
Proof.
  induction rs as [|r rs IH]; intros s I HF.
  - exists s. split_and!; try done. unfold accounted. split; [simpl; by rewrite app_nil_r|].
    exists []. rewrite app_nil_r. split_and!; [done| |simpl; lia]. intros p r' Hin. by apply elem_of_nil in Hin.
  - apply Forall_cons in HF as [Hr HF]. destruct (o_one_served s r I Hr) as (s1 & E1 & K1 & F1).
    destruct (IH s1 (kept_inv _ _ K1 I)) as (s' & E & K & A).
    { eapply Forall_impl; [exact HF|]. intros r'. by apply kept_servable. }
    exists s'. split_and!.
    + cbn [o_process_loop]. by rewrite (cbind_ret _ _ _ _ _ E1).
    + destruct K1 as (? & ? & ? & ? & ?), K as (? & ? & ? & ? & ?). split_and!; try congruence. auto.
    + eapply accounted_trans; [by apply fate_accounted|done].
Qed.

(** Every request has one fate.  When the offload poller runs on a batch of
    requests whose keys and device addresses can be read, its run ends, the batch is
    empty afterwards, each request is at the device or back in the pool of its
    operation, and not both or twice, and exactly the requests that went back had a
    callback. *)
Theorem offload_process_accounts (s : state) :
  op_inv s -> 0 <= requestCount (o_queue s) -> Forall (o_servable s) (pending (o_queue s)) ->
  exists s' : state, o_process s = (Ret tt, s') /\ op_inv s' /\ pending (o_queue s') = [] /\
    accounted s s' (pending (o_queue s)).
Proof.
  intros I Hn HF. unfold o_process. destruct (Z.ltb_spec 0 (requestCount (o_queue s))).
  - destruct (o_loop_served _ s I HF) as (s' & E & K & A).
    rewrite (cbind_ret _ _ _ _ _ E). eexists. split; [done|]. split_and!; [|done|exact A].
    destruct (kept_inv _ _ K I). by split.
  - destruct (o_loop_served [] s I) as (s' & [= <-] & _ & A); [by constructor|].
    exists s. replace (pending (o_queue s)) with (@nil rqst); [by split_and!|].
    unfold pending. by replace (Z.to_nat (requestCount (o_queue s))) with 0%nat by lia.
Qed.
End Accounting.

(** ** A concrete run over [ARTree] and [SpdkBdev] *)

Section Runs.
#[local] Existing Instance simple_pool.
#[local] Abbreviation Tree := (@ARTree (gset positive)).
#[local] Abbreviation Ring A := (list_ring A).
#[local] Instance run_tree : RTreeEngine Tree := artree_engine 1 1 1.
#[local] Instance run_rings (A : Type) : SpdkRing A (Ring A) := simple_ring A.
#[local] Existing Instances simple_tx simple_heap simple_buf_pools simple_nvme.
#[local] Abbreviation Dev := (SpdkBdev nat (Ring (DeviceTask nat)) (gset buf_ptr) unit Z).
#[local] Instance run_bdev : SpdkDevice nat Dev := bdev_device.

Definition run_update_rqst : Rqst OffloadOperation nat :=
  mkRqst 1 OUPDATE (BufferOf 1) (key1 ++ replicate 24 0) 8 (Some 11%positive) 100 (Some 42%nat) PMEM.

Definition run_offload : @OffloadPoller Tree nat (Ring (Rqst OffloadOperation nat)) Dev :=
  mkOffloadPoller (mkPoller (mkListRing [] 4) [run_update_rqst] 1) run_new ∅ ∅ (run_device nat) [] [].

Lemma run_new_views k : view run_new k = None.
Proof.
  assert (E : wrappers (objs run_new) = ∅) by (vm_compute; reflexivity).
  unfold view, wrapper_of. rewrite E. destruct (leaf_of _ k); [|reflexivity]. by rewrite lookup_empty.
Qed.

Lemma run_offload_inv : op_inv run_offload.
Proof.
  split; [exact (reachable_inv 1 1 1 run_new run_new_reachable)|done|].
  intros k a n _ Hv. change (view run_new k = Some (a, n, DISK)) in Hv. rewrite run_new_views in Hv. discriminate Hv.
Qed.

Lemma offload_process_accounts_witness :
  exists s', o_process run_offload = (Ret tt, s') /\ accounted run_offload s' [run_update_rqst].
Proof.
  destruct (offload_process_accounts run_offload run_offload_inv) as (s' & E & _ & _ & A).
  - simpl. lia.
  - apply Forall_singleton. split_and!; [discriminate|by eexists| |discriminate].
    exists key1. split_and!; [reflexivity|exact wf_key1|unfold task_key_size; simpl; lia].
  - exists s'. split; [exact E|exact A].
Defined.
End Runs.
