(* ===== verification/KVStore.v ===== *)
(** * The store ([lib/core/KVStore])

    The synchronous operations of the store: the calls with plain pointers, and the
    calls with [Key] and [Value] that go to another node when the key is not local.
    The tree is any [RTreeEngine]; the offload poller and the DHT client are
    interfaces, because the store only waits for their answers. *)

From S2P Require Import Prelude Status ARTree RTreeEngine Poller Rqst PrimaryKey DhtCore.

(** ** What the store waits for *)

(** What the callback of an offload request was called with. *)
Record reply : Type := mkReply { re_status : Z; re_value : list Z }.

(** The answer to a request handed to the offload poller: the queue was full, the
    callback was not called within a second, or it was called. *)
Inductive offload_answer : Type := QueueFull | NoReply | Replied (r : reply).

(** [class Key] and [class Value].  The bytes of a value are in persistent memory,
    in a block made by [new], or in the message buffer of the DHT client; those of a
    key are kept with it, and [k_block] is the block they are in. *)
Inductive vptr : Type := VPmem (a : positive) | VHeap (a : positive) | VMsg.
Record Key : Type := mkKey { k_data : list Z; k_block : option positive; k_kvs : bool }.
Record Value : Type := mkValue { v_data : option vptr; v_size : Z; v_kvs : bool }.

(** The offload poller with its pools of requests, and the DHT client; any
    behaviour is allowed. *)
Class StoreServices (O N : Type) : Type := {
  off_get : list Z -> O -> offload_answer * O;
  off_update : list Z -> option positive -> Z -> LOCATIONS -> O -> offload_answer * O;
  off_remove : list Z -> O -> offload_answer * O;
  cl_put : Key -> Value -> M exn N unit;
  cl_get : Key -> M exn N Value;
  cl_remove : Key -> M exn N unit;
  cl_alloc : Key -> Z -> M exn N Value;
  cl_allocKey : Z -> M exn N Key;
  cl_free_value : Key -> Value -> M exn N unit;
  cl_free_key : Key -> M exn N unit }.

(** The loop of [init] over the key's fields. *)
Definition DEFAULT_KEY_SIZE : Z := 16.
Definition init_keySize (k : KeyDescriptor) : Z :=
  let n := fold_left (fun n i => u64 (n + fsize (field i k))) (seq 0 (nfields k)) 0 in
  if n =? 0 then DEFAULT_KEY_SIZE else n.

(** [new char[n]]: a new block.  A block whose bytes are not set holds zeros here;
    nothing that is proved depends on them. *)
Definition heap_new (bytes : list Z) (h : memory) : positive * memory :=
  let a := fresh (dom h) in (a, <[a := bytes]> h).

Section KVStore.
Context {T R O N : Type} `{RTreeEngine T} `{SpdkRing (list Z) R} `{StoreServices O N}.

(** [class KVStore]: the tree and the values in persistent memory, the blocks made
    by [new], the primary keys, the services, and the settings. *)
Record KVStore : Type := mkKVStore {
  _spRtree : T; pmem : memory; heap : memory; _spPKey : @PrimaryKeyEngine R;
  _spOffloadPoller : O; _spDhtClient : N; _spDht : DhtCore; offloadEnabled : bool; _keySize : Z }.

#[local] Abbreviation KM A := (M exn KVStore A).

Definition on_tree {A} (m : M exn T A) : KM A :=
  czoom _spRtree (fun t s => mkKVStore t (pmem s) (heap s) (_spPKey s) (_spOffloadPoller s) (_spDhtClient s)
                               (_spDht s) (offloadEnabled s) (_keySize s)) m.
Definition on_pkey {A} (m : M exn (@PrimaryKeyEngine R) A) : KM A :=
  czoom _spPKey (fun p s => mkKVStore (_spRtree s) (pmem s) (heap s) p (_spOffloadPoller s) (_spDhtClient s)
                              (_spDht s) (offloadEnabled s) (_keySize s)) m.
Definition on_client {A} (m : M exn N A) : KM A :=
  czoom _spDhtClient (fun n s => mkKVStore (_spRtree s) (pmem s) (heap s) (_spPKey s) (_spOffloadPoller s) n
                                   (_spDht s) (offloadEnabled s) (_keySize s)) m.
Definition on_offload (f : O -> offload_answer * O) : KM offload_answer := fun s =>
  let r := f (_spOffloadPoller s) in
  (Ret (fst r), mkKVStore (_spRtree s) (pmem s) (heap s) (_spPKey s) (snd r) (_spDhtClient s)
                  (_spDht s) (offloadEnabled s) (_keySize s)).
Definition set_heap (h : memory) : KM unit := fun s =>
  (Ret tt, mkKVStore (_spRtree s) (pmem s) h (_spPKey s) (_spOffloadPoller s) (_spDhtClient s)
             (_spDht s) (offloadEnabled s) (_keySize s)).

(** [new char[n]] filled with [bytes], and [delete[] p]. *)
Definition new_block (bytes : list Z) : KM positive :=
  let! s := cget in
  let (a, h) := heap_new bytes (heap s) in
  set_heap h ;;; cret a.
Definition delete_block (p : option positive) : KM unit :=
  match p with
  | None => cret tt
  | Some a =>
      let! s := cget in
      match heap s !! a with Some _ => set_heap (delete a (heap s)) | None => cundef end
  end.

(** ** The calls with plain pointers *)

(** [Put(key, keySize, value, valueSize, options)]: the value itself is not used, it
    was written to the address that [Alloc] returned. *)
Definition Put_raw (key : list Z) (longTerm : bool) : KM unit :=
  if longTerm then cthrow NotImplementedException
  else
    on_tree (rt_Put key) ;;;
    ccatch (on_pkey (engine_enqueueNext key))
      (fun e => match e with
                | OperationFailedException _ => on_tree (rt_Remove key) ;;; cthrow e
                | _ => cthrow e
                end).

(** The wait of [_getOffloaded]: the bytes the callback was given, whatever the
    status. *)
Definition wait_get (key : list Z) : KM (list Z) :=
  let! s := cget in
  if negb (offloadEnabled s) then cthrow (OperationFailedException OFFLOAD_DISABLED_ERROR)
  else
    let! a := on_offload (off_get key) in
    match a with
    | QueueFull => cthrow QueueFullException
    | NoReply => cthrow (OperationFailedException TIME_OUT)
    | Replied r => cret (re_value r)
    end.

(** [_getOffloaded] into the caller's buffer of [cap] bytes: there is no size
    check. *)
Definition _getOffloaded_into (key : list Z) (cap : Z) : KM (list Z) :=
  let! bytes := wait_get key in
  if cap <? Z.of_nat (length bytes) then cundef else cret bytes.

(** [_getOffloaded] into a new block. *)
Definition _getOffloaded_new (key : list Z) : KM (positive * Z) :=
  let! bytes := wait_get key in
  let! a := new_block bytes in
  cret (a, Z.of_nat (length bytes)).

(** The [n] bytes in persistent memory at [a]. *)
Definition read_pmem (a : option positive) (n : Z) : KM (list Z) := fun s =>
  match a with Some a => (read_mem (pmem s) a n, s) | None => if n =? 0 then (Ret [], s) else (Undef, s) end.

(** [Get(key, keySize, value, valueSize, options)]: [value] is null or a buffer of
    so many bytes; the result is what was written into it. *)
Definition Get_into (key : list Z) (value : option Z) (valueSize : Z) : KM (list Z) :=
  let! (pVal, pValSize, location) := on_tree (rt_Get key) in
  match value with
  | None => cthrow (OperationFailedException (errnum PMEM_ALLOCATION_ERROR))
  | Some cap =>
      match location with
      | PMEM =>
          if valueSize <? pValSize then cthrow (OperationFailedException EINVAL)
          else
            let! bytes := read_pmem pVal pValSize in
            if cap <? pValSize then cundef else cret bytes
      | DISK => _getOffloaded_into key cap
      | EMPTY => cthrow (OperationFailedException EINVAL)
      end
  end.

(** [Get(key, keySize, char **value, valueSize, options)]: a new block and its
    size; the callers pass the address of a local, so [value] is not null. *)
Definition Get_new (key : list Z) : KM (positive * Z) :=
  let! (pVal, pValSize, location) := on_tree (rt_Get key) in
  match location with
  | PMEM =>
      let! bytes := read_pmem pVal pValSize in
      let! a := new_block bytes in
      cret (a, pValSize)
  | DISK => _getOffloaded_new key
  | EMPTY => cthrow (OperationFailedException EINVAL)
  end.

Definition Remove_raw (key : list Z) : KM unit :=
  let! (_, _, location) := on_tree (rt_Get key) in
  if bool_decide (location = DISK) then
    let! s := cget in
    if negb (offloadEnabled s) then cthrow (OperationFailedException OFFLOAD_DISABLED_ERROR)
    else
      let! a := on_offload (off_remove key) in
      match a with
      | QueueFull => cthrow QueueFullException
      | NoReply => cthrow (OperationFailedException TIME_OUT)
      | Replied _ => cret tt
      end
  else on_tree (rt_Remove key).

Definition GetAny_raw (key : list Z) : KM (list Z) := on_pkey (engine_dequeueNext key).

Definition Alloc_raw (key : list Z) (size : Z) (kvsBuffered : bool) : KM vptr :=
  if kvsBuffered then let! a := on_tree (rt_AllocValueForKey key size) in cret (VPmem a)
  else let! a := new_block (replicate (Z.to_nat size) 0) in cret (VHeap a).

(** ** The calls with [Key] and [Value] *)

(** [getDhtCore()->isLocalKey(key)]. *)
Definition is_local (key : Key) : KM bool := fun s => (isLocalKey (_spDht s) (k_data key), s).

(** [delete[] value.data()]: only a block made by [new] may be deleted. *)
Definition Free_value (key : Key) (value : Value) : KM unit :=
  if v_kvs value then
    let! l := is_local key in
    if negb l then on_client (cl_free_value key value) else cret tt
  else
    match v_data value with
    | None => cret tt
    | Some (VHeap a) => delete_block (Some a)
    | Some _ => cundef
    end.

Definition Free_key (key : Key) : KM unit :=
  if k_kvs key then on_client (cl_free_key key) else delete_block (k_block key).

Definition Put_kv (key : Key) (val : Value) : KM unit :=
  ccatch
    (let! l := is_local key in
     if negb l then on_client (cl_put key val) else Put_raw (k_data key) false)
    (fun e => Free_value key val ;;; Free_key key ;;; cthrow e) ;;;
  Free_value key val ;;; Free_key key.

Definition Get_kv (key : Key) : KM Value :=
  let! l := is_local key in
  if negb l then on_client (cl_get key)
  else
    let! (a, n) := Get_new (k_data key) in
    cret (mkValue (Some (VHeap a)) n false).

Definition Remove_kv (key : Key) : KM unit :=
  let! l := is_local key in
  if negb l then on_client (cl_remove key) else Remove_raw (k_data key).

Definition Alloc_kv (key : Key) (size : Z) (kvsBuffered : bool) : KM Value :=
  if kvsBuffered then
    let! l := is_local key in
    if negb l then on_client (cl_alloc key size)
    else let! p := Alloc_raw (k_data key) size true in cret (mkValue (Some p) size true)
  else let! p := Alloc_raw (k_data key) size false in cret (mkValue (Some p) size false).

Definition AllocKey (kvsBuffered : bool) : KM Key :=
  let! s := cget in
  if kvsBuffered then on_client (cl_allocKey (_keySize s))
  else
    let bytes := replicate (Z.to_nat (_keySize s)) 0 in
    let! a := new_block bytes in
    cret (mkKey bytes (Some a) false).

(** [dequeueNext] writes into the key that was allocated. *)
Definition GetAny_kv (kvsBuffered : bool) : KM Key :=
  let! key := AllocKey kvsBuffered in
  ccatch
    (let! bytes := on_pkey (engine_dequeueNext (k_data key)) in
     cret (mkKey bytes (k_block key) (k_kvs key)))
    (fun e => Free_key key ;;; cthrow e).

(** [Update(key, val, options)]; the value that is given is replaced by what the
    tree has. *)
Definition Update_kv (key : Key) (longTerm : bool) : KM unit :=
  if longTerm then
    let! s := cget in
    if negb (offloadEnabled s) then cthrow (OperationFailedException OFFLOAD_DISABLED_ERROR)
    else
      let! (a, n, location) :=
        ccatch (on_tree (rt_Get (k_data key))) (fun _ => cthrow (OperationFailedException KEY_NOT_FOUND)) in
      let! r := on_offload (off_update (k_data key) a n location) in
      match r with
      | QueueFull => cthrow QueueFullException
      | NoReply => cthrow (OperationFailedException TIME_OUT)
      | Replied _ => cret tt
      end
  else cthrow NotImplementedException.

Definition IsOffloaded (key : Key) : KM bool :=
  ccatch (let! (_, _, location) := on_tree (rt_Get (k_data key)) in cret (bool_decide (location = DISK)))
    (fun e => match e with OperationFailedException _ => cret false | _ => cthrow e end).
End KVStore.

(** ** What the operations keep *)

Section Lemmas.
Context {T R O N : Type} `{RTreeEngine T} `{SpdkRing (list Z) R} `{StoreServices O N}.

#[local] Abbreviation state := (@KVStore T R O N).
Implicit Types s : state.

(** The tree, the values and the routing are what [s] has. *)
Definition same_data (s s' : state) : Prop :=
  _spRtree s' = _spRtree s /\ pmem s' = pmem s /\ _spDht s' = _spDht s.

Lemma same_data_refl s : same_data s s.
Proof. done. Qed.

Lemma same_data_trans (s1 s2 s3 : state) : same_data s1 s2 -> same_data s2 s3 -> same_data s1 s3.
Proof. intros (? & ? & ?) (? & ? & ?). split_and!; congruence. Qed.

Lemma is_local_run s key l : isLocalKey (_spDht s) (k_data key) = Ret l -> is_local key s = (Ret l, s).
Proof. intros E. unfold is_local. by rewrite E. Qed.

Lemma on_client_data {A} (m : M exn N A) s : same_data s (snd (on_client m s)).
Proof. done. Qed.

Lemma delete_block_data p s : same_data s (snd (delete_block p s)).
Proof. destruct p as [a|]; [|done]. unfold delete_block, cbind, cget. by destruct (heap s !! a). Qed.

Lemma Free_value_data key val s : same_data s (snd (Free_value key val s)).
Proof.
  unfold Free_value. destruct (v_kvs val).
  - unfold cbind, is_local. destruct (isLocalKey _ _) as [[]|e| |]; done.
  - destruct (v_data val) as [[]|]; try done. apply delete_block_data.
Qed.

Lemma Free_key_data key s : same_data s (snd (Free_key key s)).
Proof. unfold Free_key. destruct (k_kvs key); [apply on_client_data|apply delete_block_data]. Qed.

Lemma new_block_run bytes s : exists a (s' : state), new_block bytes s = (Ret a, s') /\ same_data s s' /\
  heap s' !! a = Some bytes /\ heap s !! a = None.
Proof.
  unfold new_block, cbind, cget, heap_new. do 2 eexists. split; [reflexivity|]. split_and!; try done; cbn [heap].
  - apply lookup_insert_eq.
  - apply not_elem_of_dom, is_fresh.
Qed.

(** A [Put] that returns went through the tree, and only through it. *)
Lemma Put_raw_tree s key (s' : state) : Put_raw key false s = (Ret tt, s') ->
  exists t, rt_Put key (_spRtree s) = (Ret tt, t) /\
    _spRtree s' = t /\ pmem s' = pmem s /\ _spDht s' = _spDht s.
Proof.
  intros E. unfold Put_raw in E. apply cbind_inv in E as ([] & s1 & E1 & E2).
  unfold on_tree, czoom in E1. destruct (rt_Put key (_spRtree s)) as [r t] eqn:Et. cbn [fst snd] in E1.
  injection E1 as -> <-. exists t. split; [done|]. unfold ccatch, on_pkey, czoom in E2. cbn [_spPKey] in E2.
  destruct (engine_enqueueNext key (_spPKey s)) as [[[]|e| |] p]; cbn [fst snd] in E2; try done; [by injection E2 as <-|].
  destruct e; try done. unfold cbind, cthrow in E2. by destruct (on_tree _ _) as [[]?].
Qed.

(** A local [Get] of a value in persistent memory returns a copy of its bytes. *)
Lemma Get_kv_pmem s key a n bytes :
  rt_ok (_spRtree s) -> rt_key (T := T) (k_data key) -> isLocalKey (_spDht s) (k_data key) = Ret true ->
  rt_view (_spRtree s) (k_data key) = Some (Some a, n, PMEM) -> read_mem (pmem s) a n = Ret bytes ->
  exists b (s' : state), Get_kv key s = (Ret (mkValue (Some (VHeap b)) n false), s') /\ same_data s s' /\ heap s' !! b = Some bytes.
Proof.
  intros Hok Hk Hl Hv Hb. unfold Get_kv. rewrite (cbind_ret _ _ _ _ _ (is_local_run s key true Hl)). cbn [negb].
  unfold Get_new. unfold cbind at 1, cbind at 1, on_tree, czoom. rewrite (rt_Get_view _ _ Hok Hk), Hv. cbn [fst snd].
  unfold cbind at 1, read_pmem. cbn [pmem]. rewrite Hb.
  set (s1 := mkKVStore _ _ _ _ _ _ _ _ _). destruct (new_block_run bytes s1) as (b & s' & E & D & Hh & _).
  unfold cbind. rewrite E. unfold cret. by exists b, s'.
Qed.

(** The client of a store writes a value to the address that [Alloc] gave. *)
Definition write_value (v : Value) (bytes : list Z) (s : state) : state :=
  match v_data v with
  | Some (VPmem a) =>
      mkKVStore (_spRtree s) (<[a := bytes]> (pmem s)) (heap s) (_spPKey s) (_spOffloadPoller s) (_spDhtClient s)
        (_spDht s) (offloadEnabled s) (_keySize s)
  | Some (VHeap a) =>
      mkKVStore (_spRtree s) (pmem s) (<[a := bytes]> (heap s)) (_spPKey s) (_spOffloadPoller s) (_spDhtClient s)
        (_spDht s) (offloadEnabled s) (_keySize s)
  | _ => s
  end.

Lemma Alloc_kv_local s key size v (s1 : state) :
  rt_ok (_spRtree s) -> rt_key (T := T) (k_data key) -> isLocalKey (_spDht s) (k_data key) = Ret true ->
  Alloc_kv key size true s = (Ret v, s1) ->
  exists a, v = mkValue (Some (VPmem a)) size true /\ rt_ok (_spRtree s1) /\
    rt_slot (_spRtree s1) (k_data key) = Some (Some a, size) /\ pmem s1 = pmem s /\ _spDht s1 = _spDht s /\
    (forall k b n, rt_slot (_spRtree s) k = Some (Some b, n) -> b <> a) /\
    rt_view (_spRtree s) (k_data key) = None /\ rt_view (_spRtree s1) (k_data key) = None /\
    (forall k, rt_key (T := T) k -> k <> k_data key ->
       rt_view (_spRtree s1) k = rt_view (_spRtree s) k /\ rt_slot (_spRtree s1) k = rt_slot (_spRtree s) k).
Proof.
  intros Hok Hk Hl E. unfold Alloc_kv in E. rewrite (cbind_ret _ _ _ _ _ (is_local_run s key true Hl)) in E.
  cbn [negb] in E. unfold Alloc_raw in E. apply cbind_inv in E as (p & s' & E1 & E2). injection E2 as <- <-.
  apply cbind_inv in E1 as (a & s'' & E1 & E2). injection E2 as <- <-.
  unfold on_tree, czoom in E1. destruct (rt_Alloc_slot _ _ size Hok Hk) as (r & t & Et & Hok' & Ho & Hr).
  rewrite Et in E1. cbn [fst snd] in E1. injection E1 as -> <-. exists a.
  destruct Hr as (? & ? & ? & ?). split_and!; done.
Qed.

(** A local put that returns made the key's slot visible, and nothing else. *)
Lemma Put_kv_local s key a size (s2 : state) :
  rt_ok (_spRtree s) -> rt_key (T := T) (k_data key) -> isLocalKey (_spDht s) (k_data key) = Ret true ->
  rt_slot (_spRtree s) (k_data key) = Some (Some a, size) ->
  Put_kv key (mkValue (Some (VPmem a)) size true) s = (Ret tt, s2) ->
  rt_ok (_spRtree s2) /\ rt_view (_spRtree s2) (k_data key) = Some (Some a, size, PMEM) /\
  pmem s2 = pmem s /\ _spDht s2 = _spDht s /\
  (forall k, rt_key (T := T) k -> k <> k_data key -> rt_view (_spRtree s2) k = rt_view (_spRtree s) k) /\
  (forall k, rt_key (T := T) k -> rt_slot (_spRtree s2) k = rt_slot (_spRtree s) k).
Proof.
  intros Hok Hk Hl Hs Ep. unfold Put_kv in Ep. apply cbind_inv in Ep as ([] & s2' & Ep & Ef). unfold ccatch in Ep.
  rewrite (cbind_ret _ _ _ _ _ (is_local_run s key true Hl)) in Ep. cbn [negb] in Ep.
  destruct (Put_raw (k_data key) false s) as [[[]|e| |] s4] eqn:Er; try done.
  2:{ unfold cbind, cthrow in Ep. destruct (Free_value _ _ _) as [[]?]; try done. by destruct (Free_key _ _) as [[]?]. }
  injection Ep as <-. destruct (Put_raw_tree _ _ _ Er) as (t & Et & <- & Ept & Edt).
  pose proof (rt_Put_slot _ _ Hok Hk) as HP. rewrite Hs in HP.
  destruct HP as (t' & Et' & Hok2 & Hv & Ho & Hsl). rewrite Et in Et'. injection Et' as <-.
  assert (Hd : same_data s4 s2).
  { apply cbind_inv in Ef as ([] & s5 & Ef & Eg). eapply same_data_trans.
    - pose proof (Free_value_data key (mkValue (Some (VPmem a)) size true) s4) as HF. by rewrite Ef in HF.
    - pose proof (Free_key_data key s5) as HF. by rewrite Eg in HF. }
  destruct Hd as (D1 & D2 & D3). rewrite D1, D2, D3, Ept, Edt. by split_and!.
Qed.

(** What is put is what is read.  On a node that owns the key: allocate a value,
    write [size] bytes to it and put it; when the put returns, every later
    [Get] with an equal key returns a new block with exactly these bytes. *)
Theorem kvs_put_get (s s1 s2 : state) key key' v size bytes :
  rt_ok (_spRtree s) -> rt_key (T := T) (k_data key) -> isLocalKey (_spDht s) (k_data key) = Ret true ->
  Alloc_kv key size true s = (Ret v, s1) -> Z.of_nat (length bytes) = size ->
  Put_kv key v (write_value v bytes s1) = (Ret tt, s2) -> k_data key' = k_data key ->
  exists b (s3 : state), Get_kv key' s2 = (Ret (mkValue (Some (VHeap b)) size false), s3) /\ heap s3 !! b = Some bytes.
Proof.
  intros Hok Hk Hl Ea Hn Ep Ek. destruct (Alloc_kv_local _ _ _ _ _ Hok Hk Hl Ea) as (a & -> & Hok1 & Hs & Epm & Edh & _).
  unfold write_value in Ep. cbn [v_data] in Ep. set (s1' := mkKVStore _ _ _ _ _ _ _ _ _) in Ep.
  destruct (Put_kv_local s1' key a size s2 Hok1 Hk) as (Hok2 & Hv & E2 & D2 & _); [cbn; by rewrite Edh|done|done|].
  destruct (Get_kv_pmem s2 key' a size bytes) as (b & s3 & E3 & _ & Hb); rewrite ?Ek, ?E2, ?D2; try done; cbn [pmem _spDht s1'].
  - by rewrite Edh.
  - unfold read_mem. rewrite lookup_insert_eq. destruct (Z.leb_spec size (Z.of_nat (length bytes))); [|lia].
    by rewrite take_ge by lia.
  - by exists b, s3.
Qed.

(** An error of the disk is not reported: when the value of a local key is on
    disk and the offload poller answers with any error status and no value, [Get]
    returns an empty value. *)
Theorem kvs_get_ignores_status (s : state) key a n status o :
  rt_ok (_spRtree s) -> rt_key (T := T) (k_data key) -> isLocalKey (_spDht s) (k_data key) = Ret true ->
  rt_view (_spRtree s) (k_data key) = Some (a, n, DISK) -> offloadEnabled s = true ->
  off_get (k_data key) (_spOffloadPoller s) = (Replied (mkReply status []), o) ->
  exists b (s' : state), Get_kv key s = (Ret (mkValue (Some (VHeap b)) 0 false), s') /\ heap s' !! b = Some [].
Proof.
  intros Hok Hk Hl Hv Ho Hg. unfold Get_kv. rewrite (cbind_ret _ _ _ _ _ (is_local_run s key true Hl)). cbn [negb].
  unfold Get_new. unfold cbind at 1, cbind at 1, on_tree, czoom. rewrite (rt_Get_view _ _ Hok Hk), Hv. cbn [fst snd].
  unfold _getOffloaded_new, cbind at 1, wait_get, cbind at 1, cget. cbn [offloadEnabled]. rewrite Ho. cbn [negb].
  unfold cbind at 1, on_offload. cbn [_spOffloadPoller]. rewrite Hg. cbn [fst snd re_value]. unfold cret at 1.
  set (s1 := mkKVStore _ _ _ _ _ _ _ _ _). destruct (new_block_run [] s1) as (b & s' & E & _ & Hh & _).
  unfold cbind. rewrite E. unfold cret. by exists b, s'.
Qed.
End Lemmas.

(** ** The store over [ARTree] *)

Section OverARTree.
Context {P R O N : Type} `{PmemPool P} `{SpdkRing (list Z) R} `{StoreServices O N} (szN szL szW : Z).
#[local] Instance tree_engine : RTreeEngine (@ARTree P) := artree_engine szN szL szW.

(** A put that the queue of ready keys refuses leaves a dangling leaf: the call
    throws the queue's error after it removed the value again, and the next [Get] of
    the key reads freed memory. *)
Theorem kvs_put_refused_dangles (s : @KVStore (@ARTree P) R O N) key v value status p :
  reachable szN szL szW (_spRtree s) -> wf_key key -> wrapper_of (_spRtree s) key = Some v ->
  actionValue v = AOwned value ->
  engine_enqueueNext key (_spPKey s) = (Throw (OperationFailedException status), p) ->
  exists s' : @KVStore (@ARTree P) R O N,
    Put_raw key false s = (Throw (OperationFailedException status), s') /\ fst (Get_new key s') = Undef.
Proof.
  intros Hr Hk Hw Ha He. apply reachable_inv in Hr as I.
  pose proof (Put_spec szN szL szW _ key Hk I) as HP. rewrite Hw in HP. destruct HP as (t1 & E1 & I1 & Hw1 & _).
  destruct (Remove_held szN szL szW t1 key _ value Hk I1 Hw1) as (t2 & E2 & E3); [done|done|done|].
  unfold Put_raw, cbind at 1, on_tree at 1, czoom. cbn [rt_Put tree_engine artree_engine]. rewrite E1. cbn [fst snd].
  unfold ccatch, on_pkey, czoom. cbn [_spPKey]. rewrite He. cbn [fst snd].
  unfold cbind at 1, on_tree at 1, czoom. cbn [rt_Remove tree_engine artree_engine _spRtree]. rewrite E2. cbn [fst snd].
  eexists. split; [reflexivity|]. unfold Get_new, cbind at 1, on_tree, czoom.
  cbn [rt_Get tree_engine artree_engine _spRtree]. rewrite E3. done.
Qed.
End OverARTree.

(** ** Concrete runs *)

Section Runs.
#[local] Existing Instance simple_pool.
#[local] Abbreviation Tree := (@ARTree (gset positive)).
#[local] Abbreviation Ring := (list_ring (list Z)).
#[local] Instance run_tree : RTreeEngine Tree := artree_engine 1 1 1.
#[local] Instance run_ring : SpdkRing (list Z) Ring := simple_ring (list Z).
#[local] Instance run_services : StoreServices unit unit :=
  {| off_get := fun _ o => (Replied (mkReply UNKNOWN_ERROR []), o);
     off_update := fun _ _ _ _ o => (NoReply, o); off_remove := fun _ o => (NoReply, o);
     cl_put := fun _ _ => cret tt; cl_get := fun _ => cthrow (OperationFailedException KEY_NOT_FOUND);
     cl_remove := fun _ => cret tt; cl_alloc := fun _ n => cret (mkValue (Some VMsg) n true);
     cl_allocKey := fun n => cret (mkKey (replicate (Z.to_nat n) 0) None true);
     cl_free_value := fun _ _ => cret tt; cl_free_key := fun _ => cret tt |}.

Definition run_dht : DhtCore :=
  mkDhtCore (mkDhtNode DEFAULT_ERPC_SERVER_IP DEFAULT_ERPC_SERVER_PORT ERPC_SESSION_NOT_SET 0 0 NODE_READY) [] [] 0 0.
Definition run_pkeys : PrimaryKeyBase := mkPrimaryKeyBase 8 8 0 0 1.
Definition run_store (t : Tree) (e : @PrimaryKeyEngine Ring) : @KVStore Tree Ring unit unit :=
  mkKVStore t ∅ ∅ e tt tt run_dht true 8.

Definition store0 := run_store run_new (EBase run_pkeys).
Definition store_key : Key := mkKey key1 None true.
Definition store_value : Value := mkValue (Some (VPmem 11)) 100 true.
Definition store1 := snd (Alloc_kv store_key 100 true store0).
Definition store2 := snd (Put_kv store_key store_value (write_value store_value (replicate 100 7) store1)).

Lemma store1_ok : Alloc_kv store_key 100 true store0 = (Ret store_value, store1).
Proof. vm_compute. reflexivity. Qed.
Lemma store2_ok : Put_kv store_key store_value (write_value store_value (replicate 100 7) store1) = (Ret tt, store2).
Proof. vm_compute. reflexivity. Qed.

Lemma kvs_put_get_witness :
  exists b s3, Get_kv store_key store2 = (Ret (mkValue (Some (VHeap b)) 100 false), s3) /\
    heap s3 !! b = Some (replicate 100 7).
Proof.
  apply (kvs_put_get store0 store1 store2 store_key store_key store_value 100 (replicate 100 7));
    [exact (reachable_inv 1 1 1 run_new run_new_reachable)|exact wf_key1|reflexivity|exact store1_ok|reflexivity
    |exact store2_ok|reflexivity].
Defined.

Lemma kvs_get_ignores_status_witness :
  exists b s', Get_kv store_key (run_store run_disk (EBase run_pkeys)) =
    (Ret (mkValue (Some (VHeap b)) 0 false), s') /\ heap s' !! b = Some [].
Proof.
  assert (Hv : view run_disk key1 = Some (Some 11%positive, 100, DISK)) by (vm_compute; reflexivity).
  apply (kvs_get_ignores_status (run_store run_disk (EBase run_pkeys)) store_key (Some 11%positive) 100 UNKNOWN_ERROR tt);
    [exact (reachable_inv 1 1 1 run_disk run_disk_reachable)|exact wf_key1|reflexivity|exact Hv|reflexivity|reflexivity].
Defined.

(** A queue of ready keys without room. *)
Definition full_queue : @PrimaryKeyEngine Ring := ENextQueue (mkNextQueue run_pkeys (mkListRing [] 0)).

Lemma kvs_put_refused_dangles_witness :
  exists s', Put_raw key1 false (run_store run_alloc full_queue) =
    (Throw (OperationFailedException (errnum QUEUE_FULL_ERROR)), s') /\ fst (Get_new key1 s') = Undef.
Proof.
  apply (kvs_put_refused_dangles 1 1 1 (run_store run_alloc full_queue) key1
    (mkValueWrapper EMPTY (Some 11%positive) 100 EMPTY (AOwned 11)) 11 (errnum QUEUE_FULL_ERROR) full_queue);
    [exact run_alloc_reachable|exact wf_key1|vm_compute; reflexivity|reflexivity|reflexivity].
Defined.
End Runs.
