(* ===== verification/KVMap.v ===== *)
(** * The store as a map ([KVStore] against an abstract specification)

    What a client may rely on: a store is a finite map from keys to values, and a value
    is allocated, written and put.  The specification has no tree, no persistent memory
    and no locations; it knows how many ready keys the store has room for.  Clients' calls
    may be interleaved in any way, as long as each client writes a value before it puts it.
    A put that finds no room is refused, and after that nothing is promised. *)

From S2P Require Import Prelude Status ARTree RTreeEngine Poller Rqst PrimaryKey DhtCore KVStore.

(** ** The specification *)

(** A value that was allocated: its address, its size, and the bytes once written. *)
Record pending : Type := mkPending { pe_addr : positive; pe_size : Z; pe_bytes : option (list Z) }.

Record map_spec : Type := mkMapSpec { ms_map : gmap (list Z) (list Z); ms_pending : gmap (list Z) pending }.

Inductive call_op : Type :=
| CAlloc (key : Key) (size : Z)
| CWrite (key : Key) (bytes : list Z)
| CPut (key : Key)
| CGet (key : Key).

Definition op_key (o : call_op) : Key :=
  match o with CAlloc k _ => k | CWrite k _ => k | CPut k => k | CGet k => k end.

Inductive result : Type := RAddr (a : positive) | RDone | RBytes (bytes : list Z).

(** What the call [o] may answer, and the specification's next state. *)
Inductive spec_step : map_spec -> call_op -> outcome exn result -> map_spec -> Prop :=
| sp_alloc m p key size a : m !! k_data key = None ->
    (forall k e, p !! k = Some e -> pe_addr e <> a) ->
    spec_step (mkMapSpec m p) (CAlloc key size) (Ret (RAddr a)) (mkMapSpec m (<[k_data key := mkPending a size None]> p))
| sp_alloc_fails m p key size :
    spec_step (mkMapSpec m p) (CAlloc key size) (Throw (OperationFailedException PMEM_ALLOCATION_ERROR))
      (mkMapSpec m (delete (k_data key) p))
| sp_write m p key bytes e : p !! k_data key = Some e ->
    spec_step (mkMapSpec m p) (CWrite key bytes) (Ret RDone)
      (mkMapSpec m (<[k_data key := mkPending (pe_addr e) (pe_size e) (Some bytes)]> p))
| sp_put m p key e bytes : p !! k_data key = Some e -> pe_bytes e = Some bytes ->
    spec_step (mkMapSpec m p) (CPut key) (Ret RDone) (mkMapSpec (<[k_data key := bytes]> m) (delete (k_data key) p))
| sp_get m p key bytes : m !! k_data key = Some bytes ->
    spec_step (mkMapSpec m p) (CGet key) (Ret (RBytes bytes)) (mkMapSpec m p)
| sp_get_none m p key : m !! k_data key = None ->
    spec_step (mkMapSpec m p) (CGet key) (Throw (OperationFailedException KEY_NOT_FOUND)) (mkMapSpec m p).

(** What a client may call: it writes all bytes of a value that it was given, and puts a
    value that was written. *)
Definition allowed (ms : map_spec) (o : call_op) : Prop :=
  match o with
  | CAlloc _ _ | CGet _ => True
  | CWrite key bytes => exists e, ms_pending ms !! k_data key = Some e /\ Z.of_nat (length bytes) = pe_size e
  | CPut key => exists e bytes, ms_pending ms !! k_data key = Some e /\ pe_bytes e = Some bytes
  end.

Section Refinement.
Context {T R O N : Type} `{RTreeEngine T} `{SpdkRing (list Z) R} `{StoreServices O N}.

#[local] Abbreviation store := (@KVStore T R O N).
Implicit Types s : store.

(** ** The calls of the store *)

(** The value that a client holds for a key that it allocated. *)
Definition held (e : pending) : Value := mkValue (Some (VPmem (pe_addr e))) (pe_size e) true.

Definition read_value (v : Value) : M exn store result := fun s =>
  match v_data v with
  | Some (VHeap b) =>
      (match read_mem (heap s) b (v_size v) with Ret l => Ret (RBytes l) | Throw e => Throw e | Crash => Crash | Undef => Undef end, s)
  | _ => (Undef, s)
  end.

Definition run_call (ms : map_spec) (o : call_op) : M exn store result :=
  match o with
  | CAlloc key size =>
      let! v := Alloc_kv key size true in
      match v_data v with Some (VPmem a) => cret (RAddr a) | _ => cundef end
  | CWrite key bytes =>
      match ms_pending ms !! k_data key with
      | Some e => cmod (write_value (held e) bytes) ;;; cret RDone
      | None => cundef
      end
  | CPut key =>
      match ms_pending ms !! k_data key with
      | Some e => Put_kv key (held e) ;;; cret RDone
      | None => cundef
      end
  | CGet key => let! v := Get_kv key in read_value v
  end.

(** ** The relation *)

Context (d : DhtCore).

Record sim s (ms : map_spec) : Prop := {
  sim_dht : _spDht s = d;
  sim_tree : rt_ok (_spRtree s);
  sim_view : forall k, rt_key (T := T) k ->
    match ms_map ms !! k with
    | Some bytes => exists a, rt_view (_spRtree s) k = Some (Some a, Z.of_nat (length bytes), PMEM) /\ pmem s !! a = Some bytes
    | None => rt_view (_spRtree s) k = None
    end;
  sim_pending : forall k e, ms_pending ms !! k = Some e -> rt_key (T := T) k /\ ms_map ms !! k = None /\
    rt_slot (_spRtree s) k = Some (Some (pe_addr e), pe_size e) /\
    match pe_bytes e with Some bytes => pmem s !! pe_addr e = Some bytes /\ Z.of_nat (length bytes) = pe_size e | None => True end;
  sim_inj : forall k k' e a n, ms_pending ms !! k = Some e -> rt_key (T := T) k' -> k' <> k ->
    rt_slot (_spRtree s) k' = Some (Some a, n) -> a <> pe_addr e }.

(** ** Each call keeps the relation *)

Definition local_key (k : Key) : Prop := rt_key (T := T) (k_data k) /\ isLocalKey d (k_data k) = Ret true.

Lemma sim_alloc s ms key size r s' : sim s ms -> local_key key -> run_call ms (CAlloc key size) s = (r, s') ->
  exists ms', spec_step ms (CAlloc key size) r ms' /\ sim s' ms'.
Proof.
  intros [Hd Hok Hv Hp Hi] [Hk Hl] E. rewrite <- Hd in Hl. destruct ms as [m p]. cbn [ms_map ms_pending] in *.
  unfold run_call, Alloc_kv in E. unfold cbind at 1 in E. rewrite (cbind_ret _ _ _ _ _ (is_local_run s key true Hl)) in E.
  cbn [negb] in E. unfold Alloc_raw, cbind, on_tree, czoom in E.
  destruct (rt_Alloc_slot _ (k_data key) size Hok Hk) as (ra & t & Et & Hok' & Ho & Hr). rewrite Et in E. cbn [fst snd] in E.
  set (s1 := mkKVStore _ _ _ _ _ _ _ _ _) in E.
  assert (Hview : forall k, rt_key (T := T) k -> rt_view t k = rt_view (_spRtree s) k).
  { intros k Hwk. destruct (decide (k = k_data key)) as [->|]; [|by apply Ho].
    destruct ra as [a|e| |]; [|by destruct Hr as (_ & -> & _)|done|done]. destruct Hr as (-> & -> & _). done. }
  destruct ra as [a|e| |]; try done.
  - injection E as <- <-. destruct Hr as (Hn & _ & Hs & Hf).
    eexists. split; [apply sp_alloc|split; cbn [ms_map ms_pending _spRtree _spDht pmem s1]].
    + pose proof (Hv _ Hk) as HV. destruct (m !! k_data key); [|done]. destruct HV as (b & HV & _). congruence.
    + intros k e He. destruct (Hp k e He) as (_ & _ & Hsl & _). by eapply Hf.
    + done.
    + done.
    + intros k Hwk. rewrite Hview by done. by apply Hv.
    + intros k e. destruct (decide (k = k_data key)) as [->|Hne].
      * rewrite lookup_insert_eq. intros [= <-]. split_and!; try done.
        pose proof (Hv _ Hk) as HV. destruct (m !! k_data key); [|done]. destruct HV as (b & HV & _). congruence.
      * rewrite lookup_insert_ne by done. intros He. destruct (Hp k e He) as (Hwk & Hm & Hsl & Hb). split_and!; try done.
        by rewrite (proj2 (Ho k Hwk Hne)).
    + intros k k' e b n. destruct (decide (k = k_data key)) as [->|Hne].
      * rewrite lookup_insert_eq. intros [= <-] Hwk Hne Hsl. cbn [pe_addr]. rewrite (proj2 (Ho k' Hwk Hne)) in Hsl. by eapply Hf.
      * rewrite lookup_insert_ne by done. intros He Hwk Hne' Hsl. destruct (decide (k' = k_data key)) as [->|Hnk].
        { rewrite Hs in Hsl. injection Hsl as <- _. destruct (Hp k e He) as (_ & _ & Hsk & _). apply not_eq_sym. by eapply Hf. }
        rewrite (proj2 (Ho k' Hwk Hnk)) in Hsl. by eapply Hi.
  - injection E as <- <-. destruct Hr as (-> & _ & Hs).
    eexists. split; [apply sp_alloc_fails|split; cbn [ms_map ms_pending _spRtree _spDht pmem s1]].
    + done.
    + done.
    + intros k Hwk. rewrite Hview by done. by apply Hv.
    + intros k e He. apply lookup_delete_Some in He as [Hne He]. destruct (Hp k e He) as (Hwk & Hm & Hsl & Hb).
      split_and!; try done. by rewrite (proj2 (Ho k Hwk (not_eq_sym Hne))).
    + intros k k' e b n He Hwk Hne Hsl. apply lookup_delete_Some in He as [Hnk He].
      destruct (decide (k' = k_data key)) as [->|Hn']; [eapply Hi; eauto|].
      rewrite (proj2 (Ho k' Hwk Hn')) in Hsl. by eapply Hi.
Qed.

Lemma sim_write s ms key bytes r s' : sim s ms -> allowed ms (CWrite key bytes) ->
  run_call ms (CWrite key bytes) s = (r, s') -> exists ms', spec_step ms (CWrite key bytes) r ms' /\ sim s' ms'.
Proof.
  intros [Hd Hok Hv Hp Hi] (e & He & Hlen) E. destruct ms as [m p]. cbn [ms_map ms_pending] in *.
  unfold run_call in E. cbn [ms_pending] in E. rewrite He in E. injection E as <- <-.
  destruct (Hp _ _ He) as (Hk & Hm & Hsl & _).
  eexists. split; [by eapply sp_write|]. split; cbn [ms_map ms_pending write_value held v_data _spRtree _spDht pmem].
  - done.
  - done.
  - intros k Hwk. pose proof (Hv k Hwk) as HV. destruct (m !! k) as [b|] eqn:Emk; [|done].
    destruct HV as (a & Ea & Hb). exists a. split; [done|]. rewrite lookup_insert_ne; [done|]. apply not_eq_sym.
    eapply (Hi (k_data key) k e); eauto using rt_view_slot. congruence.
  - intros k e'. destruct (decide (k = k_data key)) as [->|Hne].
    + rewrite lookup_insert_eq. intros [= <-]. cbn [pe_addr pe_size pe_bytes]. rewrite lookup_insert_eq. done.
    + rewrite lookup_insert_ne by done. intros He'. destruct (Hp k e' He') as (Hwk & Hmk & Hsk & Hb). split_and!; try done.
      destruct (pe_bytes e') as [b|]; [|done]. rewrite lookup_insert_ne; [done|].
      apply not_eq_sym. by eapply (Hi (k_data key) k e).
  - intros k k' e' a n. destruct (decide (k = k_data key)) as [->|Hne].
    + rewrite lookup_insert_eq. intros [= <-] Hwk Hne Hsk. cbn [pe_addr]. by eapply (Hi (k_data key) k' e).
    + rewrite lookup_insert_ne by done. intros He' Hwk Hne' Hsk. by eapply (Hi k k' e').
Qed.

Lemma sim_put s ms key r s' : sim s ms -> local_key key -> allowed ms (CPut key) ->
  run_call ms (CPut key) s = (Ret r, s') -> exists ms', spec_step ms (CPut key) (Ret r) ms' /\ sim s' ms'.
Proof.
  intros [Hd Hok Hv Hp Hi] [Hk Hl] (e & bytes & He & Hb) E. rewrite <- Hd in Hl. destruct ms as [m p]. cbn [ms_map ms_pending] in *.
  unfold run_call in E. cbn [ms_pending] in E. rewrite He in E. apply cbind_inv in E as ([] & s1 & E & Er). injection Er as <- <-.
  destruct (Hp _ _ He) as (_ & Hm & Hsl & Hby). rewrite Hb in Hby. destruct Hby as [Hpm Hlen].
  destruct (Put_kv_local s key (pe_addr e) (pe_size e) s1 Hok Hk Hl Hsl E) as (Hok' & Hv' & Epm & Edh & Ho & Hs').
  eexists. split; [by eapply sp_put|]. split; cbn [ms_map ms_pending]; rewrite ?Epm, ?Edh.
  - done.
  - done.
  - intros k Hwk. destruct (decide (k = k_data key)) as [->|Hne].
    + rewrite lookup_insert_eq. exists (pe_addr e). by rewrite Hlen.
    + rewrite lookup_insert_ne by done. rewrite Ho by done. by apply Hv.
  - intros k e' He'. apply lookup_delete_Some in He' as [Hne He']. destruct (Hp k e' He') as (Hwk & Hmk & Hsk & Hbk).
    rewrite Hs', lookup_insert_ne by done. done.
  - intros k k' e' a n He' Hwk Hne Hsk. apply lookup_delete_Some in He' as [_ He']. rewrite Hs' in Hsk by done. by eapply Hi.
Qed.

Lemma sim_get s ms key r s' : sim s ms -> local_key key -> run_call ms (CGet key) s = (r, s') ->
  exists ms', spec_step ms (CGet key) r ms' /\ sim s' ms'.
Proof.
  intros S [Hk Hl] E. pose proof S as [Hd Hok Hv Hp Hi]. rewrite <- Hd in Hl. destruct ms as [m p]. cbn [ms_map ms_pending] in *.
  unfold run_call in E. pose proof (Hv _ Hk) as HV. destruct (m !! k_data key) as [bytes|] eqn:Em.
  - destruct HV as (a & Ev & Hb).
    destruct (Get_kv_pmem s key a (Z.of_nat (length bytes)) bytes Hok Hk Hl Ev) as (b & s1 & Eg & D & Hh).
    { unfold read_mem. rewrite Hb, Z.leb_refl, take_ge by lia. done. }
    rewrite (cbind_ret _ _ _ _ _ Eg) in E. unfold read_value, read_mem in E. cbn [v_data v_size] in E.
    rewrite Hh, Z.leb_refl, take_ge in E by lia. injection E as <- <-.
    exists (mkMapSpec m p). split; [by apply sp_get|]. destruct D as (D1 & D2 & D3). split; rewrite ?D1, ?D2, ?D3; try done.
  - exists (mkMapSpec m p). unfold Get_kv in E. unfold cbind at 1 in E.
    rewrite (cbind_ret _ _ _ _ _ (is_local_run s key true Hl)) in E. cbn [negb] in E.
    unfold Get_new, cbind, on_tree, czoom in E. rewrite (rt_Get_view _ _ Hok Hk), HV in E. cbn [fst snd] in E.
    injection E as <- <-. split; [by apply sp_get_none|]. by split.
Qed.

(** ** Sequences of calls *)

(** What the clients know after a call: the values they hold, and what they put. *)
Definition book (ms : map_spec) (o : call_op) (r : outcome exn result) : map_spec :=
  let (m, p) := ms in
  match o, r with
  | CAlloc key size, Ret (RAddr a) => mkMapSpec m (<[k_data key := mkPending a size None]> p)
  | CAlloc key _, _ => mkMapSpec m (delete (k_data key) p)
  | CWrite key bytes, _ =>
      match p !! k_data key with
      | Some e => mkMapSpec m (<[k_data key := mkPending (pe_addr e) (pe_size e) (Some bytes)]> p)
      | None => ms
      end
  | CPut key, Ret _ =>
      match p !! k_data key ≫= pe_bytes with
      | Some bytes => mkMapSpec (<[k_data key := bytes]> m) (delete (k_data key) p)
      | None => ms
      end
  | _, _ => ms
  end.

Lemma spec_step_book ms o r ms' : spec_step ms o r ms' -> ms' = book ms o r.
Proof. destruct 1; cbn; simplify_option_eq; done. Qed.

Fixpoint play (os : list call_op) (ms : map_spec) s : list (outcome exn result) * (map_spec * store) :=
  match os with
  | [] => ([], (ms, s))
  | o :: os =>
      let c := run_call ms o s in
      let rest := play os (book ms o (fst c)) (snd c) in
      (fst c :: fst rest, snd rest)
  end.

(** ** The queue of ready keys *)

Definition returns {A} (r : outcome exn A) : Prop := match r with Ret _ => True | _ => False end.

#[local] Abbreviation engine := (@PrimaryKeyEngine R).

(** Whether a put of [key] queues it, whether the key is long enough for the layout, and for
    how many keys there is room. *)
Definition queues (e : engine) (key : list Z) : bool :=
  match e with
  | EBase _ => false
  | ENextQueue q => part_value (primary_part (base q) key) mod _nNodes (base q) =? _localNodeId (base q)
  end.
Definition fits (e : engine) (key : list Z) : Prop :=
  match e with EBase _ => True | ENextQueue q => PrimaryKey._keySize (base q) <= Z.of_nat (length key) end.
Definition room_of (e : engine) : nat := match e with EBase _ => 0 | ENextQueue q => ring_room (A := list Z) (_readyKeys q) end.
Definition engine_ok (e : engine) : Prop := match e with EBase _ => True | ENextQueue q => nq_inv q end.

(** The layout of the primary key does not change. *)
Definition same_layout (e e' : engine) : Prop :=
  match e, e' with
  | EBase _, EBase _ => True
  | ENextQueue q, ENextQueue q' => base q' = base q
  | _, _ => False
  end.

Lemma same_layout_refl e : same_layout e e.
Proof. by destruct e. Qed.

Lemma layout_queues e e' key : same_layout e e' -> queues e' key = queues e key /\ (fits e key -> fits e' key).
Proof. destruct e, e'; cbn; try done. by intros ->. Qed.

(** What the engine does with a key that is put. *)
Lemma enqueue_room e key : engine_ok e -> fits e key ->
  if queues e key && (room_of e =? 0)%nat then exists x e', engine_enqueueNext key e = (Throw (OperationFailedException x), e')
  else exists e', engine_enqueueNext key e = (Ret tt, e') /\ engine_ok e' /\ same_layout e e' /\
    room_of e = (room_of e' + (if queues e key then 1 else 0))%nat.
Proof.
  destruct e as [b|q]; cbn [queues room_of engine_ok fits engine_enqueueNext andb]; intros Hi Hf.
  - eexists. split; [reflexivity|]. done.
  - pose proof (enqueueNext_spec q key Hi Hf) as HE. pose proof (isLocal_part (base q) key) as HL.
    destruct (_ =? _)%Z; cbn [andb].
    + destruct (Nat.eqb_spec (ring_room (A := list Z) (_readyKeys q)) 0) as [E0|E0].
      * rewrite HE. cbn [fst snd]. eauto.
      * destruct HE as (q' & E & Hi' & Hr). rewrite E. cbn [fst snd]. eexists. split; [reflexivity|]. split; [done|].
        pose proof (enqueueNext_base q key) as Hb. rewrite E in Hb. cbn in Hb. split; [done|].
        cbn. rewrite (enqueueNext_takes q key q'); [lia|apply HL; try done; apply Hi|lia|done].
    + rewrite HE. cbn [fst snd]. eexists. split; [reflexivity|]. split_and!; try done.
Qed.

(** ** Only a put uses the queue *)

Ltac keeps_auto := repeat first [done | apply keeps_bind; [|intros] | case_match].

Lemma keeps_get key : keeps (S := store) _spPKey (Get_kv key).
Proof.
  unfold Get_kv, Get_new, _getOffloaded_new, wait_get, read_pmem, on_offload. keeps_auto.
Qed.

Lemma run_call_pkey ms o : (forall key, o <> CPut key) -> keeps (S := store) _spPKey (run_call ms o).
Proof.
  intros Ho. destruct o as [key size|key bytes|key|key]; cbn [run_call].
  - unfold Alloc_kv, Alloc_raw. keeps_auto.
  - case_match; [|done]. intros s. unfold cmod, cbind, cret, write_value, held. done.
  - by destruct (Ho key).
  - apply keeps_bind; [apply keeps_get|]. intros v s. unfold read_value. repeat case_match; done.
Qed.

(** ** Puts *)

(** The client's key can be freed. *)
Definition freeable (key : Key) s : Prop := fst (Free_key key s) = Ret tt.

(** Freeing looks at the heap and the client only. *)
Lemma freeable_same key s s' : heap s' = heap s -> _spDhtClient s' = _spDhtClient s -> freeable key s -> freeable key s'.
Proof.
  unfold freeable, Free_key, on_client, czoom, delete_block, cbind, cget. intros Eh Ec.
  destruct (k_kvs key); [by rewrite Ec|]. destruct (k_block key); [|done]. rewrite Eh. by destruct (heap s !! _).
Qed.

(** A put of a written value returns exactly when the queue takes the key. *)
Lemma put_returns s ms key : sim s ms -> local_key key -> allowed ms (CPut key) -> freeable key s ->
  engine_ok (_spPKey s) -> fits (_spPKey s) (k_data key) ->
  if queues (_spPKey s) (k_data key) && (room_of (_spPKey s) =? 0)%nat
  then ~ returns (fst (run_call ms (CPut key) s))
  else fst (run_call ms (CPut key) s) = Ret RDone /\ engine_ok (_spPKey (snd (run_call ms (CPut key) s))) /\
    same_layout (_spPKey s) (_spPKey (snd (run_call ms (CPut key) s))) /\
    room_of (_spPKey s) = (room_of (_spPKey (snd (run_call ms (CPut key) s))) + (if queues (_spPKey s) (k_data key) then 1 else 0))%nat.
Proof.
  intros [Hd Hok Hv Hp Hi] [Hk Hl] (e & bytes & He & Hb) Hf Ho Hft. rewrite <- Hd in Hl.
  destruct (Hp _ _ He) as (_ & _ & Hsl & _). cbn [run_call]. rewrite He.
  pose proof (rt_Put_slot _ _ Hok Hk) as HP. rewrite Hsl in HP. destruct HP as (t & Et & _).
  pose proof (enqueue_room _ _ Ho Hft) as HE. unfold cbind. destruct (Put_kv key (held e) s) as [r s'] eqn:E.
  unfold Put_kv, cbind at 1, ccatch in E.
  rewrite (cbind_ret _ _ _ _ _ (is_local_run s key true Hl)) in E. cbn [negb] in E. unfold Put_raw, cbind at 1, on_tree at 1, czoom in E.
  rewrite Et in E. cbn [fst snd] in E. unfold ccatch, on_pkey, czoom in E. cbn [_spPKey] in E. destruct (_ && _).
  - destruct HE as (x & e' & HE). rewrite HE in E. cbn [fst snd] in E. unfold cbind, cthrow in E.
    destruct r; try (by intros ?). exfalso.
    destruct (on_tree _ _) as [[]?]; try done; destruct (Free_value _ _ _) as [[]?]; try done; by destruct (Free_key _ _) as [[]?].
  - destruct HE as (e' & HE & Ho' & Hs' & Hr). rewrite HE in E. cbn [fst snd] in E. set (s1 := mkKVStore _ _ _ _ _ _ _ _ _) in E.
    assert (EF : Free_value key (held e) s1 = (Ret tt, s1)).
    { unfold Free_value, held. cbn [v_kvs]. by rewrite (cbind_ret _ _ _ _ _ (is_local_run s1 key true Hl)). }
    rewrite (cbind_ret _ _ _ _ _ EF) in E.
    assert (Hf1 : freeable key s1) by (by apply (freeable_same key s)). unfold freeable in Hf1.
    assert (Hpk : _spPKey (snd (Free_key key s1)) = e').
    { unfold Free_key, delete_block, cbind, cget. destruct (k_kvs key); [done|]. destruct (k_block key); [|done].
      by destruct (heap s1 !! _). }
    rewrite E in Hf1, Hpk. cbn in Hf1, Hpk. subst. done.
Qed.

(** ** Sequences of calls *)

Context (e0 : engine).

(** The specification with the queue: its state is the map and how many keys there is room
    for, or nothing after a put was refused. *)
Inductive queue_step : option (map_spec * nat) -> call_op -> outcome exn result -> option (map_spec * nat) -> Prop :=
| qs_other ms n o r ms' : (forall key, o <> CPut key) -> spec_step ms o r ms' -> queue_step (Some (ms, n)) o r (Some (ms', n))
| qs_put ms n key r ms' : queues e0 (k_data key) = false -> spec_step ms (CPut key) r ms' ->
    queue_step (Some (ms, n)) (CPut key) r (Some (ms', n))
| qs_put_queued ms n key r ms' : queues e0 (k_data key) = true -> spec_step ms (CPut key) r ms' ->
    queue_step (Some (ms, S n)) (CPut key) r (Some (ms', n))
| qs_refused ms key r : queues e0 (k_data key) = true -> ~ returns r -> queue_step (Some (ms, 0%nat)) (CPut key) r None
| qs_any o r : queue_step None o r None.

Inductive queue_trace : option (map_spec * nat) -> list (call_op * outcome exn result) -> option (map_spec * nat) -> Prop :=
| qt_nil st : queue_trace st [] st
| qt_cons st o r st1 l st2 : queue_step st o r st1 -> queue_trace st1 l st2 -> queue_trace st ((o, r) :: l) st2.

Definition put_refused (o : call_op) (r : outcome exn result) : bool :=
  match o, r with CPut _, Ret _ => false | CPut _, _ => true | _, _ => false end.

(** What the clients have to keep to, until a put is refused: they call with keys of this
    node that have the length of the layout, write before they put, and put keys that they
    may free. *)
Fixpoint protocol (os : list call_op) (ms : map_spec) s : Prop :=
  match os with
  | [] => True
  | o :: os =>
      let c := run_call ms o s in
      local_key (op_key o) /\ fits e0 (k_data (op_key o)) /\ allowed ms o /\
      (match o with CPut key => freeable key s | _ => True end) /\
      (if put_refused o (fst c) then True else protocol os (book ms o (fst c)) (snd c))
  end.

Lemma protocol_next o os ms s : local_key (op_key o) -> fits e0 (k_data (op_key o)) -> allowed ms o ->
  (match o with CPut key => freeable key s | _ => True end) ->
  put_refused o (fst (run_call ms o s)) = true \/ protocol os (book ms o (fst (run_call ms o s))) (snd (run_call ms o s)) ->
  protocol (o :: os) ms s.
Proof. intros ? ? ? ? Hn. cbn [protocol]. split_and!; try done. destruct (put_refused _ _); [done|]. by destruct Hn. Qed.

Definition sim_queue s (ms : map_spec) (n : nat) : Prop :=
  sim s ms /\ engine_ok (_spPKey s) /\ same_layout e0 (_spPKey s) /\ room_of (_spPKey s) = n.

Lemma no_promise os : forall rs, queue_trace None (zip os rs) None.
Proof. induction os as [|o os IH]; intros [|r rs]; econstructor; [constructor|apply IH]. Qed.

Lemma same_layout_trans e1 e2 e3 : same_layout e1 e2 -> same_layout e2 e3 -> same_layout e1 e3.
Proof. destruct e1, e2, e3; cbn; try done. congruence. Qed.

(** A call that is not refused keeps the map. *)
Lemma sim_call s ms o r s' : sim s ms -> local_key (op_key o) -> allowed ms o -> run_call ms o s = (r, s') -> put_refused o r = false ->
  spec_step ms o r (book ms o r) /\ sim s' (book ms o r).
Proof.
  intros S Hl Ha E Hr. enough (exists ms', spec_step ms o r ms' /\ sim s' ms') as (ms' & Hs & S').
  { by rewrite <- (spec_step_book _ _ _ _ Hs). }
  destruct o as [key size|key bytes|key|key]; cbn [op_key] in *.
  - by eapply sim_alloc.
  - by eapply sim_write.
  - destruct r as [r| | |]; try done. by eapply sim_put.
  - by eapply sim_get.
Qed.

Lemma sim_queue_other s ms n o : (forall key, o <> CPut key) -> sim_queue s ms n -> local_key (op_key o) -> allowed ms o ->
  queue_step (Some (ms, n)) o (fst (run_call ms o s)) (Some (book ms o (fst (run_call ms o s)), n)) /\
  sim_queue (snd (run_call ms o s)) (book ms o (fst (run_call ms o s))) n.
Proof.
  intros Hp (S & Ho & Hs & Hn) Hl Ha. pose proof (run_call_pkey ms o Hp s) as Hpk.
  destruct (run_call ms o s) as [r s'] eqn:E. cbn [fst snd] in *.
  destruct (sim_call s ms o r s' S Hl Ha E) as [Hst S']; [destruct o; try done; by destruct (Hp key)|].
  split; [by apply qs_other|]. split; [done|]. by rewrite Hpk.
Qed.

Lemma sim_queue_step s ms n o : sim_queue s ms n -> local_key (op_key o) -> fits e0 (k_data (op_key o)) -> allowed ms o ->
  (match o with CPut key => freeable key s | _ => True end) ->
  if put_refused o (fst (run_call ms o s)) then queue_step (Some (ms, n)) o (fst (run_call ms o s)) None
  else exists n', queue_step (Some (ms, n)) o (fst (run_call ms o s)) (Some (book ms o (fst (run_call ms o s)), n')) /\
    sim_queue (snd (run_call ms o s)) (book ms o (fst (run_call ms o s))) n'.
Proof.
  intros SQ Hl Hft Ha Hf. destruct o as [key size|key bytes|key|key].
  1,2,4: cbn [put_refused]; exists n; by apply sim_queue_other.
  destruct SQ as (S & Ho & Hs & Hn). cbn [op_key] in *. destruct (layout_queues _ _ (k_data key) Hs) as [Hq Hfit].
  pose proof (put_returns s ms key S Hl Ha Hf Ho (Hfit Hft)) as HP. rewrite Hq, Hn in HP.
  destruct (run_call ms (CPut key) s) as [r s'] eqn:E. cbn [fst snd] in *.
  destruct (queues e0 (k_data key)) eqn:Eq, n as [|n]; cbn [andb Nat.eqb] in HP;
    [destruct r as [r| | |]; [by destruct HP|by apply qs_refused..]|..];
    destruct HP as (-> & Ho' & Hs' & Hr'); cbn [put_refused];
    destruct (sim_call s ms (CPut key) _ s' S Hl Ha E eq_refl) as (Hst & S'); eexists;
    (split; [first [by apply qs_put_queued|by apply qs_put]|split_and!; try done; [by eapply same_layout_trans|lia]]).
Qed.

Lemma sim_queue_trace os : forall ms n s, sim_queue s ms n -> protocol os ms s ->
  exists st, queue_trace (Some (ms, n)) (zip os (fst (play os ms s))) st.
Proof.
  induction os as [|o os IH]; intros ms n s S Hp; [by eexists; constructor|].
  destruct Hp as (Hl & Hft & Ha & Hf & Hp). cbn [play fst snd zip zip_with].
  pose proof (sim_queue_step s ms n o S Hl Hft Ha Hf) as HS. destruct (put_refused _ _).
  - eexists. econstructor; [exact HS|apply no_promise].
  - destruct HS as (n' & Hst & S'). destruct (IH _ _ _ S' Hp) as (st & Ht). exists st. by econstructor.
Qed.

End Refinement.

(** ** A concrete run *)

Section Runs.
#[local] Existing Instances simple_pool KVStore.run_tree KVStore.run_ring KVStore.run_services.

Definition map_key2 : Key := mkKey key2 None true.

Lemma wf_key2 : wf_key key2.
Proof. split; [reflexivity|]. repeat constructor; lia. Qed.

Lemma run_new_empty k : view run_new k = None.
Proof.
  unfold view. destruct (create_inv 1 1 (∅ : gset positive) (snd (TreeImpl_create 1 1 (∅ : gset positive))) 16 run_new)
    as (_ & Hn & _); [vm_compute; reflexivity..|]. by rewrite Hn.
Qed.

(** Two clients whose calls are interleaved; the second key is read before it is put, and
    the queue has room for one key only. *)
Definition two_clients : list call_op :=
  [CAlloc store_key 3; CAlloc map_key2 2; CWrite map_key2 [20; 21]; CWrite store_key [10; 11; 12]; CPut store_key;
   CGet map_key2; CGet store_key; CPut map_key2; CGet store_key].

Definition small_queue : @PrimaryKeyEngine (list_ring (list Z)) := ENextQueue (mkNextQueue run_pkeys (mkListRing [] 1)).
Definition queue_store := run_store run_new small_queue.

End Runs.
