(* ===== verification/DhtRpc.v ===== *)
(** * Remote calls ([lib/dht/DhtClient], [DhtServer])

    A client writes a request into its message buffer and waits for the response;
    the server's handlers run the call on their store.  The messages are the structs
    that both sides lay over the buffers.  eRPC, which carries a request to the
    handler of its type and the response back, is the parameter [remote] of the
    client: the response that [_runToResponse] waits for. *)

From S2P Require Import Prelude Status ARTree RTreeEngine Poller Rqst PrimaryKey DhtCore KVStore.

(** ** Messages *)

Inductive ErpRequestType : Type :=
| ERP_REQUEST_GET | ERP_REQUEST_GETANY | ERP_REQUEST_PUT | ERP_REQUEST_REMOVE.

Definition sizeof_DaqdbDhtMsg : Z := 16.
Definition sizeof_DaqdbDhtResult : Z := 16.
Definition ERPC_DAQDB_METADATA_SIZE : Z := 64.
Definition ERPC_MAX_REQUEST_SIZE : Z := 64 * 1024 + ERPC_DAQDB_METADATA_SIZE.
Definition ERPC_MAX_RESPONSE_SIZE : Z := 64 * 1024 + ERPC_DAQDB_METADATA_SIZE.

Record DaqdbDhtMsg : Type := mkMsg { keySize : Z; valSize : Z; msg : list Z }.
Record DaqdbDhtResult : Type := mkResult { status : Z; msgSize : Z; rmsg : list Z }.

(** ** The server's handlers *)

Section Server.
Context {T R O N : Type} `{RTreeEngine T} `{SpdkRing (list Z) R} `{StoreServices O N}.
#[local] Abbreviation SM A := (M exn (@KVStore T R O N) A).

(** The key of a request: the handlers do not check the sizes against the length of
    the message. *)
Definition msg_key (m : DaqdbDhtMsg) : SM (list Z) := fun s =>
  (if keySize m <=? Z.of_nat (length (msg m)) then Ret (take (Z.to_nat (keySize m)) (msg m)) else Undef, s).

(** A handler answers an [OperationFailedException] with its code; other exceptions
    leave the handler. *)
Definition answer (m : SM DaqdbDhtResult) : SM DaqdbDhtResult :=
  ccatch m (fun e => match e with
                     | OperationFailedException st => cret (mkResult st 0 [])
                     | _ => cthrow e
                     end).

Definition erpcReqGetAnyHandler (m : DaqdbDhtMsg) : SM DaqdbDhtResult :=
  answer (let! s := cget in
          let! key := GetAny_raw (replicate (Z.to_nat (_keySize s)) 0) in
          cret (mkResult OK (_keySize s) key)).

Definition erpcReqGetHandler (m : DaqdbDhtMsg) : SM DaqdbDhtResult :=
  answer (let cap := ERPC_MAX_RESPONSE_SIZE - sizeof_DaqdbDhtResult in
          let! key := msg_key m in
          let! bytes := Get_into key (Some cap) cap in
          cret (mkResult OK (Z.of_nat (length bytes)) bytes)).

(** [memcpy(value, msg->msg + msg->keySize, msg->valSize)]. *)
Definition store_value (p : vptr) (bytes : list Z) : SM unit := fun s =>
  match p with
  | VPmem a => (Ret tt, mkKVStore (_spRtree s) (<[a := bytes]> (pmem s)) (heap s) (_spPKey s) (_spOffloadPoller s)
                          (_spDhtClient s) (_spDht s) (offloadEnabled s) (_keySize s))
  | VHeap a => (Ret tt, mkKVStore (_spRtree s) (pmem s) (<[a := bytes]> (heap s)) (_spPKey s) (_spOffloadPoller s)
                          (_spDhtClient s) (_spDht s) (offloadEnabled s) (_keySize s))
  | VMsg => (Undef, s)
  end.

(** The allocation is before the [try] block. *)
Definition erpcReqPutHandler (m : DaqdbDhtMsg) : SM DaqdbDhtResult :=
  let! key := msg_key m in
  let! value := Alloc_raw key (valSize m) true in
  if Z.of_nat (length (msg m)) <? keySize m + valSize m then cundef
  else
    store_value value (take (Z.to_nat (valSize m)) (drop (Z.to_nat (keySize m)) (msg m))) ;;;
    answer (Put_raw key false ;;; cret (mkResult OK 0 [])).

Definition erpcReqRemoveHandler (m : DaqdbDhtMsg) : SM DaqdbDhtResult :=
  let! key := msg_key m in
  answer (Remove_raw key ;;; cret (mkResult OK 0 [])).

(** The handler that the nexus runs for a type. *)
Definition serve (ty : ErpRequestType) (m : DaqdbDhtMsg) : SM DaqdbDhtResult :=
  match ty with
  | ERP_REQUEST_GET => erpcReqGetHandler m
  | ERP_REQUEST_GETANY => erpcReqGetAnyHandler m
  | ERP_REQUEST_PUT => erpcReqPutHandler m
  | ERP_REQUEST_REMOVE => erpcReqRemoveHandler m
  end.
End Server.

(** ** The client *)

Section Client.
Context {W : Type} (remote : DhtNode -> ErpRequestType -> DaqdbDhtMsg -> W -> DaqdbDhtResult * W).

(** [class DhtClient]: the request buffer, which keeps what was written to it, its
    flags, the routing, the thread-local index of [getHostAny], and the world that
    requests go to. *)
Record DhtClient : Type := mkDhtClient {
  _reqMsgBuf : DaqdbDhtMsg; _reqMsgBufInUse : bool; _reqMsgBufValInUse : bool;
  _dhtCore : DhtCore; host_idx : Z; world : W }.

#[local] Abbreviation CM A := (M exn DhtClient A).

Definition set_msg (m : DaqdbDhtMsg) : CM unit := fun c =>
  (Ret tt, mkDhtClient m (_reqMsgBufInUse c) (_reqMsgBufValInUse c) (_dhtCore c) (host_idx c) (world c)).

(** [resizeMsgBuffers]: a size above that of the buffers is not allowed. *)
Definition resizeMsgBuffers (req resp : Z) : CM unit :=
  if (req <=? ERPC_MAX_REQUEST_SIZE) && (resp <=? ERPC_MAX_RESPONSE_SIZE) then cret tt else cundef.

(** A key in the message buffer is already in place, and its size was set by
    [allocKey]. *)
Definition fillReqMsg (key : option Key) (val : option (list Z)) : CM unit :=
  let! c := cget in
  let m := _reqMsgBuf c in
  let m := match key with
           | Some k =>
               if k_kvs k then m
               else mkMsg (Z.of_nat (length (k_data k))) (valSize m) (overwrite 0 (k_data k) (msg m))
           | None => m
           end in
  let off := match key with Some k => length (k_data k) | None => O end in
  let m := match val with
           | Some v => mkMsg (keySize m) (Z.of_nat (length v)) (overwrite off v (msg m))
           | None => m
           end in
  set_msg m.

(** The response to a request; [_runToResponse] throws a status that is not [OK]. *)
Definition enqueueAndWait (host : DhtNode) (ty : ErpRequestType) (size : Z) : CM DaqdbDhtResult := fun c =>
  let m := _reqMsgBuf c in
  let sent := mkMsg (keySize m) (valSize m) (take (Z.to_nat (size - sizeof_DaqdbDhtMsg)) (msg m)) in
  let (res, w) := remote host ty sent (world c) in
  let c := mkDhtClient m (_reqMsgBufInUse c) (_reqMsgBufValInUse c) (_dhtCore c) (host_idx c) w in
  if status res =? OK then (Ret res, c) else (Throw (OperationFailedException (status res)), c).

Definition getTargetHost (key : Key) : CM DhtNode := fun c => (getHostForKey (_dhtCore c) (k_data key), c).
Definition getAnyHost : CM DhtNode := fun c =>
  let r := getHostAny (_dhtCore c) (host_idx c) in
  (fst r, mkDhtClient (_reqMsgBuf c) (_reqMsgBufInUse c) (_reqMsgBufValInUse c) (_dhtCore c) (snd r) (world c)).

(** The bytes that [clbGet] and [clbGetAny] copy from the response. *)
Definition response_bytes (r : DaqdbDhtResult) : list Z := take (Z.to_nat (msgSize r)) (rmsg r).

Definition get (key : Key) : CM (list Z) :=
  let size := sizeof_DaqdbDhtMsg + Z.of_nat (length (k_data key)) in
  resizeMsgBuffers size ERPC_MAX_RESPONSE_SIZE ;;;
  fillReqMsg (Some key) None ;;;
  let! host := getTargetHost key in
  let! r := enqueueAndWait host ERP_REQUEST_GET size in
  cret (response_bytes r).

Definition getAny : CM (list Z) :=
  resizeMsgBuffers sizeof_DaqdbDhtMsg ERPC_MAX_RESPONSE_SIZE ;;;
  fillReqMsg None None ;;;
  let! host := getAnyHost in
  let! r := enqueueAndWait host ERP_REQUEST_GETANY sizeof_DaqdbDhtMsg in
  cret (response_bytes r).

Definition put (key : Key) (val : list Z) : CM unit :=
  let size := sizeof_DaqdbDhtMsg + Z.of_nat (length (k_data key)) + Z.of_nat (length val) in
  resizeMsgBuffers size sizeof_DaqdbDhtResult ;;;
  fillReqMsg (Some key) (Some val) ;;;
  let! host := getTargetHost key in
  let! _ := enqueueAndWait host ERP_REQUEST_PUT size in
  cret tt.

Definition remove (key : Key) : CM unit :=
  let size := sizeof_DaqdbDhtMsg + Z.of_nat (length (k_data key)) in
  resizeMsgBuffers size sizeof_DaqdbDhtResult ;;;
  fillReqMsg (Some key) None ;;;
  let! host := getTargetHost key in
  let! _ := enqueueAndWait host ERP_REQUEST_REMOVE size in
  cret tt.

(** [allocKey] and [alloc] hand out parts of the one message buffer. *)
Definition allocKey (ks : Z) : CM Key := fun c =>
  if _reqMsgBufInUse c then (Throw (OperationFailedException DHT_ALLOCATION_ERROR), c)
  else
    let m := _reqMsgBuf c in
    (Ret (mkKey (take (Z.to_nat ks) (msg m)) None true),
     mkDhtClient (mkMsg ks (valSize m) (msg m)) true (_reqMsgBufValInUse c) (_dhtCore c) (host_idx c) (world c)).

Definition free_key : CM unit := fun c =>
  (Ret tt, mkDhtClient (_reqMsgBuf c) false (_reqMsgBufValInUse c) (_dhtCore c) (host_idx c) (world c)).

Definition alloc (size : Z) : CM Value := fun c =>
  if _reqMsgBufValInUse c then (Throw (OperationFailedException DHT_ALLOCATION_ERROR), c)
  else
    let m := _reqMsgBuf c in
    (Ret (mkValue (Some VMsg) size true),
     mkDhtClient (mkMsg (keySize m) size (msg m)) (_reqMsgBufInUse c) true (_dhtCore c) (host_idx c) (world c)).

Definition free_value : CM unit := fun c =>
  (Ret tt, mkDhtClient (_reqMsgBuf c) (_reqMsgBufInUse c) false (_dhtCore c) (host_idx c) (world c)).
End Client.

(** ** A remote put and get *)

Section RoundTrip.
Context {T R O N : Type} `{RTreeEngine T} `{SpdkRing (list Z) R} `{StoreServices O N}.
#[local] Abbreviation store := (@KVStore T R O N).
Context (remote : DhtNode -> ErpRequestType -> DaqdbDhtMsg -> store -> DaqdbDhtResult * store).

(** What eRPC promises: a request is run by the handler of its type, and the
    response of a handler that returns comes back unchanged. *)
Definition delivers : Prop := forall host ty m s r s',
  serve ty m s = (Ret r, s') -> remote host ty m s = (r, s').

Implicit Types s : store.

Lemma enqueueNext_no_OK k (e : @PrimaryKeyEngine R) e' :
  engine_enqueueNext k e <> (Throw (OperationFailedException OK), e').
Proof.
  destruct e as [b|q]; [done|]. unfold engine_enqueueNext, enqueueNext, isLocal, modulo, _createPKeyBuff.
  assert (HM : forall n l v ex, modulo_loop n l v <> Throw ex).
  { induction n as [|n IH]; intros l v ex; [done|]. cbn [modulo_loop]. repeat case_scrut; done || apply IH. }
  repeat case_scrut; try done; intros [= -> _]; by eapply HM.
Qed.

Lemma overwrite_prefix (buf l : list Z) : take (length buf) (overwrite 0 buf l) = buf.
Proof. unfold overwrite. simpl. apply take_app_length. Qed.

Lemma overwrite_two (a b l : list Z) :
  (length a + length b <= length l)%nat ->
  take (length a + length b) (overwrite (length a) b (overwrite 0 a l)) = a ++ b.
Proof.
  intros Hl. unfold overwrite at 1. rewrite overwrite_prefix, app_assoc.
  rewrite <- (length_app a b). apply take_app_length.
Qed.

Lemma overwrite_0_length (a l : list Z) : (length a <= length l)%nat -> length (overwrite 0 a l) = length l.
Proof. intros. by apply overwrite_length. Qed.

Lemma msg_key_run (k rest : list Z) vs s :
  msg_key (mkMsg (Z.of_nat (length k)) vs (k ++ rest)) s = (Ret k, s).
Proof.
  unfold msg_key. cbn [keySize msg]. rewrite length_app, Nat2Z.id, take_app_length.
  destruct (Z.leb_spec (Z.of_nat (length k)) (Z.of_nat (length k + length rest))); [done|lia].
Qed.

(** A put never fails with the code of success. *)
Lemma Put_raw_no_OK s k s' :
  rt_ok (_spRtree s) -> rt_key (T := T) k -> Put_raw k false s <> (Throw (OperationFailedException OK), s').
Proof.
  intros Hok Hk E. unfold Put_raw in E. pose proof (rt_Put_slot _ _ Hok Hk) as HP.
  unfold cbind at 1, on_tree at 1, czoom in E. destruct (rt_slot (_spRtree s) k) as [[a n]|].
  2:{ by rewrite HP in E. }
  destruct HP as (t & Et & Hok1 & _). rewrite Et in E. cbn [fst snd] in E.
  unfold ccatch, on_pkey, czoom in E. cbn [_spPKey] in E.
  destruct (engine_enqueueNext k (_spPKey s)) as [[[]|e| |] p] eqn:Ee; cbn [fst snd] in E; try done.
  destruct e; try done. unfold cbind at 1, on_tree, czoom in E. cbn [_spRtree] in E.
  destruct (rt_Remove k t) as [[[]|e'| |] t2] eqn:Er; cbn [fst snd] in E; try done.
  - injection E as -> _. by apply (enqueueNext_no_OK k (_spPKey s) p).
  - injection E as -> _. apply (rt_Remove_throws _ _ _ _ Hok1 Hk) in Er. done.
Qed.

(** A put handler that answers [OK] has stored the value under the key. *)
Lemma put_handler_stores k v s r s' :
  rt_ok (_spRtree s) -> rt_key (T := T) k ->
  erpcReqPutHandler (mkMsg (Z.of_nat (length k)) (Z.of_nat (length v)) (k ++ v)) s = (Ret r, s') -> status r = OK ->
  exists a, rt_ok (_spRtree s') /\ rt_view (_spRtree s') k = Some (Some a, Z.of_nat (length v), PMEM) /\
    read_mem (pmem s') a (Z.of_nat (length v)) = Ret v.
Proof.
  intros Hok Hk E Hst. unfold erpcReqPutHandler in E. rewrite (cbind_ret _ _ _ _ _ (msg_key_run k v _ s)) in E.
  cbn [keySize valSize msg] in E. apply cbind_inv in E as (p & s1 & Ea & E).
  unfold Alloc_raw in Ea. apply cbind_inv in Ea as (a & s1' & Ea & Er). injection Er as <- <-.
  unfold on_tree, czoom in Ea. destruct (rt_Alloc_slot _ _ (Z.of_nat (length v)) Hok Hk) as (ra & t & Et & Hok1 & _ & Hra).
  rewrite Et in Ea. cbn [fst snd] in Ea. injection Ea as -> <-. destruct Hra as (_ & _ & Hs & _).
  destruct (Z.ltb_spec (Z.of_nat (length (k ++ v))) (Z.of_nat (length k) + Z.of_nat (length v))) as [Hlt|_]; [done|].
  rewrite !Nat2Z.id, drop_app_length, take_ge in E by lia.
  apply cbind_inv in E as ([] & s2 & Es & E). injection Es as <-.
  unfold answer, ccatch in E. set (s2 := mkKVStore _ _ _ _ _ _ _ _ _) in E.
  destruct (cbind (Put_raw k false) _ s2) as [[r1|e| |] s3] eqn:Ep; try done.
  2:{ destruct e; try done. injection E as <- _. cbn [status] in Hst. subst.
      unfold cbind in Ep. destruct (Put_raw k false s2) as [[[]|e| |] s4] eqn:Er; try done.
      injection Ep as -> ->. by apply (Put_raw_no_OK s2 k s3) in Er. }
  injection E as <- <-. apply cbind_inv in Ep as ([] & s4 & Ep & Er). injection Er as <- <-.
  destruct (Put_raw_tree _ _ _ Ep) as (t' & Et' & Etr & Epm & _). cbn [_spRtree s2] in Et'.
  pose proof (rt_Put_slot _ _ Hok1 Hk) as HP. rewrite Hs in HP. destruct HP as (t2 & Et2 & Hok2 & Hv & _).
  rewrite Et' in Et2. injection Et2 as ->. exists a. rewrite Etr, Epm. split_and!; [done|done|].
  cbn [pmem s2]. unfold read_mem. rewrite lookup_insert_eq.
  destruct (Z.leb_spec (Z.of_nat (length v)) (Z.of_nat (length v))); [|lia]. by rewrite take_ge by lia.
Qed.

(** A get handler answers with the bytes of a value in persistent memory that fits a
    response. *)
Lemma get_handler_reads k vs a n v s :
  rt_ok (_spRtree s) -> rt_key (T := T) k -> rt_view (_spRtree s) k = Some (Some a, n, PMEM) ->
  read_mem (pmem s) a n = Ret v -> Z.of_nat (length v) = n -> n <= ERPC_MAX_RESPONSE_SIZE - sizeof_DaqdbDhtResult ->
  exists s', erpcReqGetHandler (mkMsg (Z.of_nat (length k)) vs k) s = (Ret (mkResult OK n v), s').
Proof.
  intros Hok Hk Hv Hb Hl Hn. unfold erpcReqGetHandler, answer, ccatch.
  pose proof (msg_key_run k [] vs s) as Em. rewrite app_nil_r in Em. rewrite (cbind_ret _ _ _ _ _ Em). unfold Get_into, cbind, on_tree, czoom.
  rewrite (rt_Get_view _ _ Hok Hk), Hv. cbn [fst snd].
  destruct (Z.ltb_spec (ERPC_MAX_RESPONSE_SIZE - sizeof_DaqdbDhtResult) n); [lia|].
  unfold read_pmem. cbn [pmem]. rewrite Hb. unfold cret. rewrite Hl. by eexists.
Qed.

#[local] Abbreviation client := (@DhtClient store).

(** What the client sends for a put and for a get of a key of its own. *)
Lemma put_sends (c : client) key v host w :
  k_kvs key = false -> getHostForKey (_dhtCore c) (k_data key) = Ret host ->
  (length (k_data key) + length v <= length (msg (_reqMsgBuf c)))%nat ->
  sizeof_DaqdbDhtMsg + Z.of_nat (length (k_data key)) + Z.of_nat (length v) <= ERPC_MAX_REQUEST_SIZE ->
  remote host ERP_REQUEST_PUT
    (mkMsg (Z.of_nat (length (k_data key))) (Z.of_nat (length v)) (k_data key ++ v)) (world c) = w ->
  status (fst w) = OK ->
  exists c', put remote key v c = (Ret tt, c') /\ world c' = snd w /\ _dhtCore c' = _dhtCore c /\
    length (msg (_reqMsgBuf c')) = length (msg (_reqMsgBuf c)).
Proof.
  intros Hkv Hh Hlen Hsz Hw Hst. unfold put, cbind at 1, resizeMsgBuffers.
  destruct (Z.leb_spec (sizeof_DaqdbDhtMsg + Z.of_nat (length (k_data key)) + Z.of_nat (length v)) ERPC_MAX_REQUEST_SIZE); [|lia].
  cbn [andb]. change (sizeof_DaqdbDhtResult <=? ERPC_MAX_RESPONSE_SIZE) with true. unfold cret at 1.
  unfold cbind at 1, fillReqMsg, cbind at 1, cget. rewrite Hkv. cbn [keySize valSize msg set_msg].
  unfold cbind at 1, getTargetHost. cbn [_dhtCore]. rewrite Hh.
  unfold cbind at 1, enqueueAndWait. cbn [_reqMsgBuf world keySize valSize msg].
  replace (Z.to_nat _) with (length (k_data key) + length v)%nat by (unfold sizeof_DaqdbDhtMsg; lia).
  rewrite overwrite_two by lia. rewrite Hw. destruct w as [r w']. cbn [fst snd] in *. rewrite Hst.
  change (OK =? OK) with true. eexists. split; [reflexivity|]. split_and!; try done. cbn [_reqMsgBuf msg].
  rewrite overwrite_length; [by apply overwrite_0_length; lia|]. rewrite overwrite_0_length; lia.
Qed.

Lemma get_sends (c : client) key host w :
  k_kvs key = false -> getHostForKey (_dhtCore c) (k_data key) = Ret host ->
  (length (k_data key) <= length (msg (_reqMsgBuf c)))%nat ->
  sizeof_DaqdbDhtMsg + Z.of_nat (length (k_data key)) <= ERPC_MAX_REQUEST_SIZE ->
  remote host ERP_REQUEST_GET
    (mkMsg (Z.of_nat (length (k_data key))) (valSize (_reqMsgBuf c)) (k_data key)) (world c) = w ->
  status (fst w) = OK ->
  exists c', get remote key c = (Ret (response_bytes (fst w)), c').
Proof.
  intros Hkv Hh Hlen Hsz Hw Hst. unfold get, cbind at 1, resizeMsgBuffers.
  destruct (Z.leb_spec (sizeof_DaqdbDhtMsg + Z.of_nat (length (k_data key))) ERPC_MAX_REQUEST_SIZE); [|lia].
  cbn [andb]. rewrite Z.leb_refl. unfold cret at 1.
  unfold cbind at 1, fillReqMsg, cbind at 1, cget. rewrite Hkv. cbn [keySize valSize msg set_msg].
  unfold cbind at 1, getTargetHost. cbn [_dhtCore]. rewrite Hh.
  unfold cbind at 1, enqueueAndWait. cbn [_reqMsgBuf world keySize valSize msg].
  replace (Z.to_nat _) with (length (k_data key)) by (unfold sizeof_DaqdbDhtMsg; lia).
  rewrite overwrite_prefix, Hw. destruct w as [r w']. cbn [fst snd] in *. rewrite Hst.
  change (OK =? OK) with true. by eexists.
Qed.

Lemma remote_put_get (c : client) key v host r s' :
  delivers -> rt_ok (_spRtree (world c)) -> rt_key (T := T) (k_data key) -> k_kvs key = false ->
  getHostForKey (_dhtCore c) (k_data key) = Ret host ->
  length (msg (_reqMsgBuf c)) = Z.to_nat (ERPC_MAX_REQUEST_SIZE - sizeof_DaqdbDhtMsg) ->
  sizeof_DaqdbDhtMsg + Z.of_nat (length (k_data key)) + Z.of_nat (length v) <= ERPC_MAX_REQUEST_SIZE ->
  serve ERP_REQUEST_PUT (mkMsg (Z.of_nat (length (k_data key))) (Z.of_nat (length v)) (k_data key ++ v)) (world c) =
    (Ret r, s') -> status r = OK ->
  exists c1 c2, put remote key v c = (Ret tt, c1) /\ world c1 = s' /\ get remote key c1 = (Ret v, c2) /\
    forall b1 b2, exists c3, get remote key (mkDhtClient (_reqMsgBuf c1) b1 b2 (_dhtCore c1) (host_idx c1) (world c1)) = (Ret v, c3).
Proof.
  intros Hd Hok Hk Hkv Hh Hbuf Hsz Hput Hst.
  assert (Hcap : (length (k_data key) + length v <= length (msg (_reqMsgBuf c)))%nat).
  { rewrite Hbuf. unfold sizeof_DaqdbDhtMsg in *. lia. }
  destruct (put_sends c key v host (r, s') Hkv Hh Hcap Hsz (Hd _ _ _ _ _ _ Hput) Hst) as (c1 & E1 & Ew & Ed & El).
  destruct (put_handler_stores _ _ _ _ _ Hok Hk Hput Hst) as (a & Hok' & Hv & Hb).
  cbn [snd] in Ew.
  destruct (get_handler_reads (k_data key) (valSize (_reqMsgBuf c1)) a _ v s' Hok' Hk Hv Hb eq_refl) as (s2 & Eg).
  { unfold ERPC_MAX_RESPONSE_SIZE, ERPC_MAX_REQUEST_SIZE, sizeof_DaqdbDhtResult, sizeof_DaqdbDhtMsg in *. lia. }
  destruct (get_sends c1 key host (mkResult OK (Z.of_nat (length v)) v, s2) Hkv) as (c2 & E2); [by rewrite Ed|lia|lia| |done|].
  - rewrite Ew. by apply Hd.
  - assert (Er : response_bytes (mkResult OK (Z.of_nat (length v)) v) = v).
    { unfold response_bytes. cbn [msgSize rmsg]. by rewrite Nat2Z.id, take_ge by lia. }
    cbn [fst] in E2. rewrite Er in E2. exists c1, c2. split_and!; [done|done|done|]. intros b1 b2.
    destruct (get_sends (mkDhtClient (_reqMsgBuf c1) b1 b2 (_dhtCore c1) (host_idx c1) (world c1)) key host
      (mkResult OK (Z.of_nat (length v)) v, s2) Hkv) as (c3 & E3); cbn [_dhtCore _reqMsgBuf world]; [by rewrite Ed|lia|lia|rewrite Ew; by apply Hd|done|].
    cbn [fst] in E3. rewrite Er in E3. by exists c3.
Qed.

(** C13. A remote put and get.  A client puts a value under a key that is routed to a
    node; when the node's handler answers [OK], the put returns, and a get of the
    key returns exactly the bytes that were put.  Keys and values that fit a request
    fit the response. *)
Theorem dht_remote_put_get (c : client) key v host r s' :
  delivers -> rt_ok (_spRtree (world c)) -> rt_key (T := T) (k_data key) -> k_kvs key = false ->
  getHostForKey (_dhtCore c) (k_data key) = Ret host ->
  length (msg (_reqMsgBuf c)) = Z.to_nat (ERPC_MAX_REQUEST_SIZE - sizeof_DaqdbDhtMsg) ->
  sizeof_DaqdbDhtMsg + Z.of_nat (length (k_data key)) + Z.of_nat (length v) <= ERPC_MAX_REQUEST_SIZE ->
  serve ERP_REQUEST_PUT (mkMsg (Z.of_nat (length (k_data key))) (Z.of_nat (length v)) (k_data key ++ v)) (world c) =
    (Ret r, s') -> status r = OK ->
  exists c1 c2, put remote key v c = (Ret tt, c1) /\ world c1 = s' /\ get remote key c1 = (Ret v, c2).
Proof.
  intros Hd Hok Hk Hkv Hh Hbuf Hsz Hput Hst.
  destruct (remote_put_get c key v host r s' Hd Hok Hk Hkv Hh Hbuf Hsz Hput Hst) as (c1 & c2 & ? & ? & ? & _). by exists c1, c2.
Qed.

(** A put of a key that the server has already: the allocation is outside the
    handler's [try] block, so its exception leaves the handler and no response is
    sent. *)
Theorem dht_put_existing_leaves_handler s k v a :
  rt_ok (_spRtree s) -> rt_key (T := T) k -> rt_view (_spRtree s) k = Some a ->
  exists s', serve ERP_REQUEST_PUT (mkMsg (Z.of_nat (length k)) (Z.of_nat (length v)) (k ++ v)) s =
    (Throw (OperationFailedException PMEM_ALLOCATION_ERROR), s').
Proof.
  intros Hok Hk Hv. cbn [serve]. unfold erpcReqPutHandler. rewrite (cbind_ret _ _ _ _ _ (msg_key_run k v _ s)).
  cbn [valSize]. destruct (rt_Alloc_slot _ _ (Z.of_nat (length v)) Hok Hk) as (ra & t & Et & _ & _ & Hra).
  unfold Alloc_raw, cbind at 1, cbind at 1, on_tree, czoom. rewrite Et. cbn [fst snd].
  destruct ra as [b|e| |]; try done.
  - destruct Hra as (Hn & _). congruence.
  - destruct Hra as (-> & _). by eexists.
Qed.
End RoundTrip.

(** ** A concrete run *)

Section Runs.
#[local] Existing Instance simple_pool.
#[local] Existing Instance KVStore.run_tree.
#[local] Existing Instance KVStore.run_ring.
#[local] Existing Instance KVStore.run_services.
#[local] Abbreviation Store := (@KVStore (@ARTree (gset positive)) (list_ring (list Z)) unit unit).

(** A network that runs the handler; a handler that fails is answered with an
    error. *)
Definition run_remote (host : DhtNode) (ty : ErpRequestType) (m : DaqdbDhtMsg) (s : Store) : DaqdbDhtResult * Store :=
  match serve ty m s with
  | (Ret r, s') => (r, s')
  | (_, s') => (mkResult UNKNOWN_ERROR 0 [], s')
  end.

Lemma run_delivers : delivers run_remote.
Proof. intros host ty m s r s' E. unfold run_remote. by rewrite E. Qed.

Definition run_host : DhtNode := mkDhtNode DEFAULT_ERPC_SERVER_IP 31850 ERPC_SESSION_NOT_SET 0 10 NODE_INIT.
Definition run_client : @DhtClient Store :=
  mkDhtClient (mkMsg 0 0 (replicate (Z.to_nat (ERPC_MAX_REQUEST_SIZE - sizeof_DaqdbDhtMsg)) 0)) false false
    (mkDhtCore run_host [run_host] [((0, 10), run_host)] 1 0) 0 store0.
Definition client_key : Key := mkKey key1 None false.
Definition run_answer := serve ERP_REQUEST_PUT (mkMsg 8 3 (key1 ++ [7; 8; 9])) store0.

Lemma dht_remote_put_get_witness :
  exists c1 c2, put run_remote client_key [7; 8; 9] run_client = (Ret tt, c1) /\ world c1 = snd run_answer /\
    get run_remote client_key c1 = (Ret [7; 8; 9], c2).
Proof.
  assert (Ea : serve ERP_REQUEST_PUT (mkMsg 8 3 (key1 ++ [7; 8; 9])) store0 = (Ret (mkResult OK 0 []), snd run_answer))
    by (vm_compute; reflexivity).
  apply (dht_remote_put_get run_remote run_client client_key [7; 8; 9] run_host (mkResult OK 0 []) (snd run_answer));
    [exact run_delivers|exact (reachable_inv 1 1 1 run_new run_new_reachable)|exact wf_key1|reflexivity|reflexivity
    |exact (length_replicate _ _)|vm_compute; discriminate|exact Ea|reflexivity].
Defined.

Lemma dht_put_existing_leaves_handler_witness :
  exists s', serve ERP_REQUEST_PUT (mkMsg 8 3 (key1 ++ [7; 8; 9])) (run_store run_put (EBase run_pkeys)) =
    (Throw (OperationFailedException PMEM_ALLOCATION_ERROR), s').
Proof.
  apply (dht_put_existing_leaves_handler (run_store run_put (EBase run_pkeys)) key1 [7; 8; 9]
    (Some 11%positive, 100, PMEM)); [exact (reachable_inv 1 1 1 run_put run_put_reachable)|exact wf_key1|exact run_put_view].
Defined.
End Runs.
