(* ===== verification/DhtServing.v ===== *)
(** * The threads of the DHT server ([lib/dht/DhtServer])

    The constructor starts a server thread and waits for it; the server thread starts the
    worker threads; the destructor clears [keepRunning] and joins.  Every turn of a thread
    is one atomic access to what the threads share, and turns interleave in any order.
    Calls that may throw take their result from the turn: the creation of an eRPC endpoint,
    the creation of a thread, and [run_event_loop_once], which lets the exceptions of the
    request handlers through. *)

From S2P Require Import Prelude Status DhtRpc.

(** ** State *)

Inductive DhtServerState : Type :=
| DHT_SERVER_INIT | DHT_SERVER_READY | DHT_SERVER_ERROR | DHT_SERVER_STOPPED.

#[export] Instance DhtServerState_eq_dec : EqDecision DhtServerState.
Proof. solve_decision. Defined.

(** Where the server thread is in [_serve]. *)
Inductive serve_pc : Type :=
| SNewRpc | SSpawn (threadIndex : Z) | SReady | SKeep | SLoop | SEvents | SJoin | SEnd | SThrown.
(** Where a worker is in [_serveWorker]; [WCaught] is its end through a handler of the
    [catch] clauses that skipped [delete rpc]. *)
Inductive worker_pc : Type := WNewRpc | WLoop | WEvents | WEnd | WCaught.
(** Where the owner is: in the constructor's [serve], between constructor and destructor,
    in the destructor's [join], behind it. *)
Inductive owner_pc : Type := OServe | OOwn | OJoin | OEnd.

#[export] Instance serve_pc_eq_dec : EqDecision serve_pc.
Proof. solve_decision. Defined.
#[export] Instance worker_pc_eq_dec : EqDecision worker_pc.
Proof. solve_decision. Defined.
#[export] Instance owner_pc_eq_dec : EqDecision owner_pc.
Proof. solve_decision. Defined.

(** [endpoints] are the ids of the eRPC endpoints of the server, worker [k] has the id
    [k + 1]; [terminated] says that an exception left a thread. *)
Record DhtServer : Type := mkDhtServer {
  keepRunning : bool; state : DhtServerState; _workerThreadsNumber : Z;
  _thread : serve_pc; _workerThreads : list worker_pc; owner : owner_pc;
  endpoints : list Z; terminated : bool }.

(** The constructor up to the wait in [serve].  [keepRunning] is not initialized: [raw] is
    what its memory holds. *)
Definition DhtServer_init (raw : bool) (numWorkerThreads : Z) : DhtServer :=
  mkDhtServer raw DHT_SERVER_INIT (u8 numWorkerThreads) SNewRpc [] OServe [] false.

Definition goto (pc : serve_pc) (s : DhtServer) : DhtServer :=
  mkDhtServer (keepRunning s) (state s) (_workerThreadsNumber s) pc (_workerThreads s) (owner s) (endpoints s) (terminated s).
Definition set_server_state (st : DhtServerState) (s : DhtServer) : DhtServer :=
  mkDhtServer (keepRunning s) st (_workerThreadsNumber s) (_thread s) (_workerThreads s) (owner s) (endpoints s) (terminated s).
Definition set_keepRunning (b : bool) (s : DhtServer) : DhtServer :=
  mkDhtServer b (state s) (_workerThreadsNumber s) (_thread s) (_workerThreads s) (owner s) (endpoints s) (terminated s).
Definition set_workers (ws : list worker_pc) (eps : list Z) (s : DhtServer) : DhtServer :=
  mkDhtServer (keepRunning s) (state s) (_workerThreadsNumber s) (_thread s) ws (owner s) eps (terminated s).
Definition set_owner (o : owner_pc) (s : DhtServer) : DhtServer :=
  mkDhtServer (keepRunning s) (state s) (_workerThreadsNumber s) (_thread s) (_workerThreads s) o (endpoints s) (terminated s).
Definition terminate (s : DhtServer) : DhtServer :=
  mkDhtServer (keepRunning s) (state s) (_workerThreadsNumber s) (_thread s) (_workerThreads s) (owner s) (endpoints s) true.

(** ** Turns *)

(** The function of the worker's thread has returned. *)
Definition worker_done (w : worker_pc) : Prop := w = WEnd \/ w = WCaught.

#[export] Instance worker_done_dec w : Decision (worker_done w).
Proof. unfold worker_done. tc_solve. Defined.

(** [_serve].  An exception is rethrown by the handler, and ends the process because it
    leaves the thread. *)
Definition _serve (ok : bool) (s : DhtServer) : option DhtServer :=
  match _thread s with
  | SNewRpc =>
      if ok then Some (goto (SSpawn 1) (set_workers (_workerThreads s) (0 :: endpoints s) s))
      else Some (goto SThrown (set_server_state DHT_SERVER_ERROR s))
  | SSpawn i =>
      if i <? _workerThreadsNumber s then
        if ok then Some (goto (SSpawn (u8 (i + 1))) (set_workers (_workerThreads s ++ [WNewRpc]) (endpoints s) s))
        else Some (goto SThrown (set_server_state DHT_SERVER_ERROR s))
      else Some (goto SReady s)
  | SReady => Some (goto SKeep (set_server_state DHT_SERVER_READY s))
  | SKeep => Some (goto SLoop (set_keepRunning true s))
  | SLoop => if keepRunning s then Some (goto SEvents s) else Some (goto SJoin (set_server_state DHT_SERVER_STOPPED s))
  | SEvents => if ok then Some (goto SLoop s) else Some (goto SThrown (set_server_state DHT_SERVER_ERROR s))
  | SJoin =>
      if decide (Forall worker_done (_workerThreads s))
      then Some (goto SEnd (set_workers (_workerThreads s) (List.remove Z.eq_dec 0 (endpoints s)) s))
      else None
  | SThrown => Some (terminate s)
  | SEnd => None
  end.

(** [_serveWorker] of worker [k + 1]; it catches every exception, and one of the event loop
    leaves the endpoint behind. *)
Definition _serveWorker (k : nat) (ok : bool) (s : DhtServer) : option DhtServer :=
  let workerId := Z.of_nat k + 1 in
  match _workerThreads s !! k with
  | Some WNewRpc =>
      if ok then Some (set_workers (<[k := WLoop]> (_workerThreads s)) (workerId :: endpoints s) s)
      else Some (set_workers (<[k := WEnd]> (_workerThreads s)) (endpoints s) s)
  | Some WLoop =>
      if keepRunning s then Some (set_workers (<[k := WEvents]> (_workerThreads s)) (endpoints s) s)
      else Some (set_workers (<[k := WEnd]> (_workerThreads s)) (List.remove Z.eq_dec workerId (endpoints s)) s)
  | Some WEvents => Some (set_workers (<[k := if ok then WLoop else WCaught]> (_workerThreads s)) (endpoints s) s)
  | Some WEnd | Some WCaught | None => None
  end.

(** The loop of [serve], then the destructor. *)
Definition own (s : DhtServer) : option DhtServer :=
  match owner s with
  | OServe => if decide (state s = DHT_SERVER_INIT) then Some s else Some (set_owner OOwn s)
  | OOwn => Some (set_owner OJoin (set_keepRunning false s))
  | OJoin => if decide (_thread s = SEnd) then Some (set_owner OEnd s) else None
  | OEnd => None
  end.

Inductive turn_of : Type := TServe (ok : bool) | TWorker (k : nat) (ok : bool) | TOwner.

(** A turn; [None] when the thread cannot move. *)
Definition turn (t : turn_of) (s : DhtServer) : option DhtServer :=
  if terminated s then None
  else match t with
       | TServe ok => _serve ok s
       | TWorker k ok => _serveWorker k ok s
       | TOwner => own s
       end.

Fixpoint turns (ts : list turn_of) (s : DhtServer) : option DhtServer :=
  match ts with
  | [] => Some s
  | t :: ts => match turn t s with Some s' => turns ts s' | None => None end
  end.

Definition reachable (raw : bool) (n : Z) (s : DhtServer) : Prop :=
  exists ts, turns ts (DhtServer_init raw n) = Some s.

(** ** The invariant of all interleavings *)

Definition state_at (pc : serve_pc) : DhtServerState :=
  match pc with
  | SNewRpc | SSpawn _ | SReady => DHT_SERVER_INIT
  | SKeep | SLoop | SEvents => DHT_SERVER_READY
  | SThrown => DHT_SERVER_ERROR
  | SJoin | SEnd => DHT_SERVER_STOPPED
  end.

(** The worker has an endpoint that was not deleted. *)
Definition has_endpoint (w : worker_pc) : bool := match w with WLoop | WEvents | WCaught => true | _ => false end.

(** How many workers there are. *)
Definition spawned (s : DhtServer) : Prop :=
  let n := Z.max 0 (_workerThreadsNumber s - 1) in
  match _thread s with
  | SNewRpc => _workerThreads s = []
  | SSpawn i => Z.of_nat (length (_workerThreads s)) = i - 1 /\ i - 1 <= n
  | SThrown => Z.of_nat (length (_workerThreads s)) <= n
  | _ => Z.of_nat (length (_workerThreads s)) = n
  end.

Record server_inv (s : DhtServer) : Prop := {
  si_number : 0 <= _workerThreadsNumber s < 256;
  si_state : state s = state_at (_thread s);
  si_spawned : spawned s;
  si_nodup : NoDup (endpoints s);
  si_endpoint : forall e, e ∈ endpoints s -> (e = 0 /\ _thread s <> SNewRpc /\ _thread s <> SEnd) \/
    (exists k w, e = Z.of_nat k + 1 /\ _workerThreads s !! k = Some w /\ has_endpoint w = true);
  si_worker : forall k w, _workerThreads s !! k = Some w -> has_endpoint w = true -> Z.of_nat k + 1 ∈ endpoints s;
  si_joined : _thread s = SEnd -> Forall worker_done (_workerThreads s);
  si_terminated : terminated s = true -> _thread s = SThrown;
  si_ready : owner s <> OServe -> state s <> DHT_SERVER_INIT;
  si_closed : owner s = OEnd -> _thread s = SEnd }.

Lemma server_inv_init raw n : server_inv (DhtServer_init raw n).
Proof. split; try done; [apply (uwrap_range 8); lia|apply NoDup_nil_2|set_solver]. Qed.

Lemma in_list_remove (e x : Z) l : e ∈ List.remove Z.eq_dec x l <-> e ∈ l /\ e <> x.
Proof. rewrite !list_elem_of_In. split; [apply List.in_remove|intros []; by apply List.in_in_remove]. Qed.

Lemma NoDup_list_remove (x : Z) l : NoDup l -> NoDup (List.remove Z.eq_dec x l).
Proof.
  induction 1 as [|y l Hy _ IH]; simpl; [constructor|]. destruct (Z.eq_dec x y); [done|].
  constructor; [|done]. by intros [? _]%in_list_remove.
Qed.

#[local] Hint Resolve NoDup_list_remove : daqdb.

Ltac server_simp := cbn [keepRunning state _workerThreadsNumber _thread _workerThreads owner endpoints terminated
  goto set_server_state set_keepRunning set_workers set_owner terminate] in *.

(** The server's own endpoint is not one of a worker. *)
Lemma worker_endpoint s k : server_inv s -> Z.of_nat k + 1 ∈ endpoints s ->
  exists w, _workerThreads s !! k = Some w /\ has_endpoint w = true.
Proof. intros Hi [(? & _)|(k' & w & Ek & Hk)]%(si_endpoint _ Hi); [lia|]. replace k with k' by lia. eauto. Qed.

Lemma serve_inv ok s s' : terminated s = false -> server_inv s -> _serve ok s = Some s' -> server_inv s'.
Proof.
  intros Htm [Hn Hst Hsp Hnd Hep Hwk Hjo Hte Hre Hcl] E.
  assert (Hw : forall (ws : list worker_pc) pc, (forall k w, _workerThreads s !! k = Some w -> ws !! k = Some w) -> pc <> SNewRpc -> pc <> SEnd ->
    forall e, e ∈ endpoints s -> (e = 0 /\ pc <> SNewRpc /\ pc <> SEnd) \/
      (exists k w, e = Z.of_nat k + 1 /\ ws !! k = Some w /\ has_endpoint w = true)).
  { intros ws pc Hws H1 H2 e [(-> & _)|(k & w & -> & Hk & Hh)]%Hep; [by left|]. right. exists k, w. eauto. }
  unfold _serve, spawned in *.
  destruct (_thread s) as [|i| | | | | | |] eqn:Ept; simpl in Hst; repeat case_hyp; simplify_eq; b2p;
    split; unfold spawned; server_simp; rewrite ?Ept; simpl; try done; try congruence; eauto with daqdb;
    try (by apply Hw); try (by intros ?%Hcl); try lia.
  - rewrite Hsp. simpl. lia.
  - constructor; [|done]. intros [(_ & ? & _)|(k & w & ? & Hk)]%Hep; [done|lia].
  - intros e [->|He]%elem_of_cons; [by left|]. by apply Hw.
  - intros k w Hk Hh. right. eauto.
  - rewrite Hsp. simpl. lia.
  - rewrite uwrap_id, length_app by (simpl; lia). simpl. lia.
  - apply Hw; [|done..]. intros k w Hk. rewrite lookup_app_l; [done|by eapply lookup_lt_Some].
  - intros k w [Hk|(_ & Hk)]%lookup_app_Some Hh; [by eapply Hwk|]. by apply list_lookup_singleton_Some in Hk as [_ <-].
  - intros e [He ?]%in_list_remove. right. by destruct (Hep e He) as [(? & _)|].
  - intros k w Hk Hh. apply in_list_remove. split; [by eapply Hwk|lia].
Qed.

(** A worker that is not at its end: the server has not joined it. *)
Lemma worker_alive s k w : server_inv s -> _workerThreads s !! k = Some w -> ~ worker_done w -> _thread s <> SEnd.
Proof. intros Hi Hk Hw Hend. apply Hw. pose proof (si_joined _ Hi Hend) as Hj. rewrite Forall_lookup in Hj. eauto. Qed.

(** A worker moves, and its endpoint with it. *)
Lemma set_worker_inv s k w w' eps : server_inv s -> _workerThreads s !! k = Some w -> ~ worker_done w -> NoDup eps ->
  (forall e, e ∈ eps <-> (e ∈ endpoints s /\ e <> Z.of_nat k + 1) \/ (e = Z.of_nat k + 1 /\ has_endpoint w' = true)) ->
  server_inv (set_workers (<[k := w']> (_workerThreads s)) eps s).
Proof.
  intros Hi Hk Hw Hnd He. pose proof (worker_alive _ _ _ Hi Hk Hw) as Ha.
  destruct Hi as [Hn Hst Hsp _ Hep Hwk Hjo Hte Hre Hcl]. split; unfold spawned in *; server_simp; try done.
  - rewrite length_insert. destruct (_thread s); try done. by rewrite Hsp in Hk.
  - intros e [(Hin & Hne)|(-> & Hh)]%He.
    + destruct (Hep e Hin) as [?|(j & v & -> & Hj)]; [by left|]. right. exists j, v. split; [done|]. rewrite list_lookup_insert_ne; [done|lia].
    + right. exists k, w'. split; [done|]. split; [|done]. apply list_lookup_insert_eq. by eapply lookup_lt_Some.
  - intros j v. destruct (decide (j = k)) as [->|Hne].
    + rewrite list_lookup_insert_eq by (by eapply lookup_lt_Some). intros [= <-] Hh. apply He. by right.
    + rewrite list_lookup_insert_ne by done. intros Hj Hh. apply He. left. split; [by eapply Hwk|lia].
Qed.

Lemma worker_inv k ok s s' : server_inv s -> _serveWorker k ok s = Some s' -> server_inv s'.
Proof.
  intros Hi. pose proof (si_nodup _ Hi) as Hnd. pose proof (worker_endpoint s k Hi) as Hk. unfold _serveWorker.
  destruct (_workerThreads s !! k) as [w|] eqn:Ek; [|done].
  assert (Hin : Z.of_nat k + 1 ∈ endpoints s <-> has_endpoint w = true).
  { split; [|by eapply (si_worker _ Hi)]. intros (v & Hv & Hh)%Hk. by simplify_eq. }
  destruct w; [destruct ok|destruct (keepRunning s)|destruct ok|..]; intros [= <-]; try done; cbn in Hin;
    (eapply set_worker_inv; [done|exact Ek|unfold worker_done; naive_solver| |]); eauto with daqdb.
  - constructor; [|done]. naive_solver.
  - intros e. rewrite elem_of_cons. cbn. destruct (decide (e = Z.of_nat k + 1)) as [->|]; naive_solver.
  - intros e. cbn. destruct (decide (e = Z.of_nat k + 1)) as [->|]; naive_solver.
  - intros e. cbn. destruct (decide (e = Z.of_nat k + 1)) as [->|]; naive_solver.
  - intros e. rewrite in_list_remove. cbn. naive_solver.
  - intros e. cbn. destruct (decide (e = Z.of_nat k + 1)) as [->|]; naive_solver.
  - intros e. cbn. destruct (decide (e = Z.of_nat k + 1)) as [->|]; naive_solver.
Qed.

Lemma own_inv s s' : server_inv s -> own s = Some s' -> server_inv s'.
Proof.
  intros [Hn Hst Hsp Hnd Hep Hwk Hjo Hte Hre Hcl]. unfold own. destruct (owner s) eqn:Eo; repeat case_decide; intros [= <-];
    split; unfold spawned in *; server_simp; try done; try congruence; try (by rewrite Eo); intros _; by apply Hre.
Qed.

Lemma turn_inv t s s' : server_inv s -> turn t s = Some s' -> server_inv s'.
Proof.
  intros Hi. unfold turn. destruct (terminated s) eqn:Ht; [done|].
  destruct t; [by apply serve_inv|by apply worker_inv|by apply own_inv].
Qed.

Lemma turns_inv ts : forall s s', server_inv s -> turns ts s = Some s' -> server_inv s'.
Proof.
  induction ts as [|t ts IH]; simpl; intros s s' Hi E; [by simplify_eq|].
  destruct (turn t s) as [s1|] eqn:Et; [|done]. eauto using turn_inv.
Qed.

Lemma server_reachable_inv raw n s : reachable raw n s -> server_inv s.
Proof. intros (ts & E). eapply turns_inv; [|done]. apply server_inv_init. Qed.

Lemma turn_number t s s' : turn t s = Some s' -> _workerThreadsNumber s' = _workerThreadsNumber s.
Proof.
  unfold turn, _serve, _serveWorker, own. intros E. repeat case_hyp; by simplify_eq.
Qed.

Lemma turns_number ts : forall s s', turns ts s = Some s' -> _workerThreadsNumber s' = _workerThreadsNumber s.
Proof.
  induction ts as [|t ts IH]; simpl; intros s s' E; [by simplify_eq|].
  destruct (turn t s) as [s1|] eqn:Et; [|done]. by rewrite (IH _ _ E), (turn_number _ _ _ Et).
Qed.

(** An endpoint outlives the server exactly when the event loop of its worker threw. *)
Lemma closed_endpoints s : server_inv s -> _thread s = SEnd ->
  forall e, e ∈ endpoints s <-> exists k, e = Z.of_nat k + 1 /\ _workerThreads s !! k = Some WCaught.
Proof.
  intros Hi Ht e. pose proof (si_joined _ Hi Ht) as Hj. rewrite Forall_lookup in Hj. split.
  - intros [(_ & _ & ?)|(k & w & -> & Hk & Hh)]%(si_endpoint _ Hi); [done|]. exists k. split; [done|].
    by destruct (Hj _ _ Hk) as [-> | ->].
  - intros (k & -> & Hk). by apply (si_worker _ Hi k WCaught).
Qed.

(** C28. The threads of a server do not get in each other's way, and none outlives it.  In
    every interleaving, with endpoints, threads and request handlers that fail at any
    point, the eRPC endpoints of the server have different ids, all below those that clients
    of the node get, and the constructor returns only after the server left its initial
    state.  When the destructor has returned, the server is stopped, its thread and all the
    workers that were asked for have ended, and the endpoints that are left are exactly those
    of the workers whose event loop let an exception of a handler through.  When an exception
    left the server thread, the process has ended and the destructor has not returned. *)
Theorem dht_server_threads raw n s : reachable raw n s ->
  NoDup (endpoints s) /\ (forall e, e ∈ endpoints s -> 0 <= e <= u8 n) /\
  (owner s <> OServe -> state s <> DHT_SERVER_INIT) /\
  (owner s = OEnd -> state s = DHT_SERVER_STOPPED /\ _thread s = SEnd /\
     length (_workerThreads s) = Z.to_nat (u8 n - 1) /\ Forall worker_done (_workerThreads s) /\
     (forall e, e ∈ endpoints s <-> exists k, e = Z.of_nat k + 1 /\ _workerThreads s !! k = Some WCaught)) /\
  (terminated s = true -> state s = DHT_SERVER_ERROR /\ owner s <> OEnd).
Proof.
  intros Hr. pose proof (server_reachable_inv _ _ _ Hr) as Hi.
  assert (Hw : _workerThreadsNumber s = u8 n) by (destruct Hr as (ts & E); by rewrite (turns_number _ _ _ E)).
  pose proof (si_spawned _ Hi) as Hs. unfold spawned in Hs. rewrite Hw in Hs. pose proof (si_number _ Hi) as Hn. rewrite Hw in Hn.
  split_and!; [by apply Hi| |by apply Hi| |].
  - intros e [(-> & _)|(k & w & -> & Hk & _)]%(si_endpoint _ Hi); [lia|]. apply lookup_lt_Some in Hk.
    destruct (_thread s); try lia. rewrite Hs in Hk. simpl in Hk. lia.
  - intros Ho. pose proof (si_closed _ Hi Ho) as Ht. rewrite Ht in Hs. split_and!; [|done|lia|by apply Hi|by apply closed_endpoints].
    by rewrite (si_state _ Hi), Ht.
  - intros Ht%(si_terminated _ Hi). split; [by rewrite (si_state _ Hi), Ht|]. intros Ho%(si_closed _ Hi). congruence.
Qed.

(** ** The destructor *)

(** The owner is in the destructor, and the server thread saw or will see that it has to
    stop, unless an exception leaves its event loop before. *)
Definition closing (s : DhtServer) : Prop :=
  (owner s = OJoin \/ owner s = OEnd) /\ keepRunning s = false /\
  match _thread s with
  | SLoop | SEvents | SJoin => terminated s = false /\ owner s = OJoin
  | SEnd => terminated s = false
  | SThrown => owner s = OJoin
  | _ => False
  end.

Definition worker_left (w : worker_pc) : nat := match w with WNewRpc | WEvents => 2 | WLoop => 1 | WEnd | WCaught => 0 end.
Fixpoint workers_left (ws : list worker_pc) : nat :=
  match ws with [] => 0 | w :: ws => worker_left w + workers_left ws end.
(** Turns that are left. *)
Definition left (s : DhtServer) : nat :=
  match _thread s with SEvents => 3 | SLoop => 2 | SJoin => 1 | SThrown => if terminated s then 0 else 1 | _ => 0 end +
  workers_left (_workerThreads s) + match owner s with OJoin => 1 | _ => 0 end.

Lemma workers_left_insert ws k w w' : ws !! k = Some w ->
  (workers_left (<[k := w']> ws) + worker_left w = workers_left ws + worker_left w')%nat.
Proof.
  revert k. induction ws as [|v ws IH]; intros [|k] Hk; try done; simpl in *; simplify_eq; [lia|].
  specialize (IH _ Hk). lia.
Qed.

Lemma workers_left_bound ws : (workers_left ws <= 2 * length ws)%nat.
Proof. induction ws as [|[] ws IH]; simpl in *; lia. Qed.

Lemma closing_turn t s s' : closing s -> turn t s = Some s' -> closing s' /\ (left s' < left s)%nat.
Proof.
  intros (Ho & Hk & Hp) E. unfold turn in E. destruct (terminated s) eqn:Ht; [done|].
  destruct t as [ok|k ok|]; unfold _serve, _serveWorker, own in E; rewrite ?Hk in E.
  - unfold closing, left. destruct Ho as [Ho|Ho]; destruct (_thread s) eqn:Ept; try done; repeat case_hyp; simplify_eq;
      server_simp; rewrite ?Ept, ?Ht; (split; [intuition congruence|lia]).
  - destruct (_workerThreads s !! k) as [w|] eqn:Ek; [|done]. unfold closing, left.
    destruct w, ok; simplify_eq; server_simp;
      match goal with |- context [<[k := ?w']> _] => pose proof (workers_left_insert _ _ _ w' Ek) as Hl end; cbn in Hl; (split; [destruct (_thread s); tauto|lia]).
  - unfold closing, left. destruct Ho as [Ho|Ho]; rewrite Ho in E; repeat case_decide; simplify_eq; server_simp; rewrite ?Ho;
      match goal with H : _thread s = SEnd |- _ => rewrite H in * end; (split; [tauto|lia]).
Qed.

Lemma closing_turns ts : forall s s', closing s -> turns ts s = Some s' -> closing s' /\ (length ts + left s' <= left s)%nat.
Proof.
  induction ts as [|t ts IH]; simpl; intros s s' Hc E; [simplify_eq; split; [done|lia]|].
  destruct (turn t s) as [s1|] eqn:Et; [|done]. destruct (closing_turn _ _ _ Hc Et) as [Hc1 Hl].
  destruct (IH _ _ Hc1 E). split; [done|lia].
Qed.

(** The next turn of some thread, until the destructor has returned; it does not throw. *)
Lemma closing_progress s : closing s -> _thread s <> SThrown -> owner s <> OEnd ->
  exists t s', turn t s = Some s' /\ _thread s' <> SThrown.
Proof.
  intros (Ho & Hk & Hp) Hnt Hne. destruct Ho as [Ho|]; [|done].
  assert (Ht : terminated s = false) by (destruct (_thread s); tauto). unfold turn. rewrite Ht.
  destruct (_thread s) eqn:Ept; try done.
  - exists (TServe true). unfold _serve. rewrite Ept, Hk. eauto.
  - exists (TServe true). unfold _serve. rewrite Ept. eauto.
  - destruct (decide (Forall worker_done (_workerThreads s))) as [Hf|Hf].
    { exists (TServe true). unfold _serve. rewrite Ept, decide_True by done. eauto. }
    apply not_Forall_Exists in Hf; [|tc_solve]. apply Exists_exists in Hf as (w & [k Hl]%list_elem_of_lookup & Hw).
    exists (TWorker k true). unfold _serveWorker. rewrite Hl, Hk.
    destruct w; [..|by destruct Hw; left|by destruct Hw; right]; eexists; (split; [reflexivity|]); server_simp; by rewrite Ept.
  - exists TOwner. unfold own. rewrite Ho, decide_True by done. eexists. split; [reflexivity|]. server_simp. by rewrite Ept.
Qed.

Lemma closing_ends n : forall s, (left s <= n)%nat -> closing s -> _thread s <> SThrown ->
  exists ts s', turns ts s = Some s' /\ owner s' = OEnd.
Proof.
  induction n as [|n IH]; intros s Hl Hc Hnt; (destruct (decide (owner s = OEnd)) as [Ho|Ho]; [by exists [], s|]);
    destruct (closing_progress _ Hc Hnt Ho) as (t & s1 & Et & Hnt1); destruct (closing_turn _ _ _ Hc Et) as [Hc1 Hl1]; [lia|].
  destruct (IH s1) as (ts & s2 & E & Ho2); [lia|done|done|]. exists (t :: ts), s2. simpl. by rewrite Et.
Qed.

(** A run in which no thread can move any more is at its end. *)
Lemma closing_stuck s : closing s -> (forall t, turn t s = None) -> owner s = OEnd \/ terminated s = true.
Proof.
  intros Hc Hs. destruct (decide (_thread s = SThrown)) as [Ht|Ht].
  - right. specialize (Hs (TServe true)). unfold turn, _serve in Hs. rewrite Ht in Hs. by destruct (terminated s).
  - left. destruct (decide (owner s = OEnd)) as [Ho|Ho]; [done|]. destruct (closing_progress _ Hc Ht Ho) as (t & s' & Et & _).
    by rewrite Hs in Et.
Qed.

(** Once an exception has left the server's loop its thread never ends normally. *)
Lemma thrown_stays ts : forall s s', _thread s = SThrown -> turns ts s = Some s' -> _thread s' <> SEnd.
Proof.
  induction ts as [|t ts IH]; simpl; intros s s' Ht E; [simplify_eq; by rewrite Ht|].
  destruct (turn t s) as [s1|] eqn:Et; [|done]. apply (IH s1 s'); [|done].
  unfold turn, _serve, _serveWorker, own in Et. rewrite Ht in Et. repeat case_hyp; by simplify_eq.
Qed.

(** The server thread throws only in its own turn. *)
Lemma thrown_turns ts : forall s s', closing s -> _thread s <> SThrown -> turns ts s = Some s' -> _thread s' = SThrown -> TServe false ∈ ts.
Proof.
  induction ts as [|t ts IH]; simpl; intros s s' Hc Hn E Ht; [by simplify_eq|].
  destruct (turn t s) as [s1|] eqn:Et; [|done]. destruct (closing_turn _ _ _ Hc Et) as [Hc1 _].
  destruct (decide (_thread s1 = SThrown)) as [H1|H1]; [|right; by eapply (IH s1 s')].
  clear IH E Hc1. destruct Hc as (Ho & Hk & Hp). unfold turn in Et. destruct (terminated s); [done|].
  destruct t as [[]|k ok|]; [|left|..]; exfalso; unfold _serve, _serveWorker, own in Et; rewrite ?Hk in Et;
    repeat case_hyp; simplify_eq; server_simp; congruence.
Qed.

(** C34. The destructor of a server that is in its loop comes to an end.  However the threads
    go on after [keepRunning] was cleared, and whichever handlers throw, they make at most
    two turns for each worker and four more, and a run in which no thread can move has
    ended with the destructor returned or with the process terminated.  The process is
    terminated only when a handler throws in the last event loop of the server thread
    itself, and then the destructor does not return; as long as that has not happened the
    destructor can return, even when workers' handlers throw. *)
Theorem dht_server_close_ends raw n s : reachable raw n s -> owner s = OOwn -> _thread s = SLoop \/ _thread s = SEvents ->
  exists s1, turn TOwner s = Some s1 /\ forall ts s2, turns ts s1 = Some s2 ->
    (length ts <= 2 * length (_workerThreads s) + 4)%nat /\
    ((forall t, turn t s2 = None) -> owner s2 = OEnd \/ terminated s2 = true) /\
    (_thread s2 <> SThrown -> exists ts' s3, turns ts' s2 = Some s3 /\ owner s3 = OEnd) /\
    (_thread s2 = SThrown -> TServe false ∈ ts /\ forall ts' s3, turns ts' s2 = Some s3 -> owner s3 <> OEnd).
Proof.
  intros Hr Ho Hp. pose proof (server_reachable_inv _ _ _ Hr) as Hi.
  assert (Ht : terminated s = false).
  { destruct (terminated s) eqn:Et; [|done]. apply (si_terminated _ Hi) in Et. rewrite Et in Hp. by destruct Hp. }
  assert (E1 : turn TOwner s = Some (set_owner OJoin (set_keepRunning false s))) by (unfold turn, own; by rewrite Ht, Ho).
  set (s1 := set_owner OJoin (set_keepRunning false s)) in *. exists s1. split; [exact E1|]. intros ts s2 E.
  assert (Hc : closing s1) by (unfold closing, s1; server_simp; destruct Hp as [-> | ->]; tauto).
  assert (Hn1 : _thread s1 <> SThrown) by (unfold s1; server_simp; destruct Hp as [-> | ->]; done).
  assert (Hi1 : server_inv s1) by (by eapply turn_inv).
  destruct (closing_turns _ _ _ Hc E) as [Hc2 Hl]. split_and!.
  - pose proof (workers_left_bound (_workerThreads s)). revert Hl. unfold left at 2, s1. server_simp. destruct Hp as [-> | ->]; lia.
  - by apply closing_stuck.
  - by apply (closing_ends (left s2)).
  - intros Et. split; [exact (thrown_turns ts s1 s2 Hc Hn1 E Et)|]. intros ts' s3 E3 Ho3.
    pose proof (turns_inv _ _ _ (turns_inv _ _ _ Hi1 E) E3) as Hi3. pose proof (si_closed _ Hi3 Ho3) as Hend.
    revert Hend. eapply (thrown_stays ts' s2); done.
Qed.

(** ** Two orders that do not work *)

(** The turns of the server thread that start the workers. *)
Lemma spawn_turns m : forall s i, _thread s = SSpawn i -> terminated s = false -> 1 <= i -> i + Z.of_nat m < 256 ->
  i + Z.of_nat m = Z.max i (_workerThreadsNumber s) ->
  turns (replicate m (TServe true) ++ [TServe true]) s =
  Some (goto SReady (set_workers (_workerThreads s ++ replicate m WNewRpc) (endpoints s) s)).
Proof.
  induction m as [|m IH]; intros s i Hp Ht Hi Hb Hm; simpl; unfold turn at 1, _serve; rewrite Ht, Hp.
  - destruct (Z.ltb_spec i (_workerThreadsNumber s)); [lia|]. rewrite app_nil_r. by destruct s.
  - destruct (Z.ltb_spec i (_workerThreadsNumber s)); [|lia]. rewrite uwrap_id by lia.
    rewrite (IH _ (i + 1)) by (server_simp; lia || done). server_simp. by rewrite <- app_assoc.
Qed.

Lemma turns_app ts1 : forall ts2 s s1, turns ts1 s = Some s1 -> turns (ts1 ++ ts2) s = turns ts2 s1.
Proof.
  induction ts1 as [|t ts1 IH]; simpl; intros ts2 s s1 E; [by simplify_eq|]. destruct (turn t s); [by apply IH|done].
Qed.

(** The server before it says that it is ready. *)
Definition about_ready (raw : bool) (n : Z) : DhtServer :=
  mkDhtServer raw DHT_SERVER_INIT (u8 n) SReady (replicate (Z.to_nat (u8 n - 1)) WNewRpc) OServe [0] false.

Lemma reach_about_ready raw n : reachable raw n (about_ready raw n).
Proof.
  pose proof (uwrap_range 8 n ltac:(lia)) as Hn. change (2 ^ 8) with 256 in Hn. exists (TServe true :: replicate (Z.to_nat (u8 n - 1)) (TServe true) ++ [TServe true]).
  cbn [turns turn terminated DhtServer_init _serve _thread]. unfold DhtServer_init.
  rewrite (spawn_turns _ _ 1) by (server_simp; lia || done). by server_simp.
Qed.

Lemma reachable_turns raw n s ts s' : reachable raw n s -> turns ts s = Some s' -> reachable raw n s'.
Proof. intros (ts0 & E0) E. exists (ts0 ++ ts). by rewrite (turns_app _ _ _ _ E0). Qed.

(** The destructor waits for a server that does not know of it, or that has thrown. *)
Definition hung (s : DhtServer) : Prop :=
  owner s = OJoin /\ match _thread s with SLoop | SEvents => keepRunning s = true | SThrown => True | _ => False end.

Lemma hung_turns ts : forall s s', hung s -> turns ts s = Some s' -> hung s'.
Proof.
  induction ts as [|t ts IH]; simpl; intros s s' (Ho & Hp) E; [by simplify_eq|].
  destruct (turn t s) as [s1|] eqn:Et; [|done]. eapply IH; [|exact E]. unfold turn, _serve, _serveWorker, own in Et.
  destruct (terminated s); [done|]. rewrite Ho in Et. unfold hung.
  destruct (_thread s) eqn:Ept; try done; destruct t as [ok|k ok|]; rewrite ?Hp in Et; repeat case_hyp; simplify_eq;
    server_simp; rewrite ?Ept; try done; tauto.
Qed.

(** A server that is closed at once may never end.  The server thread says that it is
    ready before it sets [keepRunning]; when the owner is done with the server in between,
    the destructor's [false] is overwritten and it waits for ever. *)
Theorem dht_server_close_hangs raw n : exists s, reachable raw n s /\ owner s = OJoin /\
  forall ts s', turns ts s = Some s' -> owner s' <> OEnd.
Proof.
  eexists. split_and!.
  - eapply reachable_turns; [apply reach_about_ready|].
    instantiate (2 := [TServe true; TOwner; TOwner; TServe true]). reflexivity.
  - reflexivity.
  - intros ts s' E. apply hung_turns in E as (Ho & _); [by rewrite Ho|by split].
Qed.

(** A worker may leave before the server serves.  [keepRunning] is set after the workers
    were started, and nothing initializes it: when its memory holds zero, a worker that is
    fast enough finds that it should not run. *)
Theorem dht_worker_leaves n : 2 <= u8 n -> exists s, reachable false n s /\ owner s = OOwn /\
  state s = DHT_SERVER_READY /\ keepRunning s = true /\ _workerThreads s !! 0%nat = Some WEnd.
Proof.
  intros Hn. destruct (Z.to_nat (u8 n - 1)) as [|m] eqn:Em; [lia|]. eexists. split_and!.
  - eapply reachable_turns; [apply reach_about_ready|]. unfold about_ready. rewrite Em.
    instantiate (2 := [TWorker 0 true; TWorker 0 true; TServe true; TServe true; TOwner]). reflexivity.
  - reflexivity.
  - reflexivity.
  - reflexivity.
  - reflexivity.
Qed.

(** The handler of the second worker throws; the first one ends as it should. *)
Lemma dht_server_threads_witness : exists s, owner s = OEnd /\ endpoints s = [2] /\ _workerThreads s = [WEnd; WCaught] /\
  forall e, e ∈ endpoints s <-> exists k, e = Z.of_nat k + 1 /\ _workerThreads s !! k = Some WCaught.
Proof.
  set (ts := replicate 6 (TServe true) ++ [TOwner; TWorker 1 true; TWorker 0 true; TWorker 1 true; TWorker 1 false; TOwner;
               TServe true; TWorker 0 true; TServe true; TOwner]).
  set (s := default (DhtServer_init true 3) (turns ts (DhtServer_init true 3))).
  destruct (dht_server_threads true 3 s) as (_ & _ & _ & H & _); [exists ts; vm_compute; reflexivity|].
  exists s. destruct H as (_ & _ & _ & _ & He); [vm_compute; reflexivity|].
  split; [vm_compute; reflexivity|]. split; [vm_compute; reflexivity|]. split; [vm_compute; reflexivity|]. exact He.
Defined.

Lemma dht_server_close_ends_witness : exists s ts s3, turns ts s = Some s3 /\ owner s = OJoin /\ owner s3 = OEnd.
Proof.
  set (ts := replicate 6 (TServe true) ++ [TOwner; TWorker 1 true]).
  set (s := default (DhtServer_init true 3) (turns ts (DhtServer_init true 3))).
  destruct (dht_server_close_ends true 3 s) as (s1 & E & H);
    [exists ts; vm_compute; reflexivity|vm_compute; reflexivity|left; vm_compute; reflexivity|].
  destruct (H [] s1 eq_refl) as (_ & _ & Hr & _).
  assert (E1 : s1 = set_owner OJoin (set_keepRunning false s)) by (injection E as <-; reflexivity).
  destruct Hr as (ts' & s3 & E3 & Ho); [rewrite E1; vm_compute; discriminate|].
  exists s1, ts', s3. split; [exact E3|]. split; [by rewrite E1|exact Ho].
Defined.

Lemma dht_worker_leaves_witness : exists s, reachable false 4 s /\ _workerThreads s !! 0%nat = Some WEnd.
Proof.
  destruct (dht_worker_leaves 4) as (s & Hr & _ & _ & _ & Hw); [vm_compute; discriminate|]. exists s. split; [exact Hr|exact Hw].
Defined.

(** ** The handlers of a loopback server

    A server that is built with [LOOPBACK_DHT_SERVER] answers every request at once. *)

Definition erpcLoopbackReqGetHandler (m : DaqdbDhtMsg) : DaqdbDhtResult := mkResult OK 0 [].
Definition erpcLoopbackReqPutHandler (m : DaqdbDhtMsg) : DaqdbDhtResult := mkResult OK 0 [].
Definition erpcLoopbackReqRemoveHandler (m : DaqdbDhtMsg) : DaqdbDhtResult := mkResult OK 0 [].
Definition erpcLoopbackReqGetAnyHandler (m : DaqdbDhtMsg) : DaqdbDhtResult := mkResult OK 0 [].

(** The handlers that [_serve] registers. *)
Definition loopback_serve (ty : ErpRequestType) : DaqdbDhtMsg -> DaqdbDhtResult :=
  match ty with
  | ERP_REQUEST_GET => erpcLoopbackReqGetHandler
  | ERP_REQUEST_GETANY => erpcLoopbackReqGetAnyHandler
  | ERP_REQUEST_PUT => erpcLoopbackReqPutHandler
  | ERP_REQUEST_REMOVE => erpcLoopbackReqRemoveHandler
  end.

(** A client of a loopback server gets an empty value for every key that it can route,
    and its world is left alone. *)
Lemma loopback_get {W} (c : @DhtClient W) key host :
  DhtCore.getHostForKey (_dhtCore c) (KVStore.k_data key) = Ret host ->
  sizeof_DaqdbDhtMsg + Z.of_nat (length (KVStore.k_data key)) <= ERPC_MAX_REQUEST_SIZE ->
  exists c', get (fun _ ty m w => (loopback_serve ty m, w)) key c = (Ret [], c') /\ world c' = world c.
Proof.
  intros Hh Hs. unfold get. rewrite (cbind_ret _ _ c tt c).
  2:{ unfold resizeMsgBuffers. by rewrite (proj2 (Z.leb_le _ _) Hs). }
  unfold cbind at 1, fillReqMsg, cbind at 1, cget, set_msg.
  unfold cbind, getTargetHost, enqueueAndWait. cbn [_dhtCore world]. rewrite Hh. cbn [world]. eexists. split; reflexivity.
Qed.
