(* ===== verification/DhtConnect.v ===== *)
(** * The connections of DHT clients ([lib/dht/DhtClient], [DhtCore])

    Every thread that calls a remote node gets a [DhtClient] of its own, with an eRPC
    endpoint and a session to each neighbour.  The number of the session is kept in the
    [DhtNode], which all clients of the node share.  eRPC endpoints are a type class. *)

From stdpp Require Import strings pretty.
From S2P Require Import Prelude Status DhtCore.

#[local] Open Scope Z_scope.

(** ** eRPC endpoints *)

(** [peer p n] is the remote endpoint, by its URI and id, that session [n] of [p] was
    created for.  Whether a session is connected may change whenever the event loop runs. *)
Class ErpcRpc (P : Type) : Type := {
  rpc_new : Z -> exn + P;
  create_session : string -> Z -> P -> Z * P;
  is_connected : Z -> P -> bool;
  run_event_loop : Z -> P -> P;
  alloc_msg_buffer : Z -> P -> option P;
  peer : P -> Z -> option (string * Z);
  rpc_new_peer : forall i p n, rpc_new i = inr p -> peer p n = None;
  create_session_peer : forall uri i p n p', create_session uri i p = (n, p') ->
    if 0 <=? n then peer p n = None /\ peer p' n = Some (uri, i) /\ (forall m, m <> n -> peer p' m = peer p m)
    else forall m, peer p' m = peer p m;
  connected_peer : forall n p, is_connected n p = true -> 0 <= n /\ peer p n <> None;
  run_event_loop_peer : forall ms p n, peer (run_event_loop ms p) n = peer p n;
  alloc_msg_buffer_peer : forall size p p' n, alloc_msg_buffer size p = Some p' -> peer p' n = peer p n }.

Section Connect.
Context {P : Type} `{ErpcRpc P}.

(** ** State *)

Inductive DhtClientState : Type :=
| DHT_CLIENT_INIT | DHT_CLIENT_READY | DHT_CLIENT_ERROR | DHT_CLIENT_STOPPED.

(** The connection of a [DhtClient]: [msgBufs] says that both message buffers are there. *)
Record Connection : Type := mkConnection {
  state : DhtClientState; _clientRpc : option P; _remoteRpcId : Z; msgBufs : bool }.

(** The part of [DhtCore] that concerns clients.  [sessions] are the [_sessionId]s of the
    neighbours, [_threadDhtClient] gives the client of each thread. *)
Record DhtClients : Type := mkDhtClients {
  dht : DhtCore; sessions : list Z; numOfDhtThreads : Z; baseDhtId : Z; randomSeed : Z;
  nextRpcId : Z; numberOfClientThreads : Z;
  clients : list Connection; _threadDhtClient : gmap nat nat; _registeredDhtClients : list nat }.

#[local] Abbreviation NM A := (M exn DhtClients A).

(** What the constructor of [DhtCore] leaves; [DhtServer] sets [nextRpcId] to [rpcs]. *)
Definition clients_init (d : DhtCore) (threads base seed rpcs : Z) : DhtClients :=
  mkDhtClients d (replicate (length (_neighbors d)) ERPC_SESSION_NOT_SET) (u8 threads) (u8 base) (u64 seed)
    rpcs 0 [] ∅ [].

Definition set_clients (l : list Connection) (s : DhtClients) : DhtClients :=
  mkDhtClients (dht s) (sessions s) (numOfDhtThreads s) (baseDhtId s) (randomSeed s) (nextRpcId s)
    (numberOfClientThreads s) l (_threadDhtClient s) (_registeredDhtClients s).
Definition set_sessions (l : list Z) (s : DhtClients) : DhtClients :=
  mkDhtClients (dht s) l (numOfDhtThreads s) (baseDhtId s) (randomSeed s) (nextRpcId s)
    (numberOfClientThreads s) (clients s) (_threadDhtClient s) (_registeredDhtClients s).
Definition set_counters (rpc n : Z) (s : DhtClients) : DhtClients :=
  mkDhtClients (dht s) (sessions s) (numOfDhtThreads s) (baseDhtId s) (randomSeed s) rpc n
    (clients s) (_threadDhtClient s) (_registeredDhtClients s).

Definition mod_client (c : nat) (f : Connection -> Connection) : NM unit := cmod (fun s => set_clients (alter f c (clients s)) s).
Definition set_state (st : DhtClientState) (k : Connection) : Connection :=
  mkConnection st (_clientRpc k) (_remoteRpcId k) (msgBufs k).
Definition set_rpc (p : P) (k : Connection) : Connection := mkConnection (state k) (Some p) (_remoteRpcId k) (msgBufs k).
Definition set_remote (i : Z) (k : Connection) : Connection := mkConnection (state k) (_clientRpc k) i (msgBufs k).
Definition set_msgBufs (k : Connection) : Connection := mkConnection (state k) (_clientRpc k) (_remoteRpcId k) true.

(** The endpoint of a client; a null pointer is undefined behaviour. *)
Definition get_rpc (c : nat) : NM P := fun s =>
  match clients s !! c ≫= _clientRpc with Some p => (Ret p, s) | None => (Undef, s) end.
Definition get_conn (c : nat) : NM Connection := fun s =>
  match clients s !! c with Some k => (Ret k, s) | None => (Undef, s) end.

(** ** [DhtClient] *)

Definition DhtClient_init : Connection := mkConnection DHT_CLIENT_INIT None 0 false.

Definition WAIT_FOR_NEIGHBOUR_INTERVAL : Z := 100.
Definition WAIT_FOR_NEIGHBOUR_RETRIES : nat := 10.

Definition getUri (n : DhtNode) : string := (ip n +:+ ":" +:+ pretty (port n))%string.

(** [while (!is_connected && numberOfRetries--) run_event_loop]. *)
Fixpoint wait_connected (retries : nat) (n : Z) (p : P) : P :=
  if is_connected n p then p
  else match retries with
       | O => p
       | S r => wait_connected r n (run_event_loop WAIT_FOR_NEIGHBOUR_INTERVAL p)
       end.

Definition _initializeNode (c : nat) (j : nat) : NM unit :=
  let! s := cget in
  match _neighbors (dht s) !! j with
  | None => cundef
  | Some node =>
      let! p := get_rpc c in
      let! k := get_conn c in
      let (sessionNum, p) := create_session (getUri node) (_remoteRpcId k) p in
      let p := wait_connected WAIT_FOR_NEIGHBOUR_RETRIES sessionNum p in
      mod_client c (set_rpc p) ;;;
      if is_connected sessionNum p then cmod (fun s => set_sessions (<[j := sessionNum]> (sessions s)) s)
      else cthrow (OperationFailedException DHT_CONNECT_ERROR)
  end.

(** The loop over the neighbours, from [j]. *)
Fixpoint init_nodes (c : nat) (j : nat) (rest : nat) : NM unit :=
  match rest with
  | O => cret tt
  | S r => _initializeNode c j ;;; init_nodes c (S j) r
  end.

(** [make_unique<MsgBuffer>(alloc_msg_buffer_or_die(...))]. *)
Definition alloc_or_die (c : nat) (size : Z) : NM unit :=
  let! p := get_rpc c in
  match alloc_msg_buffer size p with Some p => mod_client c (set_rpc p) | None => ccrash end.

Definition ERPC_MAX_SIZE : Z := 64 * 1024 + 64.

Definition registerClient (c : nat) : NM unit := cmod (fun s =>
  mkDhtClients (dht s) (sessions s) (numOfDhtThreads s) (baseDhtId s) (randomSeed s) (nextRpcId s)
    (numberOfClientThreads s) (clients s) (_threadDhtClient s) (_registeredDhtClients s ++ [c])).

(** The remote endpoint for the [i]th client: the counter is an [int], the seed is
    unsigned; a remainder by zero is undefined. *)
Definition remote_id (s : DhtClients) (i : Z) : option Z :=
  if numOfDhtThreads s =? 0 then None
  else Some (u8 (baseDhtId s + u64 (randomSeed s + i) mod numOfDhtThreads s)).

Definition initialize (c : nat) : NM unit :=
  let! s := cget in
  let i := numberOfClientThreads s in
  cmod (set_counters (nextRpcId s) (s32 (i + 1))) ;;;
  match remote_id s i with
  | None => cundef
  | Some id =>
      mod_client c (set_remote id) ;;;
      ccatch
        (let! s := cget in
         cmod (set_counters (s32 (nextRpcId s + 1)) (numberOfClientThreads s)) ;;;
         let! p := match rpc_new (s32 (nextRpcId s + 1)) with inl e => cthrow e | inr p => cret p end in
         mod_client c (set_rpc p) ;;;
         registerClient c ;;;
         init_nodes c 0 (length (_neighbors (dht s))) ;;;
         alloc_or_die c ERPC_MAX_SIZE ;;; alloc_or_die c ERPC_MAX_SIZE ;;;
         mod_client c set_msgBufs ;;;
         mod_client c (set_state DHT_CLIENT_READY))
        (fun e => mod_client c (set_state DHT_CLIENT_ERROR) ;;; cthrow e)
  end.

(** [ping]. *)
Definition ping (c : nat) (j : nat) : NM bool :=
  let! k := get_conn c in
  match state k with
  | DHT_CLIENT_READY =>
      let! s := cget in
      match sessions s !! j with
      | None => cundef
      | Some n =>
          if n =? ERPC_SESSION_NOT_SET then _initializeNode c j ;;; cret true
          else let! p := get_rpc c in cret (is_connected n p)
      end
  | _ => cthrow (OperationFailedException DHT_DISABLED_ERROR)
  end.

(** What every remote call starts with, [resizeMsgBuffers]: it needs the endpoint and the
    buffers.  The call then goes to the session of the neighbour, on the client's own
    endpoint: the result is where that leads. *)
Definition call_neighbour (c : nat) (j : nat) : NM (option (string * Z)) :=
  let! k := get_conn c in
  let! p := get_rpc c in
  if msgBufs k then
    let! s := cget in
    match sessions s !! j with Some n => cret (peer p n) | None => cundef end
  else cundef.

(** ** [DhtCore] *)

(** [initClient] on thread [t]. *)
Definition initClient (t : nat) : NM unit :=
  let! s := cget in
  let c := length (clients s) in
  cmod (fun s => mkDhtClients (dht s) (sessions s) (numOfDhtThreads s) (baseDhtId s) (randomSeed s) (nextRpcId s)
                   (numberOfClientThreads s) (clients s ++ [DhtClient_init]) (<[t := c]> (_threadDhtClient s))
                   (_registeredDhtClients s)) ;;;
  initialize c.

Definition getClient (t : nat) : NM nat :=
  let! s := cget in
  (match _threadDhtClient s !! t with None => initClient t | Some _ => cret tt end) ;;;
  let! s := cget in
  match _threadDhtClient s !! t with Some c => cret c | None => cundef end.

(** [~DhtClient]: the buffers are freed when there is an endpoint. *)
Definition DhtClient_delete (c : nat) : NM unit :=
  let! k := get_conn c in
  match _clientRpc k with
  | None => cret tt
  | Some _ => if msgBufs k then mod_client c (fun _ => DhtClient_init) else cundef
  end.

(** [~DhtCore] deletes the registered clients, the last first. *)
Fixpoint delete_all (l : list nat) : NM unit :=
  match l with [] => cret tt | c :: l => DhtClient_delete c ;;; delete_all l end.
Definition DhtCore_delete : NM unit := let! s := cget in delete_all (reverse (_registeredDhtClients s)).

(** ** One client *)

Implicit Types (s : DhtClients) (k : Connection) (p : P) (cs : list Connection).

Lemma wait_connected_peer r : forall n p m, peer (wait_connected r n p) m = peer p m.
Proof.
  induction r as [|r IH]; intros n p m; simpl; destruct (is_connected n p); try done.
  by rewrite IH, run_event_loop_peer.
Qed.

(** A state in which client [c] is [k] and the sessions of the neighbours are [l]. *)
Definition at_client s cs (c : nat) k (l : list Z) : DhtClients := set_sessions l (set_clients (<[c := k]> cs) s).

Lemma mod_client_at s cs c k l f : mod_client c f (at_client s cs c k l) = (Ret tt, at_client s cs c (f k) l).
Proof.
  unfold mod_client, cmod, at_client, set_clients, set_sessions. cbn [clients]. do 3 f_equal.
  revert c. induction cs as [|x cs IH]; intros [|c]; try done. simpl. f_equal. apply IH.
Qed.

Lemma get_conn_at s cs c k l : (c < length cs)%nat -> get_conn c (at_client s cs c k l) = (Ret k, at_client s cs c k l).
Proof. intros Hc. unfold get_conn, at_client. cbn [clients set_sessions set_clients]. by rewrite list_lookup_insert_eq. Qed.

Lemma get_rpc_at s cs c k l p : (c < length cs)%nat -> _clientRpc k = Some p ->
  get_rpc c (at_client s cs c k l) = (Ret p, at_client s cs c k l).
Proof. intros Hc Hp. unfold get_rpc, at_client. cbn [clients set_sessions set_clients]. rewrite list_lookup_insert_eq by done. simpl. by rewrite Hp. Qed.

Lemma call_neighbour_run s c k j : clients s !! c = Some k ->
  call_neighbour c j s =
    match _clientRpc k with
    | Some p => if msgBufs k then match sessions s !! j with Some n => (Ret (peer p n), s) | None => (Undef, s) end else (Undef, s)
    | None => (Undef, s)
    end.
Proof.
  intros Hk. unfold call_neighbour, cbind, get_conn, get_rpc, cget, cret, cundef. rewrite Hk. cbn [fst snd].
  rewrite Hk. simpl. destruct (_clientRpc k); [|done]. by destruct (msgBufs k), (sessions s !! j).
Qed.

(** A session to neighbour [j]. *)
Lemma initializeNode_run s cs c k l p j node : (c < length cs)%nat -> _clientRpc k = Some p -> _neighbors (dht s) !! j = Some node ->
  let cp := create_session (getUri node) (_remoteRpcId k) p in
  let p' := wait_connected WAIT_FOR_NEIGHBOUR_RETRIES (fst cp) (snd cp) in
  _initializeNode c j (at_client s cs c k l) =
    if is_connected (fst cp) p' then (Ret tt, at_client s cs c (set_rpc p' k) (<[j := fst cp]> l))
    else (Throw (OperationFailedException DHT_CONNECT_ERROR), at_client s cs c (set_rpc p' k) l).
Proof.
  intros Hc Hp Hj cp p'. unfold _initializeNode, cbind at 1, cget. cbn [dht at_client set_sessions set_clients]. rewrite Hj.
  change (set_sessions l (set_clients (<[c:=k]> cs) s)) with (at_client s cs c k l).
  rewrite (cbind_ret _ _ _ _ _ (get_rpc_at s cs c k l p Hc Hp)), (cbind_ret _ _ _ _ _ (get_conn_at s cs c k l Hc)).
  fold cp. rewrite (surjective_pairing cp). fold p'.
  rewrite (cbind_ret _ _ _ _ _ (mod_client_at _ _ _ _ _ _)). by destruct (is_connected _ _).
Qed.

(** When it is there, the session leads to the neighbour. *)
Lemma session_leads node k p : let cp := create_session (getUri node) (_remoteRpcId k) p in
  let p' := wait_connected WAIT_FOR_NEIGHBOUR_RETRIES (fst cp) (snd cp) in
  is_connected (fst cp) p' = true ->
  0 <= fst cp /\ peer p (fst cp) = None /\ peer p' (fst cp) = Some (getUri node, _remoteRpcId k) /\
  (forall m, m <> fst cp -> peer p' m = peer p m).
Proof.
  intros cp p' Hc. apply connected_peer in Hc as [Hn Hp]. split; [done|].
  pose proof (create_session_peer _ _ _ _ _ (surjective_pairing cp)) as Hs.
  unfold p'. rewrite (proj2 (Z.leb_le _ _) Hn) in Hs. destruct Hs as (H1 & H2 & H3).
  split_and!; [done|by rewrite wait_connected_peer|]. intros m Hm. rewrite wait_connected_peer. by apply H3.
Qed.

(** ** All clients of a node *)

(** The numbers kept for the neighbours: one each, and a session once one was made. *)
Definition numbered s (l : list Z) : Prop := length l = length (_neighbors (dht s)).
Definition is_set (l : list Z) (m : nat) : Prop := exists n, l !! m = Some n /\ 0 <= n.
(** On endpoint [p] the numbers in [l] lead to the first neighbours. *)
Definition leads s (upto : nat) (rid : Z) p (l : list Z) : Prop :=
  forall m node, (m < upto)%nat -> _neighbors (dht s) !! m = Some node ->
  exists n, l !! m = Some n /\ 0 <= n /\ peer p n = Some (getUri node, rid).

Lemma leads_set s rid p l m : leads s (length (_neighbors (dht s))) rid p l -> (m < length (_neighbors (dht s)))%nat -> is_set l m.
Proof.
  intros Hl Hm. destruct (lookup_lt_is_Some_2 _ _ Hm) as [node Hn]. destruct (Hl m node Hm Hn) as (n & ? & ? & _). by exists n.
Qed.

Lemma is_set_insert l j n m : 0 <= n -> is_set l m -> is_set (<[j := n]> l) m.
Proof.
  intros Hn (n' & Hl & H0). destruct (decide (m = j)) as [->|Hm]; [|exists n'; by rewrite list_lookup_insert_ne].
  exists n. rewrite list_lookup_insert_eq by (by eapply lookup_lt_Some). done.
Qed.

(** Connecting to the neighbours from [j] on. *)
Lemma init_nodes_run s cs c rest : forall j k l p, (c < length cs)%nat -> _clientRpc k = Some p ->
  (j + rest)%nat = length (_neighbors (dht s)) -> numbered s l -> leads s j (_remoteRpcId k) p l ->
  exists p' l' r, init_nodes c j rest (at_client s cs c k l) = (r, at_client s cs c (set_rpc p' k) l') /\
    numbered s l' /\ (forall m, is_set l m -> is_set l' m) /\
    (r = Throw (OperationFailedException DHT_CONNECT_ERROR) \/
     r = Ret tt /\ leads s (j + rest) (_remoteRpcId k) p' l').
Proof.
  induction rest as [|rest IH]; intros j k l p Hc Hp Hj Hn Hl.
  - exists p, l, (Ret tt). rewrite Nat.add_0_r. split_and!; try done; [|by right]. simpl. unfold cret, set_rpc. rewrite <- Hp. by destruct k.
  - destruct (lookup_lt_is_Some_2 (_neighbors (dht s)) j) as [node Hnode]; [lia|].
    cbn [init_nodes]. unfold cbind at 1. rewrite (initializeNode_run s cs c k l p j node Hc Hp Hnode).
    pose proof (session_leads node k p) as Hs. cbv zeta in Hs |- *.
    set (cp := create_session (getUri node) (_remoteRpcId k) p) in *.
    set (p1 := wait_connected WAIT_FOR_NEIGHBOUR_RETRIES (fst cp) (snd cp)) in *. destruct (is_connected (fst cp) p1).
    2:{ exists p1, l. eexists. split; [done|]. split_and!; [done..|by left]. }
    destruct (Hs eq_refl) as (H0 & Hfresh & Hpeer & Hother).
    assert (j < length l)%nat as Hjl by (rewrite Hn; lia).
    destruct (IH (S j) (set_rpc p1 k) (<[j := fst cp]> l) p1) as (p' & l' & r & E & Hn2 & Hm2 & Hr); try done.
    + lia.
    + unfold numbered. by rewrite length_insert.
    + intros m nd Hm Hnd. destruct (decide (m = j)) as [->|Hne].
      * rewrite Hnode in Hnd. simplify_eq. exists (fst cp). by rewrite list_lookup_insert_eq.
      * destruct (Hl m nd) as (n & Hln & Hn0 & Hpn); [lia|done|]. exists n. rewrite list_lookup_insert_ne by done.
        split_and!; [done..|]. rewrite Hother; [done|]. intros ->. congruence.
    + exists p', l', r. split; [exact E|]. split; [done|]. split; [eauto using is_set_insert|].
      replace (j + S rest)%nat with (S j + rest)%nat by lia. done.
Qed.

Lemma alloc_or_die_run s cs c k l p size : (c < length cs)%nat -> _clientRpc k = Some p ->
  alloc_or_die c size (at_client s cs c k l) =
    match alloc_msg_buffer size p with
    | Some p' => (Ret tt, at_client s cs c (set_rpc p' k) l)
    | None => (Crash, at_client s cs c k l)
    end.
Proof.
  intros Hc Hp. unfold alloc_or_die. rewrite (cbind_ret _ _ _ _ _ (get_rpc_at s cs c k l p Hc Hp)).
  destruct (alloc_msg_buffer size p); [apply mod_client_at|done].
Qed.

Lemma leads_peer s n rid p p' l : (forall m, peer p' m = peer p m) -> leads s n rid p l -> leads s n rid p' l.
Proof. intros E Hl m node Hm Hn. destruct (Hl m node Hm Hn) as (x & ? & ? & ?). exists x. by rewrite E. Qed.

(** The body of the [try] block from the new endpoint on. *)
Lemma connect_run s cs c k l p : (c < length cs)%nat -> numbered s l -> _clientRpc k = Some p ->
  exists p' l' r b st, (init_nodes c 0 (length (_neighbors (dht s))) ;;; alloc_or_die c ERPC_MAX_SIZE ;;; alloc_or_die c ERPC_MAX_SIZE ;;;
      mod_client c set_msgBufs ;;; mod_client c (set_state DHT_CLIENT_READY)) (at_client s cs c k l) =
      (r, at_client s cs c (mkConnection st (Some p') (_remoteRpcId k) b) l') /\
    numbered s l' /\ (forall m, is_set l m -> is_set l' m) /\
    ((r = Throw (OperationFailedException DHT_CONNECT_ERROR) \/ r = Crash) /\ b = msgBufs k /\ st = state k \/
     r = Ret tt /\ b = true /\ st = DHT_CLIENT_READY /\
     leads s (length (_neighbors (dht s))) (_remoteRpcId k) p' l').
Proof.
  intros Hc Hn Hp.
  destruct (init_nodes_run s cs c (length (_neighbors (dht s))) 0 k l p) as (p1 & l1 & r & E & Hn1 & Hm1 & Hr);
    [done..|intros ???; lia|].
  unfold cbind at 1. rewrite E. destruct Hr as [->|(-> & Hl)].
  { exists p1, l1. do 3 eexists. split; [reflexivity|]. split_and!; [done..|]. left. auto. }
  rewrite Nat.add_0_l in Hl.
  unfold cbind at 1. rewrite (alloc_or_die_run s cs c _ l1 p1) by done.
  destruct (alloc_msg_buffer ERPC_MAX_SIZE p1) as [p2|] eqn:E2.
  2:{ exists p1, l1. do 3 eexists. split; [reflexivity|]. split_and!; [done..|]. left. auto. }
  unfold cbind at 1. rewrite (alloc_or_die_run s cs c _ l1 p2) by done.
  destruct (alloc_msg_buffer ERPC_MAX_SIZE p2) as [p3|] eqn:E3.
  2:{ exists p2, l1. do 3 eexists. split; [reflexivity|]. split_and!; [done..|]. left. auto. }
  rewrite (cbind_ret _ _ _ _ _ (mod_client_at _ _ _ _ _ _)), mod_client_at.
  exists p3, l1. do 3 eexists. split; [reflexivity|]. split_and!; [done..|]. right. split_and!; try done.
  eapply leads_peer; [|exact Hl]. intros m. by rewrite (alloc_msg_buffer_peer _ _ _ _ E3), (alloc_msg_buffer_peer _ _ _ _ E2).
Qed.

(** A client that can be used: its endpoint has a session to each neighbour. *)
Definition ready s k : Prop := state k = DHT_CLIENT_READY /\ msgBufs k = true /\
  exists p l, _clientRpc k = Some p /\ leads s (length (_neighbors (dht s))) (_remoteRpcId k) p l.

(** A client that the numbers in [l] lead to the neighbours. *)
Definition led s k (l : list Z) : Prop := state k = DHT_CLIENT_READY /\ msgBufs k = true /\
  exists p, _clientRpc k = Some p /\ leads s (length (_neighbors (dht s))) (_remoteRpcId k) p l.

Lemma led_ready s k l : led s k l -> ready s k.
Proof. intros (? & ? & p & ? & ?). split_and!; [done..|]. by exists p, l. Qed.

(** A client that could not connect: it may have an endpoint, but no buffers. *)
Definition broken k : Prop := state k = DHT_CLIENT_ERROR /\ msgBufs k = false.

Lemma initialize_run s c rid : clients s !! c = Some DhtClient_init -> numbered s (sessions s) ->
  remote_id s (numberOfClientThreads s) = Some rid ->
  exists r s' k, initialize c s = (r, s') /\ dht s' = dht s /\ _threadDhtClient s' = _threadDhtClient s /\
    clients s' = <[c := k]> (clients s) /\ _remoteRpcId k = rid /\ numbered s (sessions s') /\
    (forall m, is_set (sessions s) m -> is_set (sessions s') m) /\
    (r = Ret tt /\ led s k (sessions s') \/ r = Crash /\ state k <> DHT_CLIENT_READY \/
     broken k /\ exists e, r = Throw e /\ (_clientRpc k = None \/
       e = OperationFailedException DHT_CONNECT_ERROR /\ is_Some (_clientRpc k) /\ _registeredDhtClients s' = _registeredDhtClients s ++ [c])).
Proof.
  intros Hk Hn Hrid. pose proof (lookup_lt_Some _ _ _ Hk) as Hc.
  set (cs := clients s) in *. set (l := sessions s) in *. set (n0 := nextRpcId s). set (n1 := s32 (numberOfClientThreads s + 1)).
  assert (Es : set_counters n0 n1 s = at_client (set_counters n0 n1 s) cs c DhtClient_init l).
  { unfold at_client. rewrite (list_insert_id _ _ _ Hk). by destruct s. }
  unfold initialize, cbind at 1, cget, cbind at 1, cmod at 1. rewrite Hrid. fold n0 n1. rewrite Es.
  set (s1 := set_counters n0 n1 s). rewrite (cbind_ret _ _ _ _ _ (mod_client_at s1 cs c _ l _)).
  set (k1 := set_remote rid DhtClient_init). unfold ccatch, cbind at 1, cget, cbind at 1, cmod at 1.
  change (nextRpcId (at_client s1 cs c k1 l)) with n0. change (dht (at_client s1 cs c k1 l)) with (dht s).
  change (numberOfClientThreads (at_client s1 cs c k1 l)) with n1. set (s2 := set_counters (s32 (n0 + 1)) n1 s1).
  change (set_counters (s32 (n0 + 1)) n1 (at_client s1 cs c k1 l)) with (at_client s2 cs c k1 l).
  destruct (rpc_new (s32 (n0 + 1))) as [e|p] eqn:Ep; unfold cbind at 1; cbn [cthrow cret].
  { rewrite (cbind_ret _ _ _ _ _ (mod_client_at s2 cs c k1 l _)). do 3 eexists. split; [reflexivity|].
    split_and!; try done. right. right. split; [done|]. eexists. split; [reflexivity|]. by left. }
  rewrite (cbind_ret _ _ _ _ _ (mod_client_at s2 cs c k1 l _)). unfold cbind at 1, registerClient, cmod at 1.
  set (s3 := mkDhtClients (dht s) l (numOfDhtThreads s) (baseDhtId s) (randomSeed s) (s32 (n0 + 1)) n1 cs
               (_threadDhtClient s) (_registeredDhtClients s ++ [c])).
  change (mkDhtClients _ _ _ _ _ _ _ _ _ _) with (at_client s3 cs c (set_rpc p k1) l).
  destruct (connect_run s3 cs c (set_rpc p k1) l p) as (p' & l' & r & b & st & E & Hn' & Hm & Hr);
    [done..|].
  change (dht s3) with (dht s) in E. rewrite E.
  destruct Hr as [([->| ->] & -> & ->)|(-> & -> & -> & Hl)].
  - rewrite (cbind_ret _ _ _ _ _ (mod_client_at s3 cs c _ l' _)). do 3 eexists. split; [reflexivity|].
    split_and!; try done. right. right. split; [done|]. eexists. split; [reflexivity|]. right.
    split_and!; [done|by eexists|done].
  - do 3 eexists. split; [reflexivity|]. split_and!; try done. right. by left.
  - do 3 eexists. split; [reflexivity|]. split_and!; try done. left. split; [done|].
    split_and!; [done..|]. by exists p'.
Qed.

(** ** Calls of any threads, in any order *)

Inductive client_call : Type := CGetClient (t : nat) | CPing (t j : nat).

Definition do_call (call : client_call) : NM unit :=
  match call with
  | CGetClient t => getClient t ;;; cret tt
  | CPing t j => let! c := getClient t in ping c j ;;; cret tt
  end.

(** Exceptions go to the caller, who may go on. *)
Fixpoint run_calls (calls : list client_call) s : option DhtClients :=
  match calls with
  | [] => Some s
  | call :: calls =>
      match do_call call s with
      | (Ret _, s') | (Throw _, s') => run_calls calls s'
      | (Crash, _) | (Undef, _) => None
      end
  end.

(** Every client is ready, and then every neighbour has its session, or broken. *)
Record clients_inv s : Prop := {
  ci_numbered : numbered s (sessions s);
  ci_thread : forall t c, _threadDhtClient s !! t = Some c -> (c < length (clients s))%nat;
  ci_client : forall c k, clients s !! c = Some k ->
    (ready s k /\ forall m, (m < length (_neighbors (dht s)))%nat -> is_set (sessions s) m) \/ broken k }.

Lemma clients_inv_init d threads base seed rpcs : clients_inv (clients_init d threads base seed rpcs).
Proof.
  split; [apply length_replicate|done..].
Qed.

(** A new client for a thread that has none. *)
Lemma initClient_run s t r s' : clients_inv s -> initClient t s = (r, s') -> r <> Crash -> r <> Undef ->
  let c := length (clients s) in
  clients_inv s' /\ dht s' = dht s /\ _threadDhtClient s' = <[t := c]> (_threadDhtClient s) /\
  exists k, clients s' = clients s ++ [k] /\
    (r = Ret tt /\ led s' k (sessions s') \/
     broken k /\ exists e, r = Throw e /\ (_clientRpc k = None \/ _registeredDhtClients s' = _registeredDhtClients s ++ [c] /\ is_Some (_clientRpc k))).
Proof.
  intros Hi E Hcr Hun c. unfold initClient, cbind at 1, cget, cbind, cmod in E. fold c in E.
  set (s1 := mkDhtClients _ _ _ _ _ _ _ (clients s ++ [DhtClient_init]) _ _) in E.
  assert (Hk : clients s1 !! c = Some DhtClient_init) by (cbn; by rewrite lookup_app_r, Nat.sub_diag).
  destruct (remote_id s1 (numberOfClientThreads s1)) as [rid|] eqn:Hrid.
  2:{ unfold initialize, cbind, cget, cmod in E. rewrite Hrid in E. by injection E as <- _. }
  destruct (initialize_run s1 c rid Hk) as (r' & s'' & k & E' & Hd & Ht & Hcl & _ & Hn & Hm & Hr); [apply Hi|done|].
  rewrite E' in E. injection E as -> ->. assert (Hcs : clients s' = clients s ++ [k]).
  { rewrite Hcl. cbn. rewrite insert_app_r_alt, Nat.sub_diag by done. done. }
  assert (Hd' : dht s' = dht s) by done.
  split_and!; [|done..|].
  - destruct Hi as [_ Hth Hci]. split.
    + unfold numbered in *. by rewrite Hd'.
    + intros t' c'. rewrite Ht, Hcs, length_app. cbn. destruct (decide (t = t')) as [->|].
      * rewrite lookup_insert_eq. intros [= <-]. lia.
      * rewrite lookup_insert_ne by done. intros ?%Hth. lia.
    + intros c' k'. rewrite Hcs. intros [Hc'|(_ & Hc')]%lookup_app_Some.
      * destruct (Hci c' k' Hc') as [[Hre Ha]|]; [|by right]. left. unfold ready, leads in *. rewrite Hd'.
        split; [done|]. intros m Hm'. by apply Hm, Ha.
      * apply list_lookup_singleton_Some in Hc' as (_ & <-). destruct Hr as [(_ & Hre)|[(-> & _)|(Hb & _)]]; [|done|by right].
        assert (Hre' : led s' k (sessions s')) by (unfold led, leads in *; by rewrite Hd').
        left. split; [by eapply led_ready|]. destruct Hre' as (_ & _ & p & _ & Hl). intros m Hm'. by eapply leads_set.
  - exists k. split; [done|]. destruct Hr as [(-> & Hre)|[(-> & _)|(Hb & e & -> & He)]]; [|done|].
    + left. split; [done|]. unfold led, leads in *. by rewrite Hd'.
    + right. split; [done|]. exists e. split; [done|]. destruct He as [?|(_ & ? & ?)]; [by left|by right].
Qed.

Lemma getClient_known s t c : _threadDhtClient s !! t = Some c -> getClient t s = (Ret c, s).
Proof. intros E. unfold getClient, cbind, cget, cret. by rewrite E, E. Qed.

Lemma getClient_run s t r s' : clients_inv s -> getClient t s = (r, s') -> r <> Crash -> r <> Undef ->
  clients_inv s' /\ dht s' = dht s /\ forall c, r = Ret c -> _threadDhtClient s' !! t = Some c.
Proof.
  intros Hi E Hcr Hun. destruct (_threadDhtClient s !! t) as [c|] eqn:Et.
  { rewrite (getClient_known _ _ _ Et) in E. injection E as <- <-. split_and!; try done. by intros c' [= <-]. }
  unfold getClient, cbind at 1, cget at 1 in E. rewrite Et in E. unfold cbind in E.
  destruct (initClient t s) as [r1 s1] eqn:E1.
  assert (Hne : r1 <> Crash /\ r1 <> Undef) by (split; intros ->; by simplify_eq).
  destruct (initClient_run s t r1 s1 Hi E1) as (Hi1 & Hd1 & Ht1 & k & _ & Hr); [tauto..|].
  destruct Hr as [(-> & _)|(_ & e & -> & _)].
  - unfold cget in E. rewrite Ht1, lookup_insert_eq in E. injection E as <- <-. split_and!; [done..|]. intros c' [= <-]. by rewrite Ht1, lookup_insert_eq.
  - injection E as <- <-. done.
Qed.

(** A ping changes nothing: a client that may ping has all its sessions. *)
Lemma ping_run s c j : clients_inv s -> (c < length (clients s))%nat -> exists r, ping c j s = (r, s).
Proof.
  intros Hi Hc. destruct (lookup_lt_is_Some_2 _ _ Hc) as [k Hk]. unfold ping, cbind at 1, get_conn. rewrite Hk.
  destruct (ci_client _ Hi _ _ Hk) as [((Hst & _ & p & _ & Hp & _) & Ha)|(Hst & _)]; rewrite Hst; [|by eexists].
  unfold cbind at 1, cget. destruct (sessions s !! j) as [n|] eqn:En; [|by eexists].
  assert (0 <= n) as Hn.
  { destruct (Ha j) as (n' & En' & ?); [rewrite <- (ci_numbered _ Hi); by eapply lookup_lt_Some|congruence]. }
  destruct (Z.eqb_spec n ERPC_SESSION_NOT_SET); [unfold ERPC_SESSION_NOT_SET in *; lia|].
  unfold cbind, get_rpc. rewrite Hk. simpl. rewrite Hp. by eexists.
Qed.

Lemma do_call_run call s r s' : clients_inv s -> do_call call s = (r, s') -> r <> Crash -> r <> Undef ->
  clients_inv s' /\ dht s' = dht s.
Proof.
  intros Hi E Hcr Hun.
  assert (Hg : forall t r1 s1, getClient t s = (r1, s1) -> r1 <> Crash -> r1 <> Undef ->
    clients_inv s1 /\ dht s1 = dht s /\ forall c, r1 = Ret c -> _threadDhtClient s1 !! t = Some c) by eauto using getClient_run.
  destruct call as [t|t j]; unfold do_call, cbind, cret in E; destruct (getClient t s) as [[c|e| |] s1] eqn:E1; try (by simplify_eq);
    (destruct (Hg _ _ _ E1) as (Hi1 & Hd1 & Hc1); [done..|]); try (by simplify_eq).
  destruct (ping_run s1 c j Hi1) as (r2 & E2); [by eapply ci_thread, Hc1|]. rewrite E2 in E. by destruct r2; simplify_eq.
Qed.

Lemma run_calls_inv calls : forall s s', clients_inv s -> run_calls calls s = Some s' -> clients_inv s' /\ dht s' = dht s.
Proof.
  induction calls as [|call calls IH]; simpl; intros s s' Hi E; [by simplify_eq|].
  destruct (do_call call s) as [r s1] eqn:E1. destruct r as [u|e| |]; try done;
    destruct (do_call_run call s _ s1 Hi E1) as [Hi1 Hd1]; try done; rewrite <- Hd1; by apply IH.
Qed.

(** A new client reaches its neighbours: the calls of the client that connected last go,
    through the number kept for a neighbour, to a server endpoint of that neighbour.  It
    stays so until another client connects: calls of threads that have a client, pings
    included, leave the numbers alone. *)
Definition caller (call : client_call) : nat := match call with CGetClient t | CPing t _ => t end.

Lemma known_calls_keep calls : forall s s', clients_inv s ->
  Forall (fun call => is_Some (_threadDhtClient s !! caller call)) calls -> run_calls calls s = Some s' -> s' = s.
Proof.
  induction calls as [|call calls IH]; simpl; intros s s' Hi HF E; [by simplify_eq|].
  apply Forall_cons in HF as [[c Hc] HF]. assert (Ed : exists r, do_call call s = (r, s)).
  { destruct call as [t|t j]; cbn [caller] in Hc; unfold do_call, cbind; rewrite (getClient_known _ _ _ Hc); [by eexists|].
    destruct (ping_run s c j Hi) as [r ->]; [by eapply ci_thread|]. destruct r; by eexists. }
  destruct Ed as [r Ed]. rewrite Ed in E. destruct r; try done; by apply IH.
Qed.

Theorem dht_new_client_leads d threads base seed rpcs calls s t c s' later s'' j node :
  run_calls calls (clients_init d threads base seed rpcs) = Some s -> _threadDhtClient s !! t = None ->
  getClient t s = (Ret c, s') -> Forall (fun call => is_Some (_threadDhtClient s' !! caller call)) later ->
  run_calls later s' = Some s'' -> _neighbors d !! j = Some node ->
  exists k, clients s'' !! c = Some k /\ call_neighbour c j s'' = (Ret (Some (getUri node, _remoteRpcId k)), s'').
Proof.
  intros Hrun Et E HF Hlater Hj. destruct (run_calls_inv _ _ _ (clients_inv_init d threads base seed rpcs) Hrun) as [Hi Hd].
  destruct (getClient_run s t (Ret c) s' Hi E) as (Hi' & Hd' & Hc); [done..|].
  rewrite (known_calls_keep later s' s'' Hi' HF Hlater). specialize (Hc c eq_refl).
  unfold getClient, cbind at 1, cget at 1 in E. rewrite Et in E. unfold cbind in E.
  destruct (initClient t s) as [r1 s1] eqn:E1.
  assert (Hne : r1 <> Crash /\ r1 <> Undef) by (split; intros ->; by simplify_eq).
  destruct (initClient_run s t r1 s1 Hi E1) as (_ & Hd1 & Ht1 & k & Hcs & Hr); [tauto..|].
  destruct Hr as [(-> & _ & Hb & p & Hp & Hl)|(_ & e & -> & _)]; [|done].
  unfold cget in E. rewrite Ht1, lookup_insert_eq in E. injection E as <- <-. exists k.
  assert (Hk : clients s1 !! length (clients s) = Some k) by (by rewrite Hcs, lookup_app_r, Nat.sub_diag).
  split; [done|]. rewrite (call_neighbour_run _ _ _ _ Hk), Hp, Hb.
  change (dht (clients_init d threads base seed rpcs)) with d in Hd. rewrite <- Hd, <- Hd1 in Hj.
  destruct (Hl j node (lookup_lt_Some _ _ _ Hj) Hj) as (n & -> & _ & ->). done.
Qed.

(** C27. A client that could not connect is kept.  When the first call of a thread fails, the
    next call of the thread gets the same client without another attempt: a ping throws
    [DHT_DISABLED_ERROR], and every other call follows a null pointer.  When the client has
    an endpoint, so does the destructor of the node. *)
Theorem dht_broken_client_kept d threads base seed rpcs calls s t e s' j :
  run_calls calls (clients_init d threads base seed rpcs) = Some s -> getClient t s = (Throw e, s') ->
  exists c k, getClient t s' = (Ret c, s') /\ clients s' !! c = Some k /\
    ping c j s' = (Throw (OperationFailedException DHT_DISABLED_ERROR), s') /\ fst (call_neighbour c j s') = Undef /\
    (is_Some (_clientRpc k) -> fst (DhtCore_delete s') = Undef).
Proof.
  intros Hrun E. destruct (run_calls_inv _ _ _ (clients_inv_init d threads base seed rpcs) Hrun) as [Hi _].
  destruct (_threadDhtClient s !! t) as [c|] eqn:Et; [by rewrite (getClient_known _ _ _ Et) in E|].
  unfold getClient, cbind at 1, cget at 1 in E. rewrite Et in E. unfold cbind in E.
  destruct (initClient t s) as [r1 s1] eqn:E1.
  assert (Hne : r1 <> Crash /\ r1 <> Undef) by (split; intros ->; by simplify_eq).
  destruct (initClient_run s t r1 s1 Hi E1) as (Hi1 & Hd1 & Ht1 & k & Hcs & Hr); [tauto..|].
  destruct Hr as [(-> & _)|((Hst & Hb) & e' & -> & Hreg)].
  { exfalso. unfold cget in E. by rewrite Ht1, lookup_insert_eq in E. }
  injection E as -> ->. set (c := length (clients s)) in *.
  assert (Hk : clients s' !! c = Some k) by (by rewrite Hcs, lookup_app_r, Nat.sub_diag).
  exists c, k. split_and!; [by apply getClient_known; rewrite Ht1, lookup_insert_eq|done|..].
  - unfold ping, cbind, get_conn. by rewrite Hk, Hst.
  - rewrite (call_neighbour_run _ _ _ _ Hk), Hb. by destruct (_clientRpc k).
  - intros [p Hp]. destruct Hreg as [?|(Hreg & _)]; [congruence|]. unfold DhtCore_delete, cbind at 1, cget.
    rewrite Hreg, reverse_snoc. cbn [delete_all]. unfold cbind, DhtClient_delete, cbind, get_conn. by rewrite Hk, Hp, Hb.
Qed.
End Connect.

(** ** The server endpoints that clients use *)

Lemma residues_perm (a n : Z) : 0 < n -> ((fun i => i mod n) <$> seqZ a n) ≡ₚ seqZ 0 n.
Proof.
  intros Hn. apply NoDup_Permutation; [|apply NoDup_seqZ|].
  - apply NoDup_fmap_2_strong; [|apply NoDup_seqZ]. intros x y Hx%elem_of_seqZ Hy%elem_of_seqZ E.
    pose proof (Z.div_mod x n ltac:(lia)) as Ex. pose proof (Z.div_mod y n ltac:(lia)) as Ey.
    simpl in E. rewrite E in Ex. assert (x / n = y / n) as Eq by nia. rewrite Eq in Ex. lia.
  - intros x. rewrite list_elem_of_fmap, elem_of_seqZ. split.
    + intros (y & -> & _). pose proof (Z.mod_pos_bound y n Hn). lia.
    + intros Hx. exists (a + (x - a) mod n). rewrite elem_of_seqZ. pose proof (Z.mod_pos_bound (x - a) n Hn).
      split; [|lia]. rewrite Z.add_mod_idemp_r by lia. replace (a + (x - a)) with x by lia. symmetry. apply Z.mod_small. lia.
Qed.

Lemma fmap_seqZ_shift b n : (Z.add b <$> seqZ 0 n) = seqZ b n.
Proof. rewrite fmap_add_seqZ. f_equal. lia. Qed.

(** Clients are spread evenly over the server's threads: as many clients in a row as a
    server has DHT threads use each of the server endpoints, from the base id on, exactly
    once.  With no DHT threads the number of the endpoint is a remainder by zero. *)
Theorem dht_clients_spread {P} (s : @DhtClients P) i : 0 <= i -> 0 <= randomSeed s -> randomSeed s + i + numOfDhtThreads s <= 2 ^ 64 ->
  0 <= baseDhtId s -> 0 <= numOfDhtThreads s -> baseDhtId s + numOfDhtThreads s <= 256 ->
  (0 < numOfDhtThreads s -> (remote_id s <$> seqZ i (numOfDhtThreads s)) ≡ₚ Some <$> seqZ (baseDhtId s) (numOfDhtThreads s)) /\
  (numOfDhtThreads s = 0 -> remote_id s i = None).
Proof.
  intros Hi Hs Hw Hb Hn0 H256. split; [|intros E; unfold remote_id; by rewrite E].
  intros Hn. set (n := numOfDhtThreads s) in *. rewrite <- (fmap_seqZ_shift (baseDhtId s)), <- (residues_perm (randomSeed s + i) n Hn).
  rewrite <- (fmap_add_seqZ (randomSeed s) i n), <- !list_fmap_compose. apply reflexive_eq, list_fmap_ext.
  intros k x Hx%list_elem_of_lookup_2%elem_of_seqZ. unfold remote_id. fold n. zcase. cbn.
  rewrite (uwrap_id 64) by lia. pose proof (Z.mod_pos_bound (randomSeed s + x) n Hn). by rewrite uwrap_id by lia.
Qed.

(** ** Endpoints as lists of sessions

    An implementation of [ErpcRpc]: sessions connect at once, except to one host.  The
    first session of endpoint [i] has number [first i]. *)

Record list_rpc : Type := mkListRpc { lr_first : nat; lr_peers : list (string * Z) }.

Definition lr_lookup (p : list_rpc) (n : Z) : option (string * Z) :=
  if Z.of_nat (lr_first p) <=? n then lr_peers p !! Z.to_nat (n - Z.of_nat (lr_first p)) else None.

#[refine] Definition list_endpoints_from (first : Z -> nat) : ErpcRpc list_rpc :=
  {| rpc_new := fun i => inr (mkListRpc (first i) []);
     create_session := fun uri i p =>
       (Z.of_nat (lr_first p + length (lr_peers p)), mkListRpc (lr_first p) (lr_peers p ++ [(uri, i)]));
     is_connected := fun n p => match lr_lookup p n with Some (uri, _) => negb (String.eqb uri "down:1") | None => false end;
     run_event_loop := fun _ p => p; alloc_msg_buffer := fun _ p => Some p; peer := lr_lookup |}.
Proof.
  - intros i p n [= <-]. unfold lr_lookup. by destruct (_ <=? n).
  - intros uri i p n p' [= <- <-]. unfold lr_lookup. cbn [lr_peers lr_first].
    rewrite (proj2 (Z.leb_le 0 _)), (proj2 (Z.leb_le (Z.of_nat _) _)) by lia.
    replace (Z.to_nat _) with (length (lr_peers p)) by lia. split_and!.
    + by apply lookup_ge_None_2.
    + by rewrite lookup_app_r, Nat.sub_diag.
    + intros m Hm. destruct (Z.leb_spec (Z.of_nat (lr_first p)) m); [|done].
      destruct (decide (Z.to_nat (m - Z.of_nat (lr_first p)) < length (lr_peers p))%nat).
      * by rewrite lookup_app_l.
      * rewrite !lookup_ge_None_2; [done|lia|]. rewrite length_app. simpl. lia.
  - intros n p. unfold lr_lookup. destruct (Z.leb_spec (Z.of_nat (lr_first p)) n); [|done].
    destruct (lr_peers p !! _) as [[uri i]|]; [|done]. intros _. split; [lia|done].
  - done.
  - by intros size p p' n [= ->].
Defined.

#[local] Instance list_endpoints : ErpcRpc list_rpc := list_endpoints_from (fun _ => 0%nat).

(** Two threads of a node with two neighbours. *)
Definition two_nodes (second : string) : DhtCore :=
  mkDhtCore DhtNode_init [mkDhtNode "a" 1 ERPC_SESSION_NOT_SET 0 9 NODE_INIT; mkDhtNode second 1 ERPC_SESSION_NOT_SET 10 19 NODE_INIT] [] 1 0.

Lemma dht_new_client_leads_witness : exists (s' s'' : @DhtClients list_rpc) k,
  run_calls [CPing 0 1; CPing 1 0] s' = Some s'' /\ clients s'' !! 1%nat = Some k /\
  call_neighbour 1 1 s'' = (Ret (Some ("b:1", _remoteRpcId k)), s'').
Proof.
  set (s := default (clients_init (two_nodes "b") 3 4 100 3) (run_calls [CGetClient 0] (clients_init (two_nodes "b") 3 4 100 3))).
  set (s' := snd (getClient 1 s)). exists s', s'.
  destruct (dht_new_client_leads (two_nodes "b") 3 4 100 3 [CGetClient 0] s 1 1 s' [CPing 0 1; CPing 1 0] s' 1
    (mkDhtNode "b" 1 ERPC_SESSION_NOT_SET 10 19 NODE_INIT)) as (k & Hk & E);
    [vm_compute; reflexivity..| |vm_compute; reflexivity|reflexivity|].
  - repeat constructor; vm_compute; eexists; reflexivity.
  - exists k. split; [vm_compute; reflexivity|]. split; [exact Hk|exact E].
Defined.

(** The session numbers that clients share.  A number belongs to an endpoint, but it is kept
    in the node: where endpoints number their sessions differently, the call of the first
    client goes to another neighbour once a second client has connected. *)
Example shared_numbers_mislead :
  let _ := list_endpoints_from Z.to_nat in
  exists s : @DhtClients list_rpc,
    run_calls [CGetClient 0; CGetClient 1] (clients_init (two_nodes "b") 3 4 100 3) = Some s /\
    fst (call_neighbour 0 0 s) = Ret (Some ("b:1", 5)) /\ fst (call_neighbour 1 0 s) = Ret (Some ("a:1", 6)).
Proof. eexists. split; [vm_compute; reflexivity|]. split; vm_compute; reflexivity. Qed.

Lemma dht_broken_client_kept_witness : exists (s' : @DhtClients list_rpc) c,
  fst (getClient 0 (clients_init (two_nodes "down") 3 4 100 3)) = (Throw (OperationFailedException DHT_CONNECT_ERROR) : outcome exn nat) /\
  getClient 0 s' = (Ret c, s') /\ fst (DhtCore_delete s') = Undef.
Proof.
  set (s := clients_init (P := list_rpc) (two_nodes "down") 3 4 100 3). set (s' := snd (getClient 0 s)).
  destruct (dht_broken_client_kept (two_nodes "down") 3 4 100 3 [] s 0 (OperationFailedException DHT_CONNECT_ERROR) s' 1)
    as (c & k & Eg & Hk & _ & _ & Hd); [reflexivity|vm_compute; reflexivity|].
  exists s', c. split; [vm_compute; reflexivity|]. split; [exact Eg|]. apply Hd.
  assert (Ec : c = 0%nat) by (vm_compute in Eg; congruence). rewrite Ec in Hk. vm_compute in Hk. injection Hk as <-. eexists. reflexivity.
Defined.

Lemma dht_clients_spread_witness :
  (remote_id (clients_init (P := list_rpc) (two_nodes "b") 3 4 100 3) <$> seqZ 7 3) ≡ₚ [Some 4; Some 5; Some 6].
Proof.
  destruct (dht_clients_spread (clients_init (P := list_rpc) (two_nodes "b") 3 4 100 3) 7) as [H _]; try (vm_compute; discriminate).
  exact (H ltac:(reflexivity)).
Defined.
