(* ===== verification/SpdkConf.v ===== *)
(** * The configuration of the offload devices ([lib/spdk/SpdkConf], [Options.h]) *)

From Stdlib Require Import Ascii String.
From S2P Require Import Prelude Status CString ARTree.

#[local] Open Scope Z_scope.
#[local] Open Scope list_scope.

(** ** Options *)

Inductive OffloadDevType : Type := BDEV | JBOD | RAID0.

#[global] Instance OffloadDevType_eq_dec : EqDecision OffloadDevType.
Proof. solve_decision. Defined.

Record OffloadDevDescriptor : Type := mkDevDescriptor { devName : string; nvmeAddr : string; nvmeName : string }.

Record OffloadOptions : Type := mkOffloadOptions {
  devType : OffloadDevType; oname : string; o_allocUnitSize : Z; raid0StripeSize : Z; _devs : list OffloadDevDescriptor }.

Definition OffloadOptions_init : OffloadOptions := mkOffloadOptions BDEV "" (16 * 1024) 128 [].

(** ** [parsePciAddr]

    The variable [addr] is the seven bytes of a packed [PciAddr]; [sscanf] stores an
    [unsigned int] for each conversion. *)

Definition sizeof_PciAddr : nat := 7.

(** Bytes of a little-endian [unsigned int]. *)
Definition le32 (v : Z) : list Z := [u8 v; u8 (v / 2 ^ 8); u8 (v / 2 ^ 16); u8 (v / 2 ^ 24)].

Definition store_uint (off : nat) (v : Z) : M exn (list Z) unit := fun m =>
  if (length m <? off + 4)%nat then (Undef, m)
  else (Ret tt, take off m ++ le32 v ++ drop (off + 4) m).

(** The conversions of the format, each with the character before it and the offset
    of the field it stores to; the result is the number of conversions done. *)
Fixpoint sscanf_fields (fs : list (option ascii * nat)) (n : Z) (s : string) : M exn (list Z) Z :=
  match fs with
  | [] => cret n
  | (c, off) :: fs =>
      match match c with Some c => scan_char c s | None => Some s end with
      | None => cret n
      | Some s =>
          match scan_hex s with
          | None => cret n
          | Some (v, s) => store_uint off v ;;; sscanf_fields fs (n + 1) s
          end
      end
  end.

Definition pci_format : list (option ascii * nat) :=
  [(None, 0%nat); (Some ":"%char, 4%nat); (Some ":"%char, 5%nat); (Some "."%char, 6%nat)].

Definition bytes_pci (m : list Z) : PciAddr :=
  let b i := nth i m 0 in
  mkPciAddr (b 0%nat + 2 ^ 8 * b 1%nat + 2 ^ 16 * b 2%nat + 2 ^ 24 * b 3%nat) (b 4%nat) (b 5%nat) (b 6%nat).

(** [raw] is what [addr] holds before it is set. *)
Definition parsePciAddr (raw : list Z) (nvmeAddr : string) : outcome exn PciAddr :=
  let (r, m) := sscanf_fields pci_format 0 nvmeAddr raw in
  match r with
  | Ret ret => Ret (bytes_pci (if ret =? 4 then m else replicate sizeof_PciAddr 255))
  | Throw e => Throw e
  | Crash => Crash
  | Undef => Undef
  end.

(** ** [class SpdkConf] *)

Record SpdkBdevConf : Type := mkSpdkBdevConf {
  bc_devName : string; bc_nvmeAddr : string; bc_pciAddr : PciAddr; bc_nvmeName : string }.

(** [_bdevNum] is not set by the second constructor, and [_bdev] is never used. *)
Record SpdkConf : Type := mkSpdkConf {
  _devType : OffloadDevType; _name : string; _raid0StripeSize : Z; conf_devs : list SpdkBdevConf; _bdevNum : option Z }.

Fixpoint copyDevs (raw : list Z) (ds : list OffloadDevDescriptor) : outcome exn (list SpdkBdevConf) :=
  match ds with
  | [] => Ret []
  | d :: ds =>
      match parsePciAddr raw (nvmeAddr d) with
      | Ret a =>
          match copyDevs raw ds with
          | Ret l => Ret (mkSpdkBdevConf (devName d) (nvmeAddr d) a (nvmeName d) :: l)
          | r => r
          end
      | Throw e => Throw e
      | Crash => Crash
      | Undef => Undef
      end
  end.

Definition SpdkConf_of_options (raw : list Z) (o : OffloadOptions) : outcome exn SpdkConf :=
  match copyDevs raw (_devs o) with
  | Ret l => Ret (mkSpdkConf (devType o) (oname o) (raid0StripeSize o) l (Some (-1)))
  | Throw e => Throw e
  | Crash => Crash
  | Undef => Undef
  end.

Definition SpdkConf_of (ty : OffloadDevType) (name : string) (stripe : Z) : SpdkConf := mkSpdkConf ty name stripe [] None.

Definition setBdevNum (n : Z) (c : SpdkConf) : SpdkConf :=
  mkSpdkConf (_devType c) (_name c) (_raid0StripeSize c) (conf_devs c) (Some n).
Definition addDev (d : SpdkBdevConf) (c : SpdkConf) : SpdkConf :=
  mkSpdkConf (_devType c) (_name c) (_raid0StripeSize c) (conf_devs c ++ [d]) (_bdevNum c).

(** [*this = r], which leaves the stripe size. *)
Definition conf_assign (r c : SpdkConf) : SpdkConf :=
  mkSpdkConf (_devType r) (_name r) (_raid0StripeSize c) (conf_devs r) (_bdevNum r).

(** [_devs[0]] of the three getters. *)
Definition first_dev (c : SpdkConf) : outcome exn SpdkBdevConf :=
  match conf_devs c with d :: _ => Ret d | [] => Undef end.

(** ** The bytes behind the address *)

Lemma store_uint_out off v (m : list Z) : (length m < off + 4)%nat -> store_uint off v m = (Undef, m).
Proof. intros Hl. unfold store_uint. by destruct (Nat.ltb_spec (length m) (off + 4)); [|lia]. Qed.

Lemma length_store off v (m m' : list Z) : store_uint off v m = (Ret tt, m') -> length m' = length m.
Proof.
  unfold store_uint. destruct (Nat.ltb_spec (length m) (off + 4)); intros [= <-].
  rewrite length_app, length_take. change (Init.Nat.min off (length m) + S (S (S (S (length (drop (off + 4) m))))) = length m)%nat.
  rewrite length_drop. lia.
Qed.

(** No PCI address can be read.  Each field after the first is a byte, and
    [sscanf] stores four bytes there: for every text with a domain and a bus the
    store of the bus reaches behind the seven bytes of the address. *)
Theorem parsePciAddr_overruns raw s d s1 b s2 : length raw = sizeof_PciAddr ->
  scan_hex s = Some (d, String ":" s1) -> scan_hex s1 = Some (b, s2) -> parsePciAddr raw s = Undef.
Proof.
  intros Hr Hd Hb. unfold parsePciAddr, pci_format. cbn [sscanf_fields]. rewrite Hd.
  destruct (store_uint 0 d raw) as [r m] eqn:Es.
  assert (r = Ret tt) as ->. { unfold store_uint in Es. rewrite Hr in Es. by injection Es. }
  rewrite (cbind_ret _ _ _ _ _ Es). cbn [scan_char]. rewrite Ascii.eqb_refl, Hb.
  unfold cbind. rewrite store_uint_out; [done|]. rewrite (length_store _ _ _ _ Es), Hr. unfold sizeof_PciAddr. lia.
Qed.

Lemma parsePciAddr_overruns_witness : parsePciAddr (replicate 7 0) "0000:5e:00.0" = Undef.
Proof.
  apply (parsePciAddr_overruns _ _ 0 "5e:00.0" 94 ":00.0"); reflexivity.
Defined.
