(* ===== verification/SpdkInit.v ===== *)
(** * Opening a block device ([SpdkBdev::init], [bdevInit], [initFreeList])

    The I/O thread opens the device while [init] waits for it.  What is known of the
    device before it has an allocator of LBAs is [BdevOpen]; [initFreeList] turns it
    into the device that [SpdkBdev] models. *)

From stdpp Require Import strings.
From S2P Require Import Prelude Status Pmem FreeList LbaAlloc ARTree Poller Rqst SpdkIoBuf SpdkDevice SpdkBdev SpdkConf.

(** ** What SPDK knows of its devices

    [sp_first_leaf] and [sp_next_leaf] go through the devices that no other device is
    built on, each once. *)
Class SpdkBdevLib : Type := {
  sp_first : option positive;
  sp_first_leaf : option positive;
  sp_next_leaf : positive -> option positive;
  sp_leaves : list positive;
  sp_open : positive -> Z;
  sp_opts : Z * Z;
  sp_io_channel : positive -> bool;
  sp_block_size : positive -> Z;
  sp_data_block_size : positive -> Z;
  sp_buf_align : positive -> Z;
  sp_num_blocks : positive -> Z;
  sp_thread : bool;
  sp_leaves_nodup : NoDup sp_leaves;
  sp_first_leaf_head : sp_first_leaf = head sp_leaves;
  sp_next_leaf_next : forall i b, sp_leaves !! i = Some b -> sp_next_leaf b = sp_leaves !! S i
}.

Record BdevOpen : Type := mkBdevOpen {
  bo_ctx : SpdkBdevCtx; bo_bdev : option positive; confBdevNum : Z; bo_maxIoBufs : Z; bo_maxCacheIoBufs : Z;
  bo_isRunning : Z; ioEngineInitDone : Z; blkNumForLba : Z }.

(** The constructor; the uninitialised part of the context is [EmptyString] and zero. *)
Definition no_pci : PciAddr := mkPciAddr 0 0 0 0.
Definition SpdkBdev_init : BdevOpen :=
  mkBdevOpen (mkSpdkBdevCtx String.EmptyString String.EmptyString 0 0 0 0 0 0 4096 SPDK_BDEV_INIT no_pci) None (-1) 0 0 0 0 0.

Definition on_ctx (f : SpdkBdevCtx -> SpdkBdevCtx) (b : BdevOpen) : BdevOpen :=
  mkBdevOpen (f (bo_ctx b)) (bo_bdev b) (confBdevNum b) (bo_maxIoBufs b) (bo_maxCacheIoBufs b) (bo_isRunning b)
    (ioEngineInitDone b) (blkNumForLba b).
Definition set_bdev (d : option positive) (b : BdevOpen) : BdevOpen :=
  mkBdevOpen (bo_ctx b) d (confBdevNum b) (bo_maxIoBufs b) (bo_maxCacheIoBufs b) (bo_isRunning b)
    (ioEngineInitDone b) (blkNumForLba b).
Definition setRunning (n : Z) (b : BdevOpen) : BdevOpen :=
  mkBdevOpen (bo_ctx b) (bo_bdev b) (confBdevNum b) (bo_maxIoBufs b) (bo_maxCacheIoBufs b) n (ioEngineInitDone b) (blkNumForLba b).
Definition set_initDone (b : BdevOpen) : BdevOpen :=
  mkBdevOpen (bo_ctx b) (bo_bdev b) (confBdevNum b) (bo_maxIoBufs b) (bo_maxCacheIoBufs b) (bo_isRunning b) 1 (blkNumForLba b).
Definition set_maxBufs (io cache : Z) (b : BdevOpen) : BdevOpen :=
  mkBdevOpen (bo_ctx b) (bo_bdev b) (confBdevNum b) io cache (bo_isRunning b) (ioEngineInitDone b) (blkNumForLba b).
Definition setBlockNumForLba (n : Z) (b : BdevOpen) : BdevOpen :=
  mkBdevOpen (bo_ctx b) (bo_bdev b) (confBdevNum b) (bo_maxIoBufs b) (bo_maxCacheIoBufs b) (bo_isRunning b) (ioEngineInitDone b) n.

Definition set_ctx_state (st : CSpdkBdevState) (c : SpdkBdevCtx) : SpdkBdevCtx :=
  mkSpdkBdevCtx (bdev_name c) (bdev_addr c) (blk_size c) (data_blk_size c) (buf_align c) (blk_num c) (io_pool_size c)
    (io_cache_size c) (io_min_size c) st (pci_addr c).
Definition set_ctx_opts (pool cache : Z) (c : SpdkBdevCtx) : SpdkBdevCtx :=
  mkSpdkBdevCtx (bdev_name c) (bdev_addr c) (blk_size c) (data_blk_size c) (buf_align c) (blk_num c) pool cache
    (io_min_size c) (ctx_state c) (pci_addr c).
Definition set_ctx_geometry (bs dbs al num : Z) (c : SpdkBdevCtx) : SpdkBdevCtx :=
  mkSpdkBdevCtx (bdev_name c) (bdev_addr c) bs dbs al num (io_pool_size c) (io_cache_size c) (io_min_size c)
    (ctx_state c) (pci_addr c).

Section Open.
Context `{SpdkBdevLib}.

(** The state is the device with the static member [prevBdev]. *)
#[local] Abbreviation OM A := (M exn (BdevOpen * option positive) A).
Definition on_open (f : BdevOpen -> BdevOpen) : OM unit := cmod (fun s => (f (fst s), snd s)).

(** The device of this configuration; [None] is a null pointer. *)
Definition pick_bdev : OM (option positive) := fun s =>
  let n := confBdevNum (fst s) in
  if n =? -1 then (Ret sp_first, s)
  else if n =? 0 then (Ret sp_first_leaf, (fst s, sp_first_leaf))
  else match snd s with
       | Some p => (Ret (sp_next_leaf p), (fst s, sp_next_leaf p))
       | None => (Undef, s)
       end.

Definition fail_with (st : CSpdkBdevState) : OM bool := on_open (on_ctx (set_ctx_state st)) ;;; cret false.

Definition bdevInit : OM bool :=
  let! s := cget in
  if (confBdevNum (fst s) <? -1) then fail_with SPDK_BDEV_NOT_FOUND
  else
    let! d := pick_bdev in
    on_open (set_bdev d) ;;;
    match d with
    | None => fail_with SPDK_BDEV_NOT_FOUND
    | Some d =>
        if negb (sp_open d =? 0) then fail_with SPDK_BDEV_ERROR
        else
          on_open (on_ctx (set_ctx_opts (fst sp_opts) (snd sp_opts))) ;;;
          on_open (set_maxBufs (fst sp_opts) (snd sp_opts)) ;;;
          if negb (sp_io_channel d) then fail_with SPDK_BDEV_ERROR
          else
            on_open (on_ctx (set_ctx_geometry (sp_block_size d) (sp_data_block_size d) (sp_buf_align d) (sp_num_blocks d))) ;;;
            on_open set_initDone ;;;
            cret true
    end.

(** [char bdev_name[MAX_BDEV_NAME]] and the address: [strcpy] needs room for the final zero. *)
Definition MAX_BDEV_NAME : nat := 32.
Definition BDEV_PCI_ADDR : nat := 32.

Definition init_ctx (num : Z) (d : SpdkBdevConf) (b : BdevOpen) : BdevOpen :=
  let c := bo_ctx b in
  mkBdevOpen (mkSpdkBdevCtx (bc_nvmeName d) (bc_nvmeAddr d) (blk_size c) (data_blk_size c) (buf_align c) (blk_num c)
      (io_pool_size c) (io_cache_size c) (io_min_size c) (ctx_state c) (bc_pciAddr d))
    None num (bo_maxIoBufs b) (bo_maxCacheIoBufs b) (bo_isRunning b) (ioEngineInitDone b) (blkNumForLba b).

(** [init] with the part of [ioEngineThreadMain] up to its loop: when the thread gives
    up, [init] waits for [ioEngineInitDone] for ever. *)
Definition init (conf : SpdkConf) : OM bool :=
  match _bdevNum conf, first_dev conf with
  | Some num, Ret d =>
      if (MAX_BDEV_NAME <=? String.length (bc_nvmeName d))%nat || (BDEV_PCI_ADDR <=? String.length (bc_nvmeAddr d))%nat
      then cundef
      else
        on_open (init_ctx num d) ;;;
        on_open (setRunning 3) ;;;
        if negb sp_thread then on_open (setRunning 4) ;;; ccrash
        else
          let! ret := bdevInit in
          let! s := cget in
          if ioEngineInitDone (fst s) =? 0 then ccrash
          else on_open (setRunning 1) ;;; cret true
  | _, _ => cundef
  end.
End Open.

Section FreeListInit.
Context {C R PO H N : Type} `{SpdkRing (DeviceTask C) R} `{IoBufPools PO} `{DmaAlloc H} `{SpdkNvme N}
  `{PmemTx} `{PmemHeap FreeLba}.

(** [initFreeList] creates the file of free LBAs, which may be there already, and the
    arrays [raw].  The device then has the queues that [init] made, the I/O state [io] that
    the constructor does not set, and the part [nv], [d] that SPDK keeps. *)
Definition initFreeList (file : option OffloadFreeList) (raw : list (list Z)) (q : @Poller (DeviceTask C) R) (io : IOState)
    (mgr : @SpdkIoBufMgr PO H) (nv : N) (d : Z -> list Z) (b : BdevOpen) : outcome exn (SpdkBdev C R PO H N) :=
  match OffloadLbaAlloc_init true file (blk_num (bo_ctx b)) (blkNumForLba b) raw with
  | Ret a => Ret (mkSpdkBdev (bo_ctx b) q (mkFinalizePoller q FP_READY) io (mkBdevStats 0 0 0 0 0) (bo_isRunning b)
                    (bo_maxIoBufs b) 0 a mgr nv [] [] d [] [])
  | Throw e => Throw e
  | Crash => Crash
  | Undef => Undef
  end.
End FreeListInit.

(** ** What [init] returns *)

Section Theorems.
Context `{SpdkBdevLib}.

(** A configuration of one device that fits the fields of the context. *)
Definition conf_fits (conf : SpdkConf) (num : Z) (d : SpdkBdevConf) : Prop :=
  _bdevNum conf = Some num /\ first_dev conf = Ret d /\
  (String.length (bc_nvmeName d) < MAX_BDEV_NAME)%nat /\ (String.length (bc_nvmeAddr d) < BDEV_PCI_ADDR)%nat.

(** A device that SPDK opens. *)
Definition opens (d : positive) : Prop := sp_open d = 0 /\ sp_io_channel d = true.

(** The device after it was opened. *)
Definition opened (num : Z) (c : SpdkBdevConf) (d : positive) (b : BdevOpen) : BdevOpen :=
  set_initDone (on_ctx (set_ctx_geometry (sp_block_size d) (sp_data_block_size d) (sp_buf_align d) (sp_num_blocks d))
    (set_maxBufs (fst sp_opts) (snd sp_opts) (on_ctx (set_ctx_opts (fst sp_opts) (snd sp_opts))
      (set_bdev (Some d) (setRunning 3 (init_ctx num c b)))))).

Lemma init_run conf num c b p d p' : sp_thread = true -> conf_fits conf num c -> -1 <= num ->
  pick_bdev (setRunning 3 (init_ctx num c b), p) = (Ret (Some d), (setRunning 3 (init_ctx num c b), p')) -> opens d ->
  init conf (b, p) = (Ret true, (setRunning 1 (opened num c d b), p')).
Proof.
  intros Ht (En & Ed & Hl1 & Hl2) Hn Hp [Ho Hi]. unfold init. rewrite En, Ed, Ht.
  destruct (Nat.leb_spec MAX_BDEV_NAME (String.length (bc_nvmeName c))); [lia|].
  destruct (Nat.leb_spec BDEV_PCI_ADDR (String.length (bc_nvmeAddr c))); [lia|]. cbn [orb negb].
  unfold cbind at 1, on_open at 1, cmod. unfold cbind at 1, on_open at 1, cmod. cbn [fst snd].
  unfold cbind at 1, bdevInit, cbind at 1, cget. cbn [fst snd confBdevNum setRunning init_ctx].
  destruct (Z.ltb_spec num (-1)); [lia|]. rewrite (cbind_ret _ _ _ _ _ Hp).
  unfold cbind at 1, on_open at 1, cmod. rewrite Ho, Hi. reflexivity.
Qed.

(** [ioEngineInitDone] is set only by a successful [bdevInit]. *)
Lemma bdevInit_done s r s' : ioEngineInitDone (fst s) = 0 -> bdevInit s = (Ret r, s') ->
  ioEngineInitDone (fst s') = (if r then 1 else 0).
Proof.
  intros Hs. unfold bdevInit, cbind at 1, cget. destruct (_ <? -1).
  { intros [= <- <-]. exact Hs. }
  unfold cbind at 1. destruct (pick_bdev s) as [o s1] eqn:Ep.
  assert (Es : fst s1 = fst s).
  { unfold pick_bdev in Ep. destruct (_ =? -1); [by injection Ep as <- <-|]. destruct (_ =? 0); [by injection Ep as <- <-|].
    destruct (snd s); by injection Ep as <- <-. }
  destruct o as [d| | |]; try done. unfold cbind at 1, on_open at 1, cmod. destruct d as [d|].
  - destruct (negb (sp_open d =? 0)); [intros [= <- <-]; simpl; by rewrite Es|].
    unfold cbind at 1, on_open at 1, cmod. unfold cbind at 1, on_open at 1, cmod.
    destruct (negb (sp_io_channel d)); intros [= <- <-]; [simpl; by rewrite Es|done].
  - intros [= <- <-]. simpl. by rewrite Es.
Qed.

(** [init] never answers false.  It returns true when [bdevInit] opened the
    device; when [bdevInit] failed, the I/O thread ends without a word, and [init]
    waits for it for ever. *)
Theorem bdev_init_hangs conf num c b p ret s1 :
  conf_fits conf num c -> sp_thread = true -> ioEngineInitDone b = 0 ->
  bdevInit (setRunning 3 (init_ctx num c b), p) = (Ret ret, s1) ->
  init conf (b, p) = (if ret then (Ret true, (setRunning 1 (fst s1), snd s1)) else (Crash, s1)).
Proof.
  intros (En & Ed & Hl1 & Hl2) Ht Hd Eb. unfold init. rewrite En, Ed, Ht.
  destruct (Nat.leb_spec MAX_BDEV_NAME (String.length (bc_nvmeName c))); [lia|].
  destruct (Nat.leb_spec BDEV_PCI_ADDR (String.length (bc_nvmeAddr c))); [lia|]. cbn [orb negb].
  unfold cbind at 1, on_open at 1, cmod. unfold cbind at 1, on_open at 1, cmod. cbn [fst snd].
  rewrite (cbind_ret _ _ _ _ _ Eb). unfold cbind at 1, cget.
  rewrite (bdevInit_done (setRunning 3 (init_ctx num c b), p) _ _ Hd Eb). by destruct ret.
Qed.
End Theorems.

(** ** SPDK with two devices of 100000 blocks, and with none *)

#[refine] Definition lib_of (l : list positive) (nd : NoDup l) : SpdkBdevLib :=
  {| sp_first := head l; sp_first_leaf := head l;
     sp_next_leaf := fun b => match list_find (eq b) l with Some (i, _) => l !! S i | None => None end;
     sp_leaves := l; sp_open := fun _ => 0; sp_opts := (64, 32); sp_io_channel := fun _ => true;
     sp_block_size := fun _ => 512; sp_data_block_size := fun _ => 512; sp_buf_align := fun _ => 1;
     sp_num_blocks := fun _ => 100000; sp_thread := true |}.
Proof.
  - exact nd.
  - reflexivity.
  - intros i b Hi. destruct (list_find (eq b) l) as [[j x]|] eqn:E.
    + apply list_find_Some in E as (Hj & <- & _). by rewrite (NoDup_lookup l i j b nd Hi Hj).
    + apply list_find_None in E. rewrite Forall_forall in E. destruct (E b); [by eapply list_elem_of_lookup_2|done].
Defined.

Section Runs.
Definition one_dev (a : PciAddr) : SpdkBdevConf := mkSpdkBdevConf "" "0000:5e:00.0" a "Nvme0".
Definition one_conf : SpdkConf := addDev (one_dev (mkPciAddr 0 94 0 0)) (setBdevNum (-1) (SpdkConf_of BDEV "" 0)).

Lemma bdev_init_hangs_witness : exists s1,
  init (H := lib_of [] (NoDup_nil_2)) one_conf (SpdkBdev_init, None) = (Crash, s1).
Proof.
  eexists. apply (bdev_init_hangs (H := lib_of [] (NoDup_nil_2)) one_conf (-1) (one_dev (mkPciAddr 0 94 0 0)) SpdkBdev_init None false);
    [split_and!; [reflexivity|reflexivity|vm_compute; lia|vm_compute; lia]|reflexivity|reflexivity|].
  reflexivity.
Defined.
End Runs.
