(* ===== verification/SpdkJBOD.v ===== *)
(** * Several devices as one ([lib/spdk/SpdkJBODBdev])

    A JBOD hands each write to the next of its devices in turn; reads find the
    device by a hash of the PCI address that the finalizer stored with the value,
    removals by comparing the address.  The routing is defined over any device of
    the class [SpdkDevice], which the JBOD implements in its turn. *)

From stdpp Require Import strings.
From S2P Require Import Prelude Status Pmem FreeList LbaAlloc ARTree Poller Rqst SpdkIoBuf SpdkDevice SpdkBdev SpdkConf SpdkInit.

(** ** State *)

(** [union JBODDeviceHash]: the bit fields from the least significant bit on. *)
Definition hashAddr (a : PciAddr) : Z :=
  pci_domain a mod 2 ^ 2 + 2 ^ 2 * (pci_bus a mod 2 ^ 6) + 2 ^ 8 * (pci_dev a mod 2 ^ 5) + 2 ^ 13 * (pci_func a mod 2 ^ 3).

Definition maxDevices : nat := 64.
(** [uint16_t] of -1; the indices of [deviceHash] are below it. *)
Definition maxHash : Z := u16 (-1).

Record JBODDevice (D : Type) : Type := mkJBODDevice { jd_addr : DeviceAddr; jd_bdev : D; jd_num : Z }.
Arguments mkJBODDevice {D}. Arguments jd_addr {D}. Arguments jd_bdev {D}. Arguments jd_num {D}.

(** [devices] are the entries of the array that were set; an entry of [deviceHash]
    that was not set is -1. *)
Record SpdkJBODBdev (D : Type) : Type := mkJBOD {
  j_ctx : SpdkBdevCtx; devices : list (JBODDevice D); deviceHash : gmap Z Z; numDevices : Z; currDevice : Z;
  j_blkNumForLba : Z; j_isRunning : Z }.
Arguments mkJBOD {D}. Arguments j_ctx {D}. Arguments devices {D}. Arguments deviceHash {D}. Arguments numDevices {D}.
Arguments currDevice {D}. Arguments j_blkNumForLba {D}. Arguments j_isRunning {D}.

Section State.
Context {D : Type}.
Implicit Types j : SpdkJBODBdev D.

Definition set_devices (l : list (JBODDevice D)) j : SpdkJBODBdev D :=
  mkJBOD (j_ctx j) l (deviceHash j) (numDevices j) (currDevice j) (j_blkNumForLba j) (j_isRunning j).
Definition set_numDevices (n : Z) j : SpdkJBODBdev D :=
  mkJBOD (j_ctx j) (devices j) (deviceHash j) n (currDevice j) (j_blkNumForLba j) (j_isRunning j).
Definition set_currDevice (n : Z) j : SpdkJBODBdev D :=
  mkJBOD (j_ctx j) (devices j) (deviceHash j) (numDevices j) n (j_blkNumForLba j) (j_isRunning j).
Definition jbod_setRunning (n : Z) j : SpdkJBODBdev D :=
  mkJBOD (j_ctx j) (devices j) (deviceHash j) (numDevices j) (currDevice j) (j_blkNumForLba j) n.

Definition set_dev (d : D) (x : JBODDevice D) : JBODDevice D := mkJBODDevice (jd_addr x) d (jd_num x).

(** A call of [devices[i].bdev]. *)
Definition on_device {A} (i : nat) (m : M exn D A) : M exn (SpdkJBODBdev D) A := fun j =>
  match devices j !! i with
  | None => (Undef, j)
  | Some x => let r := m (jd_bdev x) in (fst r, set_devices (<[i := set_dev (snd r) x]> (devices j)) j)
  end.

(** [for (i = 0; i < numDevices; i++) devices[i].bdev->m()]. *)
Fixpoint each_device (m : M exn D unit) (i n : nat) : M exn (SpdkJBODBdev D) unit :=
  match n with
  | O => cret tt
  | S n => on_device i m ;;; each_device m (S i) n
  end.
Definition all_devices (m : M exn D unit) : M exn (SpdkJBODBdev D) unit := fun j =>
  each_device m 0 (Z.to_nat (numDevices j)) j.
End State.

(** ** Routing *)

Section Routing.
Context {C D : Type} `{SpdkDevice C D}.
#[local] Abbreviation JM A := (M exn (SpdkJBODBdev D) A).
Implicit Types t : DeviceTask C.

Definition jbod_read (pv : pmem_view) t : JM bool := fun j =>
  if j_isRunning j =? 0 then (Ret false, j)
  else
    match task_addr pv t with
    | None => (Undef, j)
    | Some a =>
        let h := hashAddr (pciAddr a) in
        if maxHash <=? h then (Undef, j)
        else
          let idx := default (-1) (deviceHash j !! h) in
          if idx <? 0 then (Ret false, j) else on_device (Z.to_nat idx) (dev_read pv t) j
    end.

Definition jbod_write (pv : pmem_view) t : JM bool :=
  let! j := cget in
  if j_isRunning j =? 0 then cret false
  else
    let! ret := on_device (Z.to_nat (currDevice j)) (dev_write pv t) in
    let! j := cget in
    if numDevices j =? 0 then cundef
    else cput (set_currDevice (u32 (currDevice j + 1) mod numDevices j) j) ;;; cret ret.

(** The loop that looks for the device of an address, [n] of them from [i] on. *)
Fixpoint find_device {A} (a : option DeviceAddr) (i n : nat) (found : nat -> JM A) (none : JM A) : JM A := fun j =>
  match n with
  | O => none j
  | S n =>
      match a, devices j !! i with
      | Some a', Some x =>
          if bool_decide (pciAddr a' = pciAddr (jd_addr x)) then found i j else find_device a (S i) n found none j
      | _, _ => (Undef, j)
      end
  end.

Definition jbod_remove (pv : pmem_view) t : JM bool := fun j =>
  if j_isRunning j =? 0 then (Ret false, j)
  else find_device (task_addr pv t) 0 (Z.to_nat (numDevices j)) (fun i => on_device i (dev_remove pv t)) (cret false) j.
End Routing.

(** ** Opening, closing *)

Section Open.
Context `{SpdkBdevLib}.
#[local] Abbreviation OM A := (M exn (SpdkJBODBdev BdevOpen * option positive) A).

(** The constructor. *)
Definition SpdkJBODBdev_init : SpdkJBODBdev BdevOpen := mkJBOD (bo_ctx SpdkBdev_init) [] ∅ 0 0 0 0.

(** The next entry of the array with its device, which is not open. *)
Definition add_device (a : PciAddr) (j : SpdkJBODBdev BdevOpen) : SpdkJBODBdev BdevOpen :=
  set_devices (devices j ++ [mkJBODDevice (mkDeviceAddr (u64 (-1)) a) SpdkBdev_init (numDevices j)]) j.

(** [spBdevCtx = ctx; deviceHash[h] = numDevices; numDevices++]. *)
Definition register_device (ctx : SpdkBdevCtx) (h : Z) (j : SpdkJBODBdev BdevOpen) : SpdkJBODBdev BdevOpen :=
  mkJBOD ctx (devices j) (<[h := s32 (numDevices j)]> (deviceHash j)) (u32 (numDevices j + 1)) (currDevice j)
    (j_blkNumForLba j) (j_isRunning j).

(** The device in the last entry with the static member [prevBdev]. *)
Definition on_last {A} (i : nat) (m : M exn (BdevOpen * option positive) A) : OM A := fun s =>
  match devices (fst s) !! i with
  | None => (Undef, s)
  | Some x =>
      let r := m (jd_bdev x, snd s) in
      (fst r, (set_devices (<[i := set_dev (fst (snd r)) x]> (devices (fst s))) (fst s), snd (snd r)))
  end.

Definition last_ctx (i : nat) : OM SpdkBdevCtx := fun s =>
  match devices (fst s) !! i with Some x => (Ret (bo_ctx (jd_bdev x)), s) | None => (Undef, s) end.

Fixpoint jbod_init_loop (bdevNum : Z) (ds : list SpdkBdevConf) : OM bool :=
  match ds with
  | [] => cret true
  | d :: ds =>
      let! s := cget in
      let i := Z.to_nat (numDevices (fst s)) in
      if (maxDevices <=? i)%nat then cundef
      else
        cmod (fun s => (add_device (bc_pciAddr d) (fst s), snd s)) ;;;
        let currConf := addDev d (setBdevNum bdevNum (SpdkConf_of BDEV (bc_devName d) 0)) in
        let! ret := on_last i (init currConf) in
        if negb ret then cret false
        else
          let! ctx := last_ctx i in
          let h := hashAddr (bc_pciAddr d) in
          if maxHash <=? h then cundef
          else
            cmod (fun s => (register_device ctx h (fst s), snd s)) ;;;
            jbod_init_loop (bdevNum + 1) ds
  end.

(** Each device gets its part of the I/O buffers of SPDK. *)
Definition split_bufs (j : SpdkJBODBdev BdevOpen) : SpdkJBODBdev BdevOpen :=
  set_devices ((fun x => set_dev (set_maxBufs (io_pool_size (j_ctx j) / numDevices j)
      (io_cache_size (j_ctx j) / numDevices j) (jd_bdev x)) x) <$> devices j) j.

Definition jbod_init (conf : SpdkConf) : OM bool :=
  if negb (bool_decide (_devType conf = JBOD)) then cret false
  else
    let! ok := jbod_init_loop 0 (conf_devs conf) in
    if negb ok then cret false
    else cmod (fun s => (split_bufs (fst s), snd s)) ;;; cret true.

(** [setBlockNumForLba] of the JBOD and of its devices. *)
Definition jbod_setBlockNumForLba (n : Z) (j : SpdkJBODBdev BdevOpen) : SpdkJBODBdev BdevOpen :=
  mkJBOD (j_ctx j) ((fun x => set_dev (setBlockNumForLba n (jd_bdev x)) x) <$> devices j) (deviceHash j)
    (numDevices j) (currDevice j) n (j_isRunning j).
End Open.

Section Closing.
Context {C R PO H N : Type} `{SpdkRing (DeviceTask C) R} `{IoBufPools PO} `{DmaAlloc H} `{SpdkNvme N}
  `{PmemTx} `{PmemHeap FreeLba}.
#[local] Abbreviation Bdev := (SpdkBdev C R PO H N).
#[local] Abbreviation JM A := (M exn (SpdkJBODBdev Bdev) A).

(** [initFreeList]: what [SpdkInit.initFreeList] needs besides the device is the same
    for all of them; each has a file of its own. *)
Fixpoint start_devices (f : BdevOpen -> outcome exn Bdev) (l : list (JBODDevice BdevOpen)) :
    outcome exn (list (JBODDevice Bdev)) :=
  match l with
  | [] => Ret []
  | x :: l =>
      match f (jd_bdev x) with
      | Ret d =>
          match start_devices f l with
          | Ret l => Ret (mkJBODDevice (jd_addr x) d (jd_num x) :: l)
          | r => r
          end
      | Throw e => Throw e
      | Crash => Crash
      | Undef => Undef
      end
  end.

Definition jbod_initFreeList (f : BdevOpen -> outcome exn Bdev) (j : SpdkJBODBdev BdevOpen) : outcome exn (SpdkJBODBdev Bdev) :=
  match start_devices f (devices j) with
  | Ret l => Ret (mkJBOD (j_ctx j) l (deviceHash j) (numDevices j) (currDevice j) (j_blkNumForLba j) (j_isRunning j))
  | Throw e => Throw e
  | Crash => Crash
  | Undef => Undef
  end.

Definition jbod_putFreeLba (a : DeviceAddr) (ioSize : Z) : JM unit := fun j =>
  if j_isRunning j =? 0 then (Ret tt, j)
  else find_device (Some a) 0 (Z.to_nat (numDevices j)) (fun i => on_device i (putFreeLba (lba a) ioSize)) (cret tt) j.

Definition jbod_getFreeLba : Z := -1.
Definition jbod_canQueue : Z := u32 (-1).

Definition jbod_IOQuiesce : JM unit := all_devices IOQuiesce.
Definition jbod_IOAbort : JM unit := all_devices IOAbort.
Definition jbod_isIOQuiescent (j : SpdkJBODBdev Bdev) : bool :=
  forallb (fun x => isIOQuiescent (jd_bdev x)) (take (Z.to_nat (numDevices j)) (devices j)).

(** [for (; numDevices; numDevices--) f(devices[numDevices - 1].bdev)]. *)
Fixpoint count_down (f : nat -> JM unit) (n : nat) : JM unit :=
  match n with
  | O => cmod (set_numDevices 0)
  | S n => cmod (set_numDevices (Z.of_nat n + 1)) ;;; f n ;;; count_down f n
  end.

(** The destructor.  [quiescent] is what the hundred polls of [isIOQuiescent] found;
    the second part of the state are the indices of the devices that were deleted. *)
Definition jbod_destroy (quiescent : bool) : M exn (SpdkJBODBdev Bdev * list nat) unit :=
  let on_jbod m := czoom fst (fun j (s : SpdkJBODBdev Bdev * list nat) => (j, snd s)) m in
  on_jbod jbod_IOQuiesce ;;;
  let! s := cget in
  on_jbod (count_down (fun i => on_device i (cmod (set_isRunning 0))) (Z.to_nat (numDevices (fst s)))) ;;;
  (if quiescent then cret tt else on_jbod jbod_IOAbort) ;;;
  cmod (fun s => (set_numDevices 0 (fst s), rev (seq 0 (Z.to_nat (numDevices (fst s)))) ++ snd s)).
End Closing.

(** ** The table of hashes *)

(** The table after the devices with these hashes were registered in order: the last
    one with a hash has it. *)
Definition hash_table (l : list Z) : gmap Z Z :=
  foldl (fun m p => <[snd p := Z.of_nat (fst p)]> m) ∅ (imap pair l).

Lemma hash_table_snoc l h : hash_table (l ++ [h]) = <[h := Z.of_nat (length l)]> (hash_table l).
Proof. unfold hash_table. rewrite imap_app, foldl_app. simpl. by rewrite Nat.add_0_r. Qed.

Lemma hash_table_last l h i : hash_table l !! h = Some i <->
  exists n, i = Z.of_nat n /\ l !! n = Some h /\ forall m, l !! m = Some h -> (m <= n)%nat.
Proof.
  induction l as [|x l IH] using rev_ind.
  { unfold hash_table. simpl. rewrite lookup_empty. split; [done|]. intros (n & _ & Hx & _). by rewrite lookup_nil in Hx. }
  rewrite hash_table_snoc. destruct (decide (x = h)) as [->|Hh].
  - rewrite lookup_insert_eq. split.
    + intros [= <-]. exists (length l). split_and!; [done|by rewrite lookup_snoc|].
      intros m Hm. apply lookup_lt_Some in Hm. rewrite length_app in Hm. simpl in Hm. lia.
    + intros (n & -> & Hy & Hl). pose proof (Hl (length l) ltac:(by rewrite lookup_snoc)).
      apply lookup_lt_Some in Hy. rewrite length_app in Hy. simpl in Hy. do 2 f_equal. lia.
  - rewrite lookup_insert_ne by done. rewrite IH.
    assert (E : forall m, (l ++ [x]) !! m = Some h <-> l !! m = Some h).
    { intros m. rewrite lookup_app_Some. split; [|by left]. intros [?|[_ E]]; [done|].
      apply list_lookup_singleton_Some in E as [_ <-]. done. }
    split; intros (n & -> & Hn & Hl); exists n; split_and!; [done|by apply E|..|done|by apply E|]; intros m Hm; apply Hl; by apply E.
Qed.

Lemma hash_table_unique l n h : NoDup l -> l !! n = Some h -> hash_table l !! h = Some (Z.of_nat n).
Proof.
  intros Hnd Hx. apply hash_table_last. exists n. split_and!; try done. intros m Hm.
  by rewrite (NoDup_lookup _ m n h Hnd Hm Hx).
Qed.

Definition dev_hash {D} (x : JBODDevice D) : Z := hashAddr (pciAddr (jd_addr x)).

Lemma hashAddr_range a : 0 <= hashAddr a < 2 ^ 16.
Proof.
  unfold hashAddr. pose proof (Z.mod_pos_bound (pci_domain a) (2 ^ 2) ltac:(lia)).
  pose proof (Z.mod_pos_bound (pci_bus a) (2 ^ 6) ltac:(lia)). pose proof (Z.mod_pos_bound (pci_dev a) (2 ^ 5) ltac:(lia)).
  pose proof (Z.mod_pos_bound (pci_func a) (2 ^ 3) ltac:(lia)). lia.
Qed.

(** ** What a JBOD does with tasks *)

Section Theorems.
Context {C D : Type} `{SpdkDevice C D}.
#[local] Abbreviation jbod := (SpdkJBODBdev D).
Implicit Types (j : jbod) (t : DeviceTask C).

(** Every device is registered under the PCI address that it has itself. *)
Record jbod_ok j : Prop := {
  jo_num : numDevices j = Z.of_nat (length (devices j));
  jo_some : (0 < length (devices j) <= maxDevices)%nat;
  jo_cur : 0 <= currDevice j < numDevices j;
  jo_hash : deviceHash j = hash_table (dev_hash <$> devices j);
  jo_devs : Forall (fun x => pciAddr (jd_addr x) = pci_addr (dev_ctx (jd_bdev x)) /\ dev_ok (jd_bdev x)) (devices j) }.

Lemma insert_dev_hash (l : list (JBODDevice D)) i x d : l !! i = Some x ->
  dev_hash <$> <[i := set_dev d x]> l = dev_hash <$> l.
Proof.
  intros Hx. apply list_eq. intros k. rewrite !list_lookup_fmap. destruct (decide (k = i)) as [->|Hk].
  - rewrite list_lookup_insert_eq by (by eapply lookup_lt_Some). by rewrite Hx.
  - by rewrite list_lookup_insert_ne.
Qed.

(** A call that leaves a device good leaves the JBOD good. *)
Lemma set_device_ok j i x d : jbod_ok j -> devices j !! i = Some x -> dev_ctx d = dev_ctx (jd_bdev x) -> dev_ok d ->
  jbod_ok (set_devices (<[i := set_dev d x]> (devices j)) j).
Proof.
  intros [I1 I2 I3 I4 I5] Hx Hc Hd. split; cbn [devices numDevices currDevice deviceHash set_devices]; rewrite ?length_insert; try done.
  - rewrite I4. f_equal. by rewrite insert_dev_hash.
  - apply Forall_insert; [done|]. simpl. split; [|done]. rewrite Hc. by apply (Forall_lookup_1 _ _ _ _ I5 Hx).
Qed.

(** The device whose address a task has. *)
Definition names_device (pv : pmem_view) t j (i : nat) : Prop :=
  exists x l, devices j !! i = Some x /\ task_addr pv t = Some (mkDeviceAddr l (pci_addr (dev_ctx (jd_bdev x)))).

(** C38. A JBOD finds what it wrote.  Where the hashes of the devices differ and none
    is the excluded one, a read or a removal that carries the address of device [i],
    as the finalizer stores it, is passed to device [i]. *)
Theorem jbod_routes_back pv t j i : jbod_ok j -> j_isRunning j <> 0 -> NoDup (dev_hash <$> devices j) ->
  Forall (fun x => dev_hash x <> maxHash) (devices j) -> names_device pv t j i ->
  jbod_read pv t j = on_device i (dev_read pv t) j /\ jbod_remove pv t j = on_device i (dev_remove pv t) j.
Proof.
  intros I Hr Hnd Hm (x & l & Hx & Ha).
  destruct (Forall_lookup_1 _ _ _ _ (jo_devs _ I) Hx) as [Ep _]. pose proof (Forall_lookup_1 _ _ _ _ Hm Hx) as Hh.
  unfold jbod_read, jbod_remove. destruct (Z.eqb_spec (j_isRunning j) 0) as [|_]; [done|]. rewrite Ha. cbn [pciAddr]. rewrite <- Ep.
  split.
  - pose proof (hashAddr_range (pciAddr (jd_addr x))). unfold dev_hash, maxHash in Hh. change (u16 (-1)) with 65535 in Hh.
    unfold maxHash. change (u16 (-1)) with 65535. destruct (Z.leb_spec 65535 (hashAddr (pciAddr (jd_addr x)))); [lia|].
    rewrite (jo_hash _ I), (hash_table_unique _ i) by (try done; by rewrite list_lookup_fmap, Hx).
    change (default (-1) (Some (Z.of_nat i))) with (Z.of_nat i). cbv zeta. destruct (Z.ltb_spec (Z.of_nat i) 0); [lia|]. by rewrite Nat2Z.id.
  - rewrite (jo_num _ I), Nat2Z.id. pose proof (lookup_lt_Some _ _ _ Hx) as Hi.
    assert (G : forall n k, (k + n = length (devices j))%nat -> (k <= i)%nat ->
      find_device (Some (mkDeviceAddr l (pciAddr (jd_addr x)))) k n (fun i => on_device i (dev_remove pv t)) (cret false) j
      = on_device i (dev_remove pv t) j); [|apply G; lia].
    induction n as [|n IH]; intros k Hk Hki; [lia|]. cbn [find_device].
    destruct (lookup_lt_is_Some_2 (devices j) k ltac:(lia)) as [y Hy]. rewrite Hy. cbn [pciAddr]. case_bool_decide as E.
    + assert (k = i) as ->; [|done]. eapply (NoDup_lookup _ k i (dev_hash x) Hnd); rewrite list_lookup_fmap.
      * rewrite Hy. cbn. unfold dev_hash. by rewrite E.
      * by rewrite Hx.
    + apply IH; [lia|]. destruct (decide (k = i)) as [->|]; [|lia]. simplify_eq.
Qed.

(** Devices with the same hash are mixed up.  The hash keeps 2 bits of the domain
    and 6 of the bus; a read of a value on device [i] goes to the last device with the
    hash of [i]. *)
Theorem jbod_collision_misroutes pv t j i k x y : jbod_ok j -> j_isRunning j <> 0 -> names_device pv t j i ->
  devices j !! i = Some x -> devices j !! k = Some y -> dev_hash y = dev_hash x -> dev_hash x <> maxHash ->
  (forall m z, devices j !! m = Some z -> dev_hash z = dev_hash x -> (m <= k)%nat) ->
  jbod_read pv t j = on_device k (dev_read pv t) j.
Proof.
  intros I Hr (x' & l & Hx' & Ha) Hx Hy Exy Hh Hl. rewrite Hx in Hx'. injection Hx' as <-.
  destruct (Forall_lookup_1 _ _ _ _ (jo_devs _ I) Hx) as [Ep _].
  unfold jbod_read. destruct (Z.eqb_spec (j_isRunning j) 0) as [|_]; [done|]. rewrite Ha. cbn [pciAddr]. rewrite <- Ep.
  fold (dev_hash x). pose proof (hashAddr_range (pciAddr (jd_addr x))) as Hhr. fold (dev_hash x) in Hhr.
  unfold maxHash in *. change (u16 (-1)) with 65535 in *. destruct (Z.leb_spec 65535 (dev_hash x)); [lia|].
  assert (E : deviceHash j !! dev_hash x = Some (Z.of_nat k)).
  { rewrite (jo_hash _ I). apply hash_table_last. exists k. split_and!; [done|by rewrite list_lookup_fmap, Hy, <- Exy|].
    intros m Hm. rewrite list_lookup_fmap in Hm. destruct (devices j !! m) as [z|] eqn:Ez; [|done]. injection Hm as Hm. by apply (Hl m z). }
  rewrite E. change (default (-1) (Some (Z.of_nat k))) with (Z.of_nat k). cbv zeta. destruct (Z.ltb_spec (Z.of_nat k) 0); [lia|]. by rewrite Nat2Z.id.
Qed.

(** ** Turns *)

(** The place of the [k]-th write from now. *)
Definition turn j (k : nat) : nat := Z.to_nat ((currDevice j + Z.of_nat k) mod numDevices j).

Lemma jbod_write_run pv t j : jbod_ok j -> j_isRunning j <> 0 -> t_routing t = true ->
  exists x b j', devices j !! turn j 0 = Some x /\ jbod_write pv t j = (Ret b, j') /\ jbod_ok j' /\
    devices j' = <[turn j 0 := set_dev (snd (dev_write pv t (jd_bdev x))) x]> (devices j) /\
    numDevices j' = numDevices j /\ j_isRunning j' = j_isRunning j /\ j_ctx j' = j_ctx j /\
    currDevice j' = (currDevice j + 1) mod numDevices j /\
    exists d, dev_write pv t (jd_bdev x) = (Ret b, d) /\
      dev_tasks d ≡ₚ (if b then t :: dev_tasks (jd_bdev x) else dev_tasks (jd_bdev x)).
Proof.
  intros I Hr Ht. pose proof (jo_cur _ I) as Hc. pose proof (jo_num _ I) as En. pose proof (jo_some _ I) as Hs.
  assert (E0 : turn j 0 = Z.to_nat (currDevice j)) by (unfold turn; rewrite Z.add_0_r, Z.mod_small by lia; done).
  destruct (lookup_lt_is_Some_2 (devices j) (turn j 0) ltac:(lia)) as [x Hx].
  destruct (Forall_lookup_1 _ _ _ _ (jo_devs _ I) Hx) as [_ Hok].
  destruct (dev_accepts dev_write pv t (jd_bdev x) Hok Ht ltac:(by left)) as (b & d & Ew & Hok' & Hctx & Ht').
  pose proof (set_device_ok j (turn j 0) x d I Hx Hctx Hok') as I'.
  exists x, b, (set_currDevice ((currDevice j + 1) mod numDevices j) (set_devices (<[turn j 0 := set_dev d x]> (devices j)) j)).
  rewrite Ew. split_and!; try done.
  - unfold jbod_write, cbind at 1, cget. destruct (Z.eqb_spec (j_isRunning j) 0) as [|_]; [done|].
    unfold cbind at 1, on_device. rewrite <- E0, Hx, Ew. cbn [fst snd]. unfold cbind at 1, cget. cbn [numDevices set_devices].
    destruct (Z.eqb_spec (numDevices j) 0); [lia|]. cbn [currDevice set_devices]. rewrite uwrap_id by (unfold maxDevices in Hs; lia). reflexivity.
  - destruct I' as [I1 I2 I3 I4 I5]. split; try done. cbn [currDevice numDevices set_currDevice set_devices]. apply Z.mod_pos_bound. lia.
  - by exists d.
Qed.

Fixpoint jbod_writes (pv : pmem_view) (ts : list (DeviceTask C)) : M exn jbod (list bool) :=
  match ts with
  | [] => cret []
  | t :: ts => let! b := jbod_write pv t in let! bs := jbod_writes pv ts in cret (b :: bs)
  end.

Lemma turn_step j j' k : 0 < numDevices j -> numDevices j' = numDevices j -> currDevice j' = (currDevice j + 1) mod numDevices j ->
  turn j' k = turn j (S k).
Proof. intros Hn En Ec. unfold turn. rewrite En, Ec, Zplus_mod_idemp_l. do 2 f_equal. lia. Qed.

Lemma turn_inj j k k' : 0 < numDevices j -> Z.of_nat k < numDevices j -> Z.of_nat k' < numDevices j ->
  turn j k = turn j k' -> k = k'.
Proof.
  unfold turn. intros Hn Hk Hk' E. set (n := numDevices j) in *.
  pose proof (Z.mod_pos_bound (currDevice j + Z.of_nat k) n Hn). pose proof (Z.mod_pos_bound (currDevice j + Z.of_nat k') n Hn).
  assert (E' : (currDevice j + Z.of_nat k) mod n = (currDevice j + Z.of_nat k') mod n) by lia.
  pose proof (Z.div_mod (currDevice j + Z.of_nat k) n ltac:(lia)). pose proof (Z.div_mod (currDevice j + Z.of_nat k') n ltac:(lia)).
  assert (Ed : (currDevice j + Z.of_nat k) / n = (currDevice j + Z.of_nat k') / n) by nia.
  rewrite Ed, E' in *. lia.
Qed.

(** A run of at most one write per device. *)
Lemma jbod_writes_run pv ts : forall j, jbod_ok j -> j_isRunning j <> 0 -> Forall (fun t => t_routing t = true) ts ->
  (length ts <= length (devices j))%nat ->
  exists bs j', jbod_writes pv ts j = (Ret bs, j') /\ jbod_ok j' /\ numDevices j' = numDevices j /\
    currDevice j' = (currDevice j + Z.of_nat (length ts)) mod numDevices j /\
    (forall k t, ts !! k = Some t -> exists x, devices j !! turn j k = Some x /\
       devices j' !! turn j k = Some (set_dev (snd (dev_write pv t (jd_bdev x))) x)) /\
    (forall p, (forall k, (k < length ts)%nat -> p <> turn j k) -> devices j' !! p = devices j !! p).
Proof.
  induction ts as [|t ts IH]; intros j I Hr HF Hl.
  { exists [], j. pose proof (jo_cur _ I). split_and!; try done. cbn [length]. by rewrite Z.add_0_r, Z.mod_small. }
  apply Forall_cons in HF as [Ht HF].
  destruct (jbod_write_run pv t j I Hr Ht) as (x & b & j1 & Hx & E1 & I1 & Ed & En & Er & _ & Ec & _).
  pose proof (jo_cur _ I) as Hc. pose proof (jo_num _ I) as Enum. cbn [length] in Hl.
  destruct (IH j1 I1 ltac:(by rewrite Er) HF) as (bs & j' & E & I' & En' & Ec' & Hk & Hp).
  { rewrite Ed, length_insert. lia. }
  assert (Hts : forall k, turn j1 k = turn j (S k)) by (intros k; apply turn_step; [lia|done|done]).
  assert (Hne : forall k, (k < length ts)%nat -> turn j (S k) <> turn j 0).
  { intros k Hkl Et. apply turn_inj in Et; lia. }
  exists (b :: bs), j'. split_and!; [|done|by rewrite En'| | |].
  - cbn [jbod_writes]. by rewrite (cbind_ret _ _ _ _ _ E1), (cbind_ret _ _ _ _ _ E).
  - rewrite Ec', En, Ec, Zplus_mod_idemp_l. f_equal. cbn [length]. lia.
  - intros [|k] u Hu.
    + injection Hu as ->. exists x. split; [done|]. rewrite Hp.
      * rewrite Ed. apply list_lookup_insert_eq. by eapply lookup_lt_Some.
      * intros k Hkl. rewrite Hts. intros Et. by apply (Hne k Hkl).
    + cbn in Hu. destruct (Hk k u Hu) as (y & Hy & Hy'). rewrite Hts in Hy, Hy'. exists y. split; [|done].
      rewrite Ed, list_lookup_insert_ne in Hy; [done|]. apply not_eq_sym, Hne. by eapply lookup_lt_Some.
  - intros p Hpk. rewrite Hp.
    + rewrite Ed, list_lookup_insert_ne; [done|]. apply not_eq_sym, Hpk. simpl. lia.
    + intros k Hkl. rewrite Hts. apply Hpk. simpl. lia.
Qed.

(** Writes go round.  Out of as many writes as there are devices, each device is
    given exactly one, in the order of the turns, and it is the turn of the first
    device again. *)
Theorem jbod_round_robin pv ts j : jbod_ok j -> j_isRunning j <> 0 -> Forall (fun t => t_routing t = true) ts ->
  length ts = length (devices j) ->
  exists bs j', jbod_writes pv ts j = (Ret bs, j') /\ currDevice j' = currDevice j /\
    forall i x, devices j !! i = Some x -> exists k t, ts !! k = Some t /\ i = turn j k /\
      devices j' !! i = Some (set_dev (snd (dev_write pv t (jd_bdev x))) x).
Proof.
  intros I Hr HF Hl. destruct (jbod_writes_run pv ts j I Hr HF ltac:(lia)) as (bs & j' & E & _ & _ & Ec & Hk & _).
  pose proof (jo_cur _ I) as Hc. pose proof (jo_num _ I) as En. exists bs, j'. split_and!; [done| |].
  - rewrite Ec, Hl, <- En. replace (currDevice j + numDevices j) with (currDevice j + 1 * numDevices j) by lia.
    rewrite Z.mod_add by lia. by apply Z.mod_small.
  - intros i x Hx. pose proof (lookup_lt_Some _ _ _ Hx) as Hi.
    set (k := Z.to_nat ((Z.of_nat i - currDevice j) mod numDevices j)).
    pose proof (Z.mod_pos_bound (Z.of_nat i - currDevice j) (numDevices j) ltac:(lia)).
    assert (Ei : turn j k = i).
    { unfold turn, k. rewrite Z2Nat.id by lia. rewrite Zplus_mod_idemp_r.
      replace (currDevice j + (Z.of_nat i - currDevice j)) with (Z.of_nat i) by lia. rewrite Z.mod_small by lia. lia. }
    destruct (lookup_lt_is_Some_2 ts k ltac:(unfold k; lia)) as [t Ht]. exists k, t. split_and!; [done|done|].
    destruct (Hk k t Ht) as (y & Hy & Hy'). rewrite Ei in *. simplify_eq. done.
Qed.

(** ** A JBOD is a device *)

Definition jbod_tasks j : list (DeviceTask C) := concat ((fun x => dev_tasks (jd_bdev x)) <$> devices j).

(** A device that takes a task, seen from the JBOD. *)
Lemma jbod_tasks_insert (l : list (JBODDevice D)) i x d ts : l !! i = Some x -> dev_tasks d ≡ₚ ts ++ dev_tasks (jd_bdev x) ->
  concat ((fun x => dev_tasks (C := C) (jd_bdev x)) <$> <[i := set_dev d x]> l) ≡ₚ
  ts ++ concat ((fun x => dev_tasks (jd_bdev x)) <$> l).
Proof.
  intros Hx Hd. rewrite insert_take_drop by (by eapply lookup_lt_Some). rewrite <- (take_drop_middle l i x Hx) at 3.
  rewrite !fmap_app, !concat_app. cbn [fmap list_fmap concat set_dev jd_bdev]. rewrite Hd, <- !app_assoc, !app_assoc.
  do 2 apply Permutation_app_tail. apply Permutation_app_comm.
Qed.

Lemma on_device_accepts f pv t j i x : jbod_ok j -> devices j !! i = Some x -> t_routing t = true ->
  f = dev_write \/ (f = dev_read \/ f = dev_remove) /\ (exists a, task_addr pv t = Some a /\ dev_knows (C := C) (D := D) a) ->
  exists b j', on_device i (f pv t) j = (Ret b, j') /\ jbod_ok j' /\ j_ctx j' = j_ctx j /\
    jbod_tasks j' ≡ₚ (if b then t :: jbod_tasks j else jbod_tasks j).
Proof.
  intros I Hx Ht Hf. destruct (Forall_lookup_1 _ _ _ _ (jo_devs _ I) Hx) as [_ Hok].
  destruct (dev_accepts f pv t (jd_bdev x) Hok Ht Hf) as (b & d & E & Hok' & Hc & Hts).
  exists b, (set_devices (<[i := set_dev d x]> (devices j)) j). split_and!; [|by apply set_device_ok|done|].
  - unfold on_device. by rewrite Hx, E.
  - unfold jbod_tasks. cbn [devices set_devices].
    destruct b; [apply (jbod_tasks_insert _ _ _ _ [t])|apply (jbod_tasks_insert _ _ _ _ [])]; done.
Qed.

(** A removal finds the first device with the address, or none. *)
Lemma find_device_spec {A} j a (found : nat -> M exn jbod A) none : forall n k, (k + n <= length (devices j))%nat ->
  find_device (Some a) k n found none j = none j \/
  exists i x, devices j !! i = Some x /\ find_device (Some a) k n found none j = found i j.
Proof.
  induction n as [|n IH]; intros k Hk; [by left|]. cbn [find_device].
  destruct (lookup_lt_is_Some_2 (devices j) k ltac:(lia)) as [y Hy]. rewrite Hy. case_bool_decide.
  - right. by exists k, y.
  - apply IH. lia.
Qed.

Lemma jbod_accepts f pv t j : jbod_ok j -> t_routing t = true ->
  f = jbod_write \/ (f = jbod_read \/ f = jbod_remove) /\
    (exists a, task_addr pv t = Some a /\ hashAddr (pciAddr a) <> maxHash /\ dev_knows (C := C) (D := D) a) ->
  exists b j', f pv t j = (Ret b, j') /\ jbod_ok j' /\ j_ctx j' = j_ctx j /\
    jbod_tasks j' ≡ₚ (if b then t :: jbod_tasks j else jbod_tasks j).
Proof.
  intros I Ht Hf. destruct (Z.eqb_spec (j_isRunning j) 0) as [Hr|Hr].
  { exists false, j. split_and!; try done. destruct Hf as [-> | [[-> | ->] _]].
    - unfold jbod_write, cbind, cget. by rewrite Hr.
    - unfold jbod_read. by rewrite Hr.
    - unfold jbod_remove. by rewrite Hr. }
  destruct Hf as [-> | [Hf (a & Ha & Hh & Hk)]].
  - destruct (jbod_write_run pv t j I Hr Ht) as (x & b & j' & Hx & E & I' & Ed & _ & _ & Ec & _ & d & Ew & Hts).
    exists b, j'. split_and!; try done. unfold jbod_tasks. rewrite Ed, Ew. cbn [snd].
    destruct b; [apply (jbod_tasks_insert _ _ _ _ [t])|apply (jbod_tasks_insert _ _ _ _ [])]; done.
  - destruct Hf as [-> | ->].
    + unfold jbod_read. destruct (Z.eqb_spec (j_isRunning j) 0); [done|]. rewrite Ha.
      pose proof (hashAddr_range (pciAddr a)). unfold maxHash in *. change (u16 (-1)) with 65535 in *.
      destruct (Z.leb_spec 65535 (hashAddr (pciAddr a))); [lia|]. cbv zeta.
      destruct (deviceHash j !! hashAddr (pciAddr a)) as [idx|] eqn:Ei; cbn [default]; [|by exists false, j].
      rewrite (jo_hash _ I) in Ei. apply hash_table_last in Ei as (q & -> & Hn & _).
      rewrite list_lookup_fmap in Hn. destruct (devices j !! q) as [x|] eqn:Hx; [|done].
      change (id (Z.of_nat q)) with (Z.of_nat q). destruct (Z.ltb_spec (Z.of_nat q) 0); [lia|]. rewrite Nat2Z.id.
      apply (on_device_accepts dev_read pv t j q x I Hx Ht). right. split; [by left|]. by exists a.
    + unfold jbod_remove. destruct (Z.eqb_spec (j_isRunning j) 0); [done|]. rewrite Ha.
      destruct (find_device_spec j a (fun i => on_device i (dev_remove pv t)) (cret false) (Z.to_nat (numDevices j)) 0) as [E|(i & x & Hx & E)].
      { rewrite (jo_num _ I). lia. }
      * rewrite E. by exists false, j.
      * rewrite E. apply (on_device_accepts dev_remove pv t j i x I Hx Ht). right. split; [by right|]. by exists a.
Qed.

#[refine] Definition jbod_device : SpdkDevice C jbod :=
  {| dev_ctx := j_ctx; dev_ok := jbod_ok; dev_knows := fun a => hashAddr (pciAddr a) <> maxHash /\ dev_knows (C := C) (D := D) a;
     dev_read := jbod_read; dev_write := jbod_write; dev_remove := jbod_remove; dev_tasks := jbod_tasks |}.
Proof. intros f pv t j I Ht Hf. by apply jbod_accepts. Defined.
End Theorems.

(** ** A JBOD of two devices *)

Section Runs.
#[local] Existing Instances simple_tx simple_heap simple_buf_pools simple_nvme.
#[local] Instance run_rings (A : Type) : SpdkRing A (list_ring A) := simple_ring A.
#[local] Abbreviation Bdev := (SpdkBdev nat (list_ring (DeviceTask nat)) (gset buf_ptr) unit Z).
#[local] Instance run_bdev : SpdkDevice nat Bdev := bdev_device.

(** A device on bus [b]. *)
Definition bus (b : Z) : PciAddr := mkPciAddr 0 b 0 0.
Definition device_on (b : Z) : Bdev :=
  mkSpdkBdev (ctx_of 512 (bus b)) (run_queue nat) (mkFinalizePoller (run_queue nat) FP_READY) BDEV_IO_READY
    (mkBdevStats 0 0 0 0 0) 1 16 0 LbaAlloc.run_alloc run_mgr 100000 [] [] (fun _ => replicate 512 0) [] [].
Definition device_entry (b n : Z) : JBODDevice Bdev := mkJBODDevice (mkDeviceAddr (u64 (-1)) (bus b)) (device_on b) n.

Definition run_jbod (b1 b2 : Z) : SpdkJBODBdev Bdev :=
  let l := [device_entry b1 0; device_entry b2 1] in mkJBOD run_ctx l (hash_table (dev_hash <$> l)) 2 0 32 1.

Definition run_task (b : Z) : DeviceTask nat :=
  new_task 4096 0 8 (DBuf (mkDeviceAddr 5 (bus b))) false
    (mkRqst 1 OGET (BufferOf 1) (replicate 32 0) 8 None 100 (Some 42%nat) DISK) OGET no_key.
Definition no_pmem : pmem_view := mkPmemView ∅ ∅.

Lemma run_jbod_ok b1 b2 : jbod_ok (run_jbod b1 b2).
Proof.
  split; [reflexivity|split; [simpl; lia|unfold maxDevices; simpl; lia]|simpl; lia|reflexivity|].
  by repeat constructor.
Qed.

Lemma jbod_routes_back_witness :
  jbod_read no_pmem (run_task 4) (run_jbod 3 4) = on_device 1 (dev_read no_pmem (run_task 4)) (run_jbod 3 4).
Proof.
  apply (jbod_routes_back no_pmem (run_task 4) (run_jbod 3 4) 1 (run_jbod_ok 3 4)); [discriminate| | |].
  - apply (bool_decide_unpack _). reflexivity.
  - repeat constructor; discriminate.
  - by eexists (device_entry 4 1), 5.
Defined.

(** Buses 3 and 67 have the same six bits. *)
Lemma jbod_collision_misroutes_witness :
  jbod_read no_pmem (run_task 3) (run_jbod 3 67) = on_device 1 (dev_read no_pmem (run_task 3)) (run_jbod 3 67).
Proof.
  apply (jbod_collision_misroutes no_pmem (run_task 3) (run_jbod 3 67) 0 1 (device_entry 3 0) (device_entry 67 1) (run_jbod_ok 3 67));
    try done; [by eexists (device_entry 3 0), 5|].
  intros m z Hz _. apply lookup_lt_Some in Hz. simpl in Hz. lia.
Defined.

Lemma jbod_round_robin_witness : exists bs j',
  jbod_writes no_pmem [run_task 3; run_task 4] (run_jbod 3 4) = (Ret bs, j') /\ currDevice j' = 0.
Proof.
  destruct (jbod_round_robin no_pmem [run_task 3; run_task 4] (run_jbod 3 4) (run_jbod_ok 3 4)) as (bs & j' & E & Ec & _).
  - discriminate.
  - by repeat constructor.
  - reflexivity.
  - exists bs, j'. split; [exact E|exact Ec].
Defined.
End Runs.
