(* ===== verification/JbodOpen.v ===== *)
(** * Opening and closing a JBOD

    [init] opens the leaf devices of SPDK in order, one for each device of the
    configuration; the JBOD that it makes satisfies the invariant that the routing
    relies on.  The destructor neither aborts nor deletes a device. *)

From stdpp Require Import strings.
From S2P Require Import Prelude Status Pmem FreeList LbaAlloc ARTree Poller Rqst SpdkIoBuf SpdkDevice SpdkBdev SpdkConf SpdkInit SpdkJBOD.

Section Open.
Context `{SpdkBdevLib}.

(** A device of the configuration that can be opened. *)
Definition dev_fits (d : SpdkBdevConf) : Prop :=
  (String.length (bc_nvmeName d) < MAX_BDEV_NAME)%nat /\ (String.length (bc_nvmeAddr d) < BDEV_PCI_ADDR)%nat /\
  hashAddr (bc_pciAddr d) <> maxHash.

(** The entry of device number [n] for the leaf [l]. *)
Definition entry (n : nat) (d : SpdkBdevConf) (l : positive) : JBODDevice BdevOpen :=
  mkJBODDevice (mkDeviceAddr (u64 (-1)) (bc_pciAddr d)) (setRunning 1 (opened (Z.of_nat n) d l SpdkBdev_init)) (Z.of_nat n).

Fixpoint entries (n : nat) (ds : list SpdkBdevConf) (ls : list positive) : list (JBODDevice BdevOpen) :=
  match ds, ls with
  | d :: ds, l :: ls => entry n d l :: entries (S n) ds ls
  | _, _ => []
  end.

Lemma lookup_entries ds : forall n ls i d l, ds !! i = Some d -> ls !! i = Some l -> entries n ds ls !! i = Some (entry (n + i) d l).
Proof.
  induction ds as [|d0 ds IH]; intros n [|l0 ls] [|i] d l Hd Hl; try done.
  - injection Hd as ->. injection Hl as ->. by rewrite Nat.add_0_r.
  - change (entries (S n) ds ls !! i = Some (entry (n + S i) d l)). rewrite (IH (S n) ls i d l Hd Hl). by replace (S n + i)%nat with (n + S i)%nat by lia.
Qed.

Lemma length_entries ds : forall n ls, (length ds <= length ls)%nat -> length (entries n ds ls) = length ds.
Proof. induction ds as [|d ds IH]; intros n [|l ls] Hl; cbn in *; try lia. rewrite IH; lia. Qed.

(** The leaf that comes next. *)
Definition prev_ok (n : nat) (p : option positive) : Prop := match n with O => True | S m => p = sp_leaves !! m /\ is_Some p end.

Lemma pick_next n d (p : option positive) l : prev_ok n p -> sp_leaves !! n = Some l ->
  let b := setRunning 3 (init_ctx (Z.of_nat n) d SpdkBdev_init) in
  pick_bdev (b, p) = (Ret (Some l), (b, Some l)).
Proof.
  intros Hp Hl b. unfold pick_bdev. change (confBdevNum (b, p).1) with (Z.of_nat n).
  destruct (Z.eqb_spec (Z.of_nat n) (-1)); [lia|]. destruct n as [|m].
  - assert (E : sp_first_leaf = Some l) by (rewrite sp_first_leaf_head; by destruct sp_leaves). by rewrite E.
  - destruct (Z.eqb_spec (Z.of_nat (S m)) 0); [lia|]. destruct Hp as [-> [q Hq]]. cbn [snd]. rewrite Hq.
    by rewrite (sp_next_leaf_next m q Hq), Hl.
Qed.

(** The state after [n] devices. *)
Definition progress (n : nat) (l : list (JBODDevice BdevOpen)) (j : SpdkJBODBdev BdevOpen) : Prop :=
  length l = n /\ devices j = l /\ numDevices j = Z.of_nat n /\ deviceHash j = hash_table (dev_hash <$> l) /\
  currDevice j = 0 /\ (n <> 0%nat -> io_pool_size (j_ctx j) = fst sp_opts /\ io_cache_size (j_ctx j) = snd sp_opts).

Lemma on_last_run {A} (m : M exn (BdevOpen * option positive) A) n (j : SpdkJBODBdev BdevOpen) p x a d' p' :
  length (devices j) = n -> m (jd_bdev x, p) = (Ret a, (d', p')) ->
  on_last n m (set_devices (devices j ++ [x]) j, p) = (Ret a, (set_devices (devices j ++ [set_dev d' x]) j, p')).
Proof.
  intros <- E. unfold on_last. cbn [fst snd devices set_devices]. rewrite lookup_snoc, E. cbn [fst snd].
  rewrite insert_app_r_alt, Nat.sub_diag by lia. reflexivity.
Qed.

Lemma last_ctx_run n (j : SpdkJBODBdev BdevOpen) (p : option positive) x : length (devices j) = n ->
  last_ctx n (set_devices (devices j ++ [x]) j, p) = (Ret (bo_ctx (jd_bdev x)), (set_devices (devices j ++ [x]) j, p)).
Proof. intros <-. unfold last_ctx. cbn [fst devices set_devices]. by rewrite lookup_snoc. Qed.

Lemma jbod_step_run n d l lv j p : sp_thread = true -> (n < maxDevices)%nat -> progress n lv j -> prev_ok n p ->
  dev_fits d -> sp_leaves !! n = Some l -> opens l ->
  exists j', progress (S n) (lv ++ [entry n d l]) j' /\
    forall ds, jbod_init_loop (Z.of_nat n) (d :: ds) (j, p) = jbod_init_loop (Z.of_nat (S n)) ds (j', Some l).
Proof.
  intros Ht Hn (Hl & Ed & En & Eh & Ec & _) Hp (H1 & H2 & Hh) Hlf Ho.
  assert (Hlen : length (devices j) = n) by congruence.
  set (ctx := bo_ctx (jd_bdev (entry n d l))).
  set (j' := register_device ctx (hashAddr (bc_pciAddr d)) (set_devices (devices j ++ [entry n d l]) j)). exists j'. split.
  - unfold progress, j', register_device. cbn [devices numDevices deviceHash currDevice j_ctx set_devices].
    split_and!; [rewrite length_app; simpl; lia|by rewrite Ed| | |done|done].
    + rewrite En, uwrap_id; [lia|]. unfold maxDevices in Hn. lia.
    + rewrite fmap_app. change (dev_hash <$> [entry n d l]) with [hashAddr (bc_pciAddr d)]. rewrite hash_table_snoc, Eh, length_fmap, En, Hl. f_equal. apply swrap_id; [|lia]. unfold maxDevices in Hn. lia.
  - intros ds. cbn [jbod_init_loop]. unfold cbind at 1, cget. cbn [fst]. rewrite En, Nat2Z.id.
    destruct (Nat.leb_spec maxDevices n); [lia|].
    unfold cbind at 1, cmod at 1. cbn [fst snd].
    set (conf := addDev d _). assert (Hconf : conf_fits conf (Z.of_nat n) d) by by split_and!.
    pose proof (init_run conf (Z.of_nat n) d SpdkBdev_init p l (Some l) Ht Hconf ltac:(lia) (pick_next n d p l Hp Hlf) Ho) as Ei.
    unfold add_device. rewrite (cbind_ret _ _ _ _ _ (on_last_run (init conf) n j p (mkJBODDevice (mkDeviceAddr (u64 (-1)) (bc_pciAddr d)) SpdkBdev_init (numDevices j)) _ _ _ Hlen Ei)). cbn [negb].
    rewrite (cbind_ret _ _ _ _ _ (last_ctx_run n j (Some l) _ Hlen)).
    assert (Hr : (maxHash <=? hashAddr (bc_pciAddr d)) = false).
    { apply Z.leb_gt. pose proof (hashAddr_range (bc_pciAddr d)). unfold maxHash in *. change (u16 (-1)) with 65535 in *. lia. }
    rewrite Hr. unfold cbind at 1, cmod. cbn [fst snd]. replace (Z.of_nat n + 1) with (Z.of_nat (S n)) by lia.
    unfold j', entry. by rewrite En.
Qed.

Lemma jbod_loop_run ds : forall n lv j p, sp_thread = true -> (n + length ds <= maxDevices)%nat -> progress n lv j -> prev_ok n p ->
  Forall dev_fits ds -> (n + length ds <= length sp_leaves)%nat -> Forall opens sp_leaves ->
  exists j' p', jbod_init_loop (Z.of_nat n) ds (j, p) = (Ret true, (j', p')) /\
    progress (n + length ds) (lv ++ entries n ds (drop n sp_leaves)) j'.
Proof.
  induction ds as [|d ds IH]; intros n lv j p Ht Hn P Hp HF Hl Ho.
  { exists j, p. split; [done|]. cbn [entries length]. by rewrite Nat.add_0_r, app_nil_r. }
  apply Forall_cons in HF as [Hd HF]. cbn [length] in *.
  destruct (lookup_lt_is_Some_2 sp_leaves n ltac:(lia)) as [l Hlf].
  destruct (jbod_step_run n d l lv j p Ht ltac:(lia) P Hp Hd Hlf (Forall_lookup_1 _ _ _ _ Ho Hlf)) as (j1 & P1 & E1).
  destruct (IH (S n) (lv ++ [entry n d l]) j1 (Some l) Ht ltac:(lia) P1) as (j' & p' & E & P'); [by rewrite <- Hlf|done|lia|done|].
  exists j', p'. split; [by rewrite E1|]. rewrite (drop_S _ l) by done. cbn [entries].
  rewrite <- app_assoc in P'. by replace (n + S (length ds))%nat with (S n + length ds)%nat by lia.
Qed.

(** A configuration that a JBOD can open. *)
Record jbod_conf (conf : SpdkConf) : Prop := {
  jc_type : _devType conf = JBOD;
  jc_some : (0 < length (conf_devs conf) <= maxDevices)%nat;
  jc_leaves : (length (conf_devs conf) <= length sp_leaves)%nat;
  jc_fits : Forall dev_fits (conf_devs conf);
  jc_opens : sp_thread = true /\ Forall opens sp_leaves }.

(** The devices after [init], and what it leaves in the JBOD. *)
Lemma jbod_init_run conf p : jbod_conf conf ->
  exists j p', jbod_init conf (SpdkJBODBdev_init, p) = (Ret true, (split_bufs j, p')) /\
    progress (length (conf_devs conf)) (entries 0 (conf_devs conf) sp_leaves) j.
Proof.
  intros [Hty Hs Hl HF [Ht Ho]]. unfold jbod_init. rewrite bool_decide_eq_true_2 by done. cbn [negb].
  destruct (jbod_loop_run (conf_devs conf) 0 [] SpdkJBODBdev_init p Ht ltac:(lia)) as (j & p' & E & P); [by split_and!|done|done|lia|done|].
  rewrite drop_0 in P. exists j, p'. split; [|done]. change (Z.of_nat 0) with 0 in E. rewrite (cbind_ret _ _ _ _ _ E). reflexivity.
Qed.

(** A JBOD opens its devices.  For a configuration of up to 64 devices of which
    SPDK has at least as many, [init] answers true; device number [i] is the [i]-th leaf
    of SPDK under the [i]-th configured address, the table of hashes has them all, and
    together the devices may use no more I/O buffers than SPDK has. *)
Theorem jbod_init_opens conf p : jbod_conf conf -> 0 <= fst sp_opts ->
  exists j p', jbod_init conf (SpdkJBODBdev_init, p) = (Ret true, (j, p')) /\
    length (devices j) = length (conf_devs conf) /\ numDevices j = Z.of_nat (length (devices j)) /\
    deviceHash j = hash_table (dev_hash <$> devices j) /\
    (forall i d, conf_devs conf !! i = Some d -> exists x l, devices j !! i = Some x /\ sp_leaves !! i = Some l /\
       pciAddr (jd_addr x) = bc_pciAddr d /\ pci_addr (bo_ctx (jd_bdev x)) = bc_pciAddr d /\
       bo_bdev (jd_bdev x) = Some l /\ bo_isRunning (jd_bdev x) = 1) /\
    foldr Z.add 0 ((fun x => bo_maxIoBufs (jd_bdev x)) <$> devices j) <= fst sp_opts.
Proof.
  intros Hc Hpool. destruct (jbod_init_run conf p Hc) as (j & p' & E & (Hlen & Ed & En & Eh & _ & Hio)).
  destruct Hc as [_ Hs Hlv _ _]. destruct (Hio ltac:(lia)) as [Epool _]. exists (split_bufs j), p'. split; [exact E|]. unfold split_bufs.
  cbn [devices numDevices deviceHash set_devices]. rewrite length_fmap, Ed, En, Hlen, Eh. split_and!; try done.
  - apply (f_equal hash_table). rewrite <- list_fmap_compose. by apply list_fmap_ext.
  - intros i d Hd. destruct (lookup_lt_is_Some_2 sp_leaves i) as [l Hl]; [apply lookup_lt_Some in Hd; lia|].
    rewrite list_lookup_fmap, (lookup_entries _ 0 _ i d l Hd Hl). eexists _, l. split; [reflexivity|]. by split_and!.
  - rewrite <- list_fmap_compose. set (n := Z.of_nat (length (conf_devs conf))).
    rewrite (list_fmap_ext _ (fun _ => fst sp_opts / n)) by (intros; simpl; by rewrite Epool).
    assert (G : forall (l : list (JBODDevice BdevOpen)), foldr Z.add 0 ((fun _ => fst sp_opts / n) <$> l) = Z.of_nat (length l) * (fst sp_opts / n)).
    { induction l as [|x l IHl]; [done|]. cbn [fmap list_fmap foldr length]. rewrite IHl. lia. }
    rewrite G, Hlen. fold n. pose proof (Z.mul_div_le (fst sp_opts) n ltac:(lia)). lia.
Qed.
End Open.

(** ** The invariant of the routing *)

Section Start.
Context {C R PO H N : Type} `{SpdkRing (DeviceTask C) R} `{IoBufPools PO} `{DmaAlloc H} `{SpdkNvme N}
  `{PmemTx} `{PmemHeap FreeLba} `{SpdkBdevLib}.
#[local] Abbreviation Bdev := (SpdkBdev C R PO H N).
#[local] Existing Instance bdev_device.

Lemma start_devices_spec (f : BdevOpen -> outcome exn Bdev) l l' : start_devices f l = Ret l' ->
  Forall2 (fun x y => jd_addr y = jd_addr x /\ jd_num y = jd_num x /\ f (jd_bdev x) = Ret (jd_bdev y)) l l'.
Proof.
  revert l'. induction l as [|x l IH]; intros l' E; cbn in E; [injection E as <-; constructor|].
  destruct (f (jd_bdev x)) as [d| | |] eqn:Ef; try done. destruct (start_devices f l) as [l1| | |]; try done. injection E as <-.
  constructor; [done|by apply IH].
Qed.

(** After [init] and [initFreeList] the JBOD is in order. *)
Lemma jbod_start_ok conf p j p' f (j' : SpdkJBODBdev Bdev) : jbod_conf conf -> 0 <= fst sp_opts ->
  jbod_init conf (SpdkJBODBdev_init, p) = (Ret true, (j, p')) ->
  (forall b d, f b = Ret d -> spBdevCtx d = bo_ctx b) -> jbod_initFreeList f j = Ret j' -> jbod_ok j'.
Proof.
  intros Hc Hp E Hf Es. destruct (jbod_init_run conf p Hc) as (j0 & q & E0 & (Hlen & Ed & En & Eh & Ec & _)).
  rewrite E in E0. injection E0 as -> ->. unfold jbod_initFreeList in Es.
  destruct (start_devices f (devices (split_bufs j0))) as [l| | |] eqn:El; try done. injection Es as <-.
  apply start_devices_spec in El. pose proof (Forall2_length _ _ _ El) as Hl. pose proof (jc_some _ Hc) as Hs.
  cbn [devices split_bufs set_devices] in Hl, El. rewrite length_fmap, Ed, Hlen in Hl.
  split; cbn [devices numDevices currDevice deviceHash split_bufs set_devices].
  - by rewrite En, Hl.
  - by rewrite <- Hl.
  - rewrite Ec, En. lia.
  - rewrite Eh, <- Ed. apply (f_equal hash_table). rewrite (list_fmap_ext dev_hash (fun x => dev_hash (set_dev (jd_bdev x) x))) by done.
    apply list_eq_Forall2, Forall2_fmap. apply Forall2_fmap_l in El. eapply Forall2_impl; [exact El|].
    intros x y (Ea & _). unfold dev_hash. by rewrite Ea.
  - apply Forall_lookup_2. intros i y Hy. apply Forall2_fmap_l in El.
    destruct (Forall2_lookup_r _ _ _ _ _ El Hy) as (x & Hx & Ea & _ & Ef). split; [|done].
    change (pciAddr (jd_addr y) = pci_addr (spBdevCtx (jd_bdev y))). rewrite (Hf _ _ Ef), Ea. rewrite Ed in Hx.
    pose proof (lookup_lt_Some _ _ _ Hx) as Hi. rewrite Hlen in Hi.
    destruct (lookup_lt_is_Some_2 (conf_devs conf) i Hi) as [d Hd].
    destruct (lookup_lt_is_Some_2 sp_leaves i) as [lf Hlf]; [pose proof (jc_leaves _ Hc); lia|].
    rewrite (lookup_entries _ 0 _ i d lf Hd Hlf) in Hx. by injection Hx as <-.
Qed.
End Start.

(** ** Closing *)

Section Close.
Context {C R PO H N : Type} `{SpdkRing (DeviceTask C) R} `{IoBufPools PO} `{DmaAlloc H} `{SpdkNvme N}
  `{PmemTx} `{PmemHeap FreeLba}.
#[local] Abbreviation Bdev := (SpdkBdev C R PO H N).
Implicit Types j : SpdkJBODBdev Bdev.

Definition upd_dev (g : Bdev -> Bdev) (x : JBODDevice Bdev) : JBODDevice Bdev := set_dev (g (jd_bdev x)) x.

Lemma on_device_run g j i x : devices j !! i = Some x ->
  on_device i (cmod g) j = (Ret tt, set_devices (<[i := upd_dev g x]> (devices j)) j).
Proof. intros Hx. unfold on_device. by rewrite Hx. Qed.

Lemma each_device_run g n : forall i j, (i + n = length (devices j))%nat ->
  each_device (cmod g) i n j = (Ret tt, set_devices (take i (devices j) ++ (upd_dev g <$> drop i (devices j))) j).
Proof.
  induction n as [|n IH]; intros i j Hn; cbn [each_device].
  { rewrite drop_ge, take_ge, app_nil_r by lia. by destruct j. }
  destruct (lookup_lt_is_Some_2 (devices j) i ltac:(lia)) as [x Hx].
  rewrite (cbind_ret _ _ _ _ _ (on_device_run g j i x Hx)), IH by (cbn [devices set_devices]; rewrite length_insert; lia).
  cbn [devices set_devices]. rewrite take_insert_nth by (by eapply lookup_lt_Some). rewrite drop_insert_lt by lia.
  rewrite (drop_S _ x i Hx), <- app_assoc. reflexivity.
Qed.

Lemma count_down_run g n : forall j, (n <= length (devices j))%nat ->
  count_down (fun i => on_device i (cmod g)) n j =
  (Ret tt, set_numDevices 0 (set_devices ((upd_dev g <$> take n (devices j)) ++ drop n (devices j)) j)).
Proof.
  induction n as [|n IH]; intros j Hn; cbn [count_down].
  { rewrite take_0, drop_0. by destruct j. }
  destruct (lookup_lt_is_Some_2 (devices j) n ltac:(lia)) as [x Hx].
  unfold cbind at 1, cmod at 1. rewrite (cbind_ret _ _ _ _ _ (on_device_run g (set_numDevices (Z.of_nat n + 1) j) n x Hx)).
  rewrite IH by (cbn [devices set_devices set_numDevices]; rewrite length_insert; lia).
  cbn [devices set_devices set_numDevices]. rewrite take_insert_ge by lia.
  rewrite (take_S_r _ _ _ Hx), fmap_app, <- app_assoc, (drop_S _ (upd_dev g x)) by (apply list_lookup_insert_eq; by eapply lookup_lt_Some).
  by rewrite drop_insert_lt by lia.
Qed.

(** Closing a JBOD stops nothing.  The loop that clears the running flags counts
    [numDevices] down to zero, so the abort of devices that are not quiescent and the
    deletion of the devices go over no device: each is left quiescing, with its
    threads, and none is deleted. *)
Theorem jbod_destroy_leaks j quiescent : numDevices j = Z.of_nat (length (devices j)) ->
  exists j', jbod_destroy quiescent (j, []) = (Ret tt, (j', [])) /\
    forall i x, devices j !! i = Some x -> exists y, devices j' !! i = Some y /\
      jd_bdev y = set_isRunning 0 (snd (IOQuiesce (jd_bdev x))) /\ _IoState (jd_bdev y) = BDEV_IO_QUIESCING.
Proof.
  intros En. set (q := fun d : Bdev => snd (IOQuiesce d)).
  set (j1 := set_devices (upd_dev q <$> devices j) j).
  assert (E1 : jbod_IOQuiesce j = (Ret tt, j1)).
  { unfold jbod_IOQuiesce, all_devices. rewrite En, Nat2Z.id.
    change (each_device IOQuiesce 0) with (each_device (D := Bdev) (cmod q) 0). rewrite each_device_run by lia. by rewrite take_0, drop_0. }
  set (j2 := set_numDevices 0 (set_devices (upd_dev (set_isRunning 0) <$> devices j1) j1)).
  assert (E2 : count_down (fun i => on_device i (cmod (set_isRunning 0))) (length (devices j1)) j1 = (Ret tt, j2)).
  { rewrite count_down_run by lia. unfold j2. by rewrite firstn_all, drop_all, app_nil_r. }
  exists j2. split.
  - unfold jbod_destroy. unfold cbind at 1, czoom at 1. cbn [fst snd]. rewrite E1. unfold cbind at 1, cget. cbn [fst snd].
    assert (En1 : Z.to_nat (numDevices j1) = length (devices j1)).
    { unfold j1. cbn [numDevices devices set_devices]. rewrite length_fmap, En. lia. }
    rewrite En1. unfold cbind at 1, czoom at 1. cbn [fst snd]. rewrite E2. cbn [fst snd].
    unfold cbind at 1. destruct quiescent; reflexivity.
  - intros i x Hx. unfold j2, j1. cbn [devices set_numDevices set_devices]. rewrite !list_lookup_fmap, Hx.
    eexists. split; [reflexivity|]. by split.
Qed.
End Close.

(** ** A JBOD of two devices *)

Section Runs.
#[local] Existing Instances simple_tx simple_heap simple_buf_pools simple_nvme.
#[local] Instance open_rings (A : Type) : SpdkRing A (list_ring A) := simple_ring A.

Lemma two_leaves : NoDup [1%positive; 2%positive].
Proof. apply (bool_decide_unpack _). reflexivity. Qed.
#[local] Instance run_lib : SpdkBdevLib := lib_of [1%positive; 2%positive] two_leaves.

(** Two devices on the buses 3 and 4. *)
Definition two_devs : list SpdkBdevConf :=
  [mkSpdkBdevConf "dev0" "0000:03:00.0" (bus 3) "Nvme0"; mkSpdkBdevConf "dev1" "0000:04:00.0" (bus 4) "Nvme1"].
Definition two_conf : SpdkConf := mkSpdkConf JBOD "jbod" 0 two_devs (Some (-1)).

Lemma two_conf_ok : jbod_conf two_conf.
Proof.
  split; [reflexivity|split; [simpl; lia|unfold maxDevices; simpl; lia]|simpl; lia| |split; [reflexivity|by repeat constructor]].
  repeat constructor; (vm_compute; lia) || discriminate.
Qed.

Lemma jbod_init_opens_witness : exists j p',
  jbod_init two_conf (SpdkJBODBdev_init, None) = (Ret true, (j, p')) /\ length (devices j) = 2%nat.
Proof.
  destruct (jbod_init_opens two_conf None two_conf_ok ltac:(simpl; lia)) as (j & p' & E & Hl & _).
  exists j, p'. split; [exact E|exact Hl].
Defined.

Lemma jbod_destroy_leaks_witness : exists j', jbod_destroy false (run_jbod 3 4, []) = (Ret tt, (j', [])).
Proof.
  destruct (jbod_destroy_leaks (run_jbod 3 4) false eq_refl) as (j' & E & _). exists j'. exact E.
Defined.
End Runs.
