(* ===== verification/SpdkCore.v ===== *)
(** * Starting SPDK ([lib/spdk/SpdkCore], [SpdkBdevFactory])

    The constructor writes the configuration file of SPDK; [spdkStart], which SPDK
    calls in its first thread, opens the device, computes the number of blocks of an
    LBA from the allocation unit, and makes the lists of free LBAs. *)

From stdpp Require Import strings.
From S2P Require Import Prelude Status Pmem FreeList LbaAlloc ARTree RTreeEngine Poller Rqst SpdkIoBuf SpdkDevice SpdkBdev FinalizePoller OffloadPath SpdkConf SpdkInit.

(** ** The constructor *)

Inductive SpdkState : Type := SPDK_INIT | SPDK_READY | SPDK_ERROR | SPDK_STOPPED.

#[global] Instance SpdkState_eq_dec : EqDecision SpdkState.
Proof. solve_decision. Defined.

(** [conf_file] is the file [spdk.conf], [bdev_state] the member [state] of the device
    when it is an [SpdkBdev]. *)
Record SpdkCore : Type := mkSpdkCore {
  state : SpdkState; sc_options : OffloadOptions; sc_device : OffloadDevType; bdev_state : CSpdkBdevState;
  conf_file : option string; _spdkConf : SpdkConf }.

Definition newline : string := String (Ascii.ascii_of_nat 10) EmptyString.
Definition quote : string := String (Ascii.ascii_of_nat 34) EmptyString.

Definition conf_line (d : OffloadDevDescriptor) : string :=
  "  TransportID " +:+ quote +:+ "trtype:PCIe traddr:" +:+ nvmeAddr d +:+ quote +:+ " " +:+ nvmeName d +:+ newline.

(** The text of the file; an [assert] refuses a single device that is not one. *)
Definition conf_text (o : OffloadOptions) : outcome exn string :=
  match devType o with
  | BDEV => match _devs o with [d] => Ret ("[Nvme]" +:+ newline +:+ conf_line d) | _ => Crash end
  | JBOD => Ret ("[Nvme]" +:+ newline +:+ foldr String.append "" (conf_line <$> _devs o))
  | RAID0 => Ret ""
  end.

(** [file] is the file before the call, [writable] says whether it can be opened. *)
Definition createConfFile (writable : bool) (file : option string) (o : OffloadOptions) : outcome exn (bool * option string) :=
  match file with
  | Some f => Ret (true, Some f)
  | None =>
      match _devs o with
      | [] => Ret (false, None)
      | _ :: _ =>
          if writable then
            match conf_text o with Ret s => Ret (true, Some s) | Throw e => Throw e | Crash => Crash | Undef => Undef end
          else Ret (false, None)
      end
  end.

(** [SpdkBdevFactory::getBdev] makes a device of the class. *)
Definition getBdev (ty : OffloadDevType) : OffloadDevType := ty.

(** The old file is removed first.  [env_ok] is the answer of [spdkEnvInit], and only an
    [SpdkBdev] survives the cast of the error path. *)
Definition SpdkCore_init (raw : list Z) (writable env_ok : bool) (o : OffloadOptions) : outcome exn SpdkCore :=
  match SpdkConf_of_options raw o with
  | Ret conf =>
      match createConfFile writable None o with
      | Ret (true, f) => Ret (mkSpdkCore SPDK_READY o (getBdev (devType o)) SPDK_BDEV_INIT f conf)
      | Ret (false, f) =>
          match getBdev (devType o) with
          | BDEV => Ret (mkSpdkCore (if env_ok then SPDK_READY else SPDK_ERROR) o BDEV SPDK_BDEV_NOT_FOUND f conf)
          | _ => Undef
          end
      | Throw e => Throw e
      | Crash => Crash
      | Undef => Undef
      end
  | Throw e => Throw e
  | Crash => Crash
  | Undef => Undef
  end.

Definition isSpdkReady (s : SpdkCore) : bool := bool_decide (state s = SPDK_READY).

(** [isBdevFound] of an [SpdkBdev] tests its state, of the other devices it is true. *)
Definition isBdevFound (s : SpdkCore) : bool :=
  isSpdkReady s && match sc_device s with BDEV => negb (bool_decide (bdev_state s = SPDK_BDEV_NOT_FOUND)) | _ => true end.

(** ** [spdkStart] of a single device *)

Section Start.
Context {C R PO H N : Type} `{SpdkRing (DeviceTask C) R} `{IoBufPools PO} `{DmaAlloc H} `{SpdkNvme N}
  `{PmemTx} `{PmemHeap FreeLba} `{SpdkBdevLib}.
#[local] Abbreviation Bdev := (SpdkBdev C R PO H N).

(** [OffloadPoller::initFreeList]: the poller's own list is opened or created. *)
Definition poller_initFreeList (file : option OffloadFreeList) (b : BdevOpen) : outcome exn OffloadFreeList :=
  if blkNumForLba b =? 0 then Undef
  else
    let set_max fl := mkOffloadFreeList (blk_num (bo_ctx b) / blkNumForLba b) (_head fl) (_tail fl) (_heads fl) (_tails fl) (nodes fl) in
    match file with
    | Some fl => Ret (set_max fl)
    | None => match FreeList.push (-1) (set_max (empty_list 0)) with
              | (Ret _, fl) => Ret fl
              | (Throw e, _) => Throw e
              | (Crash, _) => Crash
              | (Undef, _) => Undef
              end
    end.

Definition setReady (s : Bdev) : Bdev :=
  mkSpdkBdev (set_ctx_state SPDK_BDEV_READY (spBdevCtx s)) (ioEngine s) (finalizer s) (_IoState s) (stats s) (isRunning s)
    (maxIoBufs s) (ioBufsInUse s) (lbaAllocator s) (ioPoolMgr s) (nvme s) (inflight s) (io_wait s) (disk s) (b_calls s) (b_returned s).

(** What the thread finds: the two files of free LBAs, whether the poller gets its ring,
    and the parts of the new device as in [initFreeList]. *)
Record start_env : Type := mkStartEnv {
  se_poller_file : option OffloadFreeList; se_file : option OffloadFreeList; se_raw : list (list Z); se_ring : bool;
  se_queue : @Poller (DeviceTask C) R; se_io : IOState; se_mgr : @SpdkIoBufMgr PO H; se_nvme : N; se_disk : Z -> list Z }.

(** Up to the main loop; [None] is the early return of an error, after [spdk_app_stop(-1)]. *)
Definition spdkStart (env : start_env) (conf : SpdkConf) (allocUnitSize : Z) (b : BdevOpen) (prev : option positive) :
    outcome exn (option (Bdev * OffloadFreeList)) :=
  match init conf (b, prev) with
  | (Ret false, _) => Ret None
  | (Ret true, (b, _)) =>
      let aligned := getAlignedSize (bo_ctx b) allocUnitSize in
      if blk_size (bo_ctx b) =? 0 then Undef
      else
        let b := setBlockNumForLba (aligned / blk_size (bo_ctx b)) b in
        match poller_initFreeList (se_poller_file env) b with
        | Ret pfl =>
            match initFreeList (se_file env) (se_raw env) (se_queue env) (se_io env) (se_mgr env) (se_nvme env) (se_disk env) b with
            | Ret s => if se_ring env then Ret (Some (setReady (set_isRunning 1 s), pfl)) else Ret None
            | Throw e => Throw e
            | Crash => Crash
            | Undef => Undef
            end
        | Throw e => Throw e
        | Crash => Crash
        | Undef => Undef
        end
  | (Throw e, _) => Throw e
  | (Crash, _) => Crash
  | (Undef, _) => Undef
  end.
End Start.
Arguments start_env : clear implicits.

(** ** A started device *)

Section Theorems.
Context {C R PO H N : Type} `{SpdkRing (DeviceTask C) R} `{IoBufPools PO} `{DmaAlloc H} `{SpdkNvme N}
  `{PmemTx} `{PmemHeap FreeLba} `{SpdkBdevLib}.
#[local] Abbreviation Bdev := (SpdkBdev C R PO H N).
#[local] Abbreviation senv := (start_env C R PO H N).

(** A first device of SPDK that can be opened, and its configuration. *)
Record startable_dev (conf : SpdkConf) (c : SpdkBdevConf) (d : positive) : Prop := {
  sd_conf : conf_fits conf (-1) c;
  sd_first : sp_first = Some d;
  sd_opens : opens d;
  sd_thread : sp_thread = true;
  sd_blocks : exists k, 0 <= k <= 12 /\ sp_block_size d = 2 ^ k }.

(** The device after [init] and [setBlockNumForLba]. *)
Definition unit_dev (c : SpdkBdevConf) (d : positive) (unit : Z) : BdevOpen :=
  let b := setRunning 1 (opened (-1) c d SpdkBdev_init) in
  setBlockNumForLba (blocks_of (bo_ctx b) unit) b.

Lemma unit_dev_ok conf c d unit : startable_dev conf c d -> ctx_ok (bo_ctx (unit_dev c d unit)).
Proof. intros [_ _ _ _ (k & Hk & Hb)]. split; [reflexivity|]. by exists k. Qed.

Lemma start_up_to_lists (env : senv) conf c d unit prev : startable_dev conf c d -> 0 < unit <= 2 ^ 31 ->
  spdkStart env conf unit SpdkBdev_init prev =
  match poller_initFreeList (se_poller_file env) (unit_dev c d unit) with
  | Ret pfl =>
      match initFreeList (se_file env) (se_raw env) (se_queue env) (se_io env) (se_mgr env) (se_nvme env) (se_disk env)
              (unit_dev c d unit) with
      | Ret s => if se_ring env then Ret (Some (setReady (set_isRunning 1 s), pfl)) else Ret None
      | Throw e => Throw e
      | Crash => Crash
      | Undef => Undef
      end
  | Throw e => Throw e
  | Crash => Crash
  | Undef => Undef
  end.
Proof.
  intros Hs Hu. pose proof (unit_dev_ok conf c d unit Hs) as Hc. destruct Hs as [Hconf Hf Ho Ht _].
  unfold spdkStart.
  rewrite (init_run conf (-1) c SpdkBdev_init prev d prev Ht Hconf ltac:(lia)); [|unfold pick_bdev; cbn [fst confBdevNum]; by rewrite Hf|done].
  set (b := setRunning 1 (opened (-1) c d SpdkBdev_init)).
  change (bo_ctx (unit_dev c d unit)) with (bo_ctx b) in Hc.
  destruct (blocks_of_spec (bo_ctx b) unit Hc Hu) as (_ & _ & _ & Hbs & _ & Hbl).
  destruct (Z.eqb_spec (blk_size (bo_ctx b)) 0); [lia|].
  assert (E : getAlignedSize (bo_ctx b) unit / blk_size (bo_ctx b) = blocks_of (bo_ctx b) unit).
  { rewrite <- Hbl. apply Z.div_mul. lia. }
  rewrite E. reflexivity.
Qed.

(** The block counts of sizes are ordered like the sizes. *)
Lemma blocks_of_mono c n m : ctx_ok c -> 0 < n <= m -> m <= 2 ^ 31 -> blocks_of c n <= blocks_of c m.
Proof.
  intros Hc Hn Hm. destruct (blocks_of_spec c n Hc ltac:(lia)) as (Hr1 & _ & [a Ha] & Hb & _ & E1).
  destruct (blocks_of_spec c m Hc ltac:(lia)) as (Hr2 & _ & [a' Ha'] & _ & _ & E2).
  assert (a <= a') by lia. nia.
Qed.

(** The blocks of a write of [n] bytes at LBA [l] are on a device of [blocks] blocks. *)
Definition on_device (c : SpdkBdevCtx) (blocks n l : Z) : Prop := first_block c n l + blocks_of c n <= blocks.

Lemma on_device_iff c blocks n l : ctx_ok c -> 0 < n <= 2 ^ 31 -> 0 <= l < 2 ^ 32 ->
  on_device c blocks n l <-> blocks_of c n * (l + 1) <= blocks.
Proof.
  intros Hc Hn Hl. destruct (blocks_of_spec c n Hc Hn) as (_ & _ & _ & _ & Hb & _).
  unfold on_device, first_block. rewrite uwrap_id by nia. lia.
Qed.

(** LBAs below the bound of the allocator are on the device. *)
Lemma below_max_on_device c blocks n unit l : ctx_ok c -> 0 < n <= unit -> unit <= 2 ^ 31 -> 0 <= blocks < 2 ^ 63 ->
  0 <= l < blocks / blocks_of c unit -> on_device c blocks n l.
Proof.
  intros Hc Hn Hu Hk Hl. pose proof (blocks_of_mono c n unit Hc Hn Hu) as Hm.
  destruct (blocks_of_spec c n Hc ltac:(lia)) as (_ & _ & _ & _ & Hb & _).
  pose proof (Z.mul_div_le blocks (blocks_of c unit) ltac:(lia)).
  assert (blocks_of c n * l + blocks_of c n <= blocks) by nia.
  unfold on_device, first_block. rewrite uwrap_id; [lia|]. split; [nia|]. lia.
Qed.

(** The first 1024 LBAs of a size class of a new allocator. *)
Lemma first_lbas blocks avg raw a n i r :
  OffloadLbaAlloc_init true None blocks avg raw = Ret a -> blocks / avg < 2 ^ 63 ->
  has_bucket n i -> raw !! i = Some r -> length r = lbasSize -> Z.of_nat i + 1 < blocks / avg ->
  exists a', getLbas n lbasSize a = (Ret (reverse (gen_lbas 1 (Z.of_nat i + 1) lbasSize)), a').
Proof.
  intros Ha H63 Hi Hr Hl Hm. destruct (OffloadLbaAlloc_init_spec _ _ _ _ Ha) as (Hrep & Em & HB).
  pose proof (proj2 Hi) as Hi'. unfold _maxBuckets in Hi'.
  destruct (getLbas_block n i a _ 1 [] _ Hi (HB _ _ Hr Hl) Hrep) as (a' & b & E & _); [|lia|lia|by exists a'].
  simpl. destruct (Nat.ltb_spec i numSlots); [done|]. unfold numSlots in *. lia.
Qed.

(** C31. Which LBAs of a started device are on the disk.  After the start the device is
    ready and running, and a write of at most the allocation unit stays on the device for
    every LBA below [maxLba].  But [getBlock] tests the bound once per block of 1024 LBAs:
    the first 1024 LBAs that the allocator hands out for values of size class [i] are
    [1 + (j + 1) * (i + 1)], the largest first, and all of them are on the device exactly
    when it has room for the largest.  On a smaller device the very first write of the
    class names blocks behind its end. *)
Theorem spdk_start_serves_units (env : senv) conf c d unit prev pfl a :
  startable_dev conf c d -> 0 < unit <= 2 ^ 31 -> 0 <= sp_num_blocks d < 2 ^ 63 -> se_ring env = true -> se_file env = None ->
  poller_initFreeList (se_poller_file env) (unit_dev c d unit) = Ret pfl ->
  OffloadLbaAlloc_init true None (sp_num_blocks d) (blocks_of (bo_ctx (unit_dev c d unit)) unit) (se_raw env) = Ret a ->
  exists s, spdkStart env conf unit SpdkBdev_init prev = Ret (Some (s, pfl)) /\
    isRunning s = 1 /\ ctx_state (spBdevCtx s) = SPDK_BDEV_READY /\ maxIoBufs s = fst sp_opts /\
    let max := maxLba (freeLbaList (lbaAllocator s)) in
    let on := on_device (spBdevCtx s) (sp_num_blocks d) in
    max = sp_num_blocks d / blocks_of (spBdevCtx s) unit /\
    forall n, 0 < n <= unit ->
      (forall l, 0 <= l < max -> on n l) /\
      (forall i r, has_bucket n i -> se_raw env !! i = Some r -> length r = lbasSize -> Z.of_nat i + 1 < max ->
       let top := 1 + 1024 * (Z.of_nat i + 1) in
       exists out a', getLbas n lbasSize (lbaAllocator s) = (Ret (top :: out), a') /\
         (forall l, l ∈ top :: out <-> exists j, (j < 1024)%nat /\ l = 1 + (Z.of_nat j + 1) * (Z.of_nat i + 1)) /\
         (Forall (on n) (top :: out) <-> on n top) /\
         (on n top <-> blocks_of (spBdevCtx s) n * (top + 1) <= sp_num_blocks d)).
Proof.
  intros Hs Hu Hnb Hr Hf Hp Ha. rewrite (start_up_to_lists env conf c d unit prev Hs Hu), Hp, Hf, Hr.
  pose proof (unit_dev_ok conf c d unit Hs) as Hc. set (u := unit_dev c d unit) in *.
  unfold initFreeList. change (blkNumForLba u) with (blocks_of (bo_ctx u) unit). change (blk_num (bo_ctx u)) with (sp_num_blocks d).
  rewrite Ha. eexists. do 4 (split; [reflexivity|]). cbn [lbaAllocator setReady set_isRunning spBdevCtx].
  destruct (OffloadLbaAlloc_init_spec _ _ _ _ Ha) as (_ & Em & _). rewrite Em.
  set (cx := set_ctx_state SPDK_BDEV_READY (bo_ctx u)).
  change (blocks_of (bo_ctx u) unit) with (blocks_of cx unit) in *. change (ctx_ok cx) in Hc.
  split; [done|]. intros n Hn. split; [intros l Hl; eapply below_max_on_device; [done|done|lia|done|done]|].
  intros i r Hi Hri Hlr Hm. set (top := 1 + 1024 * (Z.of_nat i + 1)). pose proof (proj2 Hi) as Hi'. unfold _maxBuckets in Hi'.
  destruct (blocks_of_spec cx unit Hc ltac:(lia)) as (_ & _ & _ & _ & Hbu & _).
  destruct (first_lbas _ _ _ _ n i r Ha) as (a' & E); [|done..|].
  { apply Z.div_lt_upper_bound; nia. }
  destruct (gen_lbas_top 1 (Z.of_nat i + 1)) as [out Eo]. rewrite Eo in E. fold top in E, Eo.
  assert (Hin : forall l, l ∈ top :: out <-> exists j, (j < 1024)%nat /\ l = 1 + (Z.of_nat j + 1) * (Z.of_nat i + 1)).
  { intros l. rewrite <- Eo, elem_of_reverse. apply elem_of_gen_lbas. }
  exists out, a'. split; [done|]. split; [done|].
  assert (Hon : forall l, l ∈ top :: out -> on_device cx (sp_num_blocks d) n l <-> blocks_of cx n * (l + 1) <= sp_num_blocks d).
  { intros l (j & Hj & ->)%Hin. apply on_device_iff; [done|lia|nia]. }
  destruct (blocks_of_spec cx n Hc ltac:(lia)) as (_ & _ & _ & _ & Hbn & _).
  split; [|apply Hon; left]. split; [by inversion 1|]. intros Ht. apply Forall_forall. intros l Hl.
  apply Hon; [done|]. apply Hon in Ht; [|left]. unfold top in Ht. apply Hin in Hl as (j & Hj & ->). nia.
Qed.

(** A store with offload cannot be started twice.  [initFreeList] always creates its
    file, so when the file is there from an earlier run the start ends in an exception
    that nothing catches. *)
Theorem spdk_restart_throws (env : senv) conf c d unit prev pfl fl :
  startable_dev conf c d -> 0 < unit <= 2 ^ 31 -> se_file env = Some fl ->
  poller_initFreeList (se_poller_file env) (unit_dev c d unit) = Ret pfl ->
  spdkStart env conf unit SpdkBdev_init prev = Throw pool_error.
Proof. intros Hs Hu Hf Hp. rewrite (start_up_to_lists env conf c d unit prev Hs Hu), Hp, Hf. reflexivity. Qed.
End Theorems.

(** ** A start on one device *)

Section Runs.
#[local] Existing Instances simple_tx simple_heap simple_buf_pools simple_nvme.
#[local] Instance core_rings (A : Type) : SpdkRing A (list_ring A) := simple_ring A.

Lemma one_leaf : NoDup [1%positive].
Proof. apply (bool_decide_unpack _). reflexivity. Qed.
#[local] Instance core_lib : SpdkBdevLib := lib_of [1%positive] one_leaf.

Definition run_env (file : option OffloadFreeList) :
    start_env nat (list_ring (DeviceTask nat)) (gset buf_ptr) unit Z :=
  mkStartEnv (Some (empty_list 0)) file raw_arrays true (run_queue nat) BDEV_IO_INIT run_mgr 100000 (fun _ => replicate 512 0).
Definition run_dev : SpdkBdevConf := one_dev (mkPciAddr 0 94 0 0).

Lemma run_startable : startable_dev one_conf run_dev 1.
Proof. split; [|reflexivity|by split|reflexivity|by exists 9]. split_and!; [reflexivity..|vm_compute; lia|vm_compute; lia]. Qed.

Definition run_lbas : OffloadLbaAlloc :=
  match OffloadLbaAlloc_init true None 100000 32 raw_arrays with Ret a => a | _ => mkLbaAlloc [] (empty_list 0) end.

(** The device has 100000 blocks, that is 3125 LBAs of 32 blocks, and the first LBA for
    values of 16384 bytes is 5121, behind its end. *)
Definition started_ctx (r : outcome exn (option (SpdkBdev nat (list_ring (DeviceTask nat)) (gset buf_ptr) unit Z * OffloadFreeList))) :
    option SpdkBdevCtx := match r with Ret (Some (s, _)) => Some (spBdevCtx s) | _ => None end.

Lemma run_started_blocks :
  match started_ctx (spdkStart (run_env None) one_conf 16384 SpdkBdev_init None) with
  | Some c => Some (blocks_of c 16384)
  | None => None
  end = Some 32.
Proof. vm_compute. reflexivity. Qed.

Lemma spdk_start_serves_units_witness : exists s out a',
  spdkStart (run_env None) one_conf 16384 SpdkBdev_init None = Ret (Some (s, empty_list 3125)) /\ isRunning s = 1 /\
  getLbas 16384 lbasSize (lbaAllocator s) = (Ret (5121 :: out), a') /\
  ~ on_device (spBdevCtx s) 100000 16384 5121.
Proof.
  destruct (spdk_start_serves_units (run_env None) one_conf run_dev 1 16384 None (empty_list 3125) run_lbas run_startable)
    as (s & E & Hr & _ & _ & Em & Hn); [lia|vm_compute; split; congruence|reflexivity|reflexivity|reflexivity|vm_compute; reflexivity|].
  cbv zeta in Em, Hn. destruct (Hn 16384 ltac:(lia)) as [_ Hi].
  pose proof run_started_blocks as Hb. rewrite E in Hb. injection Hb as Hb.
  destruct (Hi 4%nat (replicate lbasSize 0)) as (out & a' & Eo & _ & _ & Hon);
    [split; [reflexivity|vm_compute; lia]|reflexivity|reflexivity|rewrite Em, Hb; reflexivity|].
  exists s, out, a'. split; [exact E|]. split; [exact Hr|]. split; [exact Eo|].
  intros Hd. apply Hon in Hd. rewrite Hb in Hd. vm_compute in Hd. by apply Hd.
Defined.

Lemma spdk_restart_throws_witness :
  spdkStart (run_env (Some (empty_list 7))) one_conf 16384 SpdkBdev_init None = Throw pool_error.
Proof.
  apply (spdk_restart_throws (run_env (Some (empty_list 7))) one_conf run_dev 1 16384 None (empty_list 3125) (empty_list 7)
    run_startable); [lia|reflexivity|reflexivity].
Defined.
End Runs.
