(* ===== verification/KVAsync.v ===== *)
(** * Asynchronous calls of the store ([KVStore::PutAsync], [GetAsync], [UpdateAsync])

    The calls make a request and hand it to one of the pollers, or to the offload
    poller; the answer comes through the callback.  A poller runs on the tree and the
    memory of the store.  Callers' keys are blocks of the heap here, not keys of the
    DHT client; the calls are those of one thread, whose [thread_local] counters of the
    round robin are part of the state. *)

From S2P Require Import Prelude Status ARTree RTreeEngine Poller Rqst PmemPoller PrimaryKey DhtCore KVStore.

Section Async.
Context {T C R R1 R2 PO N : Type} `{RTreeEngine T} `{SpdkRing (list Z) R} `{SpdkRing (Rqst RqstOperation C) R1}
  `{SpdkRing (Rqst OffloadOperation C) R2} `{RqstPool C PO}.

#[local] Abbreviation PmemRqst := (Rqst RqstOperation C).
#[local] Abbreviation OffloadRqst := (Rqst OffloadOperation C).

(** The offload poller's queue and the pools of its requests. *)
Record OffloadFront : Type := mkOffloadFront {
  of_queue : @Poller OffloadRqst R2; of_getPool : PO; of_updatePool : PO }.

Context `{StoreServices OffloadFront N}.

Record AsyncStore : Type := mkAsyncStore {
  kv : @KVStore T R OffloadFront N; _rqstPollers : list (@Poller PmemRqst R1);
  put_pollerId : Z; get_pollerId : Z; a_calls : list (call C) }.

#[local] Abbreviation AM A := (M exn AsyncStore A).

Definition on_kv {A} (m : M exn (@KVStore T R OffloadFront N) A) : AM A :=
  czoom kv (fun k s => mkAsyncStore k (_rqstPollers s) (put_pollerId s) (get_pollerId s) (a_calls s)) m.
Definition set_front (f : OffloadFront) (k : @KVStore T R OffloadFront N) : @KVStore T R OffloadFront N :=
  mkKVStore (_spRtree k) (KVStore.pmem k) (heap k) (_spPKey k) f (_spDhtClient k) (_spDht k) (offloadEnabled k) (_keySize k).
Definition on_front {A} (m : M exn OffloadFront A) : AM A := on_kv (czoom _spOffloadPoller set_front m).
Definition set_rqstPollers (l : list (@Poller PmemRqst R1)) (s : AsyncStore) : AsyncStore :=
  mkAsyncStore (kv s) l (put_pollerId s) (get_pollerId s) (a_calls s).

(** [cb(this, status, key, keySize, value, valueSize)]. *)
Definition call_back (cb : C) (status : Z) (kp : positive) (ks : Z) (val : option (list Z)) : AM unit :=
  cmod (fun s => mkAsyncStore (kv s) (_rqstPollers s) (put_pollerId s) (get_pollerId s)
                   (a_calls s ++ [mkCall cb status (CallerKey kp) ks val])).

(** [PutOptions] and [GetOptions]: the attribute [LONG_TERM], and where the request goes. *)
Record AsyncOptions : Type := mkAsyncOptions { longTerm : bool; roundRobin : bool; pollerId : Z }.

(** The next poller: [(pollerId + 1) % _rqstPollers.size()]. *)
Definition next_poller (o : AsyncOptions) (cur : Z) (n : nat) : outcome exn Z :=
  if roundRobin o then if (n =? 0)%nat then Undef else Ret ((cur + 1) mod Z.of_nat n) else Ret (pollerId o).

Definition lift {A} (o : outcome exn A) : AM A := fun s => (o, s).

(** [_rqstPollers.at(id)->enqueue(r)]. *)
Definition poller_enqueue (id : Z) (r : PmemRqst) : AM bool := fun s =>
  match _rqstPollers s !! Z.to_nat id with
  | None => (Throw out_of_range, s)
  | Some p => let b := enqueue r p in (Ret (fst b), set_rqstPollers (<[Z.to_nat id := snd b]> (_rqstPollers s)) s)
  end.

(** [new PmemRqst(op, key, keySize, value, valueSize, cb)] at the address [id]; [raw] is
    what its key buffer holds before. *)
Definition new_rqst (id : positive) (raw : list Z) (o : RqstOperation) (kp : positive) (ks : Z) (v : option positive)
    (vs : Z) (cb : C) : AM PmemRqst :=
  let! s := cget in lift (Rqst_init id raw (heap (kv s)) o kp ks v vs (Some cb) EMPTY).

(** The handlers of [OperationFailedException] call back; other exceptions leave the call. *)
Definition catch_failed (m : AM unit) (cb : C) (kp : positive) (ks : Z) (val : option (list Z)) : AM unit :=
  ccatch m (fun e => match e with OperationFailedException st => call_back cb st kp ks val | _ => cthrow e end).

Definition vptr_addr (v : option vptr) : option positive :=
  match v with Some (VPmem a) => Some a | Some (VHeap a) => Some a | _ => None end.

(** What a callback that is given the value [v] sees. *)
Definition value_seen (v : Value) : AM (option (list Z)) := fun s =>
  (Ret (match v_data v with
        | Some (VHeap a) => take (Z.to_nat (v_size v)) <$> heap (kv s) !! a
        | Some (VPmem a) => take (Z.to_nat (v_size v)) <$> KVStore.pmem (kv s) !! a
        | _ => None
        end), s).

(** The key as [Free] and [isLocalKey] see it. *)
Definition caller_key (kp : positive) (ks : Z) : AM Key := fun s =>
  match read_mem (heap (kv s)) kp ks with
  | Ret bytes => (Ret (mkKey bytes (Some kp) false), s)
  | Throw e => (Throw e, s)
  | Crash => (Crash, s)
  | Undef => (Undef, s)
  end.

Definition PutAsync (id : positive) (raw : list Z) (kp : positive) (ks : Z) (v : Value) (cb : C) (o : AsyncOptions) : AM unit :=
  if longTerm o then
    let! k := caller_key kp ks in
    on_kv (Free_value k v) ;;; on_kv (Free_key k) ;;; cthrow NotImplementedException
  else
    let! s := cget in
    let! pid := lift (next_poller o (put_pollerId s) (length (_rqstPollers s))) in
    cmod (fun s => mkAsyncStore (kv s) (_rqstPollers s) pid (get_pollerId s) (a_calls s)) ;;;
    let! val := value_seen v in
    catch_failed
      (let! msg := new_rqst id raw RPUT kp ks (vptr_addr (v_data v)) (v_size v) cb in
       let! ok := poller_enqueue pid msg in
       if ok then cret tt else cthrow QueueFullException)
      cb kp ks val.

(** [OffloadRqst::getPool.get()] and the like; the enqueueing of a finished request,
    which goes back to its pool when the queue is full. *)
Definition get_rqst : M exn OffloadFront OffloadRqst := fun f =>
  let r := rp_get (of_getPool f) in (Ret (fst r), mkOffloadFront (of_queue f) (snd r) (of_updatePool f)).
Definition update_rqst : M exn OffloadFront OffloadRqst := fun f =>
  let r := rp_get (of_updatePool f) in (Ret (fst r), mkOffloadFront (of_queue f) (of_getPool f) (snd r)).
Definition front_enqueue (r : OffloadRqst) : M exn OffloadFront bool := fun f =>
  let b := enqueue r (of_queue f) in (Ret (fst b), mkOffloadFront (snd b) (of_getPool f) (of_updatePool f)).
Definition put_get (r : OffloadRqst) : M exn OffloadFront unit :=
  cmod (fun f => mkOffloadFront (of_queue f) (rp_put r (of_getPool f)) (of_updatePool f)).
Definition put_update (r : OffloadRqst) : M exn OffloadFront unit :=
  cmod (fun f => mkOffloadFront (of_queue f) (of_getPool f) (rp_put r (of_updatePool f))).

Definition GetAsync (id : positive) (raw : list Z) (kp : positive) (ks : Z) (cb : C) (o : AsyncOptions) : AM unit :=
  let! k := caller_key kp ks in
  let! l := on_kv (is_local k) in
  if negb l then cthrow NotImplementedException
  else if longTerm o then
    let! s := cget in
    if negb (offloadEnabled (kv s)) then cthrow (OperationFailedException OFFLOAD_DISABLED_ERROR)
    else
      let! r := on_front get_rqst in
      catch_failed
        (let r := finalizeGet OGET (CallerKey kp) ks None 0 (Some cb) r in
         let! ok := on_front (front_enqueue r) in
         if ok then cret tt else on_front (put_get r) ;;; cthrow QueueFullException)
        cb kp ks None
  else
    let! s := cget in
    let! pid := lift (next_poller o (get_pollerId s) (length (_rqstPollers s))) in
    cmod (fun s => mkAsyncStore (kv s) (_rqstPollers s) (put_pollerId s) pid (a_calls s)) ;;;
    catch_failed
      (let! msg := new_rqst id raw RGET kp ks None 0 cb in
       let! ok := poller_enqueue pid msg in
       if ok then cret tt else cthrow QueueFullException)
      cb kp ks None.

(** [junk] is what the local variable [location] holds before it is set; the handler of
    all exceptions calls back and the code goes on. *)
Definition UpdateAsync (kp : positive) (ks : Z) (v : Value) (junk : LOCATIONS) (cb : C) (o : AsyncOptions) : AM unit :=
  if longTerm o then
    let! s := cget in
    if negb (offloadEnabled (kv s)) then cthrow (OperationFailedException OFFLOAD_DISABLED_ERROR)
    else
      let! k := caller_key kp ks in
      let! val := value_seen v in
      let! (a, n, loc) :=
        ccatch (on_kv (KVStore.on_tree (rt_Get (k_data k))))
          (fun _ => call_back cb KEY_NOT_FOUND kp ks val ;;; cret (vptr_addr (v_data v), v_size v, junk)) in
      let! r := on_front update_rqst in
      catch_failed
        (let! s := cget in
         let! r := lift (finalizeUpdate OUPDATE (heap (kv s)) kp ks a n (Some cb) loc r) in
         let! ok := on_front (front_enqueue r) in
         if ok then cret tt else on_front (put_update r) ;;; cthrow QueueFullException)
        cb kp ks None
  else cthrow NotImplementedException.

(** ** A round of poller [i]: [dequeue] and [process] on what the store has *)

Definition poller_of (s : AsyncStore) (p : @Poller PmemRqst R1) : @PmemPoller T C R1 R2 PO :=
  mkPmemPoller (dequeue DEQUEUE_RING_LIMIT p) (_spRtree (kv s)) (heap (kv s)) (KVStore.pmem (kv s))
    (if offloadEnabled (kv s) then Some (of_queue (_spOffloadPoller (kv s))) else None)
    (of_getPool (_spOffloadPoller (kv s))) (a_calls s) [].

Definition back_from (i : nat) (p : @PmemPoller T C R1 R2 PO) (s : AsyncStore) : AsyncStore :=
  let f := _spOffloadPoller (kv s) in
  let f := mkOffloadFront (match offloadPoller p with Some q => q | None => of_queue f end) (getPool p) (of_updatePool f) in
  let k := kv s in
  mkAsyncStore (mkKVStore (rtree p) (PmemPoller.pmem p) (callers p) (_spPKey k) f (_spDhtClient k) (_spDht k)
                  (offloadEnabled k) (_keySize k))
    (<[i := queue p]> (_rqstPollers s)) (put_pollerId s) (get_pollerId s) (calls p).

Definition poller_round (i : nat) : AM unit := fun s =>
  match _rqstPollers s !! i with
  | None => (Ret tt, s)
  | Some p => let r := process (poller_of s p) in (fst r, back_from i (snd r) s)
  end.
End Async.

(** ** What a call leads to *)

Section Theorems.
Context {T C R R1 R2 PO N : Type} `{RTreeEngine T} `{SpdkRing (list Z) R} `{SpdkRing (Rqst RqstOperation C) R1}
  `{SpdkRing (Rqst OffloadOperation C) R2} `{RqstPool C PO} `{StoreServices (@OffloadFront C R2 PO) N}.

#[local] Abbreviation state := (@AsyncStore T C R R1 R2 PO N).
#[local] Abbreviation PmemRqst := (Rqst RqstOperation C).
Implicit Types s : state.

(** The key of a caller can be read and fits into a request; it belongs to this node. *)
Record key_at (s : state) (kp : positive) (ks : Z) (k : list Z) : Prop := {
  ka_read : read_mem (heap (kv s)) kp ks = Ret k;
  ka_fits : ks <= keyBuffer_size;
  ka_local : isLocalKey (_spDht (kv s)) k = Ret true }.

(** The request that the constructor makes. *)
Definition made_rqst (id : positive) (raw k : list Z) (o : RqstOperation) (kp : positive) (ks : Z) (v : option positive)
    (vs : Z) (cb : C) : PmemRqst :=
  mkRqst id o (CallerKey kp) (k ++ drop (length k) raw) ks v vs (Some cb) EMPTY.

Lemma new_rqst_run id raw o kp ks v vs cb s k : key_at s kp ks k ->
  new_rqst id raw o kp ks v vs cb s = (Ret (made_rqst id raw k o kp ks v vs cb), s).
Proof.
  intros [Hr Hf _]. unfold new_rqst, cbind, cget, lift, Rqst_init, copy_key.
  destruct (Z.ltb_spec keyBuffer_size ks); [lia|]. by rewrite Hr.
Qed.

(** A request was handed to a poller. *)
Lemma poller_enqueue_inv pid r s b s' : poller_enqueue pid r s = (Ret b, s') ->
  exists p p', _rqstPollers s !! Z.to_nat pid = Some p /\ s' = set_rqstPollers (<[Z.to_nat pid := p']> (_rqstPollers s)) s /\
    ring_list (rqstRing p') = ring_list (rqstRing p) ++ (if b then [r] else []).
Proof.
  unfold poller_enqueue. destruct (_rqstPollers s !! Z.to_nat pid) as [p|]; [|done]. intros [= <- <-].
  exists p, (snd (enqueue r p)). split_and!; [done|done|]. change (_ =? 1) with (fst (enqueue r p)).
  destruct (enqueue_spec r p) as [(_ & E & El)|[_ E]]; rewrite E in *; cbn [fst snd] in *; [exact El|by rewrite app_nil_r].
Qed.

(** The part that [PutAsync] and [GetAsync] share. *)
Lemma submit_run id raw o kp ks v vs cb pid val s k : key_at s kp ks k ->
  catch_failed (let! msg := new_rqst id raw o kp ks v vs cb in
                let! ok := poller_enqueue pid msg in
                if ok then cret tt else cthrow QueueFullException) cb kp ks val s =
  match poller_enqueue pid (made_rqst id raw k o kp ks v vs cb) s with
  | (Ret true, s') => (Ret tt, s')
  | (Ret false, s') => (Throw QueueFullException, s')
  | (Throw e, s') => (Throw e, s')
  | (Crash, s') => (Crash, s')
  | (Undef, s') => (Undef, s')
  end.
Proof.
  intros Hk. unfold catch_failed, ccatch, cbind at 1. rewrite (new_rqst_run _ _ _ _ _ _ _ _ _ _ Hk). unfold cbind.
  unfold poller_enqueue. destruct (_rqstPollers s !! Z.to_nat pid) as [p|]; [|done]. by destruct (fst (enqueue _ p)).
Qed.

Lemma async_request id raw kp ks v cb o s k (put : bool) r s' :
  key_at s kp ks k -> longTerm o = false -> (0 < length (_rqstPollers s))%nat ->
  (if put then PutAsync id raw kp ks v cb o else GetAsync id raw kp ks cb o) s = (r, s') ->
  exists pid, next_poller o (if put then put_pollerId s else get_pollerId s) (length (_rqstPollers s)) = Ret pid /\
    kv s' = kv s /\ a_calls s' = a_calls s /\ length (_rqstPollers s') = length (_rqstPollers s) /\
    (forall i, i <> Z.to_nat pid -> _rqstPollers s' !! i = _rqstPollers s !! i) /\
    match _rqstPollers s !! Z.to_nat pid with
    | None => r = Throw out_of_range
    | Some p => exists p', _rqstPollers s' !! Z.to_nat pid = Some p' /\
        (r = Ret tt /\ (exists m, ring_list (rqstRing p') = ring_list (rqstRing p) ++ [m] /\ clb m = Some cb /\
           op m = (if put then RPUT else RGET) /\ key m = CallerKey kp /\ keySize m = ks /\ read_key (heap (kv s)) m = Ret k) \/
         r = Throw QueueFullException /\ ring_list (rqstRing p') = ring_list (rqstRing p))
    end.
Proof.
  intros Hk Hlt Hn E.
  assert (exists pid, next_poller o (if put then put_pollerId s else get_pollerId s) (length (_rqstPollers s)) = Ret pid) as [pid Hp].
  { unfold next_poller. destruct (roundRobin o); [|by eexists]. destruct (Nat.eqb_spec (length (_rqstPollers s)) 0); [lia|by eexists]. }
  exists pid. split; [exact Hp|].
  set (s1 := if put then mkAsyncStore (kv s) (_rqstPollers s) pid (get_pollerId s) (a_calls s)
             else mkAsyncStore (kv s) (_rqstPollers s) (put_pollerId s) pid (a_calls s)).
  assert (Hk1 : key_at s1 kp ks k) by (destruct Hk; by destruct put; split).
  set (vv := if put then vptr_addr (v_data v) else None). set (vz := if put then v_size v else 0).
  set (m := made_rqst id raw k (if put then RPUT else RGET) kp ks vv vz cb).
  assert (Em : (r, s') = match poller_enqueue pid m s1 with
    | (Ret true, s') => (Ret tt, s') | (Ret false, s') => (Throw QueueFullException, s')
    | (Throw e, s') => (Throw e, s') | (Crash, s') => (Crash, s') | (Undef, s') => (Undef, s') end).
  { rewrite <- E. destruct put.
    - unfold PutAsync. rewrite Hlt. unfold cbind at 1, cget, cbind at 1, lift. rewrite Hp. unfold cbind at 1, cmod.
      unfold cbind at 1, value_seen. apply submit_run. exact Hk1.
    - unfold GetAsync, cbind at 1, caller_key. rewrite (ka_read _ _ _ _ Hk). unfold cbind at 1, on_kv, czoom, is_local.
      cbn [k_data]. rewrite (ka_local _ _ _ _ Hk), Hlt. cbn [fst snd negb].
      unfold cbind at 1, cget, cbind at 1, lift. cbn [_rqstPollers get_pollerId]. rewrite Hp. unfold cbind at 1, cmod.
      cbn [kv]. rewrite (submit_run id raw RGET kp ks None 0 cb pid None _ k); [|exact Hk1]. by destruct s. }
  assert (Hs1 : _rqstPollers s1 = _rqstPollers s /\ kv s1 = kv s /\ a_calls s1 = a_calls s) by (by destruct put).
  destruct Hs1 as (Ep & Ek & Ec). destruct (poller_enqueue pid m s1) as [rr s2] eqn:Ee.
  destruct (_rqstPollers s !! Z.to_nat pid) as [p|] eqn:Elp.
  - assert (exists b, rr = Ret b) as [b ->] by (unfold poller_enqueue in Ee; rewrite Ep, Elp in Ee; injection Ee as <- _; by eexists).
    destruct (poller_enqueue_inv _ _ _ _ _ Ee) as (p0 & p' & Hp0 & -> & Hl). rewrite Ep, Elp in Hp0. injection Hp0 as <-.
    assert (s' = set_rqstPollers (<[Z.to_nat pid := p']> (_rqstPollers s1)) s1) as -> by (destruct b; by injection Em).
    cbn [kv a_calls _rqstPollers set_rqstPollers]. rewrite Ep, Ek, Ec, length_insert. split_and!; [done..| |].
    + intros i Hi. by rewrite list_lookup_insert_ne.
    + exists p'. split; [apply list_lookup_insert_eq; by eapply lookup_lt_Some|]. destruct b; injection Em as ->.
      * left. split; [done|]. exists m. split_and!; [exact Hl|done|done|done|done|]. exact (ka_read _ _ _ _ Hk).
      * right. split; [done|]. by rewrite app_nil_r in Hl.
  - unfold poller_enqueue in Ee. rewrite Ep, Elp in Ee. injection Ee as <- <-. injection Em as -> ->.
    rewrite Ep, Ek, Ec. by split_and!.
Qed.
(** C21. An asynchronous put or get leaves exactly one request.  A call that returns has
    appended one request with the callback to the queue of the poller that the options
    name; a call that throws because the queue is full has left all queues as they were.
    No callback is called by either. *)
Theorem async_one_request id raw kp ks v cb o s k (put : bool) r s' :
  key_at s kp ks k -> longTerm o = false -> (0 < length (_rqstPollers s))%nat ->
  (if put then PutAsync id raw kp ks v cb o else GetAsync id raw kp ks cb o) s = (r, s') ->
  exists pid, next_poller o (if put then put_pollerId s else get_pollerId s) (length (_rqstPollers s)) = Ret pid /\
    kv s' = kv s /\ a_calls s' = a_calls s /\ length (_rqstPollers s') = length (_rqstPollers s) /\
    (forall i, i <> Z.to_nat pid -> _rqstPollers s' !! i = _rqstPollers s !! i) /\
    match _rqstPollers s !! Z.to_nat pid with
    | None => r = Throw out_of_range
    | Some p => exists p', _rqstPollers s' !! Z.to_nat pid = Some p' /\
        (r = Ret tt /\ (exists m, ring_list (rqstRing p') = ring_list (rqstRing p) ++ [m] /\ clb m = Some cb /\
           op m = (if put then RPUT else RGET) /\ key m = CallerKey kp /\ keySize m = ks /\ read_key (heap (kv s)) m = Ret k) \/
         r = Throw QueueFullException /\ ring_list (rqstRing p') = ring_list (rqstRing p))
    end.
Proof. apply async_request. Qed.

(** The poller on a put and a get of the same key. *)
Lemma process_put_get (p : @PmemPoller T C R1 R2 PO) r1 r2 c1 c2 k a n v :
  rt_ok (rtree p) -> rt_key (T := T) k -> rt_slot (rtree p) k = Some (Some a, n) -> read_mem (PmemPoller.pmem p) a n = Ret v ->
  pending (queue p) = [r1; r2] -> op r1 = RPUT -> op r2 = RGET -> clb r1 = Some c1 -> clb r2 = Some c2 ->
  read_key (callers p) r1 = Ret k -> read_key (callers p) r2 = Ret k ->
  exists p', process p = (Ret tt, p') /\
    calls p' = calls p ++ [mkCall c1 OK (key r1) (keySize r1) None; mkCall c2 OK (key r2) (keySize r2) (Some v)].
Proof.
  intros Hok Hrk Hs Hv Hp Ho1 Ho2 Hc1 Hc2 Hk1 Hk2. unfold process.
  assert (0 < requestCount (queue p)).
  { unfold pending in Hp. apply (f_equal length) in Hp. rewrite length_take in Hp. cbn [length] in Hp. lia. }
  destruct (Z.ltb_spec 0 (requestCount (queue p))); [|lia]. rewrite Hp. cbn [process_loop].
  pose proof (rt_Put_slot (rtree p) k Hok Hrk) as HP. rewrite Hs in HP. destruct HP as (t' & Et & Hok' & Hview & _).
  set (p1 := mkPmemPoller (queue p) t' (callers p) (PmemPoller.pmem p) (offloadPoller p) (getPool p)
               (calls p ++ [mkCall c1 OK (key r1) (keySize r1) None]) (deleted p)).
  set (p1' := mkPmemPoller (queue p) t' (callers p) (PmemPoller.pmem p) (offloadPoller p) (getPool p) (calls p1) (deleted p ++ [rq_id r1])).
  assert (E1 : process_one r1 p = (Ret tt, p1)).
  { unfold process_one. rewrite Ho1. unfold _processPut, cbind at 1, ccatch, cbind at 1, request_key. rewrite Hk1.
    unfold cbind at 1, PmemPoller.on_tree, czoom. rewrite Et. cbn [fst snd]. unfold cret at 1, _rqstClb. rewrite Hc1. reflexivity. }
  set (p2 := mkPmemPoller (queue p) t' (callers p) (PmemPoller.pmem p) (offloadPoller p) (getPool p)
               (calls p1 ++ [mkCall c2 OK (key r2) (keySize r2) (Some v)]) (deleted p1')).
  assert (E2 : process_one r2 p1' = (Ret tt, p2)).
  { unfold process_one. rewrite Ho2. unfold _processGet, cbind at 1, ccatch, cbind at 1, request_key.
    change (callers p1') with (callers p). rewrite Hk2.
    unfold cbind at 1, PmemPoller.on_tree, czoom. change (rtree p1') with t'. rewrite (rt_Get_view t' k Hok' Hrk), Hview. cbn [fst snd].
    unfold cret at 1. cbn [vc_val vc_location vc_size]. rewrite bool_decide_eq_false_2 by done.
    unfold cbind at 1. cbn [PmemPoller.pmem p1']. rewrite Hv. unfold _rqstClb. rewrite Hc2. reflexivity. }
  unfold cbind at 1. rewrite (cbind_ret _ _ _ _ _ E1), (cbind_ret (delete_rqst r1) _ p1 tt p1' eq_refl), (cbind_ret _ _ _ _ _ E2). eexists. split; [reflexivity|].
  unfold p2, p1', p1. cbn [calls]. by rewrite <- app_assoc.
Qed.

(** C12. What was put asynchronously is what a get brings.  For a key whose value was
    allocated and written, a [PutAsync] and a [GetAsync] through the same idle poller, both
    accepted: the next round of the poller calls the first callback with [OK] and the
    second with [OK] and exactly the bytes of the value, in this order. *)
Theorem async_put_get id1 id2 raw1 raw2 kp ks v c1 c2 o s s1 s2 k i p a n bytes :
  key_at s kp ks k -> longTerm o = false -> roundRobin o = false -> pollerId o = Z.of_nat i ->
  _rqstPollers s !! i = Some p -> ring_list (A := PmemRqst) (rqstRing p) = [] ->
  rt_ok (_spRtree (kv s)) -> rt_key (T := T) k -> rt_slot (_spRtree (kv s)) k = Some (Some a, n) ->
  read_mem (KVStore.pmem (kv s)) a n = Ret bytes ->
  PutAsync id1 raw1 kp ks v c1 o s = (Ret tt, s1) -> GetAsync id2 raw2 kp ks c2 o s1 = (Ret tt, s2) ->
  exists s3, poller_round i s2 = (Ret tt, s3) /\
    a_calls s3 = a_calls s ++ [mkCall c1 OK (CallerKey kp) ks None; mkCall c2 OK (CallerKey kp) ks (Some bytes)].
Proof.
  intros Hk Hlt Hrr Hid Hp He Hok Hrk Hs Hv E1 E2.
  assert (Hn : (0 < length (_rqstPollers s))%nat) by (apply lookup_lt_Some in Hp; lia).
  destruct (async_request id1 raw1 kp ks v c1 o s k true _ _ Hk Hlt Hn E1) as (pid & Hpid & Ek1 & Ec1 & El1 & _ & Hq1).
  unfold next_poller in Hpid. rewrite Hrr, Hid in Hpid. injection Hpid as <-. rewrite Nat2Z.id, Hp in Hq1.
  destruct Hq1 as (p1 & Hp1 & [(_ & m1 & Hl1 & Hc1 & Ho1 & Hm1 & Hz1 & Hr1)|[? _]]); [|done]. rewrite He in Hl1.
  assert (Hk1 : key_at s1 kp ks k) by (destruct Hk; split; rewrite ?Ek1; done).
  destruct (async_request id2 raw2 kp ks v c2 o s1 k false _ _ Hk1 Hlt ltac:(lia) E2) as (pid & Hpid & Ek2 & Ec2 & _ & _ & Hq2).
  unfold next_poller in Hpid. rewrite Hrr, Hid in Hpid. injection Hpid as <-. rewrite Nat2Z.id, Hp1 in Hq2.
  destruct Hq2 as (p2 & Hp2 & [(_ & m2 & Hl2 & Hc2 & Ho2 & Hm2 & Hz2 & Hr2)|[? _]]); [|done]. rewrite Hl1 in Hl2.
  unfold poller_round. rewrite Hp2.
  destruct (process_put_get (poller_of s2 p2) m1 m2 c1 c2 k a n bytes) as (p' & E & Ecalls).
  - cbn [rtree poller_of]. by rewrite Ek2, Ek1.
  - done.
  - cbn [rtree poller_of]. by rewrite Ek2, Ek1.
  - cbn [PmemPoller.pmem poller_of]. by rewrite Ek2, Ek1.
  - cbn [queue poller_of]. destruct (dequeue_spec DEQUEUE_RING_LIMIT p2) as [Hpe _]. rewrite Hpe, Hl2. reflexivity.
  - done.
  - done.
  - done.
  - done.
  - cbn [callers poller_of]. by rewrite Ek2, Ek1.
  - cbn [callers poller_of]. rewrite Ek2. exact Hr2.
  - rewrite E. eexists. split; [reflexivity|]. cbn [back_from a_calls snd]. rewrite Ecalls, Hm1, Hm2, Hz1, Hz2.
    cbn [calls poller_of]. by rewrite Ec2, Ec1.
Qed.

(** An asynchronous update of a missing key is answered twice.  The callback is called
    with [KEY_NOT_FOUND], and then a request with the same callback and a location that
    was never set is handed to the offload poller, whose answer is the second call. *)
Theorem async_update_missing kp ks v junk cb o s k : key_at s kp ks k -> longTerm o = true -> offloadEnabled (kv s) = true ->
  rt_ok (_spRtree (kv s)) -> rt_key (T := T) k -> rt_view (_spRtree (kv s)) k = None ->
  (0 < ring_room (A := Rqst OffloadOperation C) (rqstRing (of_queue (_spOffloadPoller (kv s)))))%nat ->
  exists s' val m, UpdateAsync kp ks v junk cb o s = (Ret tt, s') /\
    a_calls s' = a_calls s ++ [mkCall cb KEY_NOT_FOUND (CallerKey kp) ks val] /\
    ring_list (rqstRing (of_queue (_spOffloadPoller (kv s')))) =
      ring_list (rqstRing (of_queue (_spOffloadPoller (kv s)))) ++ [m] /\
    op m = OUPDATE /\ clb m = Some cb /\ loc m = junk.
Proof.
  intros [Hr Hf _] Hlt Hen Hok Hrk Hv Hroom. unfold UpdateAsync. rewrite Hlt. unfold cbind at 1, cget. rewrite Hen. cbn [negb].
  unfold cbind at 1, caller_key. rewrite Hr. unfold cbind at 1, value_seen.
  assert (Et : on_kv (KVStore.on_tree (rt_Get k)) s = (Throw (OperationFailedException KEY_NOT_FOUND), s)).
  { unfold on_kv, KVStore.on_tree, czoom. rewrite (rt_Get_view _ k Hok Hrk), Hv. by destruct s as [[] ? ? ? ?]. }
  cbn [k_data]. erewrite cbind_ret; [|erewrite ccatch_throw by exact Et; reflexivity].
  unfold cbind at 1, on_front at 1, on_kv at 1, czoom. cbn [kv _spOffloadPoller].
  unfold update_rqst. cbn [fst snd]. destruct (rp_get (of_updatePool (_spOffloadPoller (kv s)))) as [r0 po] eqn:Eg. cbn [fst snd].
  unfold catch_failed, ccatch, cbind at 1, cget. unfold cbind at 1, lift, finalizeUpdate, copy_key.
  cbn [kv heap set_front]. destruct (Z.ltb_spec keyBuffer_size ks); [lia|]. rewrite Hr.
  set (m := mkRqst _ OUPDATE _ _ _ _ _ _ _). unfold cbind at 1, on_front, on_kv, czoom. cbn [kv _spOffloadPoller set_front].
  unfold front_enqueue. cbn [of_queue]. destruct (enqueue_spec m (of_queue (_spOffloadPoller (kv s)))) as [(_ & Ee & El)|[E0 _]]; [|lia].
  rewrite Ee in El |- *. cbn [fst snd]. eexists _, _, m. split; [reflexivity|]. cbn [a_calls kv _spOffloadPoller set_front of_queue]. by split_and!.
Qed.
End Theorems.

(** ** Concrete runs *)

Section Runs.
#[local] Existing Instance simple_pool.
#[local] Abbreviation Tree := (@ARTree (gset positive)).
#[local] Abbreviation Ring A := (list_ring A).
#[local] Instance async_tree : RTreeEngine Tree := artree_engine 1 1 1.
#[local] Instance async_rings (A : Type) : SpdkRing A (Ring A) := simple_ring A.
#[local] Instance async_pool : RqstPool nat (gset positive) := simple_rqst_pool nat.
#[local] Abbreviation Front := (@OffloadFront nat (Ring (Rqst OffloadOperation nat)) (gset positive)).
#[local] Instance async_services : StoreServices Front unit :=
  {| off_get := fun _ o => (NoReply, o); off_update := fun _ _ _ _ o => (NoReply, o); off_remove := fun _ o => (NoReply, o);
     cl_put := fun _ _ => cret tt; cl_get := fun _ => cthrow (OperationFailedException KEY_NOT_FOUND);
     cl_remove := fun _ => cret tt; cl_alloc := fun _ n => cret (mkValue (Some VMsg) n true);
     cl_allocKey := fun n => cret (mkKey (replicate (Z.to_nat n) 0) None true);
     cl_free_value := fun _ _ => cret tt; cl_free_key := fun _ => cret tt |}.

(** A store with two pollers; the caller's key is at the address 5, the value at 11. *)
Definition async_store : @AsyncStore Tree nat (Ring (list Z)) (Ring (Rqst RqstOperation nat))
    (Ring (Rqst OffloadOperation nat)) (gset positive) unit :=
  mkAsyncStore (mkKVStore run_alloc {[11%positive := replicate 100 7]} {[5%positive := key1]} (EBase run_pkeys)
      (mkOffloadFront (mkPoller (mkListRing [] 4) [] 0) ∅ ∅) tt run_dht true 8)
    [mkPoller (mkListRing [] 4) [] 0; mkPoller (mkListRing [] 4) [] 0] 0 0 [].
Definition async_value : Value := mkValue (Some (VPmem 11)) 100 true.
Definition raw32 : list Z := replicate 32 0.
Definition on_poller1 : AsyncOptions := mkAsyncOptions false false 1.

Lemma async_key : key_at async_store 5 8 key1.
Proof. split; [reflexivity|unfold keyBuffer_size; lia|reflexivity]. Qed.

Definition after_put := snd (PutAsync 1 raw32 5 8 async_value 42%nat on_poller1 async_store).
Definition after_get := snd (GetAsync 2 raw32 5 8 43%nat on_poller1 after_put).

Lemma async_one_request_witness : exists s' p', PutAsync 1 raw32 5 8 async_value 42%nat on_poller1 async_store = (Ret tt, s') /\
  _rqstPollers s' !! 1%nat = Some p' /\ length (ring_list (A := Rqst RqstOperation nat) (rqstRing p')) = 1%nat.
Proof.
  destruct (async_one_request 1 raw32 5 8 async_value 42%nat on_poller1 async_store key1 true (Ret tt) after_put async_key eq_refl)
    as (pid & Hp & _ & _ & _ & _ & Hq).
  - simpl. lia.
  - vm_compute. reflexivity.
  - injection Hp as <-. destruct Hq as (p' & Hp' & [(_ & m & Hl & _)|[Hf _]]); [|discriminate Hf].
    exists after_put, p'. split; [vm_compute; reflexivity|]. split; [exact Hp'|]. rewrite Hl. reflexivity.
Defined.

Lemma async_put_get_witness : exists s3, poller_round 1 after_get = (Ret tt, s3) /\
  a_calls s3 = [mkCall 42%nat OK (CallerKey 5) 8 None; mkCall 43%nat OK (CallerKey 5) 8 (Some (replicate 100 7))].
Proof.
  apply (async_put_get 1 2 raw32 raw32 5 8 async_value 42%nat 43%nat on_poller1 async_store after_put after_get key1 1
    (mkPoller (mkListRing [] 4) [] 0) 11 100 (replicate 100 7) async_key);
    [reflexivity|reflexivity|reflexivity|reflexivity|reflexivity|exact (reachable_inv 1 1 1 run_alloc run_alloc_reachable)
    |exact wf_key1|vm_compute; reflexivity..].
Defined.

(** The key is not in the tree. *)
Definition async_empty : @AsyncStore Tree nat (Ring (list Z)) (Ring (Rqst RqstOperation nat))
    (Ring (Rqst OffloadOperation nat)) (gset positive) unit :=
  mkAsyncStore (mkKVStore run_new ∅ {[5%positive := key1]} (EBase run_pkeys)
      (mkOffloadFront (mkPoller (mkListRing [] 4) [] 0) ∅ ∅) tt run_dht true 8) [] 0 0 [].

Lemma async_update_missing_witness : exists s' val m,
  UpdateAsync 5 8 (mkValue None 0 false) PMEM 42%nat (mkAsyncOptions true true 0) async_empty = (Ret tt, s') /\
  a_calls s' = [mkCall 42%nat KEY_NOT_FOUND (CallerKey 5) 8 val] /\
  ring_list (rqstRing (of_queue (_spOffloadPoller (kv s')))) = [m] /\ clb m = Some 42%nat.
Proof.
  destruct (async_update_missing 5 8 (mkValue None 0 false) PMEM 42%nat (mkAsyncOptions true true 0) async_empty key1)
    as (s' & val & m & E & Ec & Eq & _ & Hm & _).
  - split; [reflexivity|unfold keyBuffer_size; lia|reflexivity].
  - reflexivity.
  - reflexivity.
  - exact (reachable_inv 1 1 1 run_new run_new_reachable).
  - exact wf_key1.
  - vm_compute. reflexivity.
  - simpl. lia.
  - exists s', val, m. split; [exact E|]. split; [exact Ec|]. split; [exact Eq|exact Hm].
Defined.
End Runs.
