(* ===== verification/KVStoreThin.v ===== *)
(** * The store of a satellite node ([lib/thin/KVStoreThin], [KVStoreBase::Open])

    A satellite node has no tree: every call goes to the DHT client, except for the
    blocks that are made by [new].  The calls that only throw have no definition. *)

From S2P Require Import Prelude Status ARTree RTreeEngine Poller Rqst PrimaryKey DhtCore KVStore DhtRpc.

(** ** [KVStoreBase::Open] *)

Inductive OperationalMode : Type := STORAGE | SATELLITE.
Inductive store_kind : Type := StorageStore | ThinStoreKind.

(** The class that [Open] makes; the thin library has no [KVStore]. *)
Definition Open (thin_lib : bool) (mode : OperationalMode) : outcome exn store_kind :=
  match mode with
  | STORAGE => if thin_lib then Throw (OperationFailedException UNKNOWN_ERROR) else Ret StorageStore
  | SATELLITE => Ret ThinStoreKind
  end.

(** ** [class KVStoreThin] *)

(** The constructor: [raw] is what [_keySize] holds before it is set. *)
Definition thin_keySize (raw : Z) (k : KeyDescriptor) : Z :=
  let n := fold_left (fun n i => u64 (n + fsize (field i k))) (seq 0 (nfields k)) raw in
  if negb (n =? 0) then DEFAULT_KEY_SIZE else n.

Section Thin.
Context {W : Type} (remote : DhtNode -> ErpRequestType -> DaqdbDhtMsg -> W -> DaqdbDhtResult * W).

Record KVStoreThin : Type := mkKVStoreThin { t_client : @DhtClient W; t_heap : memory; t_keySize : Z }.

#[local] Abbreviation TM A := (M exn KVStoreThin A).

Definition t_on_client {A} (m : M exn (@DhtClient W) A) : TM A :=
  czoom t_client (fun c s => mkKVStoreThin c (t_heap s) (t_keySize s)) m.
Definition t_new (bytes : list Z) : TM positive := fun s =>
  let (a, h) := heap_new bytes (t_heap s) in (Ret a, mkKVStoreThin (t_client s) h (t_keySize s)).
Definition t_delete (p : option positive) : TM unit := fun s =>
  match p with
  | None => (Ret tt, s)
  | Some a => match t_heap s !! a with
              | Some _ => (Ret tt, mkKVStoreThin (t_client s) (delete a (t_heap s)) (t_keySize s))
              | None => (Undef, s)
              end
  end.

(** The bytes of a value: in a block, or in the message buffer behind the key. *)
Definition t_value (key : Key) (v : Value) : TM (list Z) := fun s =>
  match v_data v with
  | Some (VHeap a) => (read_mem (t_heap s) a (v_size v), s)
  | Some VMsg => (Ret (take (Z.to_nat (v_size v)) (drop (length (k_data key)) (msg (_reqMsgBuf (t_client s))))), s)
  | Some (VPmem _) => (Undef, s)
  | None => if v_size v =? 0 then (Ret [], s) else (Undef, s)
  end.

(** [clbGet] copies the response into a new block. *)
Definition thin_Get (key : Key) : TM Value :=
  let! bytes := t_on_client (get remote key) in
  let! a := t_new bytes in
  cret (mkValue (Some (VHeap a)) (Z.of_nat (length bytes)) false).

(** The frees are those of the client, whatever the key and the value are. *)
Definition thin_Put (key : Key) (val : Value) : TM unit :=
  ccatch
    (let! bytes := t_value key val in t_on_client (put remote key bytes))
    (fun e => t_on_client free_value ;;; t_on_client free_key ;;; cthrow e) ;;;
  t_on_client free_value ;;; t_on_client free_key.

Definition thin_GetAny : TM Key :=
  let! bytes := t_on_client (getAny remote) in
  let! a := t_new bytes in
  cret (mkKey bytes (Some a) false).

Definition thin_Remove (key : Key) : TM unit := t_on_client (remove remote key).

Definition thin_Alloc (key : Key) (size : Z) (kvsBuffered : bool) : TM Value :=
  if size =? 0 then cthrow (OperationFailedException EINVAL)
  else if kvsBuffered then t_on_client (alloc size)
  else let! a := t_new (replicate (Z.to_nat size) 0) in cret (mkValue (Some (VHeap a)) size false).

Definition thin_Free_value (value : Value) : TM unit :=
  if v_kvs value then t_on_client free_value
  else match v_data value with
       | None => cret tt
       | Some (VHeap a) => t_delete (Some a)
       | Some _ => cundef
       end.

Definition thin_AllocKey (kvsBuffered : bool) : TM Key :=
  let! s := cget in
  if kvsBuffered then t_on_client (allocKey (t_keySize s))
  else
    let bytes := replicate (Z.to_nat (t_keySize s)) 0 in
    let! a := t_new bytes in
    cret (mkKey bytes (Some a) false).

Definition thin_Free_key (key : Key) : TM unit :=
  if k_kvs key then t_on_client free_key else t_delete (k_block key).
End Thin.

(** ** A satellite node and a storage node *)

Section RoundTrip.
Context {T R O N : Type} `{RTreeEngine T} `{SpdkRing (list Z) R} `{StoreServices O N}.
#[local] Abbreviation store := (@KVStore T R O N).
Context (remote : DhtNode -> ErpRequestType -> DaqdbDhtMsg -> store -> DaqdbDhtResult * store).
#[local] Abbreviation thin := (@KVStoreThin store).
Implicit Types s : thin.

(** C14. A satellite node gets what it put.  A value in a block, put under a key that is
    routed to a storage node whose handler answers [OK], comes back from a [Get] in a new
    block with exactly its bytes. *)
Theorem thin_put_get s key a v host r w : delivers remote -> rt_ok (_spRtree (world (t_client s))) ->
  rt_key (T := T) (k_data key) -> k_kvs key = false -> t_heap s !! a = Some v ->
  getHostForKey (_dhtCore (t_client s)) (k_data key) = Ret host ->
  length (msg (_reqMsgBuf (t_client s))) = Z.to_nat (ERPC_MAX_REQUEST_SIZE - sizeof_DaqdbDhtMsg) ->
  sizeof_DaqdbDhtMsg + Z.of_nat (length (k_data key)) + Z.of_nat (length v) <= ERPC_MAX_REQUEST_SIZE ->
  serve ERP_REQUEST_PUT (mkMsg (Z.of_nat (length (k_data key))) (Z.of_nat (length v)) (k_data key ++ v)) (world (t_client s)) =
    (Ret r, w) -> status r = OK ->
  exists s1 b s2, thin_Put remote key (mkValue (Some (VHeap a)) (Z.of_nat (length v)) false) s = (Ret tt, s1) /\
    thin_Get remote key s1 = (Ret (mkValue (Some (VHeap b)) (Z.of_nat (length v)) false), s2) /\
    t_heap s2 = <[b := v]> (t_heap s) /\ (b ∉ dom (t_heap s)).
Proof.
  intros Hd Hok Hk Hkv Ha Hh Hbuf Hsz Hput Hst.
  destruct (remote_put_get remote (t_client s) key v host r w Hd Hok Hk Hkv Hh Hbuf Hsz Hput Hst) as (c1 & _ & E1 & _ & _ & Eg).
  destruct (Eg false false) as (c3 & E3).
  set (c2 := mkDhtClient _ _ _ _ _ _) in E3.
  exists (mkKVStoreThin c2 (t_heap s) (t_keySize s)), (fresh (dom (t_heap s))).
  exists (mkKVStoreThin c3 (<[fresh (dom (t_heap s)) := v]> (t_heap s)) (t_keySize s)). split_and!; [| |reflexivity|apply is_fresh].
  - unfold thin_Put, cbind at 1, ccatch, cbind at 1, t_value. cbn [v_data v_size]. unfold read_mem. rewrite Ha, Z.leb_refl, take_ge by lia.
    unfold t_on_client, czoom at 1. rewrite E1. reflexivity.
  - unfold thin_Get, cbind at 1, t_on_client, czoom. cbn [t_client]. rewrite E3. reflexivity.
Qed.

(** A put of one key frees the buffer of another.  After a key was allocated in the
    message buffer of the client, a put of a key in a block marks the buffer as free:
    the next allocation hands out the same bytes again, and the block is not deleted. *)
Theorem thin_put_frees_other s k1 s1 key val s2 : thin_AllocKey true s = (Ret k1, s1) ->
  thin_Put remote key val s1 = (Ret tt, s2) ->
  exists k2 s3, thin_AllocKey true s2 = (Ret k2, s3) /\ k_kvs k1 = true /\ k_kvs k2 = true /\ t_heap s2 = t_heap s1.
Proof.
  intros E1 E2.
  assert (Hks : t_keySize s2 = t_keySize s1 /\ _reqMsgBufInUse (t_client s2) = false /\ t_heap s2 = t_heap s1).
  { unfold thin_Put, cbind at 1 in E2. destruct (ccatch _ _ s1) as [o s0] eqn:E0.
    assert (K : t_keySize s0 = t_keySize s1 /\ t_heap s0 = t_heap s1).
    { unfold ccatch, cbind at 1 in E0. destruct (t_value key val s1) as [b sv] eqn:Ev.
      assert (sv = s1) as -> by (unfold t_value in Ev; repeat case_hyp; by injection Ev).
      destruct b as [b|e| |]; try (by injection E0 as <- <-).
      - unfold t_on_client, czoom in E0. destruct (put remote key b (t_client s1)) as [[[]|e| |] c]; by injection E0 as <- <-. }
    destruct o as [[]| | |]; try done. injection E2 as <-. by destruct K. }
  destruct Hks as (Ek & Eu & Eh). unfold thin_AllocKey, cbind, cget, t_on_client, czoom, allocKey in E1 |- *.
  destruct (_reqMsgBufInUse (t_client s)); [done|]. injection E1 as <- _.
  rewrite Eu. eexists _, _. split; [reflexivity|]. by split_and!.
Qed.
End RoundTrip.

(** The key size of a satellite is 16 bytes, whatever the layout of the keys is: only a
    layout that adds up to zero keeps its size. *)
Lemma thin_keySize_const raw k : thin_keySize raw k = DEFAULT_KEY_SIZE \/ thin_keySize raw k = 0.
Proof. unfold thin_keySize. set (n := fold_left _ _ raw). destruct (Z.eqb_spec n 0); [right|left]; done. Qed.

(** Satellites and storage nodes disagree on the size of keys: for every layout of
    keys that is not 16 bytes long, where a storage node uses the size of the layout. *)
Theorem thin_keySize_differs k : 0 < init_keySize k -> init_keySize k <> DEFAULT_KEY_SIZE ->
  thin_keySize 0 k <> init_keySize k.
Proof. intros Hp Hn E. destruct (thin_keySize_const 0 k) as [E'|E']; [congruence|]. lia. Qed.

(** ** Concrete runs *)

Section Runs.
#[local] Existing Instances simple_pool KVStore.run_tree KVStore.run_ring KVStore.run_services.

(** A satellite of the node of [DhtRpc], with a value in a block. *)
Definition run_thin := mkKVStoreThin run_client {[7%positive := [7; 8; 9]]} 16.

Lemma thin_put_get_witness : exists s1 b s2,
  thin_Put run_remote client_key (mkValue (Some (VHeap 7)) 3 false) run_thin = (Ret tt, s1) /\
  thin_Get run_remote client_key s1 = (Ret (mkValue (Some (VHeap b)) 3 false), s2) /\ t_heap s2 !! b = Some [7; 8; 9].
Proof.
  assert (Ea : serve ERP_REQUEST_PUT (mkMsg 8 3 (key1 ++ [7; 8; 9])) store0 = (Ret (mkResult OK 0 []), snd run_answer))
    by (vm_compute; reflexivity).
  destruct (thin_put_get run_remote run_thin client_key 7 [7; 8; 9] run_host (mkResult OK 0 []) (snd run_answer))
    as (s1 & b & s2 & E1 & E2 & Eh & _);
    [exact run_delivers|exact (reachable_inv 1 1 1 run_new run_new_reachable)|exact wf_key1|reflexivity|reflexivity|reflexivity
    |exact (length_replicate _ _)|vm_compute; discriminate|exact Ea|reflexivity|].
  exists s1, b, s2. split; [exact E1|]. split; [exact E2|]. rewrite Eh. apply lookup_insert_eq.
Defined.

(** The same with a small message buffer. *)
Definition small_thin := mkKVStoreThin (mkDhtClient (mkMsg 0 0 (replicate 64 0)) false false (_dhtCore run_client) 0 store0)
  {[7%positive := [7; 8; 9]]} 16.
Definition thin1 := snd (thin_AllocKey true small_thin).
Definition thin2 := snd (thin_Put run_remote client_key (mkValue (Some (VHeap 7)) 3 false) thin1).

Lemma thin_put_frees_other_witness : exists k2 s3, thin_AllocKey true thin2 = (Ret k2, s3) /\ k_kvs k2 = true.
Proof.
  destruct (thin_put_frees_other run_remote small_thin (mkKey (replicate 16 0) None true) thin1 client_key
    (mkValue (Some (VHeap 7)) 3 false) thin2) as (k2 & s3 & E & _ & Hk & _); [reflexivity|vm_compute; reflexivity|].
  exists k2, s3. split; [exact E|exact Hk].
Defined.

Lemma thin_keySize_differs_witness : thin_keySize 0 [mkField 8 true] <> init_keySize [mkField 8 true].
Proof. apply thin_keySize_differs; [reflexivity|discriminate]. Defined.
End Runs.
