(* ===== verification/Configuration.v ===== *)
(** * Reading the options ([lib/common/Configuration.cpp], [Options.h])

    [readConfiguration] fills the options from a configuration that libconfig has
    parsed.  A parsed configuration is data here: which settings it has, with their
    values.  [lookupValue] takes a setting of another type for a missing one, so such
    settings are not in the data; the entries of [keys_structure], [devices] and
    [neighbors] have the types that the code asks for, since another type throws. *)

From stdpp Require Import strings.
From S2P Require Import Prelude Status CString ARTree Poller PrimaryKey DhtCore SpdkConf KVStore KVStoreThin.

(** ** What libconfig found *)

(** An entry of [devices]: its name and the two settings that are looked up. *)
Record DeviceSetting : Type := mkDeviceSetting { ds_name : string; ds_addr : option string; ds_nvme : option string }.

(** An entry of [neighbors]; [nb_keys] are [keys.start] and [keys.end]. *)
Record NeighborSetting : Type := mkNeighborSetting {
  nb_ip : option string; nb_port : option Z; nb_start : option string; nb_end : option string; nb_local : option Z }.

(** The result of [readFile], and the settings by name. *)
Inductive read_result : Type := FileIOException | ParseException | Parsed.
Record Config : Type := mkConfig {
  cf_read : read_result; cf_string : string -> option string; cf_int : string -> option Z;
  keys_structure : option (list Z); cf_devices : option (list DeviceSetting); cf_neighbors : option (list NeighborSetting) }.

(** [struct Options], without the log functions. *)
Record Options : Type := mkOptions {
  poolPath : string; totalSize : Z; pmem_allocUnitSize : Z; opt_key : KeyDescriptor; mode : OperationalMode;
  baseCoreId : Z; offload : OffloadOptions; dht : DhtOptions; numOfDhtThreads : Z; baseDhtId : Z }.

Definition Options_init : Options :=
  mkOptions "" 0 0 [] STORAGE 0 OffloadOptions_init (mkDhtOptions [] 0 0) 1 0.

(** ** Steps of [readConfiguration] *)

(** [options.key.field(n, keysStructure[n], n == 0)] for each entry; an [int] becomes a
    [size_t]. *)
Fixpoint read_keys (n : nat) (l : list Z) (k : KeyDescriptor) : KeyDescriptor :=
  match l with
  | [] => k
  | x :: l => read_keys (S n) l (field_set n (u64 x) (n =? 0)%nat k)
  end.

Definition default_to {A} (x : A) (o : option A) : A := match o with Some y => y | None => x end.

Definition read_pmem (c : Config) (o : Options) : Options :=
  mkOptions (default_to (poolPath o) (cf_string c "pmem_path"))
    (default_to (totalSize o) (u64 <$> cf_int c "pmem_size"))
    (default_to (pmem_allocUnitSize o) (u64 <$> cf_int c "alloc_unit_size"))
    (opt_key o) (mode o) (baseCoreId o) (offload o) (dht o) (numOfDhtThreads o) (baseDhtId o).

Definition read_key_structure (c : Config) (o : Options) : Options :=
  mkOptions (poolPath o) (totalSize o) (pmem_allocUnitSize o)
    (match keys_structure c with Some l => read_keys 0 l (opt_key o) | None => opt_key o end)
    (mode o) (baseCoreId o) (offload o) (dht o) (numOfDhtThreads o) (baseDhtId o).

(** The mode and [runtime_base_core_id], which is cut to an [unsigned short]. *)
Definition read_mode (c : Config) (o : Options) : Options :=
  mkOptions (poolPath o) (totalSize o) (pmem_allocUnitSize o) (opt_key o)
    (if bool_decide (cf_string c "mode" = Some "satellite") then SATELLITE else STORAGE)
    (default_to (baseCoreId o) (u16 <$> cf_int c "runtime_base_core_id"))
    (offload o) (dht o) (numOfDhtThreads o) (baseDhtId o).

Definition set_offload (f : OffloadOptions) (o : Options) : Options :=
  mkOptions (poolPath o) (totalSize o) (pmem_allocUnitSize o) (opt_key o) (mode o) (baseCoreId o) f (dht o)
    (numOfDhtThreads o) (baseDhtId o).

Definition push_dev (d : OffloadDevDescriptor) (f : OffloadOptions) : OffloadOptions :=
  mkOffloadOptions (devType f) (oname f) (o_allocUnitSize f) (raid0StripeSize f) (_devs f ++ [d]).

(** The loop over [devices]: the descriptor [d] is kept from one entry to the next, and
    an entry without one of the settings is left out. *)
Fixpoint read_devices (l : list DeviceSetting) (d : OffloadDevDescriptor) (f : OffloadOptions) : OffloadOptions :=
  match l with
  | [] => f
  | x :: l =>
      match ds_addr x with
      | None => read_devices l (mkDevDescriptor (ds_name x) (nvmeAddr d) (nvmeName d)) f
      | Some a =>
          match ds_nvme x with
          | None => read_devices l (mkDevDescriptor (ds_name x) a (nvmeName d)) f
          | Some n =>
              let d := mkDevDescriptor (ds_name x) a n in read_devices l d (push_dev d f)
          end
      end
  end.

Definition dev_type_of (s : option string) : option OffloadDevType :=
  if bool_decide (s = Some "bdev") then Some BDEV
  else if bool_decide (s = Some "jbod") then Some JBOD
  else if bool_decide (s = Some "raid0") then Some RAID0 else None.

Definition no_desc : OffloadDevDescriptor := mkDevDescriptor "" "" "".

(** The part for a device type that was found; false is the early return. *)
Definition read_dev_type (c : Config) (ty : OffloadDevType) (f : OffloadOptions) : outcome exn (bool * OffloadOptions) :=
  let f := mkOffloadOptions ty (default_to "anonymous" (cf_string c "offload_dev_name")) (o_allocUnitSize f)
             (raid0StripeSize f) (_devs f) in
  match ty with
  | BDEV =>
      match cf_string c "offload_nvme_addr", cf_string c "offload_nvme_name" with
      | Some a, Some n => Ret (true, push_dev (mkDevDescriptor "" a n) f)
      | _, _ => Ret (false, f)
      end
  | JBOD | RAID0 =>
      match cf_devices c with
      | None => Throw SettingNotFoundException
      | Some l =>
          let f := read_devices l no_desc f in
          match _devs f with
          | [] => Ret (false, f)
          | _ :: _ =>
              Ret (true,
                   if bool_decide (ty = RAID0)
                   then mkOffloadOptions ty (oname f) (o_allocUnitSize f)
                          (default_to (raid0StripeSize f) (u64 <$> cf_int c "offload_raid0_stripe_size")) (_devs f)
                   else f)
          end
      end
  end.

Definition read_offload (c : Config) (o : Options) : outcome exn (bool * Options) :=
  let f := offload o in
  let f := mkOffloadOptions (devType f) (oname f)
             (default_to (o_allocUnitSize f) (u64 <$> cf_int c "offload_unit_alloc_size")) (raid0StripeSize f) (_devs f) in
  match mode o with
  | SATELLITE => Ret (true, set_offload f o)
  | STORAGE =>
      match dev_type_of (cf_string c "offload_dev_type") with
      | None => Ret (true, set_offload f o)
      | Some ty =>
          match read_dev_type c ty f with
          | Ret (b, f) => Ret (b, set_offload f o)
          | Throw e => Throw e
          | Crash => Crash
          | Undef => Undef
          end
      end
  end.

(** An entry of [neighbors]: [None] when a setting that must be there is missing, which
    ends the loop. *)
Definition read_neighbor (x : NeighborSetting) : option DhtNeighbor :=
  match nb_ip x, nb_port x with
  | Some ip, Some port =>
      let (st, en) := match nb_start x, nb_end x with
                      | Some s, Some e => (s, e)
                      | _, _ => (""%string, ""%string)
                      end in
      Some (mkDhtNeighbor ip (u16 port) st en (match nb_local x with Some l => 0 <? u32 l | None => false end))
  | _, _ => None
  end.

Fixpoint read_neighbors (l : list NeighborSetting) (ns : list DhtNeighbor) : list DhtNeighbor :=
  match l with
  | [] => ns
  | x :: l => match read_neighbor x with Some n => read_neighbors l (ns ++ [n]) | None => ns end
  end.

Definition read_dht (c : Config) (o : Options) : Options :=
  mkOptions (poolPath o) (totalSize o) (pmem_allocUnitSize o) (opt_key o) (mode o) (baseCoreId o) (offload o)
    (mkDhtOptions (match cf_neighbors c with Some l => read_neighbors l (neighbors (dht o)) | None => neighbors (dht o) end)
       (default_to (maskLength (dht o)) (u32 <$> cf_int c "dht_key_mask_length"))
       (default_to (maskOffset (dht o)) (u32 <$> cf_int c "dht_key_mask_offset")))
    (default_to (numOfDhtThreads o) (u16 <$> cf_int c "runtime_dht_threads"))
    (default_to (baseDhtId o) (u16 <$> cf_int c "runtime_base_dht_id")).

Definition readConfiguration (c : Config) (o : Options) : outcome exn (bool * Options) :=
  match cf_read c with
  | FileIOException | ParseException => Ret (false, o)
  | Parsed =>
      match read_offload c (read_mode c (read_key_structure c (read_pmem c o))) with
      | Ret (true, o) => Ret (true, read_dht c o)
      | r => r
      end
  end.

(** ** What is read *)

(** The layout of keys as the configuration lists it: the first field is the primary one. *)
Definition layout (l : list Z) : KeyDescriptor :=
  match l with [] => [] | x :: l => mkField x true :: map (fun y => mkField y false) l end.

Lemma field_set_end k x b : field_set (length k) x b k = k ++ [mkField x b].
Proof.
  unfold field_set, nfields. rewrite Nat.leb_refl. replace (length k + 1 - length k)%nat with 1%nat by lia. cbn [replicate].
  rewrite insert_app_r_alt by lia. by rewrite Nat.sub_diag.
Qed.

Lemma read_keys_tail l k : k <> [] ->
  read_keys (length k) l k = k ++ map (fun y => mkField (u64 y) false) l.
Proof.
  revert k. induction l as [|x l IH]; intros k Hk; cbn [read_keys map]; [by rewrite app_nil_r|].
  rewrite field_set_end. destruct (Nat.eqb_spec (length k) 0) as [E|_]; [by destruct k|].
  specialize (IH (k ++ [mkField (u64 x) false])). rewrite length_app, Nat.add_1_r in IH.
  rewrite IH by (by destruct k). by rewrite <- app_assoc.
Qed.

Lemma read_keys_layout l : read_keys 0 l [] = layout (map u64 l).
Proof.
  destruct l as [|x l]; [done|]. cbn [read_keys map layout]. rewrite map_map.
  apply (read_keys_tail l [mkField (u64 x) true]). done.
Qed.

(** Sums of field sizes, as the sizes of keys are computed. *)
Lemma field_lookup k i f : k !! i = Some f -> field i k = f.
Proof.
  intros E. pose proof (lookup_lt_Some _ _ _ E). unfold field, nfields. destruct (Nat.leb_spec (length k) i); [lia|].
  by apply nth_lookup_Some.
Qed.

Lemma fold_fields {A} (g : A -> KeyFieldDescriptor -> A) k a :
  fold_left (fun a i => g a (field i k)) (seq 0 (nfields k)) a = fold_left g k a.
Proof.
  unfold nfields.
  enough (G : forall k2 k1 a, k = k1 ++ k2 ->
    fold_left (fun a i => g a (field i k)) (seq (length k1) (length k2)) a = fold_left g k2 a) by (by apply (G k [])).
  induction k2 as [|f k2 IH]; intros k1 b E; [done|]. cbn [length seq fold_left].
  rewrite (field_lookup k (length k1) f) by (rewrite E; by apply list_lookup_middle).
  specialize (IH (k1 ++ [f])). rewrite length_app, Nat.add_1_r in IH. apply IH. by rewrite <- app_assoc.
Qed.

Lemma fold_sizes (w : Z -> Z) (B : Z) k a : (forall z, 0 <= z < B -> w z = z) -> Forall (fun f => 0 <= fsize f) k -> 0 <= a ->
  a + foldr (fun f n => fsize f + n) 0 k < B ->
  fold_left (fun n f => w (n + fsize f)) k a = a + foldr (fun f n => fsize f + n) 0 k.
Proof.
  intros Hw Hk. revert a. induction Hk as [|f k Hf Hk IH]; intros a Ha Hb; cbn [fold_left foldr] in *; [lia|].
  assert (0 <= foldr (fun f n => fsize f + n) 0 k) by (clear - Hk; induction Hk; cbn; lia).
  rewrite Hw by lia. rewrite IH by lia. lia.
Qed.

Definition total (l : list Z) : Z := foldr Z.add 0 l.

Lemma total_fields l : foldr (fun f n => fsize f + n) 0 (layout l) = total l.
Proof.
  destruct l as [|x l]; [done|]. unfold total. cbn [layout foldr fsize]. f_equal. by induction l as [|y l IH]; cbn; [|rewrite IH].
Qed.

Lemma layout_nonneg l : Forall (fun x => 0 <= x) l -> Forall (fun f => 0 <= fsize f) (layout l).
Proof. destruct 1 as [|x l Hx Hl]; [done|]. constructor; [done|]. by apply Forall_map. Qed.

Lemma total_nonneg l : Forall (fun x => 0 <= x) l -> 0 <= total l.
Proof. unfold total. induction 1; cbn; lia. Qed.

(** The loop of [PrimaryKeyBase] over a layout that was read. *)
Lemma add_fields_rest l a ps po : Forall (fun x => 0 <= x) l -> 0 <= a -> a + total l < 2 ^ 31 ->
  fold_left (fun s f => let '(ks, ps, po) := s in
               if isPrimary f then (s32 (ks + fsize f), s32 (fsize f), ks) else (s32 (ks + fsize f), ps, po))
    (map (fun y => mkField y false) l) (a, ps, po) = (a + total l, ps, po).
Proof.
  intros Hl. revert a. induction Hl as [|x l Hx Hl IH]; intros a Ha Hb; unfold total in *; cbn [map fold_left foldr] in *.
  - by rewrite Z.add_0_r.
  - pose proof (total_nonneg l Hl) as Ht. unfold total in Ht. cbn [isPrimary fsize]. rewrite swrap_id by lia.
    rewrite IH by lia. f_equal. f_equal. lia.
Qed.

Lemma PrimaryKeyBase_layout l id n : Forall (fun x => 0 <= x) l -> total l < 2 ^ 31 ->
  PrimaryKeyBase_init (layout l) id n =
  if 8 <? hd 0 l then Throw (OperationFailedException (errnum NOT_SUPPORTED))
  else Ret (mkPrimaryKeyBase (total l) (hd 0 l) 0 (u32 id) (u32 n)).
Proof.
  intros Hl Ht. unfold PrimaryKeyBase_init, add_field.
  rewrite (fold_fields (fun s f => let '(ks, ps, po) := s in
    if isPrimary f then (s32 (ks + fsize f), s32 (fsize f), ks) else (s32 (ks + fsize f), ps, po))).
  destruct Hl as [|x l Hx Hl]; [done|]. unfold total in *. cbn [layout fold_left foldr isPrimary fsize hd] in *.
  pose proof (total_nonneg l Hl) as Hn. unfold total in Hn. rewrite !swrap_id by lia. rewrite add_fields_rest by (unfold total; lia || done).
  rewrite uwrap_id by lia. by rewrite Z.add_0_l.
Qed.

(** The steps behind the key layout do not change it. *)
Lemma read_offload_key c o b o' : read_offload c o = Ret (b, o') -> opt_key o' = opt_key o.
Proof. unfold read_offload. intros E. repeat case_hyp; by simplify_eq. Qed.

Lemma readConfiguration_key c o b o' : cf_read c = Parsed -> readConfiguration c o = Ret (b, o') ->
  opt_key o' = opt_key (read_key_structure c o).
Proof.
  unfold readConfiguration. intros -> E. destruct (read_offload _ _) as [[b1 o1]| | |] eqn:Er; [|done..].
  apply read_offload_key in Er. cbn in Er. destruct b1; injection E as <- <-; exact Er.
Qed.

(** The layout of keys that is read is the configured one, and all parts of the store
    agree on it.  With sizes that are not negative and add up to less than 2^31, the first
    field is the primary one; the size of the descriptor, the size that the store uses and
    the size that the primary key engine uses are the sum; the primary part is the first
    field at offset 0, and the engine refuses it when it is longer than 8 bytes. *)
Theorem conf_key_layout c o b o' l id n : cf_read c = Parsed -> keys_structure c = Some l -> opt_key o = [] ->
  Forall (fun x => 0 <= x) l -> 0 < total l < 2 ^ 31 -> readConfiguration c o = Ret (b, o') ->
  opt_key o' = layout l /\ key_size (opt_key o') = total l /\ init_keySize (opt_key o') = total l /\
  PrimaryKeyBase_init (opt_key o') id n =
    (if 8 <? hd 0 l then Throw (OperationFailedException (errnum NOT_SUPPORTED))
     else Ret (mkPrimaryKeyBase (total l) (hd 0 l) 0 (u32 id) (u32 n))).
Proof.
  intros Hc Hl Ho Hn Ht E. assert (Ek : opt_key o' = layout l).
  { rewrite (readConfiguration_key _ _ _ _ Hc E). unfold read_key_structure. cbn [opt_key]. rewrite Hl, Ho, read_keys_layout. f_equal.
    destruct Ht as [_ Ht]. clear - Hn Ht. unfold total in Ht. induction Hn as [|x l Hx Hn IH]; [done|]. cbn in Ht |- *.
    pose proof (total_nonneg l Hn) as H0. unfold total in H0. rewrite uwrap_id by lia. f_equal. apply IH. lia. }
  assert (Hs : fold_left (fun s f => u64 (s + fsize f)) (layout l) 0 = total l).
  { rewrite (fold_sizes u64 (2 ^ 64)); rewrite ?total_fields; [done| |by apply layout_nonneg|lia|lia].
    intros z Hz. by apply uwrap_id. }
  rewrite Ek. split; [done|]. split; [exact Hs|]. split; [|apply PrimaryKeyBase_layout; [done|lia]].
  unfold init_keySize. rewrite (fold_fields (fun n f => u64 (n + fsize f))), Hs. destruct (Z.eqb_spec (total l) 0); [lia|done].
Qed.

(** What an entry of [devices] stands for by itself. *)
Definition device_of (x : DeviceSetting) : option OffloadDevDescriptor :=
  match ds_addr x, ds_nvme x with Some a, Some n => Some (mkDevDescriptor (ds_name x) a n) | _, _ => None end.

Lemma read_devices_app l d f :
  read_devices l d f = mkOffloadOptions (devType f) (oname f) (o_allocUnitSize f) (raid0StripeSize f) (_devs f ++ omap device_of l).
Proof.
  revert d f. induction l as [|x l IH]; intros d f; cbn [read_devices].
  - rewrite app_nil_r. by destruct f.
  - change (omap device_of (x :: l)) with (match device_of x with Some y => y :: omap device_of l | None => omap device_of l end).
    unfold device_of at 1. destruct (ds_addr x), (ds_nvme x); rewrite IH; cbn; rewrite <- ?app_assoc; reflexivity.
Qed.

(** The loop over the devices does what a filter does.  Although one descriptor is
    kept from entry to entry, so that an entry without a name leaves its address behind,
    the devices of a JBOD or RAID0 are exactly those of the entries that have both
    settings, in their order; the reading fails when there are none. *)
Theorem conf_devices_filter c ty f l : ty <> BDEV -> cf_devices c = Some l -> _devs f = [] ->
  exists f', read_dev_type c ty f = Ret (negb (bool_decide (omap device_of l = [])), f') /\
    devType f' = ty /\ _devs f' = omap device_of l /\ o_allocUnitSize f' = o_allocUnitSize f /\
    oname f' = default_to "anonymous"%string (cf_string c "offload_dev_name") /\
    raid0StripeSize f' = (if bool_decide (ty = RAID0) then if bool_decide (omap device_of l = []) then raid0StripeSize f
      else default_to (raid0StripeSize f) (u64 <$> cf_int c "offload_raid0_stripe_size") else raid0StripeSize f).
Proof.
  intros Hty Hd Hf. unfold read_dev_type. destruct ty; [done| |]; rewrite Hd, read_devices_app; cbn [_devs]; rewrite Hf; cbn [app];
    destruct (omap device_of l) as [|x l']; eexists; split_and!; reflexivity.
Qed.

(** ** Neighbours *)

Lemma read_neighbors_stop l1 x l2 ms ns : map read_neighbor l1 = map Some ms -> read_neighbor x = None ->
  read_neighbors (l1 ++ x :: l2) ns = ns ++ ms.
Proof.
  intros E1 Hx. revert ms ns E1. induction l1 as [|y l1 IH]; intros ms ns E1; destruct ms as [|m ms]; try done; cbn.
  - by rewrite Hx, app_nil_r.
  - injection E1 as -> E1. rewrite (IH ms _ E1). by rewrite <- app_assoc.
Qed.

(** Reading stops at the first neighbour without an address or a port, without an
    error: for a configuration that can be read, the nodes of the DHT are those of the
    entries before it, and [readConfiguration] answers true. *)
Theorem conf_neighbors_dropped c o l1 x l2 ms : cf_read c = Parsed -> cf_string c "mode" = Some "satellite"%string ->
  cf_neighbors c = Some (l1 ++ x :: l2) -> map read_neighbor l1 = map Some ms -> read_neighbor x = None ->
  neighbors (dht o) = [] ->
  exists o', readConfiguration c o = Ret (true, o') /\ neighbors (dht o') = ms.
Proof.
  intros Hc Hm Hn H1 Hx Ho. unfold readConfiguration. rewrite Hc. unfold read_offload, read_mode. rewrite Hm. cbn [mode].
  rewrite bool_decide_true by done. eexists. split; [reflexivity|]. unfold read_dht, set_offload. cbn. rewrite Hn, Ho.
  exact (read_neighbors_stop l1 x l2 ms [] H1 Hx).
Qed.

(** ** Concrete configurations *)

(** A satellite with keys of 8, 2 and 6 bytes and a neighbour without a port. *)
Definition conf_satellite : Config :=
  mkConfig Parsed (fun s => if bool_decide (s = "mode") then Some "satellite" else None)%string (fun _ => None)
    (Some [8; 2; 6]) None
    (Some [mkNeighborSetting (Some "10.0.0.1"%string) (Some 31850) None None (Some 1);
           mkNeighborSetting (Some "10.0.0.2"%string) None None None None;
           mkNeighborSetting (Some "10.0.0.3"%string) (Some 31850) None None None]).
Definition conf_self : DhtNeighbor := mkDhtNeighbor "10.0.0.1" 31850 "" "" true.

Lemma conf_key_layout_witness : exists b o', readConfiguration conf_satellite Options_init = Ret (b, o') /\
  init_keySize (opt_key o') = 16 /\ PrimaryKeyBase_init (opt_key o') 0 1 = Ret (mkPrimaryKeyBase 16 8 0 0 1).
Proof.
  destruct (readConfiguration conf_satellite Options_init) as [[b o']| | |] eqn:E; [|vm_compute in E; discriminate..].
  exists b, o'. split; [reflexivity|].
  destruct (conf_key_layout conf_satellite Options_init b o' [8; 2; 6] 0 1) as (_ & _ & Es & Ep);
    [reflexivity|reflexivity|reflexivity|repeat constructor; lia|vm_compute; split; reflexivity|exact E|].
  split; [exact Es|exact Ep].
Defined.

(** A JBOD whose second entry has no name. *)
Definition conf_jbod : Config :=
  mkConfig Parsed (fun _ => None) (fun _ => None) None
    (Some [mkDeviceSetting "d0" (Some "0000:01:00.0") (Some "nvme0"); mkDeviceSetting "d1" (Some "0000:02:00.0") None;
           mkDeviceSetting "d2" (Some "0000:03:00.0") (Some "nvme2")])%string None.

Lemma conf_devices_filter_witness : exists f', read_dev_type conf_jbod JBOD OffloadOptions_init = Ret (true, f') /\
  _devs f' = [mkDevDescriptor "d0" "0000:01:00.0" "nvme0"; mkDevDescriptor "d2" "0000:03:00.0" "nvme2"]%string.
Proof.
  destruct (conf_devices_filter conf_jbod JBOD OffloadOptions_init (default [] (cf_devices conf_jbod))) as (f' & E & _ & Ed & _);
    [discriminate|reflexivity|reflexivity|].
  exists f'. split; [exact E|exact Ed].
Defined.

Lemma conf_neighbors_dropped_witness : exists o', readConfiguration conf_satellite Options_init = Ret (true, o') /\
  neighbors (dht o') = [conf_self].
Proof.
  apply (conf_neighbors_dropped conf_satellite Options_init
           [mkNeighborSetting (Some "10.0.0.1"%string) (Some 31850) None None (Some 1)]
           (mkNeighborSetting (Some "10.0.0.2"%string) None None None None)
           [mkNeighborSetting (Some "10.0.0.3"%string) (Some 31850) None None None] [conf_self]); reflexivity.
Defined.
