(* ===== verification/KVStoreBase.v ===== *)
(** * The interface of stores ([include/daqdb/KVStoreBase.h])

    Applications call a store through the virtual class [KVStoreBase].  Here it is a type
    class of the calls that the benchmark makes, with the accesses to the memory of keys
    and values that the caller makes itself.  [KVStore] implements it; that it is a map is
    the law class [KVStoreMap]. *)

From S2P Require Import Prelude Status ARTree RTreeEngine Poller Rqst PmemPoller PrimaryKey DhtCore KVStore KVMap KVAsync.

(** Keys are allocated in a message buffer or in a block ([KVS_BUFFERED]); values are
    allocated with the default options; [UpdateAsync] is the call with [LONG_TERM] and a
    callback that counts.  The last three are not calls of the interface: they are the
    accesses of its user to the bytes of keys and values. *)
Class KVStoreBase (S : Type) : Type := {
  kb_AllocKey : bool -> M exn S Key;
  kb_GetAny : bool -> M exn S Key;
  kb_Alloc : Key -> Z -> M exn S Value;
  kb_Get : Key -> M exn S Value;
  kb_Put : Key -> Value -> M exn S unit;
  kb_PutAsync : Key -> Value -> M exn S unit;
  kb_Remove : Key -> M exn S unit;
  kb_UpdateAsync : Key -> M exn S unit;
  kb_Free_value : Key -> Value -> M exn S unit;
  kb_Free_key : Key -> M exn S unit;
  kb_setKey : Key -> list Z -> M exn S Key;
  kb_write : Value -> list Z -> M exn S unit;
  kb_read : Value -> M exn S (list Z) }.

(** A store that is a map, by the specification of [KVMap]: [kb_sim] relates it to the
    specification, for the keys that are [kb_key].  The calls that only concern the memory
    of keys and values keep the relation. *)
Class KVStoreMap (S : Type) `{KVStoreBase S} : Type := {
  kb_sim : S -> map_spec -> Prop;
  kb_key : list Z -> Prop;
  kb_keySize : S -> Z;
  kb_AllocKey_block : forall s ms, kb_sim s ms -> exists a s', kb_AllocKey false s =
    (Ret (mkKey (replicate (Z.to_nat (kb_keySize s)) 0) (Some a) false), s') /\ kb_sim s' ms /\ kb_keySize s' = kb_keySize s;
  kb_setKey_keeps : forall s ms key l, kb_sim s ms -> exists s',
    kb_setKey key l s = (Ret (mkKey l (k_block key) (k_kvs key)), s') /\ kb_sim s' ms /\ kb_keySize s' = kb_keySize s;
  kb_Alloc_sim : forall s ms key size, kb_sim s ms -> kb_key (k_data key) -> exists r s', kb_Alloc key size s = (r, s') /\
    kb_keySize s' = kb_keySize s /\
    match r with
    | Ret v => exists a, v = held (mkPending a size None) /\ spec_step ms (CAlloc key size) (Ret (RAddr a)) (book ms (CAlloc key size) (Ret (RAddr a))) /\
        kb_sim s' (book ms (CAlloc key size) (Ret (RAddr a)))
    | Throw e => e = OperationFailedException PMEM_ALLOCATION_ERROR /\ kb_sim s' (book ms (CAlloc key size) (Throw e))
    | _ => False
    end;
  kb_write_sim : forall s ms key e bytes, kb_sim s ms -> ms_pending ms !! k_data key = Some e ->
    Z.of_nat (length bytes) = pe_size e -> exists s', kb_write (held e) bytes s = (Ret tt, s') /\
    kb_sim s' (book ms (CWrite key bytes) (Ret RDone)) /\ kb_keySize s' = kb_keySize s;
  kb_read_held : forall s ms key e bytes, kb_sim s ms -> ms_pending ms !! k_data key = Some e -> pe_bytes e = Some bytes ->
    kb_read (held e) s = (Ret bytes, s);
  kb_Put_sim : forall s ms key e s', kb_sim s ms -> kb_key (k_data key) -> allowed ms (CPut key) ->
    ms_pending ms !! k_data key = Some e -> kb_Put key (held e) s = (Ret tt, s') ->
    kb_sim s' (book ms (CPut key) (Ret RDone)) /\ kb_keySize s' = kb_keySize s;
  kb_Get_sim : forall s ms key, kb_sim s ms -> kb_key (k_data key) ->
    match ms_map ms !! k_data key with
    | Some bytes => exists v s', kb_Get key s = (Ret v, s') /\ kb_read v s' = (Ret bytes, s') /\ kb_sim s' ms
    | None => exists s', kb_Get key s = (Throw (OperationFailedException KEY_NOT_FOUND), s') /\ kb_sim s' ms
    end }.

(** ** The store of a storage node *)

Section Storage.
Context {T C R R1 R2 PO N : Type} `{RTreeEngine T} `{SpdkRing (list Z) R} `{SpdkRing (Rqst RqstOperation C) R1}
  `{SpdkRing (Rqst OffloadOperation C) R2} `{RqstPool C PO} `{StoreServices (@OffloadFront C R2 PO) N}.

#[local] Abbreviation astore := (@AsyncStore T C R R1 R2 PO N).
#[local] Abbreviation kstore := (@KVStore T R (@OffloadFront C R2 PO) N).

(** The callback of the benchmark, what [location] holds in [UpdateAsync], and the address
    and the old contents of the next request that [new] makes. *)
Context (cb : C) (junk : LOCATIONS) (next_id : astore -> positive) (raw : list Z).

(** Stores through [key.data()]: the block of the key, or the message buffer. *)
Definition store_setKey (key : Key) (bytes : list Z) : M exn kstore Key :=
  match k_block key with
  | None => cret (mkKey bytes None (k_kvs key))
  | Some a =>
      let! s := cget in
      set_heap (<[a := bytes]> (heap s)) ;;; cret (mkKey bytes (Some a) (k_kvs key))
  end.

Definition store_write (v : Value) (bytes : list Z) : M exn kstore unit := cmod (write_value v bytes).

Definition store_read (v : Value) : M exn kstore (list Z) := fun s =>
  match v_data v with
  | Some (VHeap b) => (read_mem (heap s) b (v_size v), s)
  | Some (VPmem a) => (read_mem (KVStore.pmem s) a (v_size v), s)
  | Some VMsg => (Undef, s)
  | None => (if v_size v =? 0 then Ret [] else Undef, s)
  end.

Definition store_UpdateAsync (key : Key) : M exn astore unit :=
  match k_block key with
  | Some kp => UpdateAsync kp (Z.of_nat (length (k_data key))) (mkValue None 0 false) junk cb (mkAsyncOptions true true 0)
  | None => cundef
  end.

Definition store_PutAsync (key : Key) (v : Value) : M exn astore unit :=
  match k_block key with
  | Some kp => fun s => PutAsync (next_id s) raw kp (Z.of_nat (length (k_data key))) v cb (mkAsyncOptions false true 0) s
  | None => cundef
  end.

#[local] Instance storage_base : KVStoreBase astore :=
  {| kb_AllocKey := fun b => on_kv (AllocKey b); kb_GetAny := fun b => on_kv (GetAny_kv b);
     kb_Alloc := fun k n => on_kv (Alloc_kv k n true); kb_Get := fun k => on_kv (Get_kv k);
     kb_Put := fun k v => on_kv (Put_kv k v); kb_PutAsync := store_PutAsync; kb_Remove := fun k => on_kv (Remove_kv k);
     kb_UpdateAsync := store_UpdateAsync; kb_Free_value := fun k v => on_kv (Free_value k v);
     kb_Free_key := fun k => on_kv (Free_key k); kb_setKey := fun k l => on_kv (store_setKey k l);
     kb_write := fun v l => on_kv (store_write v l); kb_read := fun v => on_kv (store_read v) |}.

(** A storage node is a map, by the lemmas of [KVMap]. *)
Context (d : DhtCore).

Lemma sim_same_data (k k' : kstore) ms : same_data k k' -> sim d k ms -> sim d k' ms.
Proof. intros (D1 & D2 & D3) []. split; by rewrite ?D1, ?D2, ?D3. Qed.

Lemma on_kv_run {A} (m : M exn kstore A) (s : astore) r k : m (kv s) = (r, k) ->
  on_kv m s = (r, mkAsyncStore k (_rqstPollers s) (put_pollerId s) (get_pollerId s) (a_calls s)).
Proof. intros E. unfold on_kv, czoom. by rewrite E. Qed.

Lemma store_setKey_run (k : kstore) key l : exists k', store_setKey key l k = (Ret (mkKey l (k_block key) (k_kvs key)), k') /\
  same_data k k' /\ _keySize k' = _keySize k.
Proof. unfold store_setKey. destruct (k_block key) as [a|]; eexists; split_and!; done. Qed.

Lemma AllocKey_block_run (k : kstore) : exists a k', AllocKey false k =
  (Ret (mkKey (replicate (Z.to_nat (_keySize k)) 0) (Some a) false), k') /\ same_data k k' /\ _keySize k' = _keySize k.
Proof. unfold AllocKey, cbind, cget, new_block, heap_new, set_heap, cret. eexists _, _. by split_and!. Qed.

#[local] Abbreviation node_key := (fun k => rt_key (T := T) k /\ isLocalKey d k = Ret true).

(** The size of keys is not changed by any call. *)
#[local] Ltac keeps_size := repeat first [keeps_step | solve [intros ?; reflexivity]].

Lemma Alloc_kv_keySize key size (k : kstore) : _keySize (snd (Alloc_kv key size true k)) = _keySize k.
Proof. revert k. change (keeps (@_keySize T R (@OffloadFront C R2 PO) N) (Alloc_kv key size true)). unfold Alloc_kv, Alloc_raw, on_tree, on_client. keeps_size. Qed.

Lemma Put_kv_keySize key v (k : kstore) : _keySize (snd (Put_kv key v k)) = _keySize k.
Proof.
  revert k. change (keeps (@_keySize T R (@OffloadFront C R2 PO) N) (Put_kv key v)).
  unfold Put_kv, Put_raw, Free_value, Free_key, delete_block, on_tree, on_pkey, on_client. keeps_size.
Qed.

Lemma storage_Alloc (k : kstore) ms key size : sim d k ms -> node_key (k_data key) ->
  exists r k', Alloc_kv key size true k = (r, k') /\ _keySize k' = _keySize k /\
    match r with
    | Ret v => exists a, v = held (mkPending a size None) /\
        spec_step ms (CAlloc key size) (Ret (RAddr a)) (book ms (CAlloc key size) (Ret (RAddr a))) /\
        sim d k' (book ms (CAlloc key size) (Ret (RAddr a)))
    | Throw e => e = OperationFailedException PMEM_ALLOCATION_ERROR /\ sim d k' (book ms (CAlloc key size) (Throw e))
    | _ => False
    end.
Proof.
  intros Hs Hk. destruct (Alloc_kv key size true k) as [r k'] eqn:E. exists r, k'. split; [done|].
  split. { pose proof (Alloc_kv_keySize key size k) as Ek. by rewrite E in Ek. }
  assert (Er : run_call ms (CAlloc key size) k = match r with
      | Ret v => match v_data v with Some (VPmem a) => (Ret (RAddr a), k') | _ => (Undef, k') end
      | Throw e => (Throw e, k') | Crash => (Crash, k') | Undef => (Undef, k') end).
  { unfold run_call, cbind. rewrite E. destruct r as [v| | |]; try done. by destruct (v_data v) as [[]|]. }
  destruct r as [v|e| |].
  - destruct (Alloc_kv_local k key size v k') as (a & -> & _); [apply Hs|apply Hk|rewrite (sim_dht _ _ _ Hs); apply Hk|done|].
    destruct (sim_alloc d k ms key size _ k' Hs Hk Er) as (ms' & Hst & S'). cbn [v_data] in *.
    apply spec_step_book in Hst as Eb. subst ms'. by exists a.
  - destruct (sim_alloc d k ms key size _ k' Hs Hk Er) as (ms' & Hst & S').
    apply spec_step_book in Hst as Eb. subst ms'. split; [by inversion Hst|done].
  - destruct (sim_alloc d k ms key size _ k' Hs Hk Er) as (ms' & Hst & _). inversion Hst.
  - destruct (sim_alloc d k ms key size _ k' Hs Hk Er) as (ms' & Hst & _). inversion Hst.
Qed.

Lemma storage_Put (k : kstore) ms key e k' : sim d k ms -> node_key (k_data key) -> allowed ms (CPut key) ->
  ms_pending ms !! k_data key = Some e -> Put_kv key (held e) k = (Ret tt, k') -> sim d k' (book ms (CPut key) (Ret RDone)).
Proof.
  intros Hs Hk Ha He E. assert (Er : run_call ms (CPut key) k = (Ret RDone, k')).
  { unfold run_call. rewrite He. by rewrite (cbind_ret _ _ _ _ _ E). }
  destruct (sim_put d k ms key RDone k' Hs Hk Ha Er) as (ms' & Hst & S'). by apply spec_step_book in Hst as ->.
Qed.

Lemma storage_Get (k : kstore) ms key : sim d k ms -> node_key (k_data key) ->
  match ms_map ms !! k_data key with
  | Some bytes => exists v k', Get_kv key k = (Ret v, k') /\ store_read v k' = (Ret bytes, k') /\ sim d k' ms
  | None => exists k', Get_kv key k = (Throw (OperationFailedException KEY_NOT_FOUND), k') /\ sim d k' ms
  end.
Proof.
  intros Hs Hk. destruct (run_call ms (CGet key) k) as [r k'] eqn:E.
  destruct (sim_get d k ms key r k' Hs Hk E) as (ms' & Hst & S'). unfold run_call, cbind in E.
  destruct (Get_kv key k) as [[v|e| |] k1] eqn:Eg; [| |by injection E as <- <-; inversion Hst..].
  2:{ injection E as <- <-. inversion Hst as [| | | | |m p key' Hm]; simplify_eq. cbn [ms_map]. rewrite Hm. by exists k1. }
  unfold read_value in E. destruct (v_data v) as [[a|b|]|] eqn:Ev; [by injection E as <- <-; inversion Hst| |by injection E as <- <-; inversion Hst..].
  destruct (read_mem (heap k1) b (v_size v)) as [l|e| |] eqn:El;
    [|exfalso; unfold read_mem in El; by repeat case_match|by injection E as <- <-; inversion Hst..].
  injection E as <- <-. inversion Hst as [| | | |m p key' bytes Hm|]; simplify_eq. cbn [ms_map]. rewrite Hm.
  exists v, k1. split_and!; [done| |done]. unfold store_read. by rewrite Ev, El.
Qed.

#[local, refine] Instance storage_map : KVStoreMap astore := 
  {| kb_sim := fun s ms => sim d (kv s) ms; kb_key := node_key; kb_keySize := fun s => _keySize (kv s) |}.
Proof.
  - intros s ms S. destruct (AllocKey_block_run (kv s)) as (a & k & E & D & Ek).
    eexists a, _. split; [by apply on_kv_run, E|]. split; [by eapply sim_same_data|done].
  - intros s ms key l S. destruct (store_setKey_run (kv s) key l) as (k & E & D & Ek).
    eexists. split; [by apply on_kv_run, E|]. split; [by eapply sim_same_data|done].
  - intros s ms key size S Hk. destruct (storage_Alloc (kv s) ms key size S Hk) as (r & k & E & Ek & Hr).
    eexists _, _. split; [by apply on_kv_run, E|]. by split.
  - intros s ms key e bytes S He Hb. eexists. split; [by apply on_kv_run|].
    destruct (sim_write d (kv s) ms key bytes (Ret RDone) (write_value (held e) bytes (kv s)) S) as (ms' & Hst & S').
    + by exists e.
    + unfold run_call. by rewrite He.
    + apply spec_step_book in Hst as ->. by split.
  - intros s ms key e bytes S He Hb. destruct (sim_pending _ _ _ S _ _ He) as (_ & _ & _ & Hp). rewrite Hb in Hp.
    destruct Hp as [Hp Hl]. assert (E : store_read (held e) (kv s) = (Ret bytes, kv s)).
    { unfold store_read, held, read_mem. cbn [v_data v_size]. rewrite Hp, <- Hl, Z.leb_refl, take_ge by lia. done. }
    unfold kb_read, storage_base. rewrite (on_kv_run _ _ _ _ E). by destruct s.
  - intros s ms key e s' S Hk Ha He E. unfold kb_Put, storage_base, on_kv, czoom in E.
    pose proof (Put_kv_keySize key (held e) (kv s)) as Eks.
    destruct (Put_kv key (held e) (kv s)) as [r k] eqn:Ep. cbn [fst snd] in *. injection E as -> <-.
    split; [by eapply storage_Put|done].
  - intros s ms key S Hk. pose proof (storage_Get (kv s) ms key S Hk) as HG. destruct (ms_map ms !! k_data key) as [bytes|].
    + destruct HG as (v & k & E & Er & S'). eexists _, _. split; [by apply on_kv_run, E|]. split; [|done].
      exact (on_kv_run (store_read v) (mkAsyncStore k (_rqstPollers s) (put_pollerId s) (get_pollerId s) (a_calls s)) _ _ Er).
    + destruct HG as (k & E & S'). eexists. split; [by apply on_kv_run, E|done].
Defined.
End Storage.
