(* ===== verification/MinidaqKey.v ===== *)
(** * Keys and data of the minidaq benchmark ([apps/minidaq])

    The readout threads number events: thread [e] of [n] makes the events [e], [e + n],
    [e + 2 n] and so on.  A key has the number of the event in five bytes, the detector in
    one and the component in two.  With the integrity check a fragment is filled with
    bytes of the event's number, and checked when it is read. *)

From S2P Require Import Prelude Status DhtCore PrimaryKey.

(** ** [struct MinidaqKey] *)

Definition sizeof_eventId : nat := 5.
Definition sizeof_MinidaqKey : nat := 8.

(** The bytes of a little-endian number, as [memcpy] takes them. *)
Fixpoint le_bytes (n : nat) (z : Z) : list Z :=
  match n with O => [] | S n => u8 z :: le_bytes n (z / 2 ^ 8) end.

(** Stores through the packed struct at [key.data()]; a key that is too short is written
    behind its end. *)
Definition set_field (off : nat) (bytes key : list Z) : outcome exn (list Z) :=
  if (length key <? off + length bytes)%nat then Undef else Ret (overwrite off bytes key).

Definition set_eventId (eventId : Z) : list Z -> outcome exn (list Z) := set_field 0 (le_bytes sizeof_eventId eventId).
Definition set_detectorId (id : Z) : list Z -> outcome exn (list Z) := set_field 5 [u8 id].
Definition set_componentId (c : Z) : list Z -> outcome exn (list Z) := set_field 6 (le_bytes 2 c).

(** The part of [_NextKey] that fills the key. *)
Definition fill_key (eventId id : Z) (key : list Z) : outcome exn (list Z) :=
  obind (set_detectorId id key) (fun key => obind (set_componentId 0 key) (set_eventId eventId)).

(** [_eventId += _nTh]: an [int] added to a [uint64_t]. *)
Definition next_eventId (nTh eventId : Z) : Z := u64 (eventId + nTh).

(** The event of thread [e] in its round [i]. *)
Fixpoint event_at (nTh e : Z) (i : nat) : Z :=
  match i with O => u64 e | S i => next_eventId nTh (event_at nTh e i) end.

(** ** The integrity check *)

Definition _GetBufferByte (key : list Z) (i : nat) : outcome exn Z :=
  match key !! (i mod sizeof_eventId)%nat with Some b => Ret b | None => Undef end.

(** The loops count with an [int]. *)
Definition too_long (s : nat) : bool := 2 ^ 31 <=? Z.of_nat s.

Fixpoint fill_bytes (key : list Z) (i s : nat) : outcome exn (list Z) :=
  match s with
  | O => Ret []
  | S s => obind (_GetBufferByte key i) (fun b => obind (fill_bytes key (S i) s) (fun l => Ret (b :: l)))
  end.

(** [_FillBuffer]: the new contents of the buffer. *)
Definition _FillBuffer (key : list Z) (s : nat) : outcome exn (list Z) :=
  if too_long s then Undef else fill_bytes key 0 s.

(** The counters of the node, and [_CheckBuffer]; [err] is set by the first difference. *)
Record Integrity : Type := mkIntegrity { _nIntegrityChecks : Z; _nIntegrityErrors : Z }.

Fixpoint check_bytes (key buf : list Z) (i : nat) (err : bool) (c : Integrity) : outcome exn (bool * Integrity) :=
  match buf with
  | [] => Ret (err, c)
  | b_act :: buf =>
      obind (_GetBufferByte key i) (fun b_exp =>
        if b_exp =? b_act then check_bytes key buf (S i) err c
        else check_bytes key buf (S i) true
               (if err then c else mkIntegrity (_nIntegrityChecks c) (u64 (_nIntegrityErrors c + 1))))
  end.

Definition _CheckBuffer (key buf : list Z) (c : Integrity) : outcome exn (bool * Integrity) :=
  let c := mkIntegrity (u64 (_nIntegrityChecks c + 1)) (_nIntegrityErrors c) in
  if too_long (length buf) then Undef
  else obind (check_bytes key buf 0 false c) (fun r => Ret (negb (fst r), snd r)).

(** ** Lemmas *)

Lemma length_le_bytes n z : length (le_bytes n z) = n.
Proof. revert z. induction n as [|n IH]; intros z; cbn; [done|by rewrite IH]. Qed.

Lemma le_bytes_value n z : le_value (le_bytes n z) = z mod 2 ^ (8 * Z.of_nat n).
Proof.
  revert z. induction n as [|n IH]; intros z; cbn [le_bytes le_value]; [by rewrite Z.mod_1_r|].
  rewrite IH. unfold uwrap. replace (8 * Z.of_nat (S n)) with (8 + 8 * Z.of_nat n) by lia.
  rewrite Z.pow_add_r by lia. rewrite Z.rem_mul_r by lia. lia.
Qed.

Lemma le_bytes_inj n z z' : 0 <= z < 2 ^ (8 * Z.of_nat n) -> 0 <= z' < 2 ^ (8 * Z.of_nat n) ->
  le_bytes n z = le_bytes n z' -> z = z'.
Proof. intros Hz Hz' E. apply (f_equal le_value) in E. rewrite !le_bytes_value, !Z.mod_small in E; lia. Qed.

Lemma le_bytes_wrap n z : le_bytes n (z mod 2 ^ (8 * Z.of_nat n)) = le_bytes n z.
Proof.
  revert z. induction n as [|n IH]; intros z; cbn [le_bytes]; [done|].
  replace (8 * Z.of_nat (S n)) with (8 + 8 * Z.of_nat n) by lia. rewrite Z.pow_add_r by lia.
  rewrite Z.rem_mul_r by lia. f_equal.
  - unfold uwrap. rewrite (Z.mul_comm (2 ^ 8)), Z.mod_add, Z.mod_mod by lia. done.
  - rewrite <- (IH (z / 2 ^ 8)). f_equal. rewrite (Z.mul_comm (2 ^ 8)), Z.div_add by lia.
    rewrite Z.div_small by (apply Z.mod_pos_bound; lia). lia.
Qed.

(** The key of an event, whatever the buffer held before. *)
Definition minidaq_key (eventId id : Z) : list Z := le_bytes 5 eventId ++ [u8 id] ++ [0; 0].

Lemma fill_key_run eventId id key : length key = sizeof_MinidaqKey ->
  fill_key eventId id key = Ret (minidaq_key eventId id).
Proof.
  intros E. do 9 (destruct key as [|? key]; try done).
Qed.

Lemma length_minidaq_key eventId id : length (minidaq_key eventId id) = sizeof_MinidaqKey.
Proof. reflexivity. Qed.

Lemma minidaq_key_wf eventId id : Forall (fun b => 0 <= b < 256) (minidaq_key eventId id).
Proof. unfold minidaq_key. cbn. repeat constructor; (lia || (apply Z.mod_pos_bound; lia)). Qed.

(** While the numbers stay below [2 ^ 64], round [i] of thread [e] makes event [e + i n]. *)
Lemma event_at_run nTh e i : 0 <= e -> 0 <= nTh -> e + Z.of_nat i * nTh < 2 ^ 64 -> event_at nTh e i = e + Z.of_nat i * nTh.
Proof.
  intros He Hn. induction i as [|i IH]; intros Hb; cbn [event_at].
  - rewrite uwrap_id; lia.
  - unfold next_eventId. rewrite IH by lia. rewrite uwrap_id; lia.
Qed.

(** Division by the number of threads finds the thread and the round of an event. *)
Lemma event_owner nTh e i v : 0 < nTh -> 0 <= e < nTh -> v = e + Z.of_nat i * nTh ->
  e = v mod nTh /\ i = Z.to_nat (v / nTh).
Proof.
  intros Hn He ->. rewrite Z.mod_add, Z.div_add, Z.mod_small, Z.div_small by lia. lia.
Qed.

(** The readout threads divide the events among them.  For events below [2 ^ 40],
    every event is made by exactly one thread in exactly one of its rounds, and different
    events have different keys.  Event [v + 2 ^ 40] has the key of event [v]. *)
Theorem minidaq_events_partition nTh id v : 0 < nTh < 2 ^ 31 -> 0 <= v < 2 ^ 40 ->
  (exists e i, 0 <= e < nTh /\ fill_key (event_at nTh e i) id (replicate 8 0) = Ret (minidaq_key v id)) /\
  (forall e i e' i', 0 <= e < nTh -> 0 <= e' < nTh -> e + Z.of_nat i * nTh < 2 ^ 40 -> e' + Z.of_nat i' * nTh < 2 ^ 40 ->
     fill_key (event_at nTh e i) id (replicate 8 0) = fill_key (event_at nTh e' i') id (replicate 8 0) -> e = e' /\ i = i') /\
  fill_key (v + 2 ^ 40) id (replicate 8 0) = fill_key v id (replicate 8 0).
Proof.
  intros Hn Hv. split_and!.
  - exists (v mod nTh), (Z.to_nat (v / nTh)). split; [apply Z.mod_pos_bound; lia|]. rewrite fill_key_run by done.
    pose proof (Z.div_pos v nTh). pose proof (Z.mod_pos_bound v nTh). pose proof (Z.div_mod v nTh).
    rewrite event_at_run by (rewrite ?Z2Nat.id; lia). do 2 f_equal. rewrite Z2Nat.id; lia.
  - intros e i e' i' He He' Hb Hb' E. rewrite !event_at_run, !fill_key_run in E by (done || lia).
    assert (Ek : minidaq_key (e + Z.of_nat i * nTh) id = minidaq_key (e' + Z.of_nat i' * nTh) id) by congruence. clear E.
    assert (Ev : e + Z.of_nat i * nTh = e' + Z.of_nat i' * nTh).
    { apply (le_bytes_inj 5); [lia..|]. unfold minidaq_key in Ek. by apply app_inj_1 in Ek as [? _]; [|rewrite !length_le_bytes]. }
    destruct (event_owner nTh e i _ (proj1 Hn) He eq_refl) as [Ee Ei].
    destruct (event_owner nTh e' i' _ (proj1 Hn) He' eq_refl) as [Ee' Ei']. rewrite Ev in Ee, Ei. split; congruence.
  - rewrite !fill_key_run by done. unfold minidaq_key. do 2 f_equal. rewrite <- (le_bytes_wrap 5 (v + 2 ^ 40)), <- (le_bytes_wrap 5 v).
    f_equal. change (8 * Z.of_nat 5) with 40. rewrite <- (Z.mul_1_l (2 ^ 40)) at 1. by rewrite Z.mod_add by lia.
Qed.

(** The bytes a fragment of an event should have. *)
Definition fragment (key : list Z) (s : nat) : list Z := map (fun i => default 0 (key !! (i mod sizeof_eventId)%nat)) (seq 0 s).

Lemma buffer_byte key i : (sizeof_eventId <= length key)%nat ->
  _GetBufferByte key i = Ret (default 0 (key !! (i mod sizeof_eventId)%nat)).
Proof.
  intros Hl. unfold _GetBufferByte. destruct (lookup_lt_is_Some_2 key (i mod sizeof_eventId)%nat) as [b Hb].
  - pose proof (Nat.mod_upper_bound i sizeof_eventId ltac:(done)). lia.
  - by rewrite Hb.
Qed.

Lemma fill_bytes_run key s : (sizeof_eventId <= length key)%nat -> forall i,
  fill_bytes key i s = Ret (map (fun i => default 0 (key !! (i mod sizeof_eventId)%nat)) (seq i s)).
Proof.
  intros Hl. induction s as [|s IH]; intros i; cbn [fill_bytes seq map]; [done|].
  rewrite buffer_byte by done. cbn [obind]. by rewrite IH.
Qed.

Lemma check_bytes_run key buf : (sizeof_eventId <= length key)%nat -> forall i err c,
  check_bytes key buf i err c =
  Ret (if bool_decide (buf = map (fun i => default 0 (key !! (i mod sizeof_eventId)%nat)) (seq i (length buf))) then (err, c)
       else (true, if err then c else mkIntegrity (_nIntegrityChecks c) (u64 (_nIntegrityErrors c + 1)))).
Proof.
  intros Hl. induction buf as [|b buf IH]; intros i err c; cbn [check_bytes length seq map]; [done|].
  rewrite buffer_byte by done. cbn [obind]. set (x := default 0 _). rewrite !IH. destruct (Z.eqb_spec x b) as [<-|Hne].
  - f_equal. case_bool_decide as Hb.
    + by rewrite bool_decide_true by (by rewrite <- Hb).
    + rewrite bool_decide_false; [done|]. by intros [= ?].
  - rewrite (bool_decide_false (b :: buf = _)) by (by intros [= ? _]). f_equal. by case_bool_decide; destruct err.
Qed.

(** The integrity check is exact.  For a key that has its event number and a
    fragment of less than 2^31 bytes: the check answers true exactly when the fragment
    is what [_FillBuffer] makes of the key; it counts one check, and one error exactly
    when it answers false, however many bytes differ. *)
Theorem minidaq_check_exact key buf c : (sizeof_eventId <= length key)%nat -> Z.of_nat (length buf) < 2 ^ 31 ->
  exists b c', _CheckBuffer key buf c = Ret (b, c') /\
    (b = true <-> _FillBuffer key (length buf) = Ret buf) /\
    _nIntegrityChecks c' = u64 (_nIntegrityChecks c + 1) /\
    _nIntegrityErrors c' = (if b then _nIntegrityErrors c else u64 (_nIntegrityErrors c + 1)).
Proof.
  intros Hl Hs. unfold _CheckBuffer, _FillBuffer, too_long. destruct (Z.leb_spec (2 ^ 31) (Z.of_nat (length buf))); [lia|].
  rewrite check_bytes_run, fill_bytes_run by done. cbn [obind]. case_bool_decide as Hb; cbn [fst snd negb];
    eexists _, _; split_and!; try reflexivity.
  - split; [intros _; by rewrite <- Hb|done].
  - split; [done|intros [= E]]. by destruct Hb.
Qed.

(** ** Concrete inputs *)

Lemma minidaq_events_partition_witness :
  (exists e i, 0 <= e < 4 /\ fill_key (event_at 4 e i) 100 (replicate 8 0) = Ret (minidaq_key 1000 100)) /\
  fill_key (1000 + 2 ^ 40) 100 (replicate 8 0) = fill_key 1000 100 (replicate 8 0).
Proof. destruct (minidaq_events_partition 4 100 1000) as (Hex & _ & Hw); [lia|lia|]. split; [exact Hex|exact Hw]. Defined.

Lemma minidaq_check_exact_witness : exists c', _CheckBuffer (minidaq_key 258 7) [2; 1; 0; 0; 9; 2] (mkIntegrity 3 1) = Ret (false, c') /\
  _nIntegrityErrors c' = 2.
Proof.
  destruct (minidaq_check_exact (minidaq_key 258 7) [2; 1; 0; 0; 9; 2] (mkIntegrity 3 1)) as (b & c' & E & _ & _ & He);
    [unfold sizeof_eventId; cbn; lia|cbn; lia|].
  assert (b = false) as -> by (vm_compute in E; congruence). exists c'. split; [exact E|exact He].
Defined.
