(* ===== verification/MinidaqNode.v ===== *)
(** * The nodes of the minidaq benchmark ([MinidaqRoNode], [MinidaqAroNode],
    [MinidaqFfNode], [MinidaqFfNodeSeq])

    A readout node makes keys and puts fragments; a filtering node gets the fragments of
    an event and keeps or removes them.  The nodes are written against the interface of
    [KVStoreBase]. *)

From stdpp Require Import strings.
From S2P Require Import Prelude Status ARTree RTreeEngine Poller Rqst PmemPoller PrimaryKey DhtCore KVStore KVMap KVAsync KVStoreBase MinidaqKey.

Section Nodes.
Context {S : Type} `{KVStoreBase S}.

(** What a thread of a node works on: the store, its [thread_local] event number, the
    counters of completions, and those of the integrity check. *)
Record Exec : Type := mkExec { x_kvs : S; _eventId : Z; cnt : Z; cntErr : Z; integrity : Integrity }.

#[local] Abbreviation EM A := (M exn Exec A).

Definition on_kvs {A} (m : M exn S A) : EM A :=
  czoom x_kvs (fun k x => mkExec k (_eventId x) (cnt x) (cntErr x) (integrity x)) m.
Definition lift_o {A} (o : outcome exn A) : EM A := fun x => (o, x).
Definition set_event (e : Z) : EM unit := cmod (fun x => mkExec (x_kvs x) e (cnt x) (cntErr x) (integrity x)).
Definition count : EM unit := cmod (fun x => mkExec (x_kvs x) (_eventId x) (u64 (cnt x + 1)) (cntErr x) (integrity x)).

(** [_CheckBuffer] with the counters of the node. *)
Definition check_buffer (key buf : list Z) : EM bool := fun x =>
  match _CheckBuffer key buf (integrity x) with
  | Ret (b, c) => (Ret b, mkExec (x_kvs x) (_eventId x) (cnt x) (cntErr x) c)
  | Throw e => (Throw e, x)
  | Crash => (Crash, x)
  | Undef => (Undef, x)
  end.

(** ** Readout *)

(** The settings of a node that its tasks use; [withCheck] is [WITH_INTEGRITY_CHECK]. *)
Record NodeConf : Type := mkNodeConf { _nTh : Z; _localOnly : bool; withCheck : bool }.

(** [_Setup]. *)
Definition ro_Setup (executorId : Z) : EM unit := set_event (u64 executorId).

(** [_NextKey] of the readout and of the sequential filtering node. *)
Definition next_key (c : NodeConf) (id : Z) : EM Key :=
  let! key := on_kvs (kb_AllocKey (negb (_localOnly c))) in
  let! x := cget in
  let! bytes := lift_o (fill_key (_eventId x) id (k_data key)) in
  let! key := on_kvs (kb_setKey key bytes) in
  set_event (next_eventId (_nTh c) (_eventId x)) ;;;
  cret key.

(** [_data_buffer]: a blank, then zeros. *)
Definition data_buffer_size : Z := 100000.
Definition data_buffer (n : nat) : list Z := take n (32 :: replicate (n - 1) 0).

(** Allocates the value, or gives the key back. *)
Definition alloc_fragment (key : Key) (size : Z) : EM Value :=
  ccatch (on_kvs (kb_Alloc key size)) (fun e => on_kvs (kb_Free_key key) ;;; cthrow e).

(** The copy of the data into the value, and [_FillBuffer] with the integrity check. *)
Definition fill_fragment (c : NodeConf) (key : Key) (value : Value) : EM unit :=
  let n := Z.to_nat (v_size value) in
  (if data_buffer_size <? v_size value then cundef else on_kvs (kb_write value (data_buffer n))) ;;;
  if withCheck c then
    let! bytes := lift_o (_FillBuffer (k_data key) n) in on_kvs (kb_write value bytes)
  else cret tt.

(** [MinidaqRoNode::_Task]; [size] is what [_nextFragmentSize] returned. *)
Definition ro_Task (c : NodeConf) (size : Z) (key : Key) : EM unit :=
  let! value := alloc_fragment key size in
  fill_fragment c key value ;;;
  (if withCheck c then
     let! buf := on_kvs (kb_read value) in
     let! _ := check_buffer (k_data key) buf in cret tt
   else cret tt) ;;;
  on_kvs (kb_Put key value) ;;;
  count.

(** [MinidaqAroNode::_Task]: the callback counts. *)
Definition aro_Task (c : NodeConf) (size : Z) (key : Key) : EM unit :=
  let! value := alloc_fragment key size in
  fill_fragment c key value ;;;
  on_kvs (kb_PutAsync key value).

(** [SetFragmentDistro]: the distributions that are known. *)
Inductive distro : Type := DConst | DPoisson.
Definition SetFragmentDistro (s : string) : outcome exn distro :=
  if bool_decide (s = "const"%string) then Ret DConst
  else if bool_decide (s = "poisson"%string) then Ret DPoisson
  else Throw (OperationFailedException NOT_IMPLEMENTED).

(** ** Filtering *)

Record FfConf : Type := mkFfConf { ff_node : NodeConf; _baseId : Z; _nSubdetectors : Z; _maxRetries : Z }.

(** What other threads do to the store while the thread sleeps. *)
Context (others : S -> S).
Definition sleep : EM unit := on_kvs (cmod others).

(** [MinidaqFfNode::_NextKey]: up to [_maxRetries] calls of [GetAny]. *)
Fixpoint ff_next_key (tries : nat) (c : NodeConf) : EM Key :=
  match tries with
  | O => cthrow (OperationFailedException KEY_NOT_FOUND)
  | Datatypes.S tries =>
      let! o := ccatch (let! k := on_kvs (kb_GetAny (negb (_localOnly c))) in cret (Some k))
                  (fun e => if bool_decide (e = OperationFailedException KEY_NOT_FOUND) then sleep ;;; cret None else cthrow e) in
      match o with Some k => cret k | None => ff_next_key tries c end
  end.

(** [_kvs->Get(key)], where any exception gives the key back. *)
Definition ff_get (key : Key) : EM Value :=
  ccatch (on_kvs (kb_Get key)) (fun e => on_kvs (kb_Free_key key) ;;; cthrow e).

(** The same in the sequential node, which waits for a key that is not there yet. *)
Fixpoint seq_get (tries : nat) (key : Key) : EM Value :=
  match tries with
  | O => cret (mkValue None 0 false)
  | Datatypes.S tries =>
      let! o := ccatch (let! v := on_kvs (kb_Get key) in cret (Some v))
                  (fun e => if bool_decide (e = OperationFailedException KEY_NOT_FOUND) && (0 <? tries)%nat
                            then sleep ;;; cret None
                            else on_kvs (kb_Free_key key) ;;; cthrow e) in
      match o with Some v => cret v | None => seq_get tries key end
  end.

(** The [while (1)] loop around [UpdateAsync]; false when the queue was full in all of
    the tries that are looked at. *)
Fixpoint update_retry (tries : nat) (key : Key) (value : Value) : EM bool :=
  match tries with
  | O => cret false
  | Datatypes.S tries =>
      let! ok := ccatch (on_kvs (kb_UpdateAsync key) ;;; on_kvs (kb_Free_value key value) ;;; cret true)
                   (fun e => match e with
                             | QueueFullException => sleep ;;; cret false
                             | _ => on_kvs (kb_Free_value key value) ;;; on_kvs (kb_Free_key key) ;;; cthrow e
                             end) in
      if ok then cret true else update_retry tries key value
  end.

(** One fragment up to the integrity check: [get] is [ff_get] or [seq_get]. *)
Definition ff_fetch (c : FfConf) (get : Key -> EM Value) (i : Z) (key : Key) : EM (Key * Value) :=
  let! bytes := lift_o (set_detectorId (_baseId c + i) (k_data key)) in
  let! key := on_kvs (kb_setKey key bytes) in
  let! value := get key in
  (if withCheck (ff_node c) then
     let! buf := on_kvs (kb_read value) in
     let! ok := check_buffer (k_data key) buf in
     if ok then cret tt else cthrow (OperationFailedException UNKNOWN_ERROR)
   else cret tt) ;;;
  cret (key, value).

(** [accept] is what [_Accept] said of the event. *)
Definition ff_fragment (c : FfConf) (get : Key -> EM Value) (accept : bool) (tries : nat) (i : Z) (key : Key) : EM (Key * bool) :=
  let! (key, value) := ff_fetch c get i key in
  if accept then let! done := update_retry tries key value in cret (key, done)
  else on_kvs (kb_Remove key) ;;; on_kvs (kb_Free_value key value) ;;; count ;;; cret (key, true).

Fixpoint ff_fragments (c : FfConf) (get : Key -> EM Value) (accept : bool) (tries : nat) (fs : list Z) (key : Key) : EM (Key * bool) :=
  match fs with
  | [] => cret (key, true)
  | i :: fs =>
      let! (key, done) := ff_fragment c get accept tries i key in
      if done then ff_fragments c get accept tries fs key else cret (key, false)
  end.

(** [_Task]: true when it came to its end. *)
Definition ff_Task (c : FfConf) (get : Key -> EM Value) (accept : bool) (tries : nat) (key : Key) : EM bool :=
  let! (key, done) := ff_fragments c get accept tries (seqZ 0 (_nSubdetectors c)) key in
  if done then on_kvs (kb_Free_key key) ;;; cret true else cret false.

(** One round of a thread: [_NextKey] and [_Task]. *)
Definition ro_round (c : NodeConf) (id size : Z) : EM unit :=
  let! key := next_key c id in ro_Task c size key.
Definition seq_round (c : FfConf) (accept : bool) (tries : nat) : EM bool :=
  let! key := next_key (ff_node c) (_baseId c) in ff_Task c (seq_get (Z.to_nat (_maxRetries c))) accept tries key.

Fixpoint ro_rounds (n : nat) (c : NodeConf) (id size : Z) : EM unit :=
  match n with O => cret tt | Datatypes.S n => ro_round c id size ;;; ro_rounds n c id size end.
End Nodes.

(** ** Readout and filtering of the same events *)

Section Pipeline.
Context {S : Type} `{KVStoreMap S} (others : S -> S).
#[local] Abbreviation exec := (@Exec S).
Implicit Types x : exec.

(** The store is a map and its keys have eight bytes. *)
Definition ready x (ms : map_spec) : Prop := kb_sim (x_kvs x) ms /\ kb_keySize (x_kvs x) = 8.

Lemma on_kvs_run {A} (m : M exn S A) x r k : m (x_kvs x) = (r, k) ->
  on_kvs m x = (r, mkExec k (_eventId x) (cnt x) (cntErr x) (integrity x)).
Proof. intros E. unfold on_kvs, czoom. by rewrite E. Qed.

Lemma next_key_run c id x ms : _localOnly c = true -> ready x ms ->
  exists a k, next_key c id x = (Ret (mkKey (minidaq_key (_eventId x) id) (Some a) false),
    mkExec k (next_eventId (_nTh c) (_eventId x)) (cnt x) (cntErr x) (integrity x)) /\ kb_sim k ms /\ kb_keySize k = 8.
Proof.
  intros Hl [Hs Hz]. destruct (kb_AllocKey_block _ _ Hs) as (a & k1 & E1 & S1 & Z1).
  unfold next_key. rewrite Hl. cbn [negb]. rewrite (cbind_ret _ _ _ _ _ (on_kvs_run _ _ _ _ E1)).
  unfold cbind at 1, cget. unfold cbind at 1, lift_o. cbn [k_data _eventId]. rewrite Hz.
  rewrite fill_key_run by (by rewrite length_replicate).
  set (key := mkKey _ _ _). set (x1 := mkExec _ _ _ _ _).
  destruct (kb_setKey_keeps k1 ms key (minidaq_key (_eventId x) id) S1) as (k2 & E2 & S2 & Z2).
  rewrite (cbind_ret _ _ _ _ _ (on_kvs_run _ x1 _ _ E2)). exists a, k2. split; [reflexivity|]. split; [done|lia].
Qed.

Lemma length_data_buffer n : length (data_buffer n) = n.
Proof. unfold data_buffer. destruct n as [|n]; [done|]. rewrite length_take. cbn. rewrite length_replicate. lia. Qed.

Lemma fragment_length key n : length (fragment key n) = n.
Proof. unfold fragment. by rewrite length_map, length_seq. Qed.

Lemma fill_run key n : (sizeof_eventId <= length key)%nat -> Z.of_nat n < 2 ^ 31 -> _FillBuffer key n = Ret (fragment key n).
Proof.
  intros Hl Hn. unfold _FillBuffer, too_long. destruct (Z.leb_spec (2 ^ 31) (Z.of_nat n)); [lia|]. by apply fill_bytes_run.
Qed.

(** The check of a fragment that was filled for its key. *)
Lemma check_run key n x : (sizeof_eventId <= length key)%nat -> Z.of_nat n < 2 ^ 31 ->
  check_buffer key (fragment key n) x = (Ret true, mkExec (x_kvs x) (_eventId x) (cnt x) (cntErr x)
    (mkIntegrity (u64 (_nIntegrityChecks (integrity x) + 1)) (_nIntegrityErrors (integrity x)))).
Proof.
  intros Hl Hn. unfold check_buffer, _CheckBuffer, too_long. rewrite fragment_length.
  destruct (Z.leb_spec (2 ^ 31) (Z.of_nat n)); [lia|]. rewrite check_bytes_run by done. rewrite fragment_length.
  rewrite bool_decide_true by done. done.
Qed.

(** The value of a key that was allocated and written. *)
Lemma fill_fragment_run c key size x ms a : withCheck c = true -> 0 <= size <= data_buffer_size ->
  (sizeof_eventId <= length (k_data key))%nat -> ready x ms -> ms_pending ms !! k_data key = Some (mkPending a size None) ->
  exists k ms', fill_fragment c key (held (mkPending a size None)) x =
      (Ret tt, mkExec k (_eventId x) (cnt x) (cntErr x) (integrity x)) /\ kb_sim k ms' /\ kb_keySize k = 8 /\
    ms_map ms' = ms_map ms /\
    ms_pending ms' !! k_data key = Some (mkPending a size (Some (fragment (k_data key) (Z.to_nat size)))).
Proof.
  intros Hw Hsz Hl [Hs Hz] Hp. unfold data_buffer_size in Hsz. unfold fill_fragment. cbn [held v_size pe_size].
  destruct (Z.ltb_spec data_buffer_size size) as [Hlt|_]; [unfold data_buffer_size in Hlt; lia|].
  destruct (kb_write_sim (x_kvs x) ms key _ (data_buffer (Z.to_nat size)) Hs Hp) as (k1 & E1 & S1 & Z1);
    [rewrite length_data_buffer; cbn; lia|].
  rewrite (cbind_ret _ _ _ _ _ (on_kvs_run _ _ _ _ E1)), Hw. unfold cbind, lift_o. rewrite fill_run by (done || lia).
  destruct ms as [m p]. cbn [book ms_map ms_pending pe_addr pe_size] in *. rewrite Hp in S1.
  set (e1 := mkPending _ _ _) in S1. set (ms1 := mkMapSpec _ _) in S1.
  destruct (kb_write_sim k1 ms1 key e1 (fragment (k_data key) (Z.to_nat size)) S1) as (k2 & E2 & S2 & Z2);
    [apply lookup_insert_eq|rewrite fragment_length; cbn; lia|].
  set (x1 := mkExec k1 _ _ _ _). change (held (mkPending a size None)) with (held e1).
  rewrite (on_kvs_run _ x1 _ _ E2). exists k2. eexists. split; [reflexivity|].
  split; [exact S2|]. split; [lia|]. cbn [book ms1 ms_map ms_pending]. rewrite lookup_insert_eq. split; [done|].
  cbn [ms_pending]. by rewrite lookup_insert_eq.
Qed.

(** A readout task that comes to its end stored the fragment and found no error. *)
Lemma ro_Task_run c size key x ms x' : withCheck c = true -> 0 <= size ->
  (sizeof_eventId <= length (k_data key))%nat -> kb_key (k_data key) -> ready x ms -> ro_Task c size key x = (Ret tt, x') ->
  exists ms', ready x' ms' /\ ms_map ms' = <[k_data key := fragment (k_data key) (Z.to_nat size)]> (ms_map ms) /\
    _eventId x' = _eventId x /\ _nIntegrityErrors (integrity x') = _nIntegrityErrors (integrity x) /\ cnt x' = u64 (cnt x + 1).
Proof.
  intros Hw Hsz Hl Hk [Hs Hz] E. unfold ro_Task in E. apply cbind_inv in E as (v & x1 & E1 & E).
  destruct (kb_Alloc_sim (x_kvs x) ms key size Hs Hk) as (r & k1 & Ea & Z1 & Hr).
  unfold alloc_fragment, ccatch in E1. rewrite (on_kvs_run _ _ _ _ Ea) in E1.
  destruct r as [v'|e| |]; try done. 2:{ unfold cbind, cthrow in E1. by destruct (on_kvs _ _) as [[]?]. }
  injection E1 as <- <-. destruct Hr as (a & -> & _ & S1). destruct ms as [m p]. cbn [book] in S1.
  apply cbind_inv in E as ([] & x2 & E2 & E).
  set (x1 := mkExec k1 _ _ _ _) in E2. set (ms1 := mkMapSpec _ _) in S1.
  assert (Hsz' : 0 <= size <= data_buffer_size).
  { split; [done|]. unfold fill_fragment in E2. cbn [held v_size pe_size] in E2. by destruct (Z.ltb_spec data_buffer_size size). }
  destruct (fill_fragment_run c key size x1 ms1 a Hw Hsz' Hl) as (k2 & ms2 & Ef & S2 & Z2 & Em & Ep);
    [split; [done|cbn; lia]|apply lookup_insert_eq|].
  rewrite Ef in E2. injection E2 as <-. rewrite Hw in E. cbv iota in E. apply cbind_inv in E as ([] & x3 & E3 & E).
  unfold cbind at 1 in E3. set (e2 := mkPending a size (Some _)) in Ep.
  change (held (mkPending a size None)) with (held e2) in *.
  set (x2 := mkExec k2 _ _ _ _) in E3. rewrite (on_kvs_run _ x2 _ _ (kb_read_held k2 ms2 key e2 _ S2 Ep eq_refl)) in E3.
  unfold cbind in E3. rewrite check_run in E3 by (done || (unfold data_buffer_size in Hsz'; lia)). injection E3 as <-.
  apply cbind_inv in E as ([] & x4 & E4 & E5). injection E5 as <-.
  unfold on_kvs, czoom in E4. cbn [x_kvs] in E4. destruct (kb_Put key (held e2) k2) as [r k4] eqn:Eput.
  cbn [fst snd] in E4. injection E4 as -> <-.
  destruct (kb_Put_sim k2 ms2 key e2 k4 S2 Hk) as [S4 Z4]; [by eexists _, _|done|done|].
  eexists. split_and!; [split; [exact S4|cbn; lia]| |done|done|done].
  destruct ms2 as [m2 p2]. cbn [book ms_map ms_pending] in *. rewrite Ep. cbn. by rewrite Em.
Qed.

Lemma event_key_long ev id : (sizeof_eventId <= length (minidaq_key ev id))%nat.
Proof. rewrite length_minidaq_key. unfold sizeof_eventId, sizeof_MinidaqKey. lia. Qed.

(** The keys of [n] rounds that start at event [ev]. *)
Fixpoint keys_from (nTh ev id : Z) (n : nat) : list (list Z) :=
  match n with O => [] | Datatypes.S n => minidaq_key ev id :: keys_from nTh (next_eventId nTh ev) id n end.

Lemma keys_from_lookup nTh e id n i j : (i < n)%nat ->
  keys_from nTh (event_at nTh e j) id n !! i = Some (minidaq_key (event_at nTh e (j + i)) id).
Proof.
  revert i j. induction n as [|n IH]; intros i j Hi; [lia|]. destruct i as [|i]; [by rewrite Nat.add_0_r|].
  cbn [keys_from lookup list_lookup]. rewrite Nat.add_succ_r. apply (IH i (Datatypes.S j)). lia.
Qed.

Lemma ro_rounds_run c id size : _localOnly c = true -> withCheck c = true -> 0 <= size ->
  (forall ev, kb_key (minidaq_key ev id)) -> forall n x ms x', ready x ms -> ro_rounds n c id size x = (Ret tt, x') ->
  exists ms', ready x' ms' /\ _nIntegrityErrors (integrity x') = _nIntegrityErrors (integrity x) /\
    forall k, ms_map ms' !! k = if decide (k ∈ keys_from (_nTh c) (_eventId x) id n)
                                then Some (fragment k (Z.to_nat size)) else ms_map ms !! k.
Proof.
  intros Hl Hw Hsz Hk. induction n as [|n IH]; intros x ms x' Hr E.
  { injection E as <-. exists ms. by split_and!. }
  cbn [ro_rounds] in E. apply cbind_inv in E as ([] & x2 & E1 & E2). unfold ro_round in E1.
  destruct (next_key_run c id x ms Hl Hr) as (a & k & En & Sk & Zk). rewrite (cbind_ret _ _ _ _ _ En) in E1.
  set (x1 := mkExec k _ _ _ _) in E1. set (key := mkKey _ _ _) in E1.
  destruct (ro_Task_run c size key x1 ms x2 Hw Hsz) as (ms2 & Hr2 & Em & Ee & Ei & _); [apply event_key_long|apply Hk|by split|exact E1|].
  destruct (IH x2 ms2 x' Hr2 E2) as (ms' & Hr' & Ei' & Hm). exists ms'. split; [done|]. split; [by rewrite Ei', Ei|].
  intros j. rewrite Hm, Ee, Em. cbn [keys_from x1 _eventId key k_data]. set (ks := keys_from _ _ _ n).
  destruct (decide (j = minidaq_key (_eventId x) id)) as [->|Hne].
  - rewrite (decide_True (P := _ ∈ _ :: _)) by (by left). rewrite lookup_insert_eq. by destruct (decide _).
  - rewrite lookup_insert_ne by done. destruct (decide (j ∈ ks)) as [Hin|Hin].
    + by rewrite decide_True by (by right).
    + rewrite decide_False; [done|]. by intros [?|?]%elem_of_cons.
Qed.

(** A fragment that is stored is found and is right. *)
Lemma ff_fetch_run c key ev det n x ms tries : withCheck (ff_node c) = true -> Z.of_nat n < 2 ^ 31 -> ready x ms ->
  kb_key (minidaq_key ev (_baseId c)) -> k_data key = minidaq_key ev det ->
  ms_map ms !! minidaq_key ev (_baseId c) = Some (fragment (minidaq_key ev (_baseId c)) n) ->
  exists v x', ff_fetch c (seq_get others (Datatypes.S tries)) 0 key x =
      (Ret (mkKey (minidaq_key ev (_baseId c)) (k_block key) (k_kvs key), v), x') /\
    kb_read v (x_kvs x') = (Ret (fragment (minidaq_key ev (_baseId c)) n), x_kvs x') /\ kb_sim (x_kvs x') ms /\
    _nIntegrityErrors (integrity x') = _nIntegrityErrors (integrity x).
Proof.
  intros Hw Hn [Hs Hz] Hk Ek Hm. unfold ff_fetch. rewrite Z.add_0_r, Ek.
  assert (Ed : set_detectorId (_baseId c) (minidaq_key ev det) = Ret (minidaq_key ev (_baseId c))) by reflexivity.
  unfold cbind at 1, lift_o. rewrite Ed.
  destruct (kb_setKey_keeps (x_kvs x) ms key (minidaq_key ev (_baseId c)) Hs) as (k1 & E1 & S1 & Z1).
  rewrite (cbind_ret _ _ _ _ _ (on_kvs_run _ _ _ _ E1)). set (key' := mkKey _ _ _). set (x1 := mkExec k1 _ _ _ _).
  pose proof (kb_Get_sim k1 ms key' S1 Hk) as HG. cbn [key' k_data] in HG. rewrite Hm in HG. fold key' in HG.
  destruct HG as (v & k2 & E2 & Er & S2).
  assert (Eg : seq_get others (Datatypes.S tries) key' x1 =
    (Ret v, mkExec k2 (_eventId x) (cnt x) (cntErr x) (integrity x))).
  { cbn [seq_get]. unfold cbind at 1, ccatch, cbind at 1. by rewrite (on_kvs_run _ x1 _ _ E2). }
  rewrite (cbind_ret _ _ _ _ _ Eg), Hw. unfold cbind. set (x2 := mkExec k2 _ _ _ _).
  rewrite (on_kvs_run _ x2 _ _ Er), check_run by (done || apply event_key_long).
  eexists v, _. split; [reflexivity|]. by split_and!.
Qed.

(** C15. What is read out is what is filtered.  On a store that is a map, let a readout
    thread run [n] rounds that all come to an end; a filtering thread that then asks for
    any of these events finds the fragment of the event, the integrity check passes, and
    no error is counted on either side. *)
Theorem minidaq_pipeline c cf size n e x0 x1 ms tries :
  _localOnly c = true -> withCheck c = true -> withCheck (ff_node cf) = true -> 0 <= size < 2 ^ 31 ->
  (forall ev, kb_key (minidaq_key ev (_baseId cf))) -> ready x0 ms ->
  (ro_Setup e ;;; ro_rounds n c (_baseId cf) size) x0 = (Ret tt, x1) ->
  _nIntegrityErrors (integrity x1) = _nIntegrityErrors (integrity x0) /\
  forall i key det, (i < n)%nat -> k_data key = minidaq_key (event_at (_nTh c) e i) det ->
  let good := minidaq_key (event_at (_nTh c) e i) (_baseId cf) in
  exists v x2, ff_fetch cf (seq_get others (Datatypes.S tries)) 0 key x1 = (Ret (mkKey good (k_block key) (k_kvs key), v), x2) /\
    kb_read v (x_kvs x2) = (Ret (fragment good (Z.to_nat size)), x_kvs x2) /\
    _nIntegrityErrors (integrity x2) = _nIntegrityErrors (integrity x0).
Proof.
  intros Hl Hw Hw' Hsz Hk Hr E. unfold cbind, ro_Setup, set_event, cmod in E. set (x := mkExec _ _ _ _ _) in E.
  destruct (ro_rounds_run c (_baseId cf) size Hl Hw (proj1 Hsz) Hk n x ms x1 Hr E) as (ms' & Hr' & Ei & Hm).
  split; [exact Ei|]. intros i key det Hi Ek good.
  destruct (ff_fetch_run cf key (event_at (_nTh c) e i) det (Z.to_nat size) x1 ms' tries Hw') as (v & x2 & Ef & Er & _ & Ei2);
    [lia|done|apply Hk|done| |].
  - rewrite Hm, decide_True; [done|]. apply list_elem_of_lookup. exists i. exact (keys_from_lookup (_nTh c) e (_baseId cf) n i 0 Hi).
  - exists v, x2. split_and!; [exact Ef|exact Er|]. by rewrite Ei2.
Qed.
End Pipeline.

(** ** Concrete runs *)

Section Runs.
#[local] Existing Instances simple_pool KVAsync.async_tree KVAsync.async_rings KVAsync.async_pool KVAsync.async_services.
#[local] Abbreviation St := (@AsyncStore (@ARTree (gset positive)) nat (list_ring (list Z)) (list_ring (Rqst RqstOperation nat))
  (list_ring (Rqst OffloadOperation nat)) (gset positive) unit).
#[local] Instance node_base : KVStoreBase St := storage_base 0%nat PMEM (fun _ => 1%positive) [].
#[local] Instance node_map : KVStoreMap St := storage_map 0%nat PMEM (fun _ => 1%positive) [] run_dht.

Definition run_exec : @Exec St := mkExec async_empty 0 0 0 (mkIntegrity 0 0).
Definition run_conf : NodeConf := mkNodeConf 2 true true.
Definition run_ff : FfConf := mkFfConf run_conf 100 1 100.
Definition run_read : @Exec St := snd ((ro_Setup 1 ;;; ro_rounds 2 run_conf 100 12) run_exec).

Lemma run_exec_ready : ready run_exec (mkMapSpec ∅ ∅).
Proof.
  split; [|reflexivity]. split; cbn [ms_map ms_pending]; try done.
  - exact (reachable_inv 1 1 1 run_new run_new_reachable).
  - intros k _. rewrite lookup_empty. apply run_new_empty.
Qed.

(** Thread 1 of 2 reads out the events 1 and 3; event 3 is then filtered. *)
Lemma minidaq_pipeline_witness : exists v x2,
  ff_fetch run_ff (seq_get id 1) 0 (mkKey (minidaq_key 3 0) None true) run_read =
    (Ret (mkKey (minidaq_key 3 100) None true, v), x2) /\
  kb_read v (x_kvs x2) = (Ret [3; 0; 0; 0; 0; 3; 0; 0; 0; 0; 3; 0], x_kvs x2).
Proof.
  destruct (minidaq_pipeline id run_conf run_ff 12 2 1 run_exec run_read (mkMapSpec ∅ ∅) 0) as [_ Hf].
  - reflexivity.
  - reflexivity.
  - reflexivity.
  - lia.
  - intros ev. split; [split; [reflexivity|apply minidaq_key_wf]|reflexivity].
  - exact run_exec_ready.
  - vm_compute. reflexivity.
  - destruct (Hf 1%nat (mkKey (minidaq_key 3 0) None true) 0) as (v & x2 & E & Er & _); [lia|reflexivity|].
    exists v, x2. split; [exact E|exact Er].
Defined.
End Runs.
