(* ===== verification/MinidaqStats.v ===== *)
(** * Statistics of the minidaq benchmark ([MinidaqStats], [MinidaqTimerHR],
    [MinidaqNode::_Execute], [Run] and [Wait])

    Each thread runs rounds for some time, cuts them into samples and records the rates of
    each sample in histograms.  When the threads are done their statistics are combined.
    The histograms are those of HdrHistogram, a class here with what its documentation
    says of counts. *)

From S2P Require Import Prelude Status.

(** A histogram: recording a value says whether it was in range, adding a histogram
    returns how many values were dropped. *)
Class HdrHistogram (H : Type) : Type := {
  hdr_init : Z -> Z -> Z -> option H;
  hdr_record_value : Z -> H -> bool * H;
  hdr_add : H -> H -> Z * H;
  total_count : H -> Z;
  hdr_init_empty : forall lo hi d h, hdr_init lo hi d = Some h -> total_count h = 0;
  hdr_record_count : forall v h, total_count (snd (hdr_record_value v h)) =
    total_count h + (if fst (hdr_record_value v h) then 1 else 0);
  hdr_add_count : forall h o, 0 <= fst (hdr_add h o) <= total_count o /\
    total_count (snd (hdr_add h o)) = total_count h + total_count o - fst (hdr_add h o);
  total_count_nonneg : forall h, 0 <= total_count h }.

Definition NSECS_IN_SEC : Z := 1000000000.
Definition OPS_MIN : Z := 1.
Definition OPS_MAX : Z := 100000000.

(** ** [struct MinidaqSample] *)

Record MinidaqSample : Type := mkSample {
  nRequests : Z; nCompletions : Z; nErrRequests : Z; nErrCompletions : Z; interval_ns : Z }.
Definition Sample_Reset : MinidaqSample := mkSample 0 0 0 0 0.

Section Stats.
Context {H : Type} `{HdrHistogram H}.

(** ** [class MinidaqStats] *)

Record MinidaqStats : Type := mkStats {
  _histogramRps : H; _histogramCps : H; _histogramRpsErr : H; _histogramCpsErr : H;
  _nIterations : Z; _totalTime_ns : Z; _nOverflows : Z }.

(** The constructor; [hdr_init] fails with an error number. *)
Definition MinidaqStats_init : outcome exn MinidaqStats :=
  match hdr_init OPS_MIN OPS_MAX 5 with
  | Some h => Ret (mkStats h h h h 0 0 0)
  | None => Throw system_error
  end.

(** The copy constructor: new histograms, to which those of the other are added. *)
Definition MinidaqStats_copy (other : MinidaqStats) : outcome exn MinidaqStats :=
  match MinidaqStats_init with
  | Ret s =>
      Ret (mkStats (snd (hdr_add (_histogramRps s) (_histogramRps other))) (snd (hdr_add (_histogramCps s) (_histogramCps other)))
             (snd (hdr_add (_histogramRpsErr s) (_histogramRpsErr other)))
             (snd (hdr_add (_histogramCpsErr s) (_histogramCpsErr other)))
             (_nIterations other) (_totalTime_ns other) (_nOverflows s))
  | r => r
  end.

(** [operator=(MinidaqStats &&)]: the pointers and two of the counters are taken over. *)
Definition MinidaqStats_move (other this : MinidaqStats) : MinidaqStats :=
  mkStats (_histogramRps other) (_histogramCps other) (_histogramRpsErr other) (_histogramCpsErr other)
    (_nIterations other) (_totalTime_ns other) (_nOverflows this).

Definition Combine (stats this : MinidaqStats) : MinidaqStats :=
  if _nIterations stats =? 0 then this
  else
    let rps := hdr_add (_histogramRps this) (_histogramRps stats) in
    let cps := hdr_add (_histogramCps this) (_histogramCps stats) in
    let rpsErr := hdr_add (_histogramRpsErr this) (_histogramRpsErr stats) in
    let cpsErr := hdr_add (_histogramCpsErr this) (_histogramCpsErr stats) in
    mkStats (snd rps) (snd cps) (snd rpsErr) (snd cpsErr)
      (u64 (_nIterations this + _nIterations stats)) (u64 (_totalTime_ns this + _totalTime_ns stats))
      (u64 (_nOverflows this + fst rps + fst cps + fst rpsErr + fst cpsErr + _nOverflows stats)).

(** The constructor from a vector. *)
Definition MinidaqStats_of (l : list MinidaqStats) : outcome exn MinidaqStats :=
  match MinidaqStats_init with Ret s => Ret (fold_left (fun s r => Combine r s) l s) | r => r end.

(** [n * NSECS_IN_SEC / interval_ns] in [uint64_t]. *)
Definition rate (n ns : Z) : Z := u64 (n * NSECS_IN_SEC) / ns.
Definition overflow (ok : bool) (n : Z) : Z := if ok then n else u64 (n + 1).

Definition RecordSample (s : MinidaqSample) (this : MinidaqStats) : MinidaqStats :=
  if interval_ns s =? 0 then this
  else
    let rps := hdr_record_value (rate (nRequests s) (interval_ns s)) (_histogramRps this) in
    let cps := hdr_record_value (rate (nCompletions s) (interval_ns s)) (_histogramCps this) in
    let rpsErr := hdr_record_value (rate (nErrRequests s) (interval_ns s)) (_histogramRpsErr this) in
    let cpsErr := hdr_record_value (rate (nErrCompletions s) (interval_ns s)) (_histogramCpsErr this) in
    mkStats (snd rps) (snd cps) (snd rpsErr) (snd cpsErr) (u64 (_nIterations this + 1))
      (u64 (_totalTime_ns this + interval_ns s))
      (overflow (fst cpsErr) (overflow (fst rpsErr) (overflow (fst cps) (overflow (fst rps) (_nOverflows this))))).

(** The histogram that is dumped for a metric: [_DumpCsv] and [_DumpSummaryCsv] use the
    same switch, [_DumpSummary] another. *)
Inductive MinidaqMetricType : Type := METRIC_RPS | METRIC_RPS_ERR | METRIC_CPS | METRIC_CPS_ERR.
Definition csv_histogram (s : MinidaqStats) (t : MinidaqMetricType) : H :=
  match t with
  | METRIC_RPS => _histogramRps s
  | METRIC_RPS_ERR => _histogramRpsErr s
  | METRIC_CPS => _histogramRps s
  | METRIC_CPS_ERR => _histogramCpsErr s
  end.
Definition summary_histogram (s : MinidaqStats) (t : MinidaqMetricType) : H :=
  match t with
  | METRIC_RPS => _histogramRps s
  | METRIC_RPS_ERR => _histogramRpsErr s
  | METRIC_CPS => _histogramCps s
  | METRIC_CPS_ERR => _histogramCpsErr s
  end.

(** ** The end of a run: [Run] and [Wait] *)

(** [std::async] keeps a copy of what [_Execute] returned, [get] copies it again,
    [_statsVec] gets a third copy, and the second one is combined. *)
Definition ocopy (o : outcome exn MinidaqStats) : outcome exn MinidaqStats :=
  match o with Ret s => MinidaqStats_copy s | r => r end.

Fixpoint wait_all (threads : list MinidaqStats) (vec : list MinidaqStats) (all : MinidaqStats) :
    outcome exn (list MinidaqStats * MinidaqStats) :=
  match threads with
  | [] => Ret (vec, all)
  | t :: threads =>
      match ocopy (MinidaqStats_copy t) with
      | Ret s =>
          match MinidaqStats_copy s with
          | Ret s' => wait_all threads (vec ++ [s']) (Combine s all)
          | Throw e => Throw e | Crash => Crash | Undef => Undef
          end
      | Throw e => Throw e | Crash => Crash | Undef => Undef
      end
  end.
End Stats.

(** ** Accounting *)

Section Accounting.
Context {H : Type} `{HdrHistogram H}.

(** How often a sample was counted, over the four histograms. *)
Definition counted (s : @MinidaqStats H) : Z :=
  total_count (_histogramRps s) + total_count (_histogramCps s) + total_count (_histogramRpsErr s) +
  total_count (_histogramCpsErr s).

(** Every sample is in each histogram or counted as an overflow. *)
Definition stats_ok (s : @MinidaqStats H) : Prop :=
  counted s + _nOverflows s = 4 * _nIterations s /\ 0 <= _nOverflows s /\ 0 <= _nIterations s < 2 ^ 62.

Lemma counted_nonneg s : 0 <= counted s.
Proof.
  unfold counted. pose proof (total_count_nonneg (_histogramRps s)). pose proof (total_count_nonneg (_histogramCps s)).
  pose proof (total_count_nonneg (_histogramRpsErr s)). pose proof (total_count_nonneg (_histogramCpsErr s)). lia.
Qed.

Lemma stats_init_ok s : MinidaqStats_init = Ret s -> stats_ok s /\ _nOverflows s = 0 /\ counted s = 0.
Proof.
  unfold MinidaqStats_init. destruct (hdr_init _ _ _) as [h|] eqn:E; [|done]. intros [= <-].
  apply hdr_init_empty in E. unfold stats_ok, counted. cbn. rewrite E. lia.
Qed.

Lemma overflow_plus (b : bool) n : 0 <= n -> n + 1 < 2 ^ 64 -> overflow b n = n + (if b then 0 else 1).
Proof. intros Hn Hb. unfold overflow. destruct b; [lia|]. by rewrite uwrap_id by lia. Qed.

Lemma record_ok s st : stats_ok st -> _nIterations st + 1 < 2 ^ 61 -> stats_ok (RecordSample s st).
Proof.
  intros (Hc & Ho & Hi) Hb. unfold RecordSample. destruct (Z.eqb_spec (interval_ns s) 0); [done|].
  pose proof (counted_nonneg st) as Hn. unfold stats_ok, counted in *. cbn. rewrite !hdr_record_count.
  set (b1 := fst (hdr_record_value _ (_histogramRps st))). set (b2 := fst (hdr_record_value _ (_histogramCps st))).
  set (b3 := fst (hdr_record_value _ (_histogramRpsErr st))). set (b4 := fst (hdr_record_value _ (_histogramCpsErr st))).
  assert (Hx : forall b : bool, 0 <= (if b then 0 else 1) <= 1) by (intros []; lia).
  pose proof (Hx b1). pose proof (Hx b2). pose proof (Hx b3). pose proof (Hx b4).
  rewrite (overflow_plus b1), (overflow_plus b2), (overflow_plus b3), (overflow_plus b4) by lia.
  rewrite uwrap_id by lia. destruct b1, b2, b3, b4; lia.
Qed.

Lemma combine_ok r st : stats_ok r -> stats_ok st -> _nIterations st + _nIterations r < 2 ^ 61 ->
  stats_ok (Combine r st) /\ _nIterations (Combine r st) = _nIterations st + _nIterations r.
Proof.
  intros (Hc & Ho & Hi) (Hc' & Ho' & Hi') Hb. unfold Combine. destruct (Z.eqb_spec (_nIterations r) 0) as [E|]; [split; [done|lia]|].
  pose proof (counted_nonneg st) as Hn. pose proof (counted_nonneg r) as Hn'. unfold stats_ok, counted in *. cbn.
  destruct (hdr_add_count (_histogramRps st) (_histogramRps r)) as [D1 C1].
  destruct (hdr_add_count (_histogramCps st) (_histogramCps r)) as [D2 C2].
  destruct (hdr_add_count (_histogramRpsErr st) (_histogramRpsErr r)) as [D3 C3].
  destruct (hdr_add_count (_histogramCpsErr st) (_histogramCpsErr r)) as [D4 C4].
  rewrite C1, C2, C3, C4. rewrite !uwrap_id by lia. lia.
Qed.

(** The samples that took time. *)
Definition timed (l : list MinidaqSample) : Z := Z.of_nat (length (filter (fun x => interval_ns x <> 0) l)).

Lemma timed_cons x l : timed (x :: l) = (if interval_ns x =? 0 then 0 else 1) + timed l.
Proof.
  unfold timed. rewrite filter_cons. destruct (Z.eqb_spec (interval_ns x) 0) as [E|E]; case_decide; cbn [length]; lia.
Qed.

Lemma timed_app l l' : timed (l ++ l') = timed l + timed l'.
Proof. unfold timed. rewrite filter_app, length_app. lia. Qed.

Lemma timed_nonneg l : 0 <= timed l.
Proof. unfold timed. lia. Qed.

Lemma record_all l : forall st, stats_ok st -> _nIterations st + timed l < 2 ^ 61 ->
  let st' := fold_left (fun s x => RecordSample x s) l st in
  stats_ok st' /\ _nIterations st' = _nIterations st + timed l.
Proof.
  induction l as [|x l IH]; intros st Hs Hb st'; [by split; [|unfold timed; cbn; lia]|].
  rewrite timed_cons in *. pose proof (timed_nonneg l). unfold st'. cbn [fold_left].
  assert (Ei : _nIterations (RecordSample x st) = _nIterations st + (if interval_ns x =? 0 then 0 else 1)).
  { unfold RecordSample. destruct Hs as (_ & _ & Hi). destruct (interval_ns x =? 0); [lia|]. cbn. rewrite uwrap_id; lia. }
  assert (Hr : stats_ok (RecordSample x st)).
  { destruct (interval_ns x =? 0) eqn:E; [unfold RecordSample; by rewrite E|]. apply record_ok; [done|lia]. }
  destruct (IH _ Hr) as [Ho Hn]; [rewrite Ei; destruct (interval_ns x =? 0); lia|]. split; [exact Ho|].
  rewrite Hn, Ei. lia.
Qed.

(** The statistics account for every sample.  Record any samples in new statistics of
    several threads and combine them: each sample that took time is in each of the four
    histograms or counted as an overflow, and the number of iterations is that of all
    samples. *)
Theorem stats_account (threads : list (list MinidaqSample)) s0 :
  MinidaqStats_init = Ret s0 -> Z.of_nat (length (concat threads)) < 2 ^ 61 ->
  exists st, MinidaqStats_of (map (fun l => fold_left (fun s x => RecordSample x s) l s0) threads) = Ret st /\
    _nIterations st = Z.of_nat (length (filter (fun x => interval_ns x <> 0) (concat threads))) /\
    counted st + _nOverflows st = 4 * _nIterations st.
Proof.
  intros E Hb. destruct (stats_init_ok s0 E) as (Hs0 & Ho0 & Hc0). unfold MinidaqStats_of. rewrite E. eexists. split; [reflexivity|].
  assert (Hi0 : _nIterations s0 = 0) by (destruct Hs0; lia).
  enough (G : forall ls st, stats_ok st -> _nIterations st + timed (concat ls) < 2 ^ 61 ->
    let st' := fold_left (fun s r => Combine r s) (map (fun l => fold_left (fun s x => RecordSample x s) l s0) ls) st in
    stats_ok st' /\ _nIterations st' = _nIterations st + timed (concat ls)).
  { destruct (G threads s0 Hs0) as [(Hc & _) Hn].
    - unfold timed. pose proof (length_filter (fun x => interval_ns x <> 0) (concat threads)). lia.
    - split; [rewrite Hn, Hi0; done|exact Hc]. }
  induction ls as [|l ls IH]; intros st Hs Hbs st'; [by split; [|unfold timed; cbn; lia]|].
  unfold st'. cbn [map fold_left concat] in *. rewrite timed_app in *.
  pose proof (timed_nonneg l). pose proof (timed_nonneg (concat ls)).
  destruct (record_all l s0 Hs0) as [Hr Hn]; [destruct Hs as (_ & _ & ?); lia|]. cbv zeta in Hr, Hn. set (r := fold_left _ l s0) in *.
  destruct (combine_ok r st Hr Hs) as [Hc Hcn]; [lia|]. destruct (IH _ Hc) as [Ho Hno]; [lia|]. split; [exact Ho|]. rewrite Hno. lia.
Qed.
End Accounting.

(** ** What [Wait] loses *)

Section Wait.
Context {H : Type} `{HdrHistogram H}.

Lemma copy_overflows s s' : MinidaqStats_copy s = Ret s' -> _nOverflows s' = 0 /\ _nIterations s' = _nIterations s.
Proof.
  unfold MinidaqStats_copy, MinidaqStats_init. destruct (hdr_init _ _ _) as [h|]; [|done]. by intros [= <-].
Qed.

(** Overflows of the threads are not reported.  When histograms of the same range are
    added without loss, [Wait] leaves zero overflows in the combined statistics and in
    those of each thread, whatever the threads had counted: the copy constructor does not
    copy the counter, and [std::future] copies. *)
Theorem wait_loses_overflows threads s0 vec all : (forall h o : H, fst (hdr_add h o) = 0) -> MinidaqStats_init = Ret s0 ->
  wait_all threads [] s0 = Ret (vec, all) ->
  _nOverflows all = 0 /\ Forall (fun s => _nOverflows s = 0) vec /\ length vec = length threads.
Proof.
  intros Hadd E0. destruct (stats_init_ok s0 E0) as (_ & Ho & _).
  enough (G : forall v st, _nOverflows st = 0 -> Forall (fun s => _nOverflows s = 0) v -> wait_all threads v st = Ret (vec, all) ->
    _nOverflows all = 0 /\ Forall (fun s => _nOverflows s = 0) vec /\ length vec = (length v + length threads)%nat)
    by (intros E; exact (G [] s0 Ho (Forall_nil_2 _) E)).
  induction threads as [|t threads IH]; intros v st Hst Hv E; cbn [wait_all] in E; [injection E as <- <-; by rewrite Nat.add_0_r|].
  destruct (MinidaqStats_copy t) as [s1| | |] eqn:E1; try done. cbn [ocopy] in E.
  destruct (MinidaqStats_copy s1) as [s2| | |] eqn:E2; try done. destruct (MinidaqStats_copy s2) as [s3| | |] eqn:E3; try done.
  destruct (copy_overflows _ _ E2) as [O2 _]. destruct (copy_overflows _ _ E3) as [O3 _].
  destruct (IH (v ++ [s3]) (Combine s2 st)) as (Ha & Hf & Hl).
  - unfold Combine. destruct (_ =? 0); [done|]. cbn. rewrite !Hadd, Hst, O2. done.
  - apply Forall_app. split; [done|]. by constructor.
  - done.
  - split_and!; [done|done|]. rewrite Hl, length_app. cbn. lia.
Qed.
End Wait.

(** ** A histogram that keeps its values *)

#[export, refine] Instance list_histogram : HdrHistogram (list Z) :=
  {| hdr_init := fun _ _ _ => Some [];
     hdr_record_value := fun v h => if v <=? OPS_MAX then (true, v :: h) else (false, h);
     hdr_add := fun h o => (0, o ++ h); total_count := fun h => Z.of_nat (length h) |}.
Proof.
  - by intros lo hi d h [= <-].
  - intros v h. destruct (v <=? OPS_MAX); cbn [fst snd length]; lia.
  - intros h o. cbn [fst snd]. rewrite length_app. lia.
  - lia.
Defined.

(** The second sample of the first thread is too fast for the histograms. *)
Definition run_samples : list (list MinidaqSample) :=
  [[mkSample 10 9 1 0 1000; mkSample (10 ^ 9) 0 0 0 1]; [mkSample 5 5 0 0 1000; mkSample 3 3 0 0 0]].
Definition stats0 : @MinidaqStats (list Z) := mkStats [] [] [] [] 0 0 0.
Definition run_threads := map (fun l => fold_left (fun s x => RecordSample x s) l stats0) run_samples.

Lemma stats_account_witness : exists st, MinidaqStats_of run_threads = Ret st /\ _nIterations st = 3 /\ counted st + _nOverflows st = 12.
Proof.
  destruct (stats_account run_samples stats0) as (st & E & Hn & Hc); [reflexivity|cbn; lia|].
  assert (Hn3 : _nIterations st = 3) by exact Hn. exists st. split; [exact E|]. split; [exact Hn3|]. rewrite Hc, Hn3. reflexivity.
Defined.

Lemma wait_loses_overflows_witness : map _nOverflows run_threads = [1; 0] /\
  exists vec all, wait_all run_threads [] stats0 = Ret (vec, all) /\ _nOverflows all = 0.
Proof.
  split; [vm_compute; reflexivity|]. destruct (wait_all run_threads [] stats0) as [[vec all]| | |] eqn:E; [|vm_compute in E; discriminate..].
  destruct (wait_loses_overflows run_threads stats0 vec all) as [Ho _]; [intros h o; reflexivity|reflexivity|exact E|].
  exists vec, all. split; [reflexivity|exact Ho].
Defined.
