(* ===== verification/MinidaqExec.v ===== *)
(** * The loop of a benchmark thread ([MinidaqTimerHR], [MinidaqNode::_Execute])

    A thread runs rounds of its node until its time is over, a round fails, another thread
    stops, or the limit on iterations is reached.  The clock is a sequence of readings, and
    so is the flag that other threads set; the rounds are any code.  The loops count down
    fuel; [None] says that they are still running. *)

From S2P Require Import Prelude Status MinidaqStats.

(** ** [class MinidaqTimerHR], in nanoseconds *)

Record MinidaqTimerHR : Type := mkTimer { _reqInterval : Z; _currInterval : Z; _start : Z; _expired : bool }.

Definition Restart_s (s now : Z) (t : MinidaqTimerHR) : MinidaqTimerHR := mkTimer (s * 10 ^ 9) (_currInterval t) now false.
Definition Restart_ms (ms now : Z) (t : MinidaqTimerHR) : MinidaqTimerHR := mkTimer (ms * 10 ^ 6) (_currInterval t) now false.
Definition Restart_us (us now : Z) (t : MinidaqTimerHR) : MinidaqTimerHR := mkTimer (us * 10 ^ 3) (_currInterval t) now false.

(** A timer that is expired does not look at the clock again. *)
Definition IsExpired (now : Z) (t : MinidaqTimerHR) : bool * MinidaqTimerHR :=
  if _expired t then (true, t)
  else
    let cur := now - _start t in
    let b := _reqInterval t <=? cur in
    (b, mkTimer (_reqInterval t) cur (_start t) b).

Definition GetElapsed_ns (now : Z) (t : MinidaqTimerHR) : Z * MinidaqTimerHR :=
  let t := snd (IsExpired now t) in (u64 (_currInterval t), t).

(** ** [_Execute] *)

Section Execute.
Context {H : Type} `{HdrHistogram H} {X : Type}.

(** A round is [_NextKey] and [_Task]; [take_counts] reads the counters of completions and
    errors and sets them to zero. *)
Context (round : M exn X unit) (take_counts : X -> (Z * Z) * X).

(** The readings of the clock, and whether another thread has set [_stopped] by then. *)
Context (clock : nat -> Z) (others_stop : nat -> bool).

Record ExecConf : Type := mkExecConf { _tTest_ms : Z; _tRamp_ms : Z; _tIter_us : Z; _maxIterations : Z; _stopOnError : bool }.

Record ExecState : Type := mkExecState {
  e_x : X; e_clk : nat; e_i : Z; e_sample : MinidaqSample; e_stopped : bool; e_stats : @MinidaqStats H }.

Definition stopped (st : ExecState) : bool := e_stopped st || others_stop (e_clk st).
Definition tick (st : ExecState) : ExecState :=
  mkExecState (e_x st) (S (e_clk st)) (e_i st) (e_sample st) (e_stopped st) (e_stats st).
Definition set_stopped (st : ExecState) : ExecState :=
  mkExecState (e_x st) (e_clk st) (e_i st) (e_sample st) true (e_stats st).
Definition next_i (st : ExecState) : ExecState :=
  mkExecState (e_x st) (e_clk st) (u64 (e_i st + 1)) (e_sample st) (e_stopped st) (e_stats st).

(** [_maxIterations && i > _maxIterations]. *)
Definition over (c : ExecConf) (st : ExecState) : bool := negb (_maxIterations c =? 0) && (_maxIterations c <? e_i st).

Definition add_request (s : MinidaqSample) : MinidaqSample :=
  mkSample (u64 (nRequests s + 1)) (nCompletions s) (nErrRequests s) (nErrCompletions s) (interval_ns s).
Definition add_error (s : MinidaqSample) : MinidaqSample :=
  mkSample (nRequests s) (nCompletions s) (u64 (nErrRequests s + 1)) (nErrCompletions s) (interval_ns s).

(** The request and the handler of all exceptions; [sampling] says whether errors are
    counted. *)
Definition try_round (c : ExecConf) (sampling : bool) (st : ExecState) : outcome exn ExecState :=
  let s := add_request (e_sample st) in
  match round (e_x st) with
  | (Ret _, x) => Ret (mkExecState x (e_clk st) (e_i st) s (e_stopped st) (e_stats st))
  | (Throw _, x) =>
      Ret (mkExecState x (e_clk st) (e_i st) (if sampling then add_error s else s)
             (e_stopped st || _stopOnError c) (e_stats st))
  | (Crash, _) => Crash
  | (Undef, _) => Undef
  end.

Fixpoint ramp (fuel : nat) (c : ExecConf) (t : MinidaqTimerHR) (st : ExecState) : option (outcome exn ExecState) :=
  match fuel with
  | O => None
  | S fuel =>
      let (ex, t) := IsExpired (clock (e_clk st)) t in
      let st := tick st in
      if ex || stopped st then Some (Ret st)
      else
        let st := next_i st in
        if over c st then Some (Ret (set_stopped st))
        else match try_round c false st with Ret st => ramp fuel c t st | r => Some r end
  end.

(** The [do] loop of one sample. *)
Fixpoint sample_loop (fuel : nat) (c : ExecConf) (t : MinidaqTimerHR) (st : ExecState) :
    option (outcome exn (MinidaqTimerHR * ExecState)) :=
  match fuel with
  | O => None
  | S fuel =>
      let st := next_i st in
      if over c st then Some (Ret (t, set_stopped st))
      else
        match try_round c true st with
        | Ret st =>
            if stopped st then Some (Ret (t, st))
            else
              let (ex, t) := IsExpired (clock (e_clk st)) t in
              let st := tick st in
              if ex then Some (Ret (t, st)) else sample_loop fuel c t st
        | Throw e => Some (Throw e)
        | Crash => Some Crash
        | Undef => Some Undef
        end
  end.

(** The end of a sample: the interval and the counters, which are set to zero. *)
Definition end_sample (t : MinidaqTimerHR) (st : ExecState) : ExecState :=
  let (ns, _) := GetElapsed_ns (clock (e_clk st)) t in
  let '((n, err), x) := take_counts (e_x st) in
  let s := mkSample (nRequests (e_sample st)) n (nErrRequests (e_sample st)) err ns in
  mkExecState x (S (e_clk st)) (e_i st) s (e_stopped st) (RecordSample s (e_stats st)).

Definition start_sample (st : ExecState) : ExecState :=
  mkExecState (e_x st) (S (e_clk st)) (e_i st) Sample_Reset (e_stopped st) (e_stats st).

Fixpoint samples (fuel : nat) (c : ExecConf) (t : MinidaqTimerHR) (st : ExecState) : option (outcome exn ExecState) :=
  match fuel with
  | O => None
  | S fuel' =>
      let (ex, t) := IsExpired (clock (e_clk st)) t in
      let st := tick st in
      if ex then Some (Ret st)
      else
        match sample_loop fuel c (Restart_us (_tIter_us c) (clock (e_clk st)) (mkTimer 0 0 0 true)) (start_sample st) with
        | None => None
        | Some (Ret (ts, st)) => if stopped st then Some (Ret st) else samples fuel' c t (end_sample ts st)
        | Some (Throw e) => Some (Throw e)
        | Some Crash => Some Crash
        | Some Undef => Some Undef
        end
  end.

(** [c = 0; c_err = 0]. *)
Definition reset_counts (st : ExecState) : ExecState :=
  mkExecState (snd (take_counts (e_x st))) (e_clk st) (e_i st) (e_sample st) (e_stopped st) (e_stats st).

(** Up to the end of the samples; [_Setup] is part of [x]. *)
Definition _Execute (fuel : nat) (c : ExecConf) (x : X) (stats : @MinidaqStats H) : option (outcome exn ExecState) :=
  let st := mkExecState x 1 0 (mkSample 0 0 0 0 0) false stats in
  match ramp fuel c (Restart_ms (_tRamp_ms c) (clock 0) (mkTimer 0 0 0 true)) st with
  | Some (Ret st) =>
      let t := Restart_ms (_tTest_ms c) (clock (e_clk st)) (mkTimer 0 0 0 true) in
      match samples fuel c t (reset_counts (tick st)) with
      | Some (Ret st) => Some (Ret (set_stopped st))
      | r => r
      end
  | r => r
  end.

(** What the thread prints as the number of iterations. *)
Definition printed (st : ExecState) : Z := u64 (e_i st - 1).
End Execute.

(** ** The limit on iterations *)

Section Limit.
Context {H : Type} `{HdrHistogram H} {X : Type}.
Context (round : M exn X unit) (take_counts : X -> (Z * Z) * X) (clock : nat -> Z) (others_stop : nat -> bool) (c : ExecConf).

(** [steps] counts the rounds that were run; a round returns or throws. *)
Context (steps : X -> Z).
Context (steps_round : forall x, steps (snd (round x)) = steps x + 1) (steps_take : forall x, steps (snd (take_counts x)) = steps x).
Context (round_ends : forall x, match fst (round x) with Ret _ | Throw _ => True | _ => False end).
Context (Hmax : 0 < _maxIterations c < 2 ^ 62).

#[local] Abbreviation max := (_maxIterations c).
#[local] Abbreviation state := (@ExecState H X).
Implicit Types st : state.

(** After [i] increments the thread has run all rounds up to the limit, since it started
    with [k] rounds. *)
Definition in_step (k : Z) st : Prop :=
  steps (e_x st) = k + Z.min (e_i st) max /\ 0 <= e_i st <= max + 2 /\ (max < e_i st -> e_stopped st = true).

Lemma in_step_tick k st : in_step k st -> in_step k (tick st).
Proof. done. Qed.

Lemma over_spec st : over c st = (max <? e_i st).
Proof. unfold over. destruct (Z.eqb_spec max 0); [lia|done]. Qed.

(** One increment with the round that follows it, or the stop. *)
Lemma step_next k b st : in_step k st -> e_i st <= max + 1 ->
  if over c (next_i st) then in_step k (set_stopped (next_i st)) /\ max <= e_i st
  else exists st', try_round round c b (next_i st) = Ret st' /\ in_step k st' /\ e_i st' = e_i st + 1 /\ e_i st' <= max.
Proof.
  intros (Hs & Hi & Hst) Hle. rewrite over_spec. cbn [next_i e_i]. rewrite uwrap_id by lia.
  destruct (Z.ltb_spec max (e_i st + 1)) as [Hlt|Hge].
  - split; [|lia]. unfold in_step. cbn. rewrite uwrap_id by lia. rewrite Hs. split; [|split; [lia|done]]. f_equal.
    destruct (Z.le_gt_cases (e_i st) max); lia.
  - unfold try_round. cbn [e_x next_i e_i e_sample e_clk e_stopped e_stats]. rewrite uwrap_id by lia.
    pose proof (steps_round (e_x st)) as Hr. pose proof (round_ends (e_x st)) as He.
    destruct (round (e_x st)) as [[u|e| |] x']; cbn [fst snd] in *; try done;
      (eexists; split; [reflexivity|]; split; [|split; [reflexivity|done]]; unfold in_step; cbn; split; [lia|split; [lia|lia]]).
Qed.

Lemma ramp_run fuel : forall k t st, in_step k st -> e_i st <= max + 1 -> max + 1 - e_i st < Z.of_nat fuel ->
  exists st', ramp round clock others_stop fuel c t st = Some (Ret st') /\ in_step k st' /\ e_i st <= e_i st' <= max + 2 /\
    (e_i st <= max -> e_i st' <= max + 1).
Proof.
  induction fuel as [|fuel IH]; intros k t st I Hle Hf; [lia|]. cbn [ramp].
  destruct (IsExpired (clock (e_clk st)) t) as [ex t'].
  destruct (ex || stopped others_stop (tick st)); [exists (tick st); split_and!; try done; cbn; lia|].
  pose proof (step_next k false (tick st) (in_step_tick _ _ I) Hle) as HS. cbn [tick e_i] in HS.
  destruct (over c (next_i (tick st))) eqn:Eo.
  - destruct HS as [HS Hge]. eexists. split; [reflexivity|]. split; [done|]. destruct I as (_ & ? & _). cbn. rewrite uwrap_id by lia. lia.
  - destruct HS as (st' & E & I' & Ei & Hm). rewrite E.
    destruct (IH k t' st' I') as (st'' & E' & I'' & Hi & Hi'); [lia|lia|]. exists st''. split_and!; try done; lia.
Qed.

Lemma sample_loop_run fuel : forall k t st, in_step k st -> e_i st <= max + 1 -> max + 1 - e_i st < Z.of_nat fuel ->
  exists t' st', sample_loop round clock others_stop fuel c t st = Some (Ret (t', st')) /\ in_step k st' /\
    e_i st < e_i st' <= max + 2.
Proof.
  induction fuel as [|fuel IH]; intros k t st I Hle Hf; [lia|]. cbn [sample_loop].
  pose proof (step_next k true st I Hle) as HS. destruct (over c (next_i st)) eqn:Eo.
  - destruct HS as [HS Hge]. eexists _, _. split; [reflexivity|]. split; [done|]. destruct I as (_ & ? & _). cbn. rewrite uwrap_id by lia. lia.
  - destruct HS as (st' & E & I' & Ei & Hm). rewrite E. destruct (stopped others_stop st'); [eexists _, _; split_and!; try done; lia|].
    destruct (IsExpired (clock (e_clk st')) t) as [ex t']. destruct ex; [eexists _, _; split_and!; try done; cbn; lia|].
    destruct (IH k t' (tick st') I') as (t2 & st2 & E2 & I2 & Hi); [cbn; lia|cbn; lia|]. cbn [tick e_i] in Hi.
    eexists _, _. split_and!; try done; lia.
Qed.

Lemma end_sample_step k t st : in_step k st -> in_step k (end_sample take_counts clock t st).
Proof.
  intros (Hs & Hi & Hst). unfold end_sample. destruct (GetElapsed_ns _ t) as [ns t'].
  pose proof (steps_take (e_x st)) as Ht. destruct (take_counts (e_x st)) as [[n err] x]. cbn [snd] in Ht.
  unfold in_step. cbn. by rewrite Ht.
Qed.

Lemma samples_run fuel : forall k t st, in_step k st -> e_i st <= max + 1 -> max + 1 - e_i st < Z.of_nat fuel ->
  exists st', samples round take_counts clock others_stop fuel c t st = Some (Ret st') /\ in_step k st'.
Proof.
  induction fuel as [|fuel IH]; intros k t st I Hle Hf; [lia|]. cbn [samples].
  destruct (IsExpired (clock (e_clk st)) t) as [ex t']. destruct ex; [by exists (tick st)|].
  set (ts := Restart_us _ _ _).
  destruct (sample_loop_run (S fuel) k ts (start_sample (tick st)) I Hle Hf) as (t2 & st2 & E & I2 & Hi). rewrite E.
  destruct (stopped others_stop st2) eqn:Es; [by exists st2|].
  assert (Hm : e_i st2 <= max).
  { destruct (Z.le_gt_cases (e_i st2) max) as [?|Hgt]; [done|]. exfalso. destruct I2 as (_ & _ & Hst). unfold stopped in Es.
    rewrite Hst in Es by lia. done. }
  assert (Ee : e_i (end_sample take_counts clock t2 st2) = e_i st2).
  { unfold end_sample. destruct (GetElapsed_ns _ t2). by destruct (take_counts (e_x st2)) as [[]]. }
  cbn [start_sample tick e_i] in Hi. apply (IH k t' (end_sample take_counts clock t2 st2)); [by apply end_sample_step|lia|lia].
Qed.

(** A thread with a limit on iterations stops, whatever the clock and the other
    threads do.  The loops of [_Execute] end after at most two more turns than the limit,
    and the number of rounds that were run is the smaller of the counter [i] and the limit,
    so never above the limit.  When the time was over first, the number that is printed is
    one less than the rounds. *)
Theorem minidaq_execute_stops x stats fuel : max + 1 < Z.of_nat fuel ->
  exists st, _Execute round take_counts clock others_stop fuel c x stats = Some (Ret st) /\
    steps (e_x st) - steps x = Z.min (e_i st) max /\ 0 <= e_i st <= max + 2 /\
    (e_i st <= max -> printed st = u64 (steps (e_x st) - steps x - 1)).
Proof.
  intros Hf. unfold _Execute. set (st0 := mkExecState _ _ _ _ _ _). set (t0 := Restart_ms _ _ _).
  assert (I0 : in_step (steps x) st0) by (unfold in_step; cbn; lia).
  destruct (ramp_run fuel (steps x) t0 st0 I0) as (st1 & E1 & I1 & Hi & Hi'); [cbn; lia|cbn; lia|]. rewrite E1.
  set (t1 := Restart_ms _ _ _).
  assert (I1' : in_step (steps x) (reset_counts take_counts (tick st1))).
  { destruct I1 as (Hs & ? & ?). unfold in_step. cbn. by rewrite steps_take. }
  destruct (samples_run fuel (steps x) t1 _ I1') as (st2 & E2 & I2); [cbn in Hi' |- *; lia|cbn; cbn in Hi; lia|].
  rewrite E2. exists (set_stopped st2). split; [done|]. destruct I2 as (Hs & Hb & _). unfold printed. cbn. rewrite Hs.
  split; [lia|]. split; [done|]. intros Hle. f_equal. lia.
Qed.
End Limit.

(** ** A concrete run *)

(** A node that only counts, under a clock that stands still. *)
Lemma minidaq_execute_stops_witness : exists st,
  _Execute (H := list Z) (X := Z) (fun x => (Ret tt, x + 1)) (fun x => ((0, 0), x)) (fun _ => 0) (fun _ => false) 12
    (mkExecConf 1 1 1 10 false) 0 (mkStats [] [] [] [] 0 0 0) = Some (Ret st) /\
  e_x st - 0 = Z.min (e_i st) 10.
Proof.
  destruct (minidaq_execute_stops (H := list Z) (X := Z) (fun x => (Ret tt, x + 1)) (fun x => ((0, 0), x)) (fun _ => 0)
    (fun _ => false) (mkExecConf 1 1 1 10 false) (fun x => x)) with (x := 0) (stats := mkStats (H := list Z) [] [] [] [] 0 0 0)
    (fuel := 12%nat) as (st & E & Hs & _); [intros x; reflexivity|intros x; reflexivity|intros x; exact I|cbn; lia|cbn; lia|].
  exists st. split; [exact E|exact Hs].
Defined.
