(* ===== verification/StoreOpen.v ===== *)
(** * Opening a store ([KVStore::Open], [KVStore::init])

    [init] opens the tree, checks the size of keys, starts the DHT server and the pollers,
    and gives each thread a core. *)

From stdpp Require Import strings.
From S2P Require Import Prelude Status CString ARTree DhtCore Poller PrimaryKey RTreeEngine Rqst KVStore DhtRpc SpdkConf SpdkInit SpdkCore KVStoreThin Configuration.

#[local] Open Scope Z_scope.

(** ** [KVStore::init] *)

(** [Options] with the rest of [RuntimeOptions] and the id of the node. *)
Record StoreOptions : Type := mkStoreOptions {
  so_options : Options; numOfPollers : Z; maxReadyKeys : Z; node_id : Z }.

Section Open.
Context {P R : Type} `{SpdkRing (list Z) R}.

(** What the constructors and calls of [init] find: the tree, the answers of [SpdkCore]'s
    constructor, whether the nexus and the client come up, and the ring of ready keys.
    [DhtServer]'s constructor returns or ends the process; the state that it reports is
    only logged, and so is nothing of [waitReady]'s answer. *)
Record open_env : Type := mkOpenEnv {
  oe_tree : outcome exn (@ARTree P); oe_raw : list Z; oe_writable : bool; oe_spdk : bool;
  oe_nexus : outcome exn unit; oe_server : outcome exn unit; oe_client : outcome exn unit; oe_ring : option R }.

(** A [PmemPoller] that was started: its core, which is set unless it is 0, and whether it
    has the offload poller. *)
Record StartedPoller : Type := mkStartedPoller { _cpuCore : Z; offloadPoller : bool }.

(** An open store.  The server is given by the number of its threads and their first core. *)
Record OpenStore : Type := mkOpenStore {
  os_tree : @ARTree P; os_keySize : Z; os_spdk : SpdkCore; os_dht : DhtCore; _spDhtServer : option (Z * Z);
  os_offload : bool; _rqstPollers : list StartedPoller; os_pkey : @PrimaryKeyEngine R }.

(** [DhtServer(dhtCore, kvs, dhtCount, baseCoreId)]: both numbers become [uint8_t]. *)
Definition start_dht (env : open_env) (dhtCount baseCoreId : Z) : outcome exn (option (Z * Z)) :=
  if dhtCount =? 0 then Ret None
  else
    let? _ := oe_nexus env in
    let? _ := oe_server env in
    let? _ := oe_client env in
    Ret (Some (u8 dhtCount, u8 baseCoreId)).

(** The loop over the pollers. *)
Definition start_pollers (bdev : bool) (baseCoreId coresUsed pollerCount : Z) : list StartedPoller :=
  (fun i => mkStartedPoller (baseCoreId + i) bdev) <$> seqZ coresUsed pollerCount.

Definition KVStore_init (env : open_env) (so : StoreOptions) : outcome exn OpenStore :=
  let o := so_options so in
  let keySize := init_keySize (opt_key o) in
  let? t := oe_tree env in
  let (n, t) := SetKeySize (key_size (opt_key o)) t in
  let? n := n in
  if negb (n =? key_size (opt_key o)) then Throw (OperationFailedException NOT_SUPPORTED)
  else
    let? spdk := SpdkCore_init (oe_raw env) (oe_writable env) (oe_spdk env) (offload o) in
    let? d := DhtCore_init (dht o) in
    let? srv := start_dht env (numOfDhtThreads o) (baseCoreId o) in
    let bdev := isBdevFound spdk in
    let coresUsed := numOfDhtThreads o + (if bdev then 1 else 0) in
    let pollers := start_pollers bdev (baseCoreId o) coresUsed (numOfPollers so) in
    let? pk := PrimaryKeyEngine_open (opt_key o) (node_id so) (Z.of_nat (length (neighbors (dht o)))) (maxReadyKeys so) (oe_ring env) in
    Ret (mkOpenStore t keySize spdk d srv bdev pollers pk).

(** The core of each DHT thread: the server thread and its workers. *)
Definition dht_cores (srv : option (Z * Z)) : list Z :=
  match srv with None => [] | Some (n, base) => Z.add base <$> seqZ 0 (Z.max 1 n) end.

Definition store_cores (s : OpenStore) : list Z := dht_cores (_spDhtServer s) ++ (_cpuCore <$> _rqstPollers s).

(** ** What is opened *)

Lemma obind_ret {E A B} (o : outcome E A) (k : A -> outcome E B) b : obind o k = Ret b -> exists a, o = Ret a /\ k a = Ret b.
Proof. destruct o; simpl; [eauto|done..]. Qed.

Lemma init_keySize_sum k : key_size k <> 0 -> init_keySize k = key_size k.
Proof.
  unfold init_keySize, key_size. rewrite (fold_fields (fun n f => u64 (n + fsize f))). intros Hn.
  by destruct (Z.eqb_spec (fold_left (fun n f => u64 (n + fsize f)) k 0) 0).
Qed.

Lemma KVStore_init_ret env so s : KVStore_init env so = Ret s ->
  key_size (opt_key (so_options so)) = LEVELS - 1 /\ os_keySize s = init_keySize (opt_key (so_options so)) /\
  ARTree.keySize (os_tree s) = LEVELS - 1 /\
  start_dht env (numOfDhtThreads (so_options so)) (baseCoreId (so_options so)) = Ret (_spDhtServer s) /\
  os_offload s = isBdevFound (os_spdk s) /\
  _rqstPollers s = start_pollers (os_offload s) (baseCoreId (so_options so))
    (numOfDhtThreads (so_options so) + (if os_offload s then 1 else 0)) (numOfPollers so).
Proof.
  unfold KVStore_init. intros (t & Et & E)%obind_ret. cbn [SetKeySize] in E. unfold SetKeySize in E.
  apply obind_ret in E as (n & [= <-] & E). destruct (Z.eqb_spec (LEVELS - 1) (key_size (opt_key (so_options so)))) as [Ek|]; [|done].
  cbn [negb] in E. apply obind_ret in E as (spdk & _ & E). apply obind_ret in E as (d & _ & E). apply obind_ret in E as (srv & Es & E).
  apply obind_ret in E as (pk & _ & [= <-]). by rewrite Es.
Qed.

(** C16. A store that was opened has keys of the size that the tree has: with any other
    total size of the key's fields, an empty description of keys included, [init] throws
    [NOT_SUPPORTED] once the tree is open. *)
Theorem store_open_key_size env so t : oe_tree env = Ret t ->
  (key_size (opt_key (so_options so)) <> LEVELS - 1 -> KVStore_init env so = Throw (OperationFailedException NOT_SUPPORTED)) /\
  (forall s, KVStore_init env so = Ret s -> os_keySize s = LEVELS - 1 /\ ARTree.keySize (os_tree s) = os_keySize s /\
     key_size (opt_key (so_options so)) = os_keySize s).
Proof.
  intros Et. split.
  - intros Hne. unfold KVStore_init. rewrite Et. cbn [obind]. unfold SetKeySize. cbn [obind].
    destruct (Z.eqb_spec (LEVELS - 1) (key_size (opt_key (so_options so)))); [congruence|done].
  - intros s (Hk & Hs & Ht & _)%KVStore_init_ret.
    assert (os_keySize s = LEVELS - 1) as -> by (rewrite Hs, init_keySize_sum; rewrite Hk; done). done.
Qed.

Lemma pollers_cores b base used n : _cpuCore <$> start_pollers b base used n = seqZ (base + used) n.
Proof.
  unfold start_pollers. rewrite <- list_fmap_compose. rewrite <- fmap_add_seqZ. by apply list_fmap_ext.
Qed.

Lemma dht_cores_seq env o srv : 0 <= baseCoreId o < 256 -> 0 <= numOfDhtThreads o < 256 ->
  start_dht env (numOfDhtThreads o) (baseCoreId o) = Ret srv -> dht_cores srv = seqZ (baseCoreId o) (numOfDhtThreads o).
Proof.
  intros Hb Hn. unfold start_dht. destruct (Z.eqb_spec (numOfDhtThreads o) 0) as [E0|Hne].
  - intros [= <-]. by rewrite E0.
  - intros (_ & _ & E)%obind_ret. apply obind_ret in E as (_ & _ & E). apply obind_ret in E as (_ & _ & [= <-]).
    cbn [dht_cores]. rewrite (uwrap_id 8), (uwrap_id 8), fmap_add_seqZ by lia. f_equal; lia.
Qed.

(** The cores of a store: those of the DHT threads, one that is left for the offload
    thread when there is a device, and those of the pollers. *)
Lemma store_cores_seq env so s : KVStore_init env so = Ret s -> 0 <= baseCoreId (so_options so) < 256 ->
  0 <= numOfDhtThreads (so_options so) < 256 ->
  store_cores s = seqZ (baseCoreId (so_options so)) (numOfDhtThreads (so_options so)) ++
    seqZ (baseCoreId (so_options so) + (numOfDhtThreads (so_options so) + (if os_offload s then 1 else 0))) (numOfPollers so).
Proof.
  intros (_ & _ & _ & Hs & _ & Hp)%KVStore_init_ret Hb Hn. unfold store_cores.
  by rewrite Hp, pollers_cores, (dht_cores_seq env (so_options so) _ Hb Hn Hs).
Qed.
End Open.

(** ** A store that opens *)

Section Runs.
#[local] Existing Instances simple_pool.
#[local] Instance key_ring : SpdkRing (list Z) (list_ring (list Z)) := simple_ring (list Z).

Definition open_run : @open_env (gset positive) (list_ring (list Z)) :=
  mkOpenEnv (Ret run_new) [] true true (Ret tt) (Ret tt) (Ret tt) None.
Definition open_options : StoreOptions :=
  mkStoreOptions (mkOptions "" 0 0 [mkField 6 true; mkField 2 false] STORAGE 4 OffloadOptions_init (mkDhtOptions [] 0 0) 2 0) 3 0 0.

Lemma store_open_key_size_witness : exists s, KVStore_init open_run open_options = Ret s /\ os_keySize s = 8 /\
  store_cores s = [4; 5; 6; 7; 8].
Proof.
  destruct (KVStore_init open_run open_options) as [s| | |] eqn:E; [|vm_compute in E; discriminate..].
  exists s. split; [reflexivity|]. destruct (store_open_key_size open_run open_options run_new) as [_ H]; [reflexivity|].
  destruct (H s E) as (Hk & _). split; [exact Hk|]. vm_compute in E. injection E as <-. reflexivity.
Defined.
End Runs.
