(* ===== verification/MinidaqApp.v ===== *)
(** * The minidaq benchmark ([apps/minidaq/minidaq.cpp])

    The program opens a store with [openKVS], which fills in the options, makes its nodes,
    and runs them with [runBenchmark], which gives a core to each of their threads.  The
    command line is given by the values of its options.  [exit] is the outcome [Crash]. *)

From stdpp Require Import strings.
From S2P Require Import Prelude Status ARTree DhtCore Poller PrimaryKey KVStoreThin SpdkConf Configuration StoreOpen MinidaqKey.

#[local] Open Scope Z_scope.

(** ** [openKVS] *)

(** The options of the command line that concern the store and the threads. *)
Record Args : Type := mkArgs {
  pmem_path : string; pmem_size : Z; fSize : Z; nPoolers : Z; nDhtThreads : Z; bDhtId : Z; nCores : Z; bCoreId : Z;
  a_maxReadyKeys : Z; satellite : bool; isParallel : bool; nRoTh : Z; nAroTh : Z; nFfTh : Z; nEbTh : Z }.

(** The node that a storage node without neighbours adds for itself; it is the address of
    [localDht]. *)
Definition localDht : DhtNeighbor := mkDhtNeighbor "localhost" 31850 "" "" true.

(** The fields of [MinidaqKey]. *)
Definition minidaq_fields (k : KeyDescriptor) : KeyDescriptor :=
  field_set 2 2 false (field_set 1 1 false (field_set 0 (Z.of_nat sizeof_eventId) true k)).

(** Options that are read from a file, when it exists; a failure is only printed, and what
    was read before it stays. *)
Definition read_file (file : option Config) (o : Options) : outcome exn Options :=
  match file with
  | None => Ret o
  | Some c => let? r := readConfiguration c o in Ret (snd r)
  end.

(** The offload options of the second file replace those of the first, except for the
    size of stripes. *)
Definition take_offload (from : OffloadOptions) (o : Options) : Options :=
  set_offload (mkOffloadOptions (devType from) (oname from) (o_allocUnitSize from) (raid0StripeSize (offload o)) (_devs from)) o.

(** [openKVS] up to [KVStoreBase::Open]: the options, the cores that it counts, and whether
    the node is alone. *)
Definition openKVS (config spdk_conf : option Config) (a : Args) : outcome exn (StoreOptions * Z * bool) :=
  let? o := read_file config Options_init in
  let nCoresUsed := nPoolers a + (if satellite a then 0 else nDhtThreads a) in
  if nCores a <? nCoresUsed then Crash
  else
    let singleNode := negb (satellite a) && (length (neighbors (dht o)) =? 0)%nat in
    let o := mkOptions (pmem_path a) (u64 (pmem_size a)) (u64 (fSize a)) (minidaq_fields (opt_key o))
               (if satellite a then SATELLITE else STORAGE) (u16 (bCoreId a)) (offload o)
               (mkDhtOptions (if singleNode then [localDht] else neighbors (dht o)) (maskLength (dht o)) (maskOffset (dht o)))
               (u16 (nDhtThreads a)) (u16 (bDhtId a)) in
    let? o := match spdk_conf with
              | None => Ret o
              | Some c => let? spdk_options := read_file (Some c) Options_init in Ret (take_offload (offload spdk_options) o)
              end in
    Ret (mkStoreOptions o (u16 (nPoolers a)) (u64 (a_maxReadyKeys a)) 0, nCoresUsed, singleNode).

(** ** [runBenchmark] *)

Inductive node_kind : Type := KRo | KAro | KFf | KFfSeq.

(** A node that is configured: how many threads it has, and its first core. *)
Record BenchNode : Type := mkBenchNode { bn_kind : node_kind; bn_threads : Z; bn_baseCore : Z }.

(** The loop that configures the nodes; [exit] when there are not enough cores. *)
Fixpoint configure (a : Args) (nCoresUsed : Z) (nodes : list (node_kind * Z)) : outcome exn (Z * list BenchNode) :=
  match nodes with
  | [] => Ret (nCoresUsed, [])
  | (k, th) :: nodes =>
      let n := mkBenchNode k th (bCoreId a + nCoresUsed) in
      let nCoresUsed := nCoresUsed + th in
      if nCores a <? nCoresUsed then Crash
      else let? r := configure a nCoresUsed nodes in Ret (fst r, n :: snd r)
  end.

(** [_Affinity]: the core of an executor, with [_nCores] as many as there are threads. *)
Definition executor_core (n : BenchNode) (executorId : Z) : Z := bn_baseCore n + executorId mod bn_threads n.
Definition node_cores (n : BenchNode) : list Z := executor_core n <$> seqZ 0 (bn_threads n).
Definition bench_cores (l : list BenchNode) : list Z := mjoin (node_cores <$> l).

(** ** [main] *)

Definition readout_nodes (a : Args) : list (node_kind * Z) :=
  (if nRoTh a =? 0 then [] else [(KRo, nRoTh a)]) ++ (if nAroTh a =? 0 then [] else [(KAro, nAroTh a)]).
Definition filter_nodes (a : Args) : list (node_kind * Z) :=
  if nFfTh a =? 0 then [] else [(if a_maxReadyKeys a =? 0 then KFfSeq else KFf, nFfTh a)].

(** The runs of the benchmark that [main] starts once the store is open, each with its
    nodes: all at once, or the readout first.  [None] is an early return. *)
Definition main_runs (a : Args) (nCoresUsed : Z) : outcome exn (option (list (list BenchNode))) :=
  if negb (nEbTh a =? 0) then Ret None
  else if negb (nRoTh a =? 0) && negb (nAroTh a =? 0) then Ret None
  else if isParallel a then
    let? r := configure a nCoresUsed (readout_nodes a ++ filter_nodes a) in
    Ret (Some [snd r])
  else
    let? r := configure a nCoresUsed (readout_nodes a) in
    let? r2 := configure a (fst r - (nRoTh a + nAroTh a)) (filter_nodes a) in
    Ret (Some [snd r; snd r2]).

(** ** The cores *)

Lemma node_cores_seq n : 0 <= bn_threads n -> node_cores n = seqZ (bn_baseCore n) (bn_threads n).
Proof.
  intros Hn. unfold node_cores. replace (bn_baseCore n) with (bn_baseCore n + 0) at 1 by lia. rewrite <- fmap_add_seqZ.
  apply list_fmap_ext. intros i x Hx%list_elem_of_lookup_2%elem_of_seqZ. unfold executor_core. by rewrite Z.mod_small by lia.
Qed.

Lemma configure_cores a nodes : forall u u' l, Forall (fun n => 0 <= snd n) nodes -> u <= nCores a ->
  configure a u nodes = Ret (u', l) ->
  u' = u + foldr Z.add 0 (snd <$> nodes) /\ u <= u' <= nCores a /\ bench_cores l = seqZ (bCoreId a + u) (u' - u).
Proof.
  induction nodes as [|[k th] nodes IH]; intros u u' l Hf Hu; cbn [configure].
  - intros [= <- <-]. split_and!; [cbn; lia|lia..|]. by rewrite Z.sub_diag.
  - inversion Hf as [|? ? Hth Hf']; subst. destruct (Z.ltb_spec (nCores a) (u + th)); [done|].
    intros ([u1 l1] & E & [= <- <-])%obind_ret. destruct (IH (u + th) u1 l1 Hf' ltac:(lia) E) as (Eu & Hr & Hc).
    cbn [snd fst] in *. split_and!; [rewrite Eu; cbn; lia|lia..|]. unfold bench_cores in *. cbn [fmap list_fmap mjoin list_join].
    change (mjoin (node_cores <$> l1)) with (bench_cores l1). unfold bench_cores. rewrite Hc, node_cores_seq by done. cbn [bn_baseCore bn_threads].
    replace (bCoreId a + (u + th)) with (bCoreId a + u + th) by lia. rewrite <- seqZ_app by lia. f_equal. cbn. lia.
Qed.

Lemma readout_nonneg a : 0 <= nRoTh a -> 0 <= nAroTh a ->
  Forall (fun n => 0 <= snd n) (readout_nodes a) /\ foldr Z.add 0 (snd <$> readout_nodes a) = nRoTh a + nAroTh a.
Proof.
  intros. unfold readout_nodes. destruct (Z.eqb_spec (nRoTh a) 0), (Z.eqb_spec (nAroTh a) 0); cbn;
    (split; [repeat constructor; cbn; lia|lia]).
Qed.

(** Every run uses the cores behind those that were counted for the store. *)
Lemma main_runs_cores a used runs run : 0 <= nRoTh a -> 0 <= nAroTh a -> 0 <= nFfTh a -> used <= nCores a ->
  main_runs a used = Ret (Some runs) -> run ∈ runs ->
  exists n, 0 <= n /\ used + n <= nCores a /\ bench_cores run = seqZ (bCoreId a + used) n.
Proof.
  intros Hro Haro Hff Hu. destruct (readout_nonneg a Hro Haro) as [Hrf Hrs].
  assert (Hf : Forall (fun n => 0 <= snd n) (filter_nodes a)).
  { unfold filter_nodes. destruct (Z.eqb_spec (nFfTh a) 0); repeat constructor; cbn; lia. }
  unfold main_runs. do 2 (case_match; [done|]). destruct (isParallel a).
  - intros ([u l] & E & [= <-])%obind_ret ->%list_elem_of_singleton.
    destruct (configure_cores _ _ _ _ _ (Forall_app_2 _ _ _ Hrf Hf) Hu E) as (_ & Hr & Hc). exists (u - used). split_and!; [lia..|done].
  - intros ([u l] & E & E2)%obind_ret. apply obind_ret in E2 as ([u2 l2] & E2 & [= <-]). cbn [fst snd] in E2.
    destruct (configure_cores _ _ _ _ _ Hrf Hu E) as (Eu & Hr & Hc). rewrite Hrs in Eu.
    replace (u - (nRoTh a + nAroTh a)) with used in E2 by lia.
    destruct (configure_cores _ _ _ _ _ Hf Hu E2) as (_ & Hr2 & Hc2).
    intros [->|[->|[]%not_elem_of_nil]%elem_of_cons]%elem_of_cons;
      [exists (u - used)|exists (u2 - used)]; (split_and!; [lia..|done]).
Qed.

Lemma openKVS_ret config conf a so used single : openKVS config conf a = Ret (so, used, single) ->
  baseCoreId (so_options so) = u16 (bCoreId a) /\ numOfDhtThreads (so_options so) = u16 (nDhtThreads a) /\
  numOfPollers so = u16 (nPoolers a) /\ used = nPoolers a + (if satellite a then 0 else nDhtThreads a) /\ used <= nCores a /\
  exists o, read_file config Options_init = Ret o /\ opt_key (so_options so) = minidaq_fields (opt_key o).
Proof.
  unfold openKVS. intros (o & Eo & E)%obind_ret. destruct (Z.ltb_spec (nCores a) (nPoolers a + (if satellite a then 0 else nDhtThreads a))); [done|].
  apply obind_ret in E as (o2 & E2 & [= <- <- <-]). destruct conf as [c|]; [|injection E2 as <-; cbn; eauto 10].
  apply obind_ret in E2 as (o3 & _ & [= <-]). cbn. eauto 10.
Qed.

(** The cores of the benchmark and of its store.  Without a device for offload all
    threads of the store and of a run have cores of their own, among the [nCores] that were
    asked for.  With a device the store leaves one core out that [openKVS] does not count:
    the last poller and the first thread of the benchmark are on the same core. *)
Theorem minidaq_cores {P R} `{SpdkRing (list Z) R} (env : @open_env P R) config conf a so used single s runs run :
  openKVS config conf a = Ret (so, used, single) -> satellite a = false -> KVStore_init env so = Ret s ->
  main_runs a used = Ret (Some runs) -> run ∈ runs ->
  0 <= bCoreId a < 256 -> 0 <= nDhtThreads a < 256 -> 0 <= nPoolers a < 2 ^ 16 -> 0 <= nRoTh a -> 0 <= nAroTh a -> 0 <= nFfTh a ->
  if os_offload s then 0 < nPoolers a -> bench_cores run <> [] ->
    last (store_cores s) = head (bench_cores run)
  else NoDup (store_cores s ++ bench_cores run) /\
    forall c, c ∈ store_cores s ++ bench_cores run -> bCoreId a <= c < bCoreId a + nCores a.
Proof.
  intros Hop Hsat Hin Hruns Hrun Hb Hd Hp Hro Haro Hff.
  destruct (openKVS_ret _ _ _ _ _ _ Hop) as (Eb & Ed & Ep & Eu & Hu & _). rewrite Hsat in Eu.
  rewrite (uwrap_id 16) in Eb, Ed, Ep by lia.
  destruct (main_runs_cores a used runs run Hro Haro Hff Hu Hruns Hrun) as (n & Hn & Hle & Hc).
  pose proof (store_cores_seq env so s Hin ltac:(lia) ltac:(lia)) as Hs. rewrite Eb, Ed, Ep in Hs. rewrite Hs, Hc.
  destruct (os_offload s).
  - intros Hpos Hne. rewrite seqZ_cons with (n := n).
    2:{ destruct (Z.eq_dec n 0) as [->|]; [by destruct Hne|lia]. }
    cbn [head]. replace (nPoolers a) with (nPoolers a - 1 + 1) by lia. rewrite seqZ_app by lia. rewrite app_assoc, seqZ_cons with (n := 1) by lia.
    rewrite (seqZ_nil _ (Z.pred 1)) by lia. rewrite last_snoc. f_equal. lia.
  - rewrite Z.add_0_r. rewrite <- seqZ_app by lia. replace (bCoreId a + used) with (bCoreId a + (nDhtThreads a + nPoolers a)) by lia.
    rewrite <- seqZ_app by lia. split; [apply NoDup_seqZ|]. intros c Hc'%elem_of_seqZ. lia.
Qed.

(** The keys of the benchmark have eight bytes, unless the configuration describes keys of
    more than three fields. *)
Lemma minidaq_key_size k : (length k <= 3)%nat -> key_size (minidaq_fields k) = LEVELS - 1.
Proof. destruct k as [|? [|? [|? [|]]]]; cbn [length]; intros; [reflexivity..|lia]. Qed.

(** ** A run of the program *)

Section Runs.
#[local] Existing Instances simple_pool.
#[local] Instance key_ring : SpdkRing (list Z) (list_ring (list Z)) := simple_ring (list Z).

(** The second file names one device. *)
Definition run_spdk_conf : Config :=
  mkConfig Parsed (fun n => if bool_decide (n = "offload_dev_type") then Some "bdev"
                            else if bool_decide (n = "offload_nvme_addr") then Some "x"
                            else if bool_decide (n = "offload_nvme_name") then Some "nvme0" else None)%string
    (fun _ => None) None None None.
Definition run_args : Args :=
  mkArgs "/mnt/pmem/fogkv_minidaq.pm" (2 ^ 31) 1024 2 1 0 24 0 0 false true 3 0 1 0.
Definition run_open_env (writable : bool) : @open_env (gset positive) (list_ring (list Z)) :=
  mkOpenEnv (Ret run_new) [] writable true (Ret tt) (Ret tt) (Ret tt) None.

Definition run_so (conf : option Config) : StoreOptions :=
  match openKVS None conf run_args with Ret (so, _, _) => so | _ => mkStoreOptions Options_init 0 0 0 end.
Definition run_opened (conf : option Config) : option (@OpenStore (gset positive) (list_ring (list Z))) :=
  match KVStore_init (run_open_env true) (run_so conf) with Ret s => Some s | _ => None end.

(** Two pollers and one DHT thread; with a device the second poller is on the core of the
    first readout thread. *)
Lemma minidaq_cores_witness : exists s run, run_opened (Some run_spdk_conf) = Some s /\
  last (store_cores s) = head (bench_cores run) /\ head (bench_cores run) = Some 3.
Proof.
  destruct (KVStore_init (run_open_env true) (run_so (Some run_spdk_conf))) as [s| | |] eqn:E; [|vm_compute in E; discriminate..].
  exists s, [mkBenchNode KRo 3 3; mkBenchNode KFfSeq 1 6]. split; [unfold run_opened; rewrite E; reflexivity|].
  assert (Ho : os_offload s = true) by (vm_compute in E; injection E as <-; reflexivity).
  pose proof (minidaq_cores (run_open_env true) None (Some run_spdk_conf) run_args (run_so (Some run_spdk_conf)) 3 true s
    [[mkBenchNode KRo 3 3; mkBenchNode KFfSeq 1 6]] [mkBenchNode KRo 3 3; mkBenchNode KFfSeq 1 6]
    ltac:(vm_compute; reflexivity) ltac:(reflexivity) E ltac:(vm_compute; reflexivity) ltac:(left)) as H.
  rewrite Ho in H. split; [|reflexivity]. apply H; cbn; lia || discriminate.
Defined.
End Runs.
