(* ===== verification/DaqdbTop.v ===== *)
(** * The producer and the consumer of [daqdb-top] ([apps/daqdb-top])

    The producer divides the events among its threads and puts a fragment for each; the
    consumer gets them.  Both are written against the interface of [KVStoreBase].
    Multiplications of [float]s are those of a rounding that is exact up to [2^24]. *)

From S2P Require Import Prelude Status ARTree RTreeEngine Poller Rqst PmemPoller PrimaryKey DhtCore KVStore KVMap KVAsync KVStoreBase MinidaqKey SpdkConf Configuration MinidaqApp.

(** ** [utils.hpp] *)

(** The bytes that [assign_key] puts into a key; [detectorId] becomes the component. *)
Definition top_fill (eventId detectorId : Z) (key : list Z) : outcome exn (list Z) :=
  let? key := set_detectorId 0 key in
  let? key := set_componentId detectorId key in
  set_eventId eventId key.

Definition top_key (eventId detectorId : Z) : list Z := le_bytes sizeof_eventId eventId ++ [0] ++ le_bytes 2 detectorId.

Section Top.
Context {S : Type} `{KVStoreBase S}.
#[local] Abbreviation TM A := (M exn S A).

Definition assign_key (eventId detectorId : Z) : TM Key :=
  let! key := kb_AllocKey false in
  let! bytes := (fun s => (top_fill eventId detectorId (k_data key), s)) in
  kb_setKey key bytes.

(** ** [producer.cpp] *)

(** [initKvsOptions]: the defaults come before what the file says.  The id of the node,
    which is set to zero, is not read on the way to the threads. *)
Definition initKvsOptions (file : option Config) (o : Options) : outcome exn Options :=
  let f := offload o in
  read_file file
    (mkOptions (poolPath o) (totalSize o) (pmem_allocUnitSize o) (minidaq_fields (opt_key o)) (mode o) (baseCoreId o)
       (mkOffloadOptions (devType f) (oname f) 1024 (raid0StripeSize f) (_devs f)) (dht o) (numOfDhtThreads o) (baseDhtId o)).

(** The literal with its zero; [pmem_memcpy_nodrain] takes as many bytes as the value has. *)
Definition abcd : list Z := [97; 98; 99; 100; 0].

Definition copy_abcd (v : Value) : TM unit :=
  if Z.of_nat (length abcd) <? v_size v then cundef else kb_write v (take (Z.to_nat (v_size v)) abcd).

(** The events of the loop: [uint64_t] numbers from [starting_events] on, which are
    compared with an [int]. *)
Definition loop_events (starting_events number_events : Z) : list Z :=
  seqZ (u64 starting_events) (u64 number_events - u64 starting_events).

Definition write_event (componentId fragment_size i : Z) : TM unit :=
  let! key := assign_key i componentId in
  let! v := ccatch (kb_Alloc key fragment_size) (fun e => kb_Free_key key ;;; cthrow e) in
  copy_abcd v ;;;
  kb_Put key v.

Fixpoint write_events (componentId fragment_size : Z) (evs : list Z) : TM unit :=
  match evs with [] => cret tt | i :: evs => write_event componentId fragment_size i ;;; write_events componentId fragment_size evs end.

Definition writer_thread (starting_events number_events componentId fragment_size : Z) : TM unit :=
  write_events componentId (u64 (s32 fragment_size)) (loop_events starting_events number_events).

(** ** [consumer.cpp] *)

Definition daqdb_get (key : Key) : TM Value :=
  ccatch (kb_Get key) (fun e => match e with OperationFailedException _ => cret (mkValue None 0 false) | _ => cthrow e end).

(** The value of an event; it is dropped by the loop, and neither it nor the key is freed. *)
Definition read_event (componentId i : Z) : TM Value :=
  let! key := assign_key i componentId in
  ccatch (daqdb_get key) (fun e => daqdb_get key ;;; cthrow e).

Fixpoint read_events (componentId : Z) (evs : list Z) : TM (list Value) :=
  match evs with
  | [] => cret []
  | i :: evs => let! v := read_event componentId i in let! l := read_events componentId evs in cret (v :: l)
  end.

Definition reader_thread (starting_events number_events componentId : Z) : TM (list Value) :=
  read_events componentId (loop_events starting_events number_events).
End Top.

(** ** The division of events among threads *)

Section Division.
(** Conversion to [float]. *)
Context (f32 : Z -> Z) (f32_exact : forall z, 0 <= z <= 2 ^ 24 -> f32 z = z).

(** [float events_thread = number_events / nTh], a division of [int]s; thread [j] gets
    [j * events_thread] and [j * events_thread + events_thread] as [int]s. *)
Definition events_thread (number_events nTh : Z) : Z := f32 (Z.quot number_events nTh).
Definition thread_range (number_events nTh j : Z) : Z * Z :=
  let et := events_thread number_events nTh in
  (s32 (f32 (j * et)), s32 (f32 (f32 (j * et) + et))).
Definition thread_events (number_events nTh j : Z) : list Z :=
  let r := thread_range number_events nTh j in loop_events (fst r) (snd r).

Lemma thread_events_seq N n j : 0 < n -> 0 <= N <= 2 ^ 24 -> 0 <= j < n -> thread_events N n j = seqZ (j * (N / n)) (N / n).
Proof.
  intros Hn HN Hj. pose proof (Z.div_pos N n ltac:(lia) Hn). pose proof (Z.mul_div_le N n Hn).
  assert (0 <= j * (N / n) /\ (j + 1) * (N / n) <= N) as [? ?] by nia.
  unfold thread_events, thread_range, events_thread. rewrite Z.quot_div_nonneg, (f32_exact (N / n)) by nia. cbn [fst snd].
  rewrite !f32_exact by nia. unfold loop_events. rewrite !(swrap_id 32), !(uwrap_id 64) by lia. f_equal. lia.
Qed.

(** The threads of the producer, and those of the consumer, divide the events: of up to
    [2^24] events each thread has [N / n], and every one of the first [n * (N / n)] events
    belongs to exactly one thread.  The remaining [N mod n] events belong to no thread. *)
Theorem top_events_divided N n : 0 < n -> 0 <= N <= 2 ^ 24 ->
  mjoin (thread_events N n <$> seqZ 0 n) = seqZ 0 (N - N mod n) /\
  forall i, N - N mod n <= i < N -> forall j, 0 <= j < n -> i ∉ thread_events N n j.
Proof.
  intros Hn HN. pose proof (Z.div_pos N n ltac:(lia) Hn) as Hq. pose proof (Z.div_mod N n ltac:(lia)) as Hdm. split.
  - replace (N - N mod n) with (n * (N / n)) by lia.
    assert (G : forall m : nat, Z.of_nat m <= n -> mjoin (thread_events N n <$> seqZ 0 (Z.of_nat m)) = seqZ 0 (Z.of_nat m * (N / n))).
    { induction m as [|m IH]; intros Hm; [done|]. rewrite seqZ_S, fmap_app, join_app, IH by lia. cbn. rewrite app_nil_r.
      rewrite thread_events_seq, <- seqZ_app by nia. f_equal. lia. }
    specialize (G (Z.to_nat n)). rewrite Z2Nat.id in G by lia. apply G. lia.
  - intros i Hi j Hj. rewrite thread_events_seq by lia. rewrite elem_of_seqZ. nia.
Qed.
End Division.

(** ** What is produced is what is consumed *)

Section RoundTrip.
Context {S : Type} `{KVStoreMap S}.
Implicit Types s : S.

Lemma top_fill_run ev d l : length l = 8%nat -> top_fill ev d l = Ret (top_key ev d).
Proof.
  intros Hl. do 8 (destruct l as [|? l]; [done|]). destruct l; [|done]. reflexivity.
Qed.

Lemma top_key_wf ev d : Forall (fun b => 0 <= b < 256) (top_key ev d).
Proof. unfold top_key. cbn. repeat constructor; (lia || (apply Z.mod_pos_bound; lia)). Qed.

(** The store is a map, and its keys have eight bytes. *)
Definition top_ready s (ms : map_spec) : Prop := kb_sim s ms /\ kb_keySize s = 8.

Lemma assign_key_run ev d s ms : top_ready s ms ->
  exists a s', assign_key ev d s = (Ret (mkKey (top_key ev d) (Some a) false), s') /\ top_ready s' ms.
Proof.
  intros [Hs Hz]. destruct (kb_AllocKey_block _ _ Hs) as (a & s1 & E1 & S1 & Z1).
  unfold assign_key. rewrite (cbind_ret _ _ _ _ _ E1). unfold cbind. cbn [k_data]. rewrite Hz, top_fill_run by done.
  destruct (kb_setKey_keeps s1 ms (mkKey (replicate (Z.to_nat 8) 0) (Some a) false) (top_key ev d) S1) as (s2 & E2 & S2 & Z2).
  rewrite E2. exists a, s2. split; [done|]. split; [done|lia].
Qed.

(** An event that was written: the value is there, and the fragment is not longer than the
    literal. *)
Lemma write_event_run comp size i s ms s' : 0 <= size -> (forall ev, kb_key (top_key ev comp)) -> top_ready s ms ->
  write_event comp size i s = (Ret tt, s') ->
  size <= Z.of_nat (length abcd) /\ exists ms', top_ready s' ms' /\
    ms_map ms' = <[top_key i comp := take (Z.to_nat size) abcd]> (ms_map ms).
Proof.
  intros Hsz Hk Hr E. unfold write_event in E. destruct (assign_key_run i comp s ms Hr) as (a & s1 & E1 & S1 & Z1).
  rewrite (cbind_ret _ _ _ _ _ E1) in E. set (key := mkKey (top_key i comp) (Some a) false) in E. apply cbind_inv in E as (v & s2 & E2 & E).
  destruct (kb_Alloc_sim s1 ms key size S1 (Hk i)) as (r & s2' & Ea & Z2 & Hra). unfold ccatch in E2. rewrite Ea in E2.
  destruct r as [v'|e| |]; try done. 2:{ unfold cbind, cthrow in E2. by destruct (kb_Free_key key s2') as [[]?]. }
  injection E2 as <- <-. destruct Hra as (b & -> & _ & S2). destruct ms as [m p]. cbn [book] in S2. set (ms2 := mkMapSpec _ _) in S2.
  apply cbind_inv in E as ([] & s3 & E3 & E). unfold copy_abcd in E3. cbn [held v_size pe_size] in E3.
  destruct (Z.ltb_spec (Z.of_nat (length abcd)) size) as [|Hle]; [done|]. split; [done|].
  destruct (kb_write_sim s2' ms2 key (mkPending b size None) (take (Z.to_nat size) abcd) S2) as (s3' & Ew & S3 & Z3);
    [apply lookup_insert_eq|rewrite length_take; cbn [pe_size]; lia|].
  rewrite Ew in E3. injection E3 as <-. cbn [book ms2 ms_map ms_pending] in S3. cbn [key k_data] in S3. rewrite lookup_insert_eq in S3.
  set (e3 := mkPending _ _ _) in S3. set (ms3 := mkMapSpec _ _) in S3.
  change (held (mkPending b size None)) with (held e3) in E.
  destruct (kb_Put_sim s3' ms3 key e3 s' S3 (Hk i)) as [S4 Z4]; [by exists e3, (take (Z.to_nat size) abcd); split; [apply lookup_insert_eq|]|apply lookup_insert_eq|done|].
  eexists. split; [split; [exact S4|lia]|]. cbn [book ms3 ms_pending key k_data]. rewrite lookup_insert_eq. done.
Qed.

Lemma write_events_run comp size : 0 <= size -> (forall ev, kb_key (top_key ev comp)) -> forall evs s ms s', top_ready s ms ->
  write_events comp size evs s = (Ret tt, s') ->
  (evs <> [] -> size <= Z.of_nat (length abcd)) /\ exists ms', top_ready s' ms' /\
    forall k, ms_map ms' !! k = if decide (k ∈ (fun i => top_key i comp) <$> evs) then Some (take (Z.to_nat size) abcd) else ms_map ms !! k.
Proof.
  intros Hsz Hk. induction evs as [|i evs IH]; intros s ms s' Hr E.
  { injection E as <-. split; [done|]. exists ms. by split. }
  cbn [write_events] in E. apply cbind_inv in E as ([] & s1 & E1 & E2).
  destruct (write_event_run comp size i s ms s1 Hsz Hk Hr E1) as (Hle & ms1 & Hr1 & Em). split; [done|].
  destruct (IH s1 ms1 s' Hr1 E2) as (_ & ms' & Hr' & Hm). exists ms'. split; [done|]. intros k. rewrite Hm, Em, fmap_cons.
  destruct (decide (k = top_key i comp)) as [->|Hne].
  - rewrite (decide_True (P := _ ∈ _ :: _)) by (by left). rewrite lookup_insert_eq. by destruct (decide _).
  - rewrite lookup_insert_ne by done. destruct (decide (k ∈ (fun i => top_key i comp) <$> evs)).
    + by rewrite decide_True by (by right).
    + rewrite decide_False; [done|]. by intros [?|?]%elem_of_cons.
Qed.

(** The consumer gets what the producer put.  On a store that is a map, when a thread of
    the producer returns, its fragments are no longer than the five bytes of the literal
    that it copies, and a consumer that reads any of its events gets these bytes.  With
    longer fragments, the default of 1024 bytes among them, the copy reads behind the
    literal and no event is finished. *)
Theorem top_produced_consumed a b comp size s s1 ms i : 0 <= size < 2 ^ 31 -> (forall ev, kb_key (top_key ev comp)) -> top_ready s ms ->
  writer_thread a b comp size s = (Ret tt, s1) -> i ∈ loop_events a b ->
  size <= 5 /\ exists v s2, read_event comp i s1 = (Ret v, s2) /\ kb_read v s2 = (Ret (take (Z.to_nat size) abcd), s2).
Proof.
  intros Hsz Hk Hr E Hi. unfold writer_thread in E. rewrite (swrap_id 32), (uwrap_id 64) in E by lia.
  destruct (write_events_run comp size ltac:(lia) Hk _ s ms s1 Hr E) as (Hle & ms1 & Hr1 & Hm).
  split; [apply Hle; by intros Enil; rewrite Enil in Hi; apply not_elem_of_nil in Hi|].
  destruct (assign_key_run i comp s1 ms1 Hr1) as (c & s2 & Ea & S2 & Z2). unfold read_event. rewrite (cbind_ret _ _ _ _ _ Ea).
  pose proof (kb_Get_sim s2 ms1 (mkKey (top_key i comp) (Some c) false) S2 (Hk i)) as HG. cbn [k_data] in HG.
  rewrite Hm, decide_True in HG by (apply list_elem_of_fmap; eauto). destruct HG as (v & s3 & Eg & Er & _).
  exists v, s3. split; [|exact Er]. unfold ccatch, daqdb_get, ccatch. by rewrite Eg.
Qed.
End RoundTrip.

(** ** Concrete runs *)

Section Runs.
#[local] Existing Instances simple_pool KVAsync.async_tree KVAsync.async_rings KVAsync.async_pool KVAsync.async_services.
#[local] Abbreviation St := (@AsyncStore (@ARTree (gset positive)) nat (list_ring (list Z)) (list_ring (Rqst RqstOperation nat))
  (list_ring (Rqst OffloadOperation nat)) (gset positive) unit).
#[local] Instance top_base : KVStoreBase St := storage_base 0%nat PMEM (fun _ => 1%positive) [].
#[local] Instance top_map : KVStoreMap St := storage_map 0%nat PMEM (fun _ => 1%positive) [] run_dht.

Lemma top_events_divided_witness : mjoin (thread_events id 10 3 <$> seqZ 0 3) = [0; 1; 2; 3; 4; 5; 6; 7; 8].
Proof. exact (proj1 (top_events_divided id ltac:(done) 10 3 ltac:(lia) ltac:(lia))). Defined.

Definition run_produced : St := snd (writer_thread 2 4 1 4 async_empty).

Lemma run_top_ready : top_ready async_empty (mkMapSpec ∅ ∅).
Proof.
  split; [|reflexivity]. split; cbn [ms_map ms_pending]; try done.
  - exact (reachable_inv 1 1 1 run_new run_new_reachable).
  - intros k _. rewrite lookup_empty. apply run_new_empty.
Qed.

Lemma top_produced_consumed_witness : exists v s2, read_event 1 3 run_produced = (Ret v, s2) /\
  kb_read v s2 = (Ret [97; 98; 99; 100], s2).
Proof.
  destruct (top_produced_consumed 2 4 1 4 async_empty run_produced (mkMapSpec ∅ ∅) 3) as (_ & v & s2 & E & Er).
  - lia.
  - intros ev. split; [split; [reflexivity|apply top_key_wf]|reflexivity].
  - exact run_top_ready.
  - vm_compute. reflexivity.
  - vm_compute. right. left.
  - exists v, s2. split; [exact E|exact Er].
Defined.
End Runs.
