(* ===== verification/AllocClass.v ===== *)
(** * Allocation classes of the tree ([TreeImpl::_initAllocClasses], [setClassId])

    The tree asks PMDK for an allocation class for each kind of its objects.  When PMDK
    refuses, because there is such a class already, [setClassId] looks for it.  PMDK's
    control functions are parameters: what [heap.alloc_class.new.desc] answers, and the
    descriptions of the 255 classes. *)

From S2P Require Import Prelude Status ARTree.

(** [struct pobj_alloc_class_desc]; the type of header is compact for values, none else. *)
Record alloc_class_desc : Type := mkDesc {
  unit_size : Z; alignment : Z; units_per_block : Z; header_compact : bool; class_id : Z }.

Inductive ALLOC_CLASS : Type :=
| ALLOC_CLASS_VALUE | ALLOC_CLASS_VALUE_WRAPPER | ALLOC_CLASS_NODE256 | ALLOC_CLASS_NODE_LEAF_COMPRESSED.

#[export] Instance ALLOC_CLASS_eq_dec : EqDecision ALLOC_CLASS.
Proof. solve_decision. Defined.

Definition ALLOC_CLASS_ALIGNMENT : Z := 0.
Definition ALLOC_CLASS_UNITS_PER_BLOCK : Z := 100.

(** What the pool answers: [ctl_new] a class id or an [errno], [ctl_desc i] the
    description of class [i] or an [errno]. *)
Record class_ctl : Type := mkCtl { ctl_new : alloc_class_desc -> Z + Z; ctl_desc : nat -> alloc_class_desc + Z }.

Section Classes.
Context (ctl : class_ctl).

Definition no_class : alloc_class_desc := mkDesc 0 0 0 false 0.

(** The loop over the existing classes, with [rc] (true when it is zero), [d] and [errno]. *)
Fixpoint find_class (i : nat) (rest : nat) (size : Z) (ok : bool) (d : alloc_class_desc) (errno : Z) : bool * alloc_class_desc :=
  match rest with
  | O => (ok, d)
  | S rest =>
      match ctl_desc ctl i with
      | inr e => find_class (S i) rest size false no_class e
      | inl d => if (errno =? EINVAL) && (unit_size d =? size) then (true, d) else find_class (S i) rest size true d errno
      end
  end.

Definition max_class : nat := 255.

(** [setClassId]: the id that is stored for the class. *)
Definition setClassId (c : ALLOC_CLASS) (size : Z) : outcome exn Z :=
  let d := mkDesc size ALLOC_CLASS_ALIGNMENT ALLOC_CLASS_UNITS_PER_BLOCK (bool_decide (c = ALLOC_CLASS_VALUE)) 0 in
  match ctl_new ctl d with
  | inl id => Ret id
  | inr errno =>
      let (ok, d) := find_class 0 max_class size false d errno in
      if ok then Ret (class_id d) else Throw (OperationFailedException PMEM_ALLOCATION_ERROR)
  end.

(** ** What is found *)

(** The classes before [i] exist, and none of them has the size. *)
Definition others_before (size : Z) (i : nat) : Prop :=
  forall j, (j < i)%nat -> exists d, ctl_desc ctl j = inl d /\ unit_size d <> size.

Lemma find_class_hit size n : forall i rest ok d0 d, (n < rest)%nat -> ctl_desc ctl (i + n) = inl d -> unit_size d = size ->
  (forall j, (j < n)%nat -> exists d, ctl_desc ctl (i + j) = inl d /\ unit_size d <> size) ->
  find_class i rest size ok d0 EINVAL = (true, d).
Proof.
  induction n as [|n IH]; intros i rest ok d0 d Hn Hd Hs Hb; destruct rest as [|rest]; [lia| |lia|]; cbn [find_class].
  - rewrite Nat.add_0_r in Hd. rewrite Hd, Z.eqb_refl, (proj2 (Z.eqb_eq _ _) Hs). done.
  - destruct (Hb 0%nat ltac:(lia)) as (d1 & Ed & Hne). rewrite Nat.add_0_r in Ed. rewrite Ed, (proj2 (Z.eqb_neq _ _) Hne), andb_false_r.
    apply (IH (S i) rest true d1 d); [lia|by replace (S i + n)%nat with (i + S n)%nat by lia|done|].
    intros j Hj. replace (S i + j)%nat with (i + S j)%nat by lia. apply Hb. lia.
Qed.

(** A size that no class has: what is left is the answer for the last class. *)
Lemma find_class_miss size rest : forall i ok d0 e, (0 < rest)%nat ->
  (forall j d, (i <= j < i + rest)%nat -> ctl_desc ctl j = inl d -> unit_size d <> size) ->
  find_class i rest size ok d0 e =
    match ctl_desc ctl (i + rest - 1) with inl d => (true, d) | inr _ => (false, no_class) end.
Proof.
  induction rest as [|rest IH]; intros i ok d0 e Hr Hno; [lia|]. cbn [find_class].
  destruct (Nat.eq_dec rest 0) as [->|Hne].
  - replace (i + 1 - 1)%nat with i by lia. destruct (ctl_desc ctl i) as [d|e'] eqn:Ed; [|done].
    rewrite (proj2 (Z.eqb_neq _ _) (Hno i d ltac:(lia) Ed)), andb_false_r. done.
  - assert (Hno' : forall j d, (S i <= j < S i + rest)%nat -> ctl_desc ctl j = inl d -> unit_size d <> size) by (intros; eapply Hno; [|done]; lia).
    replace (i + S rest - 1)%nat with (S i + rest - 1)%nat by lia.
    destruct (ctl_desc ctl i) as [d|e'] eqn:Ed; [|by apply IH; [lia|]].
    rewrite (proj2 (Z.eqb_neq _ _) (Hno i d ltac:(lia) Ed)), andb_false_r. by apply IH; [lia|].
Qed.

(** Which allocation class is used.  A class that PMDK accepts is used; when PMDK refuses
    it as invalid, the first existing class with the size is, provided that all classes
    before it exist.  When no class has the size, the call throws only if class 254 does not
    exist: otherwise class 254 is used, although its units have another size. *)
Theorem alloc_class_used c size :
  let d := mkDesc size ALLOC_CLASS_ALIGNMENT ALLOC_CLASS_UNITS_PER_BLOCK (bool_decide (c = ALLOC_CLASS_VALUE)) 0 in
  (forall id, ctl_new ctl d = inl id -> setClassId c size = Ret id) /\
  (forall n d', ctl_new ctl d = inr EINVAL -> (n < max_class)%nat -> ctl_desc ctl n = inl d' -> unit_size d' = size ->
     others_before size n -> setClassId c size = Ret (class_id d')) /\
  (forall e, ctl_new ctl d = inr e -> (forall j d', (j < max_class)%nat -> ctl_desc ctl j = inl d' -> unit_size d' <> size) ->
     setClassId c size = match ctl_desc ctl 254 with
                         | inl d' => Ret (class_id d')
                         | inr _ => Throw (OperationFailedException PMEM_ALLOCATION_ERROR)
                         end).
Proof.
  intros d. unfold setClassId. fold d. split_and!.
  - intros id E. by rewrite E.
  - intros n d' E Hn Hd Hs Hb. rewrite E, (find_class_hit size n 0 max_class false d d' Hn Hd Hs); [done|]. intros j Hj. by apply Hb.
  - intros e E Hno. rewrite E, (find_class_miss size max_class 0 false d e); [|unfold max_class; lia|intros j d' Hj; apply Hno; lia].
    by destruct (ctl_desc ctl _).
Qed.

(** [_initAllocClasses]: the four classes, in order. *)
Definition _initAllocClasses (szN szL szW allocUnitSize : Z) : outcome exn (list Z) :=
  let? v := setClassId ALLOC_CLASS_VALUE allocUnitSize in
  let? w := setClassId ALLOC_CLASS_VALUE_WRAPPER szW in
  let? n := setClassId ALLOC_CLASS_NODE256 (Z.of_nat NODE_SIZE * szN) in
  let? l := setClassId ALLOC_CLASS_NODE_LEAF_COMPRESSED (Z.of_nat NODE_SIZE * szL) in
  Ret [v; w; n; l].
End Classes.
