(* ===== verification/Singleton.v ===== *)
(** * The two singletons ([PoolManager::getInstance], [SpdkIoBufMgr::getSpdkIoBufMgr])

    Both make one object at the first call, under a lock.  [PoolManager] takes the lock
    before it looks whether the object is there, [SpdkIoBufMgr] looks first.  A turn of a
    thread is one access to what the threads share; turns interleave in any order. *)

From S2P Require Import Prelude.

(** Where a caller of [getInstance] is: before the lock, behind it, before [return]. *)
Inductive get_pc : Type := GLock | GLook | GReturn | GDone (v : nat).
(** Where a caller of [getSpdkIoBufMgr] is: before the look, before the lock, behind it,
    before [return]. *)
Inductive io_pc : Type := ILook | ILock | IMake | IReturn | IDone (v : option nat).

(** The static member, the lock, how many objects were made, and the callers; objects are
    numbered in the order in which they are made. *)
Record Shared (pc : Type) : Type := mkShared { instance : option nat; holder : option nat; made : nat; callers : list pc }.
Arguments mkShared {pc} instance holder made callers.
Arguments instance {pc} s.
Arguments holder {pc} s.
Arguments made {pc} s.
Arguments callers {pc} s.

Definition callers_init {pc} (start : pc) (n : nat) : Shared pc := mkShared None None 0 (replicate n start).

(** A turn of caller [t] of [PoolManager::getInstance]; the lock is given back when the
    call returns. *)
Definition getInstance (t : nat) (s : Shared get_pc) : option (Shared get_pc) :=
  match callers s !! t with
  | Some GLock =>
      match holder s with
      | None => Some (mkShared (instance s) (Some t) (made s) (<[t := GLook]> (callers s)))
      | Some _ => None
      end
  | Some GLook =>
      match instance s with
      | None => Some (mkShared (Some (made s)) (holder s) (S (made s)) (<[t := GReturn]> (callers s)))
      | Some _ => Some (mkShared (instance s) (holder s) (made s) (<[t := GReturn]> (callers s)))
      end
  | Some GReturn =>
      match instance s with
      | Some v => Some (mkShared (instance s) None (made s) (<[t := GDone v]> (callers s)))
      | None => None
      end
  | Some (GDone _) | None => None
  end.

(** A turn of caller [t] of [SpdkIoBufMgr::getSpdkIoBufMgr]; the lock is given back at the
    end of the block. *)
Definition getSpdkIoBufMgr (t : nat) (s : Shared io_pc) : option (Shared io_pc) :=
  match callers s !! t with
  | Some ILook =>
      Some (mkShared (instance s) (holder s) (made s) (<[t := match instance s with None => ILock | Some _ => IReturn end]> (callers s)))
  | Some ILock =>
      match holder s with
      | None => Some (mkShared (instance s) (Some t) (made s) (<[t := IMake]> (callers s)))
      | Some _ => None
      end
  | Some IMake => Some (mkShared (Some (made s)) None (S (made s)) (<[t := IReturn]> (callers s)))
  | Some IReturn => Some (mkShared (instance s) (holder s) (made s) (<[t := IDone (instance s)]> (callers s)))
  | Some (IDone _) | None => None
  end.

Fixpoint run {pc} (step : nat -> Shared pc -> option (Shared pc)) (ts : list nat) (s : Shared pc) : option (Shared pc) :=
  match ts with
  | [] => Some s
  | t :: ts => match step t s with Some s' => run step ts s' | None => None end
  end.

(** ** One pool manager *)

(** At most one object is made, and it is the instance; who is past the look sees it. *)
Definition one_inv (s : Shared get_pc) : Prop :=
  (instance s = None /\ made s = 0%nat \/ instance s = Some 0%nat /\ made s = 1%nat) /\
  (forall t pc, callers s !! t = Some pc ->
     match pc with
     | GLock => True
     | GLook => holder s = Some t
     | GReturn => holder s = Some t /\ instance s = Some 0%nat
     | GDone v => v = 0%nat /\ instance s = Some 0%nat
     end).

Lemma one_inv_turn t s s' : one_inv s -> getInstance t s = Some s' -> one_inv s'.
Proof.
  intros [Hm Hc] E. unfold getInstance in E. destruct (callers s !! t) as [pc|] eqn:Et; [|done].
  pose proof (Hc t pc Et) as Ht. pose proof (lookup_lt_Some _ _ _ Et) as Hlt.
  destruct pc; repeat case_hyp; simplify_eq; (split; [cbn; naive_solver|]); intros t' pc' Hpc; cbn [callers instance holder made] in *;
    (destruct (decide (t' = t)) as [->|Hne];
      [rewrite list_lookup_insert_eq in Hpc by done; injection Hpc as <-|rewrite list_lookup_insert_ne in Hpc by done; specialize (Hc _ _ Hpc)]).
  all: try (destruct pc'); naive_solver.
Qed.

Lemma one_inv_run ts : forall s s', one_inv s -> run getInstance ts s = Some s' -> one_inv s'.
Proof.
  induction ts as [|t ts IH]; simpl; intros s s' Hi E; [by simplify_eq|].
  destruct (getInstance t s) as [s1|] eqn:E1; [|done]. eauto using one_inv_turn.
Qed.

(** There is one pool manager: however the calls of any number of threads interleave, at
    most one is made and all calls return it. *)
Theorem pool_manager_once n ts s : run getInstance ts (callers_init GLock n) = Some s ->
  (made s <= 1)%nat /\ forall t v, callers s !! t = Some (GDone v) -> v = 0%nat /\ instance s = Some v.
Proof.
  intros E. apply one_inv_run in E as [Hm Hc].
  - split; [destruct Hm as [[_ ->]|[_ ->]]; lia|]. intros t v Ht. destruct (Hc _ _ Ht) as [-> ?]. done.
  - split; [by left|]. intros t pc [-> _]%lookup_replicate. done.
Qed.

(** ** Two buffer managers *)

(** Two threads can get different buffer managers: when both look before one of them has
    made its manager, both make one, and the first is lost. *)
Theorem iobufmgr_twice n : (2 <= n)%nat -> exists ts s, run getSpdkIoBufMgr ts (callers_init ILook n) = Some s /\
  made s = 2%nat /\ callers s !! 0%nat = Some (IDone (Some 0%nat)) /\ callers s !! 1%nat = Some (IDone (Some 1%nat)).
Proof.
  intros Hn. destruct n as [|[|n]]; [lia..|].
  exists [0; 1; 0; 0; 0; 1; 1; 1]%nat. eexists. split; [reflexivity|]. by split_and!.
Qed.

Lemma pool_manager_once_witness : exists s, run getInstance [1; 1; 1; 0; 0; 0]%nat (callers_init GLock 2) = Some s /\
  callers s !! 0%nat = Some (GDone 0%nat) /\ instance s = Some 0%nat.
Proof.
  set (s := default (callers_init GLock 2) (run getInstance [1; 1; 1; 0; 0; 0]%nat (callers_init GLock 2))).
  destruct (pool_manager_once 2 [1; 1; 1; 0; 0; 0]%nat s) as (_ & H); [vm_compute; reflexivity|].
  exists s. split; [vm_compute; reflexivity|]. split; [vm_compute; reflexivity|]. apply (H 0%nat 0%nat). vm_compute. reflexivity.
Defined.

Lemma iobufmgr_twice_witness : exists ts s, run getSpdkIoBufMgr ts (callers_init ILook 3) = Some s /\ made s = 2%nat.
Proof. destruct (iobufmgr_twice 3) as (ts & s & E & Hm & _); [lia|]. exists ts, s. split; [exact E|exact Hm]. Defined.
