(* ===== verification/StatusText.v ===== *)
(** * The text of a status ([Status::to_string])

    [strerror] is a parameter. *)

From stdpp Require Import strings pretty.
From S2P Require Import Prelude Status.

#[local] Open Scope Z_scope.

Section Text.
Context (strerror : Z -> string).

Definition DAQDB_DEFAULT_ERROR_MSG : string := "DAQDB Error: ".

(** The names that the [switch] has. *)
Definition code_name (code : Z) : option string :=
  if code =? KEY_NOT_FOUND then Some "KEY_NOT_FOUND"
  else if code =? BAD_KEY_FORMAT then Some "BAD_KEY_FORMAT"
  else if code =? PMEM_ALLOCATION_ERROR then Some "PMEM_ALLOCATION_ERROR"
  else if code =? DHT_ALLOCATION_ERROR then Some "DHT_ALLOCATION_ERROR"
  else if code =? SPDK_ALLOCATION_ERROR then Some "SPDK_ALLOCATION_ERROR"
  else if code =? OFFLOAD_DISABLED_ERROR then Some "OFFLOAD_DISABLED_ERROR"
  else if code =? QUEUE_FULL_ERROR then Some "QUEUE_FULL_ERROR"
  else if code =? DHT_DISABLED_ERROR then Some "DHT_DISABLED_ERROR"
  else if code =? TIME_OUT then Some "TIME_OUT"
  else if code =? DHT_CONNECT_ERROR then Some "DHT_CONNECT_ERROR_STATUSAAA"
  else if code =? NOT_IMPLEMENTED then Some "NOT_IMPLEMENTED"
  else if code =? NOT_SUPPORTED then Some "NOT_SUPPORTED"
  else if code =? UNKNOWN_ERROR then Some "UNKNOWN_ERROR"
  else None.

Definition to_string (code : Z) : string :=
  if code <? _MAX_ERRNO then strerror (s32 code)
  else match code_name code with
       | Some n => DAQDB_DEFAULT_ERROR_MSG +:+ n
       | None => "code = " +:+ pretty code
       end.

(** [what()] of an [OperationFailedException] with the empty message: the text of the
    status, when it is not [OK], behind a colon; the search for an empty text finds it. *)
Definition set_what (code : Z) : string :=
  let t := to_string code in
  if (code =? OK) || (String.eqb t "") then "" else ": " +:+ t.

(** The codes of the enumeration. *)
Definition named_codes : list Z :=
  [KEY_NOT_FOUND; BAD_KEY_FORMAT; PMEM_ALLOCATION_ERROR; DHT_ALLOCATION_ERROR; SPDK_ALLOCATION_ERROR; OFFLOAD_DISABLED_ERROR;
   QUEUE_FULL_ERROR; DHT_DISABLED_ERROR; TIME_OUT; DHT_CONNECT_ERROR; NOT_IMPLEMENTED; NOT_SUPPORTED; UNKNOWN_ERROR].

Lemma code_name_some code n : code_name code = Some n -> code ∈ named_codes.
Proof.
  unfold code_name, named_codes. rewrite !elem_of_cons. intros E.
  repeat match type of E with context [Z.eqb code ?c] => destruct (Z.eqb_spec code c) as [->|_]; [tauto|] end. done.
Qed.

Lemma code_names_differ : forall c1 c2 n, code_name c1 = Some n -> code_name c2 = Some n -> c1 = c2.
Proof.
  intros c1 c2 n E1 E2.
  assert (H : forallb (fun a => forallb (fun b => implb (bool_decide (code_name a = code_name b)) (a =? b)) named_codes) named_codes = true)
    by (vm_compute; reflexivity).
  pose proof (code_name_some _ _ E1) as H1. pose proof (code_name_some _ _ E2) as H2. rewrite list_elem_of_In in H1, H2.
  rewrite forallb_forall in H. specialize (H c1 H1). rewrite forallb_forall in H. specialize (H c2 H2).
  rewrite E1, E2, bool_decide_true in H by done. by apply Z.eqb_eq in H.
Qed.

(** The text tells codes apart: two codes from [_MAX_ERRNO] on have the same text only
    if they are equal.  A code that is thrown without a [Status] does not fit an [int], and
    its text is that of a negative [errno]. *)
Theorem status_text_exact c1 c2 :
  (_MAX_ERRNO <= c1 -> _MAX_ERRNO <= c2 -> to_string c1 = to_string c2 -> c1 = c2) /\
  (c1 ∈ named_codes -> to_string (errnum c1) = strerror (c1 - 2 ^ 32)).
Proof.
  split.
  - intros H1 H2. unfold to_string. destruct (Z.ltb_spec c1 _MAX_ERRNO), (Z.ltb_spec c2 _MAX_ERRNO); try lia.
    destruct (code_name c1) as [n1|] eqn:E1, (code_name c2) as [n2|] eqn:E2; intros E.
    + apply (inj (String.app DAQDB_DEFAULT_ERROR_MSG)) in E as ->. by eapply code_names_differ.
    + done.
    + done.
    + apply (inj (String.app "code = ")) in E. by apply (inj pretty) in E.
  - intros Hin. unfold named_codes in Hin. rewrite !elem_of_cons in Hin. unfold to_string, errnum.
    repeat (destruct Hin as [->|Hin]; [reflexivity|]). by apply not_elem_of_nil in Hin.
Qed.
End Text.
