(* ===== verification/RTree.v ===== *)
(** * The tree that came before ([lib/pmem/RTree])

    Keys have 24 bits; the tree is complete, with four-way nodes for two bits each, and is
    allocated at once.  The wrappers of the values are numbered in the order in which they
    are allocated.  [RTreeEngine::Open] does not make this tree any more. *)

From S2P Require Import Prelude Status ARTree.

#[local] Ltac dlia := Z.to_euclidean_division_equations; lia.

Definition LEVEL_SIZE : nat := 4.
Definition KEY_SIZE : Z := 24.
Definition BITS_IN_BYTE : Z := 8.
(** [log2(LEVEL_SIZE)] and [KEY_SIZE / level_bits]. *)
Definition level_bits : Z := 2.
Definition tree_heigh : nat := 12.

(** [struct Node]; [valueNode] are the numbers of the wrappers of a leaf. *)
#[warnings="-register-all"] Inductive rnode : Type := RNode (isEnd : bool) (rdepth : nat) (rchildren : list rnode) (valueNode : list nat).

(** ** [Tree::allocateLevel]

    The children of a node at [depth], for a tree of [height] levels, and the number of
    wrappers after them.  [next] is the number of the next wrapper. *)
Fixpoint allocateLevel (fuel : nat) (height depth : nat) (next : nat) : list rnode * nat :=
  match fuel with
  | O => ([], next)
  | S fuel =>
      let depth := S depth in
      let isLast := (depth =? height - 1)%nat in
      let child next :=
        let vals := if isLast then seq next LEVEL_SIZE else [] in
        let next := if isLast then (next + LEVEL_SIZE)%nat else next in
        if (depth <? height - 1)%nat
        then let (cs, next) := allocateLevel fuel height depth next in (RNode isLast depth cs vals, next)
        else (RNode isLast depth [] vals, next) in
      let (c0, next) := child next in
      let (c1, next) := child next in
      let (c2, next) := child next in
      let (c3, next) := child next in
      ([c0; c1; c2; c3], next)
  end.

(** [Tree::Tree] for a new pool. *)
Definition new_tree (height : nat) : rnode := RNode false 0 (fst (allocateLevel height height 0 0)) [].

(** ** [Tree::findValueInNode] *)

(** The two bits of a key at a depth: [key] is an array of [char], which is signed, and is
    shifted as an [int]. *)
Definition key_calc (key : list Z) (depth : nat) : option Z :=
  let bit := Z.of_nat depth * level_bits in
  match key !! Z.to_nat (bit / 8) with
  | Some b => Some (Z.land (Z.shiftr (swrap 8 b) (8 - level_bits - bit mod 8)) 3)
  | None => None
  end.

Fixpoint walk (fuel : nat) (height : nat) (key : list Z) (n : rnode) : option nat :=
  match fuel, n with
  | O, _ => None
  | S fuel, RNode _ d cs vals =>
      match key_calc key d with
      | None => None
      | Some i =>
          if (d =? height - 1)%nat then vals !! Z.to_nat i
          else match cs !! Z.to_nat i with Some c => walk fuel height key c | None => None end
      end
  end.

(** ** The number of a wrapper *)

(** The two bits at a depth as part of the number that the bytes spell. *)
Definition digit (key : list Z) (depth : nat) : Z :=
  (nth (Z.to_nat (Z.of_nat depth * 2 / 8)) key 0 / 2 ^ (6 - Z.of_nat depth * 2 mod 8)) mod 4.

(** The number that the digits from a depth on spell. *)
Fixpoint digits_from (key : list Z) (depth : nat) (n : nat) : Z :=
  match n with O => 0 | S n => digit key depth * 4 ^ Z.of_nat n + digits_from key (S depth) n end.

Lemma key_calc_digit key d : Forall (fun b => 0 <= b < 256) key -> (Z.to_nat (Z.of_nat d * 2 / 8) < length key)%nat ->
  key_calc key d = Some (digit key d).
Proof.
  intros Hb Hl. unfold key_calc, digit, level_bits. destruct (lookup_lt_is_Some_2 _ _ Hl) as [b Hlk]. rewrite Hlk.
  assert (En : nth (Z.to_nat (Z.of_nat d * 2 / 8)) key 0 = b) by (by apply nth_lookup_Some). rewrite En.
  rewrite Forall_lookup in Hb. specialize (Hb _ _ Hlk). simpl in Hb. f_equal.
  assert (Hk : Z.of_nat d * 2 mod 8 = 0 \/ Z.of_nat d * 2 mod 8 = 2 \/ Z.of_nat d * 2 mod 8 = 4 \/ Z.of_nat d * 2 mod 8 = 6).
  { change 8 with (4 * 2). rewrite Z.mul_mod_distr_r by lia. pose proof (Z.mod_pos_bound (Z.of_nat d) 4). lia. }
  change 3 with (Z.ones 2). rewrite Z.land_ones, Z.shiftr_div_pow2 by lia. change (2 ^ 2) with 4.
  change (8 - 2 - Z.of_nat d * 2 mod 8) with (6 - Z.of_nat d * 2 mod 8).
  assert (Hs : exists m, swrap 8 b = b + m * 256).
  { unfold swrap. change (2 ^ (8 - 1)) with 128. change (2 ^ 8) with 256. exists (- ((b + 128) / 256)). dlia. }
  destruct Hs as [m ->].
  destruct Hk as [->|[->|[->| ->]]]; change (2 ^ (6 - 0)) with 64; change (2 ^ (6 - 2)) with 16;
    change (2 ^ (6 - 4)) with 4; change (2 ^ (6 - 6)) with 1; dlia.
Qed.

Lemma digit_range key d : 0 <= digit key d < 4.
Proof. unfold digit. dlia. Qed.

Lemma digits_from_range key n : forall d, 0 <= digits_from key d n < 4 ^ Z.of_nat n.
Proof.
  induction n as [|n IH]; intros d; simpl digits_from; [done|].
  specialize (IH (S d)). pose proof (digit_range key d). rewrite Nat2Z.inj_succ, Z.pow_succ_r by lia. nia.
Qed.

(** A complete subtree whose root is at depth [d], with [r] levels below it and wrappers
    from number [b] on. *)
Fixpoint complete (r : nat) (d b : nat) (n : rnode) : Prop :=
  match r with
  | O => exists e, n = RNode e d [] (seq b LEVEL_SIZE)
  | S r => exists e c0 c1 c2 c3, n = RNode e d [c0; c1; c2; c3] [] /\
      complete r (S d) b c0 /\ complete r (S d) (b + 4 ^ S r)%nat c1 /\
      complete r (S d) (b + 2 * 4 ^ S r)%nat c2 /\ complete r (S d) (b + 3 * 4 ^ S r)%nat c3
  end.

Lemma allocateLevel_complete height r : forall fuel depth next, (height - 1 = depth + S r)%nat -> (r < fuel)%nat ->
  exists c0 c1 c2 c3, allocateLevel fuel height depth next = ([c0; c1; c2; c3], (next + 4 * 4 ^ S r)%nat) /\
    complete r (S depth) next c0 /\ complete r (S depth) (next + 4 ^ S r)%nat c1 /\
    complete r (S depth) (next + 2 * 4 ^ S r)%nat c2 /\ complete r (S depth) (next + 3 * 4 ^ S r)%nat c3.
Proof.
  induction r as [|r IH]; intros [|fuel] depth next Hh Hf; try lia; cbn [allocateLevel].
  - replace (S depth =? height - 1)%nat with true by (symmetry; apply Nat.eqb_eq; lia).
    replace (S depth <? height - 1)%nat with false by (symmetry; apply Nat.ltb_ge; lia). unfold LEVEL_SIZE.
    change (4 ^ 1)%nat with 4%nat. do 4 eexists. split; [apply (f_equal2 pair); [reflexivity|lia]|].
    split_and!; eexists; f_equal; apply (f_equal2 seq); (reflexivity || lia).
  - replace (S depth =? height - 1)%nat with false by (symmetry; apply Nat.eqb_neq; lia).
    replace (S depth <? height - 1)%nat with true by (symmetry; apply Nat.ltb_lt; lia).
    assert (Hl : forall n, exists c0 c1 c2 c3, allocateLevel fuel height (S depth) n = ([c0; c1; c2; c3], (n + 4 ^ S (S r))%nat) /\
      complete (S r) (S depth) n (RNode false (S depth) [c0; c1; c2; c3] [])).
    { intros n. destruct (IH fuel (S depth) n) as (c0 & c1 & c2 & c3 & -> & Hc); [lia|lia|].
      exists c0, c1, c2, c3. split; [f_equal; simpl; lia|]. by exists false, c0, c1, c2, c3. }
    destruct (Hl next) as (a0 & a1 & a2 & a3 & -> & A).
    destruct (Hl (next + 4 ^ S (S r))%nat) as (b0 & b1 & b2 & b3 & -> & B).
    destruct (Hl (next + 4 ^ S (S r) + 4 ^ S (S r))%nat) as (d0 & d1 & d2 & d3 & -> & D).
    destruct (Hl (next + 4 ^ S (S r) + 4 ^ S (S r) + 4 ^ S (S r))%nat) as (f0 & f1 & f2 & f3 & -> & F).
    do 4 eexists. split; [apply (f_equal2 pair); [reflexivity|lia]|]. split_and!; [exact A|exact B| |].
    + replace (next + 2 * 4 ^ S (S r))%nat with (next + 4 ^ S (S r) + 4 ^ S (S r))%nat by lia. exact D.
    + replace (next + 3 * 4 ^ S (S r))%nat with (next + 4 ^ S (S r) + 4 ^ S (S r) + 4 ^ S (S r))%nat by lia. exact F.
Qed.

Lemma new_tree_complete r : complete (S r) 0 0 (new_tree (S (S r))).
Proof.
  unfold new_tree. destruct (allocateLevel_complete (S (S r)) r (S (S r)) 0 0) as (c0 & c1 & c2 & c3 & -> & Hc); [lia|lia|].
  by exists false, c0, c1, c2, c3.
Qed.

(** A walk ends at the wrapper whose number is spelled by the key. *)
Lemma walk_complete height key : Forall (fun b => 0 <= b < 256) key -> forall r d b n fuel, complete r d b n ->
  (height - 1 = d + r)%nat -> (r < fuel)%nat -> (Z.to_nat (Z.of_nat (d + r) * 2 / 8) < length key)%nat ->
  walk fuel height key n = Some (b + Z.to_nat (digits_from key d (S r)))%nat.
Proof.
  intros Hb. induction r as [|r IH]; intros d b n [|fuel] Hc Hh Hf Hl; try lia.
  - destruct Hc as [e ->]. cbn [walk]. rewrite key_calc_digit by (done || (rewrite Nat.add_0_r in Hl; done)).
    replace (d =? height - 1)%nat with true by (symmetry; apply Nat.eqb_eq; lia). unfold LEVEL_SIZE.
    pose proof (digit_range key d) as Hd. cbn [digits_from]. rewrite lookup_seq_lt by lia.
    change (Z.of_nat 0) with 0. f_equal. lia.
  - destruct Hc as (e & c0 & c1 & c2 & c3 & -> & C0 & C1 & C2 & C3). cbn [walk].
    rewrite key_calc_digit by (done || (clear -Hl; dlia)).
    replace (d =? height - 1)%nat with false by (symmetry; apply Nat.eqb_neq; lia).
    pose proof (digit_range key d) as Hd. pose proof (digits_from_range key (S r) (S d)) as Hr.
    assert (Hp : Z.of_nat (4 ^ S r) = 4 ^ Z.of_nat (S r)) by (by rewrite Nat2Z.inj_pow).
    change (digits_from key d (S (S r))) with (digit key d * 4 ^ Z.of_nat (S r) + digits_from key (S d) (S r)).
    rewrite <- Hp. replace (d + S r)%nat with (S d + r)%nat in * by lia.
    assert (Hcase : digit key d = 0 \/ digit key d = 1 \/ digit key d = 2 \/ digit key d = 3) by lia.
    assert (Hgo : forall c i, complete r (S d) (b + Z.to_nat i * 4 ^ S r)%nat c -> 0 <= i ->
      walk fuel height key c = Some (b + Z.to_nat (i * Z.of_nat (4 ^ S r) + digits_from key (S d) (S r)))%nat).
    { intros c i Hc Hi. rewrite (IH _ _ c fuel Hc) by lia. f_equal. clear -Hr Hi. nia. }
    destruct Hcase as [->|[->|[->| ->]]].
    + apply (Hgo c0 0); [|done]. by rewrite Nat.add_0_r.
    + apply (Hgo c1 1); [|done]. by rewrite Nat.mul_1_l.
    + by apply (Hgo c2 2).
    + by apply (Hgo c3 3).
Qed.

(** The number of a key: for the twelve levels of a new tree, its first three bytes. *)
Lemma digits_three k0 k1 k2 rest : 0 <= k0 < 256 -> 0 <= k1 < 256 -> 0 <= k2 < 256 ->
  digits_from (k0 :: k1 :: k2 :: rest) 0 12 = k0 * 65536 + k1 * 256 + k2.
Proof.
  intros B0 B1 B2.
  transitivity (((k0 / 64) mod 4 * 64 + (k0 / 16) mod 4 * 16 + (k0 / 4) mod 4 * 4 + (k0 / 1) mod 4) * 65536
    + ((k1 / 64) mod 4 * 64 + (k1 / 16) mod 4 * 16 + (k1 / 4) mod 4 * 4 + (k1 / 1) mod 4) * 256
    + ((k2 / 64) mod 4 * 64 + (k2 / 16) mod 4 * 16 + (k2 / 4) mod 4 * 4 + (k2 / 1) mod 4)).
  - cbn [digits_from].
    assert (D : forall d i b p, Z.to_nat (Z.of_nat d * 2 / 8) = i -> nth i (k0 :: k1 :: k2 :: rest) 0 = b ->
      2 ^ (6 - Z.of_nat d * 2 mod 8) = p -> digit (k0 :: k1 :: k2 :: rest) d = (b / p) mod 4).
    { unfold digit. by intros ? ? ? ? -> -> ->. }
        rewrite (D 0%nat 0%nat k0 64), (D 1%nat 0%nat k0 16), (D 2%nat 0%nat k0 4), (D 3%nat 0%nat
      k0 1), (D 4%nat 1%nat k1 64), (D 5%nat 1%nat k1 16), (D 6%nat 1%nat k1 4), (D 7%nat 1%nat k1
      1), (D 8%nat 2%nat k2 64), (D 9%nat 2%nat k2 16), (D 10%nat 2%nat k2 4), (D 11%nat 2%nat k2 1)
      by reflexivity.
    repeat match goal with |- context [4 ^ Z.of_nat ?n] =>
      let v := eval vm_compute in (4 ^ Z.of_nat n) in change (4 ^ Z.of_nat n) with v end.
    ring.
  - assert (Q : forall b, 0 <= b < 256 -> (b / 64) mod 4 * 64 + (b / 16) mod 4 * 16 + (b / 4) mod 4 * 4 + (b / 1) mod 4 = b).
    { intros b Hb. dlia. }
    by rewrite !Q.
Qed.

(** ** The tree and its operations *)

Section Operations.
Context {P : Type} `{PmemPool P}.

(** [class Tree] with the objects of its pool, and what [findValueInNode] caches for the
    thread.  A wrapper that is not in the map is as it was constructed. *)
Record RTree : Type := mkRTree {
  r_root : rnode; r_height : nat; r_cache : option (list Z * nat);
  r_wrappers : gmap nat ValueWrapper; r_iovs : gmap positive DeviceAddr; r_pool : P }.

Abbreviation RM A := (M exn RTree A).

(** [Tree::Tree] on a new pool. *)
Definition Tree_create (p : P) : RTree := mkRTree (new_tree tree_heigh) tree_heigh None ∅ ∅ p.

(** [SetKeySize] ignores the size that is asked for. *)
Definition r_SetKeySize (req_size : Z) : Z := KEY_SIZE / BITS_IN_BYTE.

(** [findValueInNode]: the cached key is compared and copied with [KEY_SIZE] bytes. *)
Definition r_find (key : list Z) : RM nat := fun s =>
  let n := Z.to_nat KEY_SIZE in
  let search :=
    match walk (r_height s) (r_height s) key (r_root s) with
    | None => (Undef, s)
    | Some w =>
        if (length key <? n)%nat then (Undef, s)
        else (Ret w, mkRTree (r_root s) (r_height s) (Some (take n key, w)) (r_wrappers s) (r_iovs s) (r_pool s))
    end in
  match r_cache s with
  | None => search
  | Some (ck, w) =>
      if (length key <? n)%nat then (Undef, s)
      else if bool_decide (take n key = ck) then (Ret w, s) else search
  end.

Definition r_wrapper (s : RTree) (w : nat) : ValueWrapper := default fresh_wrapper (r_wrappers s !! w).
Definition r_set (w : nat) (v : ValueWrapper) : RM unit := fun s =>
  (Ret tt, mkRTree (r_root s) (r_height s) (r_cache s) (<[w:=v]> (r_wrappers s)) (r_iovs s) (r_pool s)).
Definition r_set_pool (p : P) : RM unit := fun s =>
  (Ret tt, mkRTree (r_root s) (r_height s) (r_cache s) (r_wrappers s) (r_iovs s) p).

(** [Get]. *)
Definition r_Get (key : list Z) : RM (option positive * Z * LOCATIONS) :=
  let! w := r_find key in
  let! s := cget in
  let v := r_wrapper s w in
  if bool_decide (location v = PMEM) && bool_decide (locationVolatile v <> EMPTY) then cret (locationPtr v, vsize v, PMEM)
  else if bool_decide (location v = DISK) then cret (locationPtr v, vsize v, DISK)
  else cthrow (OperationFailedException KEY_NOT_FOUND).

(** [Put]: the value was written through the pointer of [AllocValueForKey]. *)
Definition r_Put (key : list Z) : RM unit :=
  let! w := r_find key in
  let! s := cget in
  let v := r_wrapper s w in
  r_set w (mkValueWrapper PMEM (locationPtr v) (vsize v) PMEM (actionValue v)).

(** [pmemobj_cancel(actionValue)]. *)
Definition r_cancel (a : action) : RM unit :=
  match a with
  | AOwned value => let! s := cget in r_set_pool (pm_release value (r_pool s))
  | ANull | ADangling => cundef
  end.

(** [Remove]: the location is empty when it is tested for the deletion of [actionValue]. *)
Definition r_Remove (key : list Z) : RM unit :=
  let! w := r_find key in
  let! s := cget in
  let v := r_wrapper s w in
  if bool_decide (location v = EMPTY) then cthrow (OperationFailedException KEY_NOT_FOUND)
  else
    (if bool_decide (location v = PMEM) && bool_decide (locationVolatile v <> EMPTY)
     then r_cancel (actionValue v) else cret tt) ;;;
    r_set w (mkValueWrapper EMPTY (locationPtr v) (vsize v) (locationVolatile v) (actionValue v)).

(** [AllocValueForKey]: it does not look whether the key has a value. *)
Definition r_AllocValueForKey (key : list Z) (size : Z) : RM positive :=
  let! w := r_find key in
  let! s := cget in
  let v := r_wrapper s w in
  match pm_reserve size (r_pool s) with
  | None =>
      r_set w (mkValueWrapper (location v) (locationPtr v) (vsize v) (locationVolatile v) ANull) ;;;
      cthrow (OperationFailedException PMEM_ALLOCATION_ERROR)
  | Some (a, p) =>
      r_set_pool p ;;;
      r_set w (mkValueWrapper (location v) (Some a) size (locationVolatile v) (AOwned a)) ;;;
      cret a
  end.

(** [AllocateAndUpdateValueWrapper]: a failed reservation is not tested. *)
Definition r_AllocateAndUpdateValueWrapper (key : list Z) (size : Z) (devAddr : DeviceAddr) : RM unit :=
  let! w := r_find key in
  let! s := cget in
  let v := r_wrapper s w in
  r_cancel (actionValue v) ;;;
  let! s := cget in
  match pm_reserve size (r_pool s) with
  | None => cundef
  | Some (a, p) =>
      cput (mkRTree (r_root s) (r_height s) (r_cache s)
        (<[w := mkValueWrapper DISK (Some a) (vsize v) (locationVolatile v) ANull]> (r_wrappers s))
        (<[a := devAddr]> (r_iovs s)) p)
  end.

(** ** Which wrapper a key has *)

(** A key in a buffer that is long enough for [memcmp]. *)
Definition r_key (key : list Z) : Prop := Forall (fun b => 0 <= b < 256) key /\ (24 <= length key)%nat.

Definition r_number (key : list Z) : nat := Z.to_nat (digits_from key 0 tree_heigh).

(** The state of a tree of twelve levels. *)
Record rtree_inv (s : RTree) : Prop := {
  ri_height : r_height s = tree_heigh;
  ri_root : complete 11 0 0 (r_root s);
  ri_cache : forall ck w, r_cache s = Some (ck, w) -> forall key, r_key key -> take 24 key = ck -> w = r_number key }.

Lemma rtree_inv_create p : rtree_inv (Tree_create p).
Proof. split; [done| |done]. exact (new_tree_complete 10). Qed.

Lemma r_number_bytes key : r_key key ->
  Z.of_nat (r_number key) = nth 0 key 0 * 65536 + nth 1 key 0 * 256 + nth 2 key 0.
Proof.
  intros [Hb Hl]. destruct key as [|k0 [|k1 [|k2 rest]]]; simpl in Hl; try lia.
  apply Forall_cons in Hb as [B0 Hb]. apply Forall_cons in Hb as [B1 Hb]. apply Forall_cons in Hb as [B2 _].
  unfold r_number, tree_heigh. rewrite digits_three by done. simpl nth. lia.
Qed.

Lemma r_number_inj key key' : r_key key -> r_key key' -> r_number key = r_number key' <-> take 3 key = take 3 key'.
Proof.
  intros Hk Hk'. pose proof (r_number_bytes key Hk) as E. pose proof (r_number_bytes key' Hk') as E'.
  destruct Hk as [Hb Hl], Hk' as [Hb' Hl'].
  destruct key as [|k0 [|k1 [|k2 rest]]]; simpl in Hl; try lia.
  destruct key' as [|j0 [|j1 [|j2 rest']]]; simpl in Hl'; try lia.
  rewrite !Forall_cons in Hb, Hb'. simpl in E, E'. simpl take. split.
  - intros En. rewrite En in E. repeat f_equal; lia.
  - intros [= -> -> ->]. lia.
Qed.

Lemma r_find_number s key : rtree_inv s -> r_key key ->
  exists s', r_find key s = (Ret (r_number key), s') /\ rtree_inv s' /\ r_wrappers s' = r_wrappers s /\
    r_iovs s' = r_iovs s /\ r_pool s' = r_pool s.
Proof.
  intros I Hk. pose proof Hk as [Hb Hl]. unfold r_find. change (Z.to_nat KEY_SIZE) with 24%nat.
  replace (length key <? 24)%nat with false by (symmetry; apply Nat.ltb_ge; lia).
  assert (Hw : walk (r_height s) (r_height s) key (r_root s) = Some (r_number key)).
  { rewrite (ri_height _ I). apply (walk_complete tree_heigh key Hb 11 0 0); [exact (ri_root _ I)|done|unfold tree_heigh; lia|].
    change (Z.to_nat (Z.of_nat (0 + 11) * 2 / 8)) with 2%nat. lia. }
  assert (Hs : rtree_inv (mkRTree (r_root s) (r_height s) (Some (take 24 key, r_number key)) (r_wrappers s) (r_iovs s) (r_pool s))).
  { split; [exact (ri_height _ I)|exact (ri_root _ I)|]. simpl. intros ck w [= <- <-] key' Hk' Ht.
    symmetry. apply r_number_inj; [done|done|]. change (take 3 key') with (take (3 `min` 24) key').
    change (take 3 key) with (take (3 `min` 24) key). rewrite <- !take_take. by rewrite Ht. }
  rewrite Hw. destruct (r_cache s) as [[ck w]|] eqn:Hc; [case_bool_decide as Ht|].
  - exists s. rewrite (ri_cache _ I _ _ Hc key Hk Ht). done.
  - eexists. split; [reflexivity|]. done.
  - eexists. split; [reflexivity|]. done.
Qed.

Lemma r_find_short s key : (length key < 24)%nat -> fst (r_find key s) = Undef.
Proof.
  intros Hl. unfold r_find. change (Z.to_nat KEY_SIZE) with 24%nat.
  replace (length key <? 24)%nat with true by (symmetry; apply Nat.ltb_lt; lia).
  destruct (r_cache s) as [[? ?]|]; [done|]. by destruct (walk _ _ _ _).
Qed.

(** What [Get] sees of a key. *)
Definition r_view (s : RTree) (key : list Z) : option (option positive * Z * LOCATIONS) :=
  visible (r_wrapper s (r_number key)).

Lemma r_wrapper_eq s s' w : r_wrappers s' = r_wrappers s -> r_wrapper s' w = r_wrapper s w.
Proof. unfold r_wrapper. by intros ->. Qed.

Lemma r_wrapper_set s w v w' ch iv p :
  r_wrapper (mkRTree (r_root s) (r_height s) ch (<[w:=v]> (r_wrappers s)) iv p) w' = if decide (w' = w) then v else r_wrapper s w'.
Proof.
  unfold r_wrapper. simpl. case_decide as E; [subst; by rewrite lookup_insert_eq|by rewrite lookup_insert_ne].
Qed.

Lemma rtree_inv_set s w v iv p : rtree_inv s ->
  rtree_inv (mkRTree (r_root s) (r_height s) (r_cache s) (<[w:=v]> (r_wrappers s)) iv p).
Proof. intros [? ? ?]. by split. Qed.

Lemma r_Get_view s key : rtree_inv s -> r_key key ->
  exists s', rtree_inv s' /\ (forall k, r_view s' k = r_view s k) /\
    r_Get key s = (match r_view s key with Some r => Ret r | None => Throw (OperationFailedException KEY_NOT_FOUND) end, s').
Proof.
  intros I Hk. destruct (r_find_number s key I Hk) as (s' & E & I' & Hw & _). exists s'.
  unfold r_Get, r_view, cbind, cget. rewrite E,  (r_wrapper_eq s s' _ Hw).
  split; [done|]. split; [intros k; by rewrite (r_wrapper_eq s s' _ Hw)|].
  unfold visible. destruct (location _), (locationVolatile _); reflexivity.
Qed.

Lemma r_Put_view s key : rtree_inv s -> r_key key ->
  exists s', r_Put key s = (Ret tt, s') /\ rtree_inv s' /\
    r_wrapper s' (r_number key) = (let v := r_wrapper s (r_number key) in mkValueWrapper PMEM (locationPtr v) (vsize v) PMEM (actionValue v)) /\
    (forall w, w <> r_number key -> r_wrapper s' w = r_wrapper s w).
Proof.
  intros I Hk. destruct (r_find_number s key I Hk) as (s' & E & I' & Hw & _).
  unfold r_Put, r_set, cbind, cget. rewrite E, (r_wrapper_eq s s' _ Hw).
  eexists. split; [reflexivity|]. split; [by apply rtree_inv_set|].
  split; [by rewrite r_wrapper_set, decide_True|]. intros w Hne. rewrite r_wrapper_set, decide_False by done.
  by apply r_wrapper_eq.
Qed.

Lemma r_Alloc_view s key size : rtree_inv s -> r_key key ->
  exists s', rtree_inv s' /\ (forall w, w <> r_number key -> r_wrapper s' w = r_wrapper s w) /\
    let v := r_wrapper s (r_number key) in
    match pm_reserve size (r_pool s) with
    | Some (a, p) => r_AllocValueForKey key size s = (Ret a, s') /\
        r_wrapper s' (r_number key) = mkValueWrapper (location v) (Some a) size (locationVolatile v) (AOwned a)
    | None => r_AllocValueForKey key size s = (Throw (OperationFailedException PMEM_ALLOCATION_ERROR), s') /\
        r_wrapper s' (r_number key) = mkValueWrapper (location v) (locationPtr v) (vsize v) (locationVolatile v) ANull
    end.
Proof.
  intros I Hk. destruct (r_find_number s key I Hk) as (s' & E & I' & Hw & _ & Hp).
  unfold r_AllocValueForKey, r_set, r_set_pool, cbind, cget. rewrite E, (r_wrapper_eq s s' _ Hw), Hp.
  assert (Ho : forall v iv p w, w <> r_number key ->
    r_wrapper (mkRTree (r_root s') (r_height s') (r_cache s') (<[r_number key:=v]> (r_wrappers s')) iv p) w = r_wrapper s w).
  { intros v iv p w Hne. rewrite r_wrapper_set, decide_False by done. by apply r_wrapper_eq. }
  destruct (pm_reserve size (r_pool s)) as [[a p]|]; eexists; (split; [by apply rtree_inv_set|]); (split; [apply Ho|]);
    (split; [reflexivity|]); by rewrite r_wrapper_set, decide_True.
Qed.

(** C19. The tree leads two keys to the same value exactly when their first three bytes are
    the same: the value's number is the one these bytes spell.  The keys must be in buffers
    of at least 24 bytes, since [findValueInNode] compares and copies as many bytes as a key
    has bits; for keys of the three bytes that [SetKeySize] reports it is undefined. *)
Theorem rtree_key_number (s : RTree) (key : list Z) :
  (rtree_inv s -> r_key key ->
     (exists s', r_find key s = (Ret (r_number key), s') /\ rtree_inv s' /\ r_wrappers s' = r_wrappers s) /\
     Z.of_nat (r_number key) = nth 0 key 0 * 65536 + nth 1 key 0 * 256 + nth 2 key 0 /\
     (forall key', r_key key' -> r_number key' = r_number key <-> take 3 key' = take 3 key)) /\
  (Z.of_nat (length key) = r_SetKeySize (Z.of_nat (length key)) -> fst (r_find key s) = Undef).
Proof.
  split.
  - intros I Hk. split; [|split; [by apply r_number_bytes|intros; by apply r_number_inj]].
    destruct (r_find_number s key I Hk) as (s' & E & I' & Hw & _). eauto.
  - intros Hl. apply r_find_short. unfold r_SetKeySize in Hl. change (KEY_SIZE / BITS_IN_BYTE) with 3 in Hl. lia.
Qed.

(** A value that is allocated and put is what [Get] returns for its key, with the size
    asked for, and what is seen of keys with other first bytes stays; but a second
    allocation for the key is not refused, and is seen by [Get] before it is written. *)
Theorem rtree_put_get (s : RTree) (key : list Z) (size : Z) (a : positive) (s1 : RTree) :
  rtree_inv s -> r_key key -> r_AllocValueForKey key size s = (Ret a, s1) ->
  exists s2, r_Put key s1 = (Ret tt, s2) /\ fst (r_Get key s2) = Ret (Some a, size, PMEM) /\
    (forall k, r_key k -> take 3 k <> take 3 key -> fst (r_Get k s2) = fst (r_Get k s)) /\
    (forall size' b s3, r_AllocValueForKey key size' s2 = (Ret b, s3) -> fst (r_Get key s3) = Ret (Some b, size', PMEM)).
Proof.
  intros I Hk Ea. destruct (r_Alloc_view s key size I Hk) as (s1' & I1 & Ho1 & Hr). rewrite Ea in Hr.
  destruct (pm_reserve size (r_pool s)) as [[a' p]|]; destruct Hr as [Hr Hw1]; [|done]. injection Hr as <- <-.
  destruct (r_Put_view s1 key I1 Hk) as (s2 & E2 & I2 & Hw2 & Ho2). rewrite Hw1 in Hw2. simpl in Hw2.
  exists s2. split; [done|]. split; [|split].
  - destruct (r_Get_view s2 key I2 Hk) as (? & _ & _ & ->). unfold r_view. by rewrite Hw2.
  - intros k Hkk Hne. destruct (r_Get_view s2 k I2 Hkk) as (? & _ & _ & ->).
    destruct (r_Get_view s k I Hkk) as (? & _ & _ & ->).
    assert (Hn : r_number k <> r_number key) by (by rewrite r_number_inj). unfold r_view. by rewrite Ho2, Ho1.
  - intros size' b s3 E3. destruct (r_Alloc_view s2 key size' I2 Hk) as (s3' & I3 & _ & Hr'). rewrite E3 in Hr'.
    destruct (pm_reserve size' (r_pool s2)) as [[b' p']|]; destruct Hr' as [Hr' Hw3]; [|done]. injection Hr' as <- <-.
    destruct (r_Get_view s3 key I3 Hk) as (? & _ & _ & ->). unfold r_view. rewrite Hw3, Hw2. done.
Qed.
End Operations.

(** ** A run *)

Section RRuns.
#[local] Existing Instance simple_pool.

Definition r_run : RTree := Tree_create (∅ : gset positive).
Definition r_key1 : list Z := [200; 1; 2] ++ replicate 21 7.

Lemma r_key1_ok : r_key r_key1.
Proof. split; [|simpl; lia]. repeat (apply Forall_cons; split; [lia|]). constructor. Qed.

Lemma rtree_key_number_witness : exists s', r_find r_key1 r_run = (Ret (r_number r_key1), s') /\ Z.of_nat (r_number r_key1) = 13107458.
Proof.
  destruct (proj1 (rtree_key_number r_run r_key1) (rtree_inv_create _) r_key1_ok) as ((s' & E & _) & N & _).
  exists s'. split; [exact E|]. rewrite N. reflexivity.
Defined.

Lemma rtree_put_get_witness : exists s1 s2, r_AllocValueForKey r_key1 50 r_run = (Ret 1%positive, s1) /\
  r_Put r_key1 s1 = (Ret tt, s2) /\ fst (r_Get r_key1 s2) = Ret (Some 1%positive, 50, PMEM).
Proof.
  destruct (r_Alloc_view r_run r_key1 50 (rtree_inv_create _) r_key1_ok) as (s1 & _ & _ & E & _).
  destruct (rtree_put_get r_run r_key1 50 1 s1 (rtree_inv_create _) r_key1_ok E) as (s2 & E2 & G & _).
  exists s1, s2. split; [exact E|]. split; [exact E2|exact G].
Defined.
End RRuns.
