(* ===== verification/StoreClose.v ===== *)
(** * Closing a store ([KVStore::~KVStore], [PmemPoller::~PmemPoller])

    The destructor deletes the tree first, then stops the DHT server, and only then the
    threads of the pollers, which go on serving requests until they see that they should
    stop.  A turn of a poller is a test of [isRunning], a [dequeue] or one request of a
    batch; a turn of the destructor is one of its statements.  Turns interleave in any
    order. *)

From S2P Require Import Prelude Status ARTree RTreeEngine Poller Rqst PmemPoller.

(** Where a poller's thread is in [_threadMain]; [PServe] with the index of the request. *)
Inductive poller_pc : Type := PTest | PDequeue | PServe (idx : nat) | PEnded.

#[export] Instance poller_pc_eq_dec : EqDecision poller_pc.
Proof. solve_decision. Defined.

(** Where the destructor is: before [_spRtree.reset()], [_spPKey.reset()],
    [_spDhtServer.reset()], [_spDht.reset()], before it stops poller [i], where it waits for
    that thread, before [_spOffloadPoller.reset()], and at the end. *)
Inductive close_pc : Type :=
| CTree | CKeys | CServer | CDht | CStop (i : nat) | CJoin (i : nat) | COffload | CDone.

Section Close.
Context {T C R1 R2 PO : Type} `{RTreeEngine T} `{SpdkRing (Rqst RqstOperation C) R1}
  `{SpdkRing (Rqst OffloadOperation C) R2} `{RqstPool C PO}.

#[local] Abbreviation PmemRqst := (Rqst RqstOperation C).

Record PollerThread : Type := mkPollerThread { pt_queue : @Poller PmemRqst R1; pt_isRunning : bool; pt_pc : poller_pc }.

(** The store: its tree, until it is deleted, what the pollers share, the threads of the
    pollers, whether DHT handlers can run, and the destructor. *)
Record Closing : Type := mkClosing {
  cs_tree : option T; cs_callers : memory; cs_pmem : memory;
  cs_offload : option (@Poller (Rqst OffloadOperation C) R2); cs_getPool : PO; cs_calls : list (call C);
  cs_pollers : list PollerThread; cs_server : bool; cs_pc : close_pc }.

Definition set_thread (i : nat) (p : PollerThread) (s : Closing) : Closing :=
  mkClosing (cs_tree s) (cs_callers s) (cs_pmem s) (cs_offload s) (cs_getPool s) (cs_calls s)
    (<[i := p]> (cs_pollers s)) (cs_server s) (cs_pc s).
Definition set_close (tree : option T) (server : bool) (pc : close_pc) (s : Closing) : Closing :=
  mkClosing tree (cs_callers s) (cs_pmem s) (cs_offload s) (cs_getPool s) (cs_calls s) (cs_pollers s) server pc.

(** One request of poller [i].  A call through the pointer to a deleted tree is undefined;
    requests that are neither put nor get do not make one. *)
Definition serve_one (i : nat) (p : PollerThread) (idx : nat) (r : PmemRqst) (s : Closing) : outcome exn Closing :=
  let next := mkPollerThread (pt_queue p) (pt_isRunning p) (PServe (S idx)) in
  match cs_tree s with
  | Some t =>
      match process_one r (mkPmemPoller (pt_queue p) t (cs_callers s) (cs_pmem s) (cs_offload s) (cs_getPool s) (cs_calls s) []) with
      | (Ret _, w) => Ret (set_thread i next
          (mkClosing (Some (rtree w)) (PmemPoller.callers w) (pmem w) (offloadPoller w) (getPool w) (calls w)
             (cs_pollers s) (cs_server s) (cs_pc s)))
      | (Throw e, _) => Throw e
      | (Crash, _) => Crash
      | (Undef, _) => Undef
      end
  | None => match op r with RPUT | RGET => Undef | _ => Ret (set_thread i next s) end
  end.

(** [_threadMain] of poller [i]. *)
Definition poller_turn (i : nat) (s : Closing) : option (outcome exn Closing) :=
  match cs_pollers s !! i with
  | None => None
  | Some p =>
      match pt_pc p with
      | PEnded => None
      | PTest => Some (Ret (set_thread i (mkPollerThread (pt_queue p) (pt_isRunning p) (if pt_isRunning p then PDequeue else PEnded)) s))
      | PDequeue => Some (Ret (set_thread i (mkPollerThread (dequeue DEQUEUE_RING_LIMIT (pt_queue p)) (pt_isRunning p) (PServe 0)) s))
      | PServe idx =>
          if Z.of_nat idx <? requestCount (pt_queue p) then
            match requests (pt_queue p) !! idx with
            | Some r => Some (serve_one i p idx r s)
            | None => Some Undef
            end
          else
            Some (Ret (set_thread i (mkPollerThread (mkPoller (rqstRing (pt_queue p)) (requests (pt_queue p)) 0) (pt_isRunning p) PTest) s))
      end
  end.

(** [~KVStore]. *)
Definition close_turn (s : Closing) : option (outcome exn Closing) :=
  match cs_pc s with
  | CTree => Some (Ret (set_close None (cs_server s) CKeys s))
  | CKeys => Some (Ret (set_close (cs_tree s) (cs_server s) CServer s))
  | CServer => Some (Ret (set_close (cs_tree s) false CDht s))
  | CDht => Some (Ret (set_close (cs_tree s) (cs_server s) (CStop 0) s))
  | CStop i =>
      match cs_pollers s !! i with
      | Some p => Some (Ret (set_close (cs_tree s) (cs_server s) (CJoin i) (set_thread i (mkPollerThread (pt_queue p) false (pt_pc p)) s)))
      | None => Some (Ret (set_close (cs_tree s) (cs_server s) COffload s))
      end
  | CJoin i =>
      match cs_pollers s !! i with
      | Some p => match pt_pc p with PEnded => Some (Ret (set_close (cs_tree s) (cs_server s) (CStop (S i)) s)) | _ => None end
      | None => None
      end
  | COffload => Some (Ret (set_close (cs_tree s) (cs_server s) CDone s))
  | CDone => None
  end.

(** A handler of the DHT server that gets a key from the store. *)
Definition handler_turn (key : list Z) (s : Closing) : option (outcome exn Closing) :=
  if cs_server s then
    match cs_tree s with
    | Some t =>
        let t' := snd (rt_Get key t) in
        Some (Ret (set_close (Some t') (cs_server s) (cs_pc s) s))
    | None => Some Undef
    end
  else None.

Inductive close_by : Type := ByPoller (i : nat) | ByHandler (key : list Z) | ByOwner.

Definition close_step (b : close_by) (s : Closing) : option (outcome exn Closing) :=
  match b with ByPoller i => poller_turn i s | ByHandler k => handler_turn k s | ByOwner => close_turn s end.

(** A run of turns: [None] when one of them cannot be taken. *)
Fixpoint close_run (bs : list close_by) (s : Closing) : option (outcome exn Closing) :=
  match bs with
  | [] => Some (Ret s)
  | b :: bs =>
      match close_step b s with
      | Some (Ret s') => close_run bs s'
      | r => match bs with [] => r | _ => None end
      end
  end.

(** ** A store without requests *)

(** A poller without requests, and its next turn. *)
Definition idle (p : PollerThread) : Prop :=
  ring_list (rqstRing (pt_queue p)) = [] /\ (forall idx, pt_pc p = PServe idx -> requestCount (pt_queue p) <= 0).

Definition idle_next (p : PollerThread) : PollerThread :=
  match pt_pc p with
  | PTest => mkPollerThread (pt_queue p) (pt_isRunning p) (if pt_isRunning p then PDequeue else PEnded)
  | PDequeue => mkPollerThread (dequeue DEQUEUE_RING_LIMIT (pt_queue p)) (pt_isRunning p) (PServe 0)
  | PServe _ => mkPollerThread (mkPoller (rqstRing (pt_queue p)) (requests (pt_queue p)) 0) (pt_isRunning p) PTest
  | PEnded => p
  end.

Lemma idle_next_idle p : idle p -> idle (idle_next p).
Proof.
  intros [Hr Hc]. unfold idle_next. destruct (pt_pc p) eqn:Ep; [..|split; [done|]; by rewrite Ep].
  - split; [done|]. simpl. by destruct (pt_isRunning p).
  - split; simpl; [|intros _ _].
    + destruct (dequeue_spec DEQUEUE_RING_LIMIT (pt_queue p)) as [_ E]. simpl in E. rewrite E, Hr. done.
    + destruct (ring_dequeue_list (DEQUEUE_RING_LIMIT) (rqstRing (pt_queue p))) as [E _]. simpl in E. rewrite E, Hr, take_nil. simpl. lia.
  - split; [done|]. simpl. done.
Qed.

Lemma idle_turn s i p : cs_pollers s !! i = Some p -> idle p -> pt_pc p <> PEnded ->
  poller_turn i s = Some (Ret (set_thread i (idle_next p) s)).
Proof.
  intros Hp [_ Hc] Hne. unfold poller_turn, idle_next. rewrite Hp. destruct (pt_pc p) as [| |idx|] eqn:Ep; try done.
  specialize (Hc idx eq_refl). destruct (Z.ltb_spec (Z.of_nat idx) (requestCount (pt_queue p))); [lia|done].
Qed.

(** No poller has requests, and the destructor is where its pollers are. *)
Definition ended (s : Closing) (j : nat) : Prop := exists p, cs_pollers s !! j = Some p /\ pt_pc p = PEnded.
Definition close_inv (s : Closing) : Prop :=
  Forall idle (cs_pollers s) /\
  match cs_pc s with
  | CStop i => (i <= length (cs_pollers s))%nat /\ forall j, (j < i)%nat -> ended s j
  | CJoin i => (exists p, cs_pollers s !! i = Some p /\ pt_isRunning p = false) /\ forall j, (j < i)%nat -> ended s j
  | COffload | CDone => forall j, (j < length (cs_pollers s))%nat -> ended s j
  | _ => True
  end.

Lemma ended_set s i p j : cs_pollers s !! i <> None -> ended s j -> (i = j -> pt_pc p = PEnded) -> ended (set_thread i p s) j.
Proof.
  intros Hi (q & Hq & Eq) Hp. destruct (decide (i = j)) as [->|Hne].
  - exists p. split; [simpl; rewrite list_lookup_insert_eq; [done|by eapply lookup_lt_Some]|by apply Hp].
  - exists q. simpl. by rewrite list_lookup_insert_ne.
Qed.

Lemma poller_turn_inv i s r : close_inv s -> poller_turn i s = Some r ->
  exists s', r = Ret s' /\ close_inv s' /\ cs_pc s' = cs_pc s /\ length (cs_pollers s') = length (cs_pollers s).
Proof.
  intros [Hi Hpc] E. destruct (cs_pollers s !! i) as [p|] eqn:Hp; [|by unfold poller_turn in E; rewrite Hp in E].
  destruct (decide (pt_pc p = PEnded)) as [Ee|Hne]; [by unfold poller_turn in E; rewrite Hp, Ee in E|].
  pose proof (Forall_lookup_1 _ _ _ _ Hi Hp) as Hip. rewrite (idle_turn s i p Hp Hip Hne) in E. injection E as <-.
  eexists. split; [reflexivity|]. split; [|split; [done|apply length_insert]].
  assert (Hk : forall j, ended s j -> ended (set_thread i (idle_next p) s) j).
  { intros j Hj. apply ended_set; [by rewrite Hp|done|]. intros <-. destruct Hj as (q & Hq & Eq). congruence. }
  split; [simpl; apply Forall_insert; [done|by apply idle_next_idle]|].
  simpl cs_pc. destruct (cs_pc s) as [| | | |k|k| |]; try done; simpl in *.
  - rewrite length_insert. destruct Hpc as [? Hj]. split; [done|]. intros; apply Hk; eauto.
  - destruct Hpc as [(q & Hq & Er) Hj]. split; [|intros; apply Hk; eauto].
    destruct (decide (i = k)) as [->|]; [|exists q; by rewrite list_lookup_insert_ne].
    exists (idle_next p). rewrite list_lookup_insert_eq by (by eapply lookup_lt_Some). split; [done|].
    rewrite Hp in Hq. injection Hq as ->. unfold idle_next. by destruct (pt_pc q).
  - rewrite length_insert. intros; apply Hk; eauto.
  - rewrite length_insert. intros; apply Hk; eauto.
Qed.

Lemma close_turn_inv s r : close_inv s -> close_turn s = Some r -> exists s', r = Ret s' /\ close_inv s'.
Proof.
  intros [Hi Hpc] E. unfold close_turn in E.
  destruct (cs_pc s) as [| | | |i|i| |] eqn:Epc; try (injection E as <-; eexists; split; [reflexivity|]; by split); try done.
  - injection E as <-. eexists. split; [reflexivity|]. split; [done|]. simpl. split; [lia|]. intros; lia.
  - destruct Hpc as [Hl Hj]. destruct (cs_pollers s !! i) as [p|] eqn:Hp; injection E as <-; (eexists; split; [reflexivity|]).
    + split; [simpl; apply Forall_insert; [done|exact (Forall_lookup_1 _ _ _ _ Hi Hp)]|]. simpl.
      split; [eexists; rewrite list_lookup_insert_eq by (by eapply lookup_lt_Some); done|].
      intros j Hlt. apply (ended_set s i _ j); [by rewrite Hp|by apply Hj|lia].
    + split; [done|]. simpl. intros j Hlt. apply Hj. apply lookup_ge_None in Hp. lia.
  - destruct Hpc as [(p & Hp & _) Hj]. rewrite Hp in E. destruct (pt_pc p) eqn:Ep; try done. injection E as <-.
    eexists. split; [reflexivity|]. split; [done|]. simpl. split; [by eapply lookup_lt_Some in Hp|].
    intros j Hlt. destruct (decide (j = i)) as [->|]; [by exists p|]. apply Hj. lia.
Qed.

Definition by_handler (b : close_by) : bool := match b with ByHandler _ => true | _ => false end.

Lemma close_run_inv bs : forall s r, close_inv s -> Forall (fun b => by_handler b = false) bs -> close_run bs s = Some r ->
  exists s', r = Ret s' /\ close_inv s'.
Proof.
  induction bs as [|b bs IH]; intros s r I Hb E; simpl in E; [injection E as <-; eauto|].
  apply Forall_cons in Hb as [Hb Hbs].
  assert (Hs : forall r, close_step b s = Some r -> exists s', r = Ret s' /\ close_inv s').
  { intros r' Er. destruct b; [|done|by apply (close_turn_inv s)].
    destruct (poller_turn_inv _ _ _ I Er) as (s' & -> & I' & _). eauto. }
  destruct (close_step b s) as [r'|]; [|by destruct bs]. destruct (Hs r' eq_refl) as (s' & -> & I'). eauto.
Qed.

Lemma close_run_app bs bs' : forall s s', close_run bs s = Some (Ret s') -> close_run (bs ++ bs') s = close_run bs' s'.
Proof.
  induction bs as [|b bs IH]; intros s s' E; simpl in *; [by injection E as <-|].
  destruct (close_step b s) as [[s1|e| |]|]; try (by destruct bs). by apply IH.
Qed.

(** Poller [i] was told to stop: its thread ends within three turns. *)
Lemma poller_ends n : forall s i p, cs_pollers s !! i = Some p -> idle p -> pt_isRunning p = false ->
  (match pt_pc p with PEnded => 0 | PTest => 1 | PServe _ => 2 | PDequeue => 3 end <= n)%nat ->
  exists k s', close_run (replicate k (ByPoller i)) s = Some (Ret s') /\ ended s' i.
Proof.
  induction n as [|n IH]; intros s i p Hp Hi Hr Hn.
  - exists 0%nat, s. split; [done|]. exists p. split; [done|]. by destruct (pt_pc p); try lia.
  - destruct (decide (pt_pc p = PEnded)) as [Ee|Hne]; [by exists 0%nat, s; split; [|exists p]|].
    pose proof (idle_turn s i p Hp Hi Hne) as Et.
    destruct (IH (set_thread i (idle_next p) s) i (idle_next p)) as (k & s' & E & He).
    + simpl. apply list_lookup_insert_eq. by eapply lookup_lt_Some.
    + by apply idle_next_idle.
    + unfold idle_next. by destruct (pt_pc p).
    + unfold idle_next. destruct (pt_pc p); simpl; rewrite ?Hr; simpl; try lia; done.
    + exists (S k), s'. split; [|done]. simpl. by rewrite Et.
Qed.

(** What is left for the destructor. *)
Definition close_left (s : Closing) : nat :=
  let n := length (cs_pollers s) in
  match cs_pc s with
  | CTree => 2 * n + 6 | CKeys => 2 * n + 5 | CServer => 2 * n + 4 | CDht => 2 * n + 3
  | CStop i => 2 * (n - i) + 2 | CJoin i => 2 * (n - i) + 1 | COffload => 1 | CDone => 0
  end.

Lemma polls_keep k i : forall s s', close_inv s -> close_run (replicate k (ByPoller i)) s = Some (Ret s') ->
  close_inv s' /\ cs_pc s' = cs_pc s /\ length (cs_pollers s') = length (cs_pollers s).
Proof.
  induction k as [|k IH]; intros s s' I E; simpl in E; [by injection E as <-|].
  destruct (poller_turn i s) as [r|] eqn:Er; [|by destruct (replicate _ _)].
  destruct (poller_turn_inv _ _ _ I Er) as (s1 & -> & I1 & Ec & El). destruct (IH _ _ I1 E) as (? & ? & ?). split_and!; congruence.
Qed.

Lemma owner_progress s : close_inv s -> cs_pc s <> CDone ->
  exists bs s', Forall (fun b => by_handler b = false) bs /\ close_run bs s = Some (Ret s') /\ close_inv s' /\ (close_left s' < close_left s)%nat.
Proof.
  intros I Hne.
  assert (Hown : forall s, close_inv s -> cs_pc s <> CDone -> (forall i, cs_pc s = CJoin i -> ended s i) ->
    exists s', close_run [ByOwner] s = Some (Ret s') /\ close_inv s' /\ (close_left s' < close_left s)%nat).
  { clear s I Hne. intros s I Hne Hj. destruct (close_turn s) as [r|] eqn:E.
    - destruct (close_turn_inv _ _ I E) as (s' & -> & I'). exists s'. split; [simpl; by rewrite E|]. split; [done|].
      unfold close_turn in E. unfold close_left. destruct I as [_ Hpc]. destruct (cs_pc s) as [| | | |i|i| |] eqn:Epc; try done;
        repeat case_hyp; simplify_eq; simpl; try lia; rewrite ?length_insert.
      + assert (i < length (cs_pollers s))%nat by (by eapply lookup_lt_Some). lia.
      + assert (i < length (cs_pollers s))%nat by (by eapply lookup_lt_Some). lia.
    - unfold close_turn in E. destruct (cs_pc s) as [| | | |i|i| |] eqn:Epc; try done.
      + by destruct (cs_pollers s !! i).
      + destruct (Hj i eq_refl) as (p & Hp & Ep). by rewrite Hp, Ep in E. }
  assert (Hcase : (exists i, cs_pc s = CJoin i) \/ forall i, cs_pc s <> CJoin i) by (destruct (cs_pc s); naive_solver).
  destruct Hcase as [[i Ei]|Hno].
  - pose proof I as [Hi Hpc]. rewrite Ei in Hpc. destruct Hpc as [(p & Hp & Er) _].
    destruct (poller_ends 3 s i p Hp (Forall_lookup_1 _ _ _ _ Hi Hp) Er) as (k & s1 & E1 & He); [destruct (pt_pc p); lia|].
    destruct (polls_keep _ _ _ _ I E1) as (I1 & Ec & El).
    destruct (Hown s1 I1) as (s' & E' & I' & Hl); [congruence|intros j Ej; congruence|].
    exists (replicate k (ByPoller i) ++ [ByOwner]), s'. split; [|split; [by rewrite (close_run_app _ _ _ _ E1)|split; [done|]]].
    + apply Forall_app. split; [by apply Forall_replicate|by constructor].
    + unfold close_left in *. rewrite Ec, El in Hl. exact Hl.
  - destruct (Hown s I Hne) as (s' & E' & I' & Hl); [intros i Ei; by destruct (Hno i)|]. exists [ByOwner], s'.
    split; [by apply Forall_singleton|done].
Qed.

Lemma owner_ends n : forall s, close_inv s -> (close_left s <= n)%nat ->
  exists bs s', close_run bs s = Some (Ret s') /\ close_inv s' /\ cs_pc s' = CDone.
Proof.
  assert (Hd : forall s, cs_pc s = CDone \/ cs_pc s <> CDone) by (intros s; destruct (cs_pc s); auto).
  induction n as [|n IH]; intros s I Hn; (destruct (Hd s) as [E|Hne]; [by exists [], s|]).
  - destruct (owner_progress s I Hne) as (bs & s' & _ & _ & _ & Hl). lia.
  - destruct (owner_progress s I Hne) as (bs & s1 & _ & E1 & I1 & Hl). destruct (IH s1 I1) as (bs' & s' & E' & I' & Hd'); [lia|].
    exists (bs ++ bs'), s'. by rewrite (close_run_app _ _ _ _ E1).
Qed.

(** ** Closing *)

(** A store that is about to be closed: the pollers run, and none of them is in a batch. *)
Definition open_store (s : Closing) : Prop :=
  cs_pc s = CTree /\ Forall (fun p => pt_isRunning p = true /\ pt_pc p = PTest) (cs_pollers s).

(** C22. A store whose pollers have no requests, and whose DHT server gets none, is closed
    safely: in every interleaving of the destructor and the pollers no turn is undefined,
    and from every state the destructor can still return, when all threads of pollers have
    ended. *)
Theorem store_close_idle s bs r : open_store s -> Forall (fun p => ring_list (rqstRing (pt_queue p)) = []) (cs_pollers s) ->
  Forall (fun b => by_handler b = false) bs -> close_run bs s = Some r ->
  exists s', r = Ret s' /\ exists bs' s'', close_run bs' s' = Some (Ret s'') /\ cs_pc s'' = CDone /\
    forall i p, cs_pollers s'' !! i = Some p -> pt_pc p = PEnded.
Proof.
  intros [Hpc Ho] Hq Hb E.
  assert (I : close_inv s).
  { split; [|by rewrite Hpc]. rewrite Forall_forall in *. intros p Hp. split; [by apply Hq|].
    intros idx Ep. destruct (Ho p Hp) as [_ Et]. congruence. }
  destruct (close_run_inv bs s r I Hb E) as (s' & -> & I'). exists s'. split; [done|].
  destruct (owner_ends _ s' I' (le_n _)) as (bs' & s'' & E' & [_ Hd] & Hc). exists bs', s''. split; [done|]. split; [done|].
  rewrite Hc in Hd. intros i p Hp. destruct (Hd i) as (q & Hq' & Eq); [by eapply lookup_lt_Some|]. congruence.
Qed.

(** The destructor can pass every poller before it looks at its ring. *)
Lemma pass_pollers n : forall s i, cs_pc s = CStop i -> (length (cs_pollers s) - i <= n)%nat ->
  (forall j p, (i <= j)%nat -> cs_pollers s !! j = Some p -> pt_pc p = PTest) ->
  exists bs s', close_run bs s = Some (Ret s') /\ cs_pc s' = CDone /\ cs_calls s' = cs_calls s /\
    (fun p => ring_list (rqstRing (pt_queue p))) <$> cs_pollers s' = (fun p => ring_list (rqstRing (pt_queue p))) <$> cs_pollers s.
Proof.
  induction n as [|n IH]; intros s i Hpc Hn Ht.
  - exists [ByOwner; ByOwner]. eexists. simpl. unfold close_turn at 1. rewrite Hpc, lookup_ge_None_2 by lia. by split_and!.
  - destruct (cs_pollers s !! i) as [p|] eqn:Hp.
    2:{ exists [ByOwner; ByOwner]. eexists. simpl. unfold close_turn at 1. rewrite Hpc, Hp. by split_and!. }
    assert (Hlt : (i < length (cs_pollers s))%nat) by (by eapply lookup_lt_Some).
    set (s1 := set_close (cs_tree s) (cs_server s) (CJoin i) (set_thread i (mkPollerThread (pt_queue p) false PTest) s)).
    set (s2 := set_thread i (mkPollerThread (pt_queue p) false PEnded) s1).
    set (s3 := set_close (cs_tree s2) (cs_server s2) (CStop (S i)) s2).
    assert (E3 : close_run [ByOwner; ByPoller i; ByOwner] s = Some (Ret s3)).
    { simpl. unfold close_turn at 1. rewrite Hpc, Hp, (Ht i p) by done. fold s1.
      unfold poller_turn. simpl. rewrite list_lookup_insert_eq by done. simpl. fold s1. fold s2.
      unfold close_turn. simpl. rewrite list_insert_insert_eq, list_lookup_insert_eq by done. done. }
    destruct (IH s3 (S i)) as (bs & s' & E' & Hd & Hc & Hr); [done|simpl; rewrite !length_insert; lia| |].
    + intros j q Hj. simpl. rewrite !list_lookup_insert_ne by lia. apply Ht. lia.
    + exists ([ByOwner; ByPoller i; ByOwner] ++ bs), s'. rewrite (close_run_app _ _ _ _ E3). split; [done|]. split; [done|].
      split; [by rewrite Hc|]. rewrite Hr. simpl. rewrite list_insert_insert_eq, list_fmap_insert. simpl.
      apply list_insert_id. by rewrite list_lookup_fmap, Hp.
Qed.

(** C23. Requests that wait when a store is closed are not safe.  A poller whose next request
    is a put or a get can serve it through the tree that was deleted, and so can a handler
    of the DHT server; in another order all requests stay in the rings and no callback is
    called. *)
Theorem store_close_requests s : open_store s ->
  (forall i p r rest, cs_pollers s !! i = Some p -> ring_list (rqstRing (pt_queue p)) = r :: rest -> (op r = RPUT \/ op r = RGET) ->
     exists bs, close_run bs s = Some Undef) /\
  (cs_server s = true -> forall key, close_run [ByOwner; ByHandler key] s = Some Undef) /\
  (exists bs s', close_run bs s = Some (Ret s') /\ cs_pc s' = CDone /\ cs_calls s' = cs_calls s /\
     (fun p => ring_list (rqstRing (pt_queue p))) <$> cs_pollers s' = (fun p => ring_list (rqstRing (pt_queue p))) <$> cs_pollers s).
Proof.
  intros [Hpc Ho]. rewrite Forall_lookup in Ho. split_and!.
  - intros i p r rest Hp Hr Hop. destruct (Ho i p Hp) as [Hrun Ht]. exists [ByOwner; ByPoller i; ByPoller i; ByPoller i].
    assert (Hlt : (i < length (cs_pollers s))%nat) by (by eapply lookup_lt_Some).
    simpl. unfold close_turn. rewrite Hpc. unfold poller_turn. simpl. rewrite Hp, Ht, Hrun. simpl.
    rewrite list_lookup_insert_eq by done. simpl. rewrite list_insert_insert_eq, list_lookup_insert_eq by done. simpl.
    destruct (ring_dequeue_list DEQUEUE_RING_LIMIT (rqstRing (pt_queue p))) as [E _]. simpl in E. rewrite E, Hr. simpl.
    unfold serve_one. simpl. by destruct Hop as [-> | ->].
  - intros Hs key. simpl. unfold close_turn. rewrite Hpc. unfold handler_turn. simpl. by rewrite Hs.
  - set (s4 := set_close None false (CStop 0) s).
    assert (E4 : close_run [ByOwner; ByOwner; ByOwner; ByOwner] s = Some (Ret s4)).
    { simpl. unfold close_turn at 1. rewrite Hpc. done. }
    destruct (pass_pollers _ s4 0 eq_refl (le_n _)) as (bs & s' & E' & Hd & Hc & Hr).
    { intros j p _ Hp. by apply (Ho j p). }
    exists ([ByOwner; ByOwner; ByOwner; ByOwner] ++ bs), s'. rewrite (close_run_app _ _ _ _ E4). done.
Qed.
End Close.

(** ** Concrete runs *)

Section Runs.
#[local] Existing Instance simple_pool.
#[local] Abbreviation Tree := (@ARTree (gset positive)).
#[local] Instance close_tree : RTreeEngine Tree := artree_engine 1 1 1.
#[local] Instance close_rings (A : Type) : SpdkRing A (list_ring A) := simple_ring A.
#[local] Instance close_pool : RqstPool nat (gset positive) := simple_rqst_pool nat.
#[local] Abbreviation St := (@Closing Tree nat (list_ring (Rqst RqstOperation nat)) (list_ring (Rqst OffloadOperation nat)) (gset positive)).

Definition close_get : Rqst RqstOperation nat := mkRqst 1 RGET (CallerKey 1) (replicate 32 0) 8 None 0 (Some 7%nat) EMPTY.
Definition run_threads (rs : list (Rqst RqstOperation nat)) : list (@PollerThread nat (list_ring (Rqst RqstOperation nat))) :=
  [mkPollerThread (mkPoller (mkListRing [] 4) [] 0) true PTest; mkPollerThread (mkPoller (mkListRing rs 4) [] 0) true PTest].
Definition run_close (rs : list (Rqst RqstOperation nat)) : St :=
  mkClosing (Some run_new) ∅ ∅ None ∅ [] (run_threads rs) true CTree.

Lemma run_close_open rs : open_store (run_close rs).
Proof. split; [done|]. by repeat constructor. Qed.

Definition run_busy : list close_by := [ByPoller 0; ByPoller 0; ByOwner; ByPoller 1; ByPoller 0].

Lemma store_close_idle_witness : exists s' bs' s'', close_run run_busy (run_close []) = Some (Ret s') /\
  close_run bs' s' = Some (Ret s'') /\ cs_pc s'' = CDone.
Proof.
  destruct (store_close_idle (run_close []) run_busy (default Crash (close_run run_busy (run_close []))) (run_close_open []))
    as (s' & Er & bs' & s'' & E & Hd & _).
  - by repeat constructor.
  - by repeat constructor.
  - vm_compute. reflexivity.
  - exists s', bs', s''. split; [rewrite <- Er; vm_compute; reflexivity|]. split; [exact E|exact Hd].
Defined.

Lemma store_close_requests_witness : exists bs, close_run bs (run_close [close_get]) = Some Undef.
Proof.
  destruct (store_close_requests (run_close [close_get]) (run_close_open _)) as (Hu & _).
  apply (Hu 1%nat (mkPollerThread (mkPoller (mkListRing [close_get] 4) [] 0) true PTest) close_get []); [reflexivity|reflexivity|by right].
Defined.
End Runs.
