(* ===== verification/DevThreads.v ===== *)
(** * Stopping the threads of a device ([SpdkCore::spdkCoreMainLoop], [SpdkBdev::deinit])

    While a store is open the SPDK thread moves requests from the offload poller to the ring
    of the I/O engine, the I/O thread submits them and takes the completions from SPDK, and
    the finalizer thread finishes them.  The store's destructor deletes the tree and then the
    offload poller, which tells the SPDK thread to stop, and joins that thread; the SPDK
    thread stops the I/O thread through [isRunning].  Every turn of a thread is one access to
    what the threads share, or one request.  A request is its operation and the location of
    its value; what a call answers that depends on more (the contents of the tree, SPDK) is
    chosen by the turn. *)

From S2P Require Import Prelude Status ARTree Poller Rqst.

(** The offload poller with its flag, until its memory is freed. *)
Inductive poller_obj : Type := Alive (running : bool) | Freed.

(** The SPDK thread: [dequeue], [process] and the test of [spdkCoreMainLoop], the parts of
    [deinit], [spdk_app_stop], [setRunning(0)], the end. *)
Inductive core_pc : Type := KDequeue | KProcess | KTest | KDeinit | KWait | KClose | KStop | KClear | KEnd.
(** [ioEngineThreadMain] from its last loop on: the test, inside the poll, in a [deinit] of
    its own, [isRunning = 5], [spdk_poller_unregister]. *)
Inductive io_pc : Type := ITest | IPoll | IWait | ISet | IUnregister | IEnd.
(** [finilizerThreadMain] from its second loop on: the test, [dequeue], [process]. *)
Inductive fin_pc : Type := FTest | FDequeue | FServe | FEnd.
(** The destructor: before it deletes the tree, before [~OffloadPoller], before the
    poller's memory is freed, in the join of [~SpdkCore], behind it. *)
Inductive own_pc : Type := OTree | OStop | OFree | OJoin | OEnd.

#[export] Instance own_pc_eq_dec : EqDecision own_pc.
Proof. solve_decision. Defined.

(** A request of the offload poller: [op] and [loc]. *)
Record job : Type := mkJob { j_op : OffloadOperation; j_loc : LOCATIONS }.

(** [d_ring] and [d_batch] are the offload poller's ring and dequeued requests, [d_ioring]
    those of the I/O engine, [d_ios] the I/Os that SPDK has, [d_finring] and [d_finbatch] the
    finalizer's tasks with their results; [d_ready] says that the finalizer is not asked to
    drop tasks. *)
Record Device : Type := mkDevice {
  d_tree : bool; d_poller : poller_obj; d_ring : list job; d_batch : list job; d_ioring : list job; d_ios : list job;
  d_finring : list (job * bool); d_finbatch : list (job * bool); d_ready : bool;
  isRunning : Z; d_channel : bool; d_core : core_pc; d_io : io_pc; d_fin : fin_pc; d_own : own_pc }.

Definition set_core (pc : core_pc) (s : Device) : Device :=
  mkDevice (d_tree s) (d_poller s) (d_ring s) (d_batch s) (d_ioring s) (d_ios s) (d_finring s) (d_finbatch s) (d_ready s)
    (isRunning s) (d_channel s) pc (d_io s) (d_fin s) (d_own s).
Definition set_run (n : Z) (s : Device) : Device :=
  mkDevice (d_tree s) (d_poller s) (d_ring s) (d_batch s) (d_ioring s) (d_ios s) (d_finring s) (d_finbatch s) (d_ready s)
    n (d_channel s) (d_core s) (d_io s) (d_fin s) (d_own s).
Definition set_io (pc : io_pc) (s : Device) : Device :=
  mkDevice (d_tree s) (d_poller s) (d_ring s) (d_batch s) (d_ioring s) (d_ios s) (d_finring s) (d_finbatch s) (d_ready s)
    (isRunning s) (d_channel s) (d_core s) pc (d_fin s) (d_own s).
Definition set_fin (pc : fin_pc) (s : Device) : Device :=
  mkDevice (d_tree s) (d_poller s) (d_ring s) (d_batch s) (d_ioring s) (d_ios s) (d_finring s) (d_finbatch s) (d_ready s)
    (isRunning s) (d_channel s) (d_core s) (d_io s) pc (d_own s).
Definition set_own (tree : bool) (p : poller_obj) (pc : own_pc) (s : Device) : Device :=
  mkDevice tree p (d_ring s) (d_batch s) (d_ioring s) (d_ios s) (d_finring s) (d_finbatch s) (d_ready s)
    (isRunning s) (d_channel s) (d_core s) (d_io s) (d_fin s) pc.
Definition close_channel (s : Device) : Device :=
  mkDevice (d_tree s) (d_poller s) (d_ring s) (d_batch s) (d_ioring s) (d_ios s) (d_finring s) (d_finbatch s) (d_ready s)
    (isRunning s) false (d_core s) (d_io s) (d_fin s) (d_own s).
(** The requests on their way: at the poller, at the device, at the finalizer. *)
Definition set_ring (ring batch : list job) (s : Device) : Device :=
  mkDevice (d_tree s) (d_poller s) ring batch (d_ioring s) (d_ios s) (d_finring s) (d_finbatch s) (d_ready s)
    (isRunning s) (d_channel s) (d_core s) (d_io s) (d_fin s) (d_own s).
Definition set_ios (ring ios : list job) (s : Device) : Device :=
  mkDevice (d_tree s) (d_poller s) (d_ring s) (d_batch s) ring ios (d_finring s) (d_finbatch s) (d_ready s)
    (isRunning s) (d_channel s) (d_core s) (d_io s) (d_fin s) (d_own s).
Definition set_fins (ring batch : list (job * bool)) (s : Device) : Device :=
  mkDevice (d_tree s) (d_poller s) (d_ring s) (d_batch s) (d_ioring s) (d_ios s) ring batch (d_ready s)
    (isRunning s) (d_channel s) (d_core s) (d_io s) (d_fin s) (d_own s).

(** ** Turns *)

(** [OffloadPoller::process] looks the key up for these requests. *)
Definition looks_up (j : job) : bool := match j_op j with OGET | OREMOVE => true | _ => false end.

(** [FinalizePoller::process] changes the tree for these tasks when they succeeded:
    [updatePmemIOV] is set for an update of a value in persistent memory. *)
Definition changes_tree (j : job) : bool :=
  match j_op j with OUPDATE => bool_decide (j_loc j = PMEM) | OREMOVE => true | _ => false end.

(** [spdkCoreMainLoop] and [deinit]; the poller and the tree are used through pointers.
    [goes] says that the request became an I/O task; else it was answered at once. *)
Definition core_turn (goes : bool) (s : Device) : option (outcome exn Device) :=
  match d_core s with
  | KDequeue =>
      Some (match d_poller s with
            | Alive _ => Ret (set_core KProcess (set_ring (drop DEQUEUE_RING_LIMIT (d_ring s))
                                                          (take DEQUEUE_RING_LIMIT (d_ring s)) s))
            | Freed => Undef
            end)
  | KProcess =>
      Some (match d_poller s, d_batch s with
            | Freed, _ => Undef
            | Alive _, [] => Ret (set_core KTest s)
            | Alive _, j :: b =>
                if looks_up j && negb (d_tree s) then Undef
                else Ret (set_ring (d_ring s) b (set_ios (d_ioring s ++ (if goes then [j] else [])) (d_ios s) s))
            end)
  | KTest => Some (match d_poller s with
                   | Alive true => Ret (set_core KDequeue s)
                   | Alive false => Ret (set_core KDeinit s)
                   | Freed => Undef
                   end)
  | KDeinit => Some (Ret (set_core KWait (set_run 4 s)))
  | KWait => if isRunning s =? 4 then None else Some (Ret (set_core KClose s))
  | KClose => Some (Ret (set_core KStop (close_channel s)))
  | KStop => Some (Ret (set_core KClear s))
  | KClear => Some (Ret (set_core KEnd (set_run 0 s)))
  | KEnd => None
  end.

(** What happens inside [spdk_thread_poll]: it returns, with a negative number or not; the
    next task of the I/O engine is submitted or answered; SPDK refuses it with an error, on
    which [doRead] and [doWrite] call [deinit]; I/O number [i] completes, and its task is
    lost when the finalizer's ring is full. *)
Inductive io_act : Type := PReturn | PFail | PSubmit (goes : bool) | PError | PComplete (i : nat) (ok kept : bool).

(** The poll of [ioEngineThreadMain], which needs the channel. *)
Definition poll_turn (a : io_act) (s : Device) : option (outcome exn Device) :=
  match a with
  | PReturn => Some (Ret (set_io ITest s))
  | PFail => Some (Ret (set_io ISet s))
  | PSubmit goes =>
      match d_ioring s with
      | j :: q =>
          if isRunning s =? 0 then None
          else Some (Ret (match goes, j_op j with
                          | false, _ => set_ios q (d_ios s) s
                          | true, OREMOVE => set_fins (d_finring s ++ [(j, true)]) (d_finbatch s) (set_ios q (d_ios s) s)
                          | true, _ => set_ios q (d_ios s ++ [j]) s
                          end))
      | [] => None
      end
  | PError =>
      match d_ioring s with
      | j :: q => if isRunning s =? 0 then None else Some (Ret (set_io IWait (set_run 4 (set_ios q (d_ios s) s))))
      | [] => None
      end
  | PComplete i ok kept =>
      match d_ios s !! i with
      | Some j => Some (Ret (set_fins (d_finring s ++ (if kept then [(j, ok)] else [])) (d_finbatch s) (set_ios (d_ioring s) (delete i (d_ios s)) s)))
      | None => None
      end
  end.

(** [ioEngineThreadMain]. *)
Definition io_turn (a : io_act) (s : Device) : option (outcome exn Device) :=
  match d_io s with
  | ITest => Some (Ret (set_io (if isRunning s =? 4 then ISet else IPoll) s))
  | IPoll => if d_channel s then poll_turn a s else Some Undef
  | IWait => if isRunning s =? 4 then None else Some (Ret (set_io IPoll (close_channel s)))
  | ISet => Some (Ret (set_io IUnregister (set_run 5 s)))
  | IUnregister => Some (Ret (set_io IEnd s))
  | IEnd => None
  end.

(** [finilizerThreadMain] and [FinalizePoller::process]; [throws] says that the tree's
    [Remove] throws, which nothing catches. *)
Definition fin_turn (throws : bool) (s : Device) : option (outcome exn Device) :=
  match d_fin s with
  | FTest => Some (Ret (set_fin (if isRunning s =? 0 then FEnd else FDequeue) s))
  | FDequeue => Some (Ret (set_fin FServe (set_fins (drop DEQUEUE_RING_LIMIT (d_finring s))
                                                    (take DEQUEUE_RING_LIMIT (d_finring s)) s)))
  | FServe =>
      match d_finbatch s with
      | [] => Some (Ret (set_fin FTest s))
      | (j, ok) :: b =>
          if d_ready s && ok && changes_tree j then
            if negb (d_tree s) then Some Undef
            else if throws && bool_decide (j_op j = OREMOVE) then Some (Throw (OperationFailedException KEY_NOT_FOUND))
            else Some (Ret (set_fins (d_finring s) b s))
          else Some (Ret (set_fins (d_finring s) b s))
      end
  | FEnd => None
  end.

(** [~KVStore], [~OffloadPoller], [~SpdkCore]. *)
Definition own_turn (s : Device) : option (outcome exn Device) :=
  match d_own s with
  | OTree => Some (Ret (set_own false (d_poller s) OStop s))
  | OStop => Some (Ret (set_own (d_tree s) (Alive false) OFree s))
  | OFree => Some (Ret (set_own (d_tree s) Freed OJoin s))
  | OJoin => match d_core s with KEnd => Some (Ret (set_own (d_tree s) (d_poller s) OEnd s)) | _ => None end
  | OEnd => None
  end.

(** A client or a poller enqueues a request, until [~OffloadPoller]. *)
Definition rqst_turn (j : job) (s : Device) : option (outcome exn Device) :=
  match d_own s with OTree | OStop => Some (Ret (set_ring (d_ring s ++ [j]) (d_batch s) s)) | _ => None end.

Inductive dev_turn : Type := TCore (goes : bool) | TIo (a : io_act) | TFin (throws : bool) | TOwn | TRqst (j : job).

Definition dev_step (t : dev_turn) (s : Device) : option (outcome exn Device) :=
  match t with
  | TCore g => core_turn g s | TIo a => io_turn a s | TFin th => fin_turn th s | TOwn => own_turn s | TRqst j => rqst_turn j s
  end.

(** A run in which every turn is defined and returns. *)
Fixpoint dev_run (ts : list dev_turn) (s : Device) : option Device :=
  match ts with
  | [] => Some s
  | t :: ts => match dev_step t s with Some (Ret s') => dev_run ts s' | _ => None end
  end.

(** An open device without requests. *)
Definition dev_open (ready : bool) : Device :=
  mkDevice true (Alive true) [] [] [] [] [] [] ready 1 true KDequeue ITest FTest OTree.

(** ** The invariant of all interleavings *)

(** The SPDK thread still uses the poller. *)
Definition in_loop (pc : core_pc) : bool := match pc with KDequeue | KProcess | KTest => true | _ => false end.
(** The I/O thread has left its loop for good. *)
Definition io_gone (pc : io_pc) : bool := match pc with IUnregister | IEnd => true | _ => false end.

(** [isRunning] against the I/O thread, before the SPDK thread asks it to stop, and after. *)
Definition io_before (n : Z) (io : io_pc) : Prop :=
  match io with ITest | IPoll | ISet => n = 1 | IWait => n = 4 | IUnregister | IEnd => n = 5 end.
Definition io_after (n : Z) (io : io_pc) : Prop := n = 4 \/ n = 5 /\ io_gone io = true.

(** The poller and the tree against the destructor. *)
Definition own_ok (own : own_pc) (p : poller_obj) (tree : bool) : Prop :=
  match own with
  | OTree => p = Alive true /\ tree = true
  | OStop => p = Alive true /\ tree = false
  | OFree => p = Alive false /\ tree = false
  | OJoin | OEnd => p = Freed /\ tree = false
  end.

(** The channel and [isRunning] against the SPDK thread. *)
Definition core_ok (core : core_pc) (ch : bool) (n : Z) (io : io_pc) : Prop :=
  match core with
  | KDequeue | KProcess | KTest | KDeinit => ch = true /\ io_before n io
  | KWait => ch = true /\ io_after n io
  | KClose => ch = true /\ n = 5 /\ io_gone io = true
  | KStop | KClear => ch = false /\ n = 5 /\ io_gone io = true
  | KEnd => ch = false /\ n = 0 /\ io_gone io = true
  end.

Record dev_inv (s : Device) : Prop := {
  dv_own : own_ok (d_own s) (d_poller s) (d_tree s);
  dv_core : core_ok (d_core s) (d_channel s) (isRunning s) (d_io s);
  dv_wait : d_io s = IWait -> isRunning s = 4;
  dv_fin : d_fin s = FEnd -> isRunning s = 0;
  dv_end : d_own s = OEnd -> d_core s = KEnd;
  dv_loop : d_own s = OTree \/ d_own s = OStop -> in_loop (d_core s) = true }.

Lemma dev_inv_open ready : dev_inv (dev_open ready).
Proof. by split. Qed.

Ltac dev_simp := cbn [d_tree d_poller d_ring d_batch d_ioring d_ios d_finring d_finbatch d_ready isRunning d_channel d_core d_io d_fin
  d_own set_core set_run set_io set_fin set_own close_channel set_ring set_ios set_fins] in *.

(** While the I/O thread polls, the device runs. *)
Lemma core_ok_fin core ch n io : core_ok core ch n io -> n = 0 -> core = KEnd.
Proof. destruct core; cbn; try done; unfold io_before, io_after; destruct io; intuition lia. Qed.

(** In the loop the flag is set until the destructor clears it. *)
Lemma own_ok_running own p tree : own_ok own p tree -> p = Alive true -> own = OTree \/ own = OStop.
Proof. destruct own; cbn; intuition congruence. Qed.

Ltac ends_early := let H := fresh in intros H;
  repeat match goal with E : d_own _ = _ -> _ |- _ => specialize (E H) | E : d_fin _ = _ -> _ |- _ => specialize (E H) end; congruence || lia.

Lemma core_turn_inv goes s s' : dev_inv s -> core_turn goes s = Some (Ret s') -> dev_inv s'.
Proof.
  intros [H1 H2 H3 H4 H5 H6] E. pose proof (core_ok_fin _ _ _ _ H2) as Hf. unfold core_turn in E.
  destruct (d_core s) eqn:Ec; repeat case_hyp; simplify_eq; b2p; split; dev_simp; rewrite ?Ec; try done; try ends_early;
    try congruence; cbn [core_ok] in *; unfold io_after in *; try tauto; try (intros Hw; specialize (Hf (H4 Hw)); congruence).
  - intros Ho. revert H1. destruct Ho as [-> | ->]; cbn; intros [? _]; congruence.
  - intros Hw. rewrite Hw in H2. by destruct H2 as (_ & _ & ?).
Qed.

Lemma io_turn_inv a s s' : dev_inv s -> io_turn a s = Some (Ret s') -> dev_inv s'.
Proof.
  intros [H1 H2 H3 H4 H5 H6] E. pose proof (core_ok_fin _ _ _ _ H2) as Hf. unfold io_turn, poll_turn in E.
  destruct (d_io s) eqn:Ei; repeat case_hyp; simplify_eq; b2p; split; dev_simp; rewrite ?Ei; try done;
    try (intros Hw; specialize (Hf (H4 Hw)); rewrite Hf in H2; by destruct H2 as (_ & _ & ?));
    unfold core_ok, io_before, io_after in *; cbn [io_gone] in *; destruct (d_core s); intuition (congruence || lia).
Qed.

Lemma fin_turn_inv th s s' : dev_inv s -> fin_turn th s = Some (Ret s') -> dev_inv s'.
Proof.
  intros [H1 H2 H3 H4 H5 H6] E. unfold fin_turn in E.
  destruct (d_fin s) eqn:Ef; repeat case_hyp; simplify_eq; b2p; split; dev_simp; rewrite ?Ef; done.
Qed.

Lemma own_turn_inv s s' : dev_inv s -> own_turn s = Some (Ret s') -> dev_inv s'.
Proof.
  intros [H1 H2 H3 H4 H5 H6] E. unfold own_turn in E.
  destruct (d_own s) eqn:Eo; repeat case_hyp; simplify_eq; split; dev_simp; rewrite ?Eo; cbn in *; try (intuition congruence).
  by rewrite Heqc.
Qed.

Lemma dev_turn_inv t s s' : dev_inv s -> dev_step t s = Some (Ret s') -> dev_inv s'.
Proof.
  destruct t; cbn [dev_step]; eauto using core_turn_inv, io_turn_inv, fin_turn_inv, own_turn_inv.
  intros [H1 H2 H3 H4 H5 H6] E. unfold rqst_turn in E. destruct (d_own s) eqn:Eo; simplify_eq; split; dev_simp; rewrite ?Eo; done.
Qed.

Lemma dev_run_inv ts : forall s s', dev_inv s -> dev_run ts s = Some s' -> dev_inv s'.
Proof.
  induction ts as [|t ts IH]; intros s s' I E; simpl in E; [by injection E as <-|].
  destruct (dev_step t s) as [[s1|e| |]|] eqn:E1; try done. exact (IH s1 s' (dev_turn_inv _ _ _ I E1) E).
Qed.

(** ** The turns that are undefined *)

(** The SPDK thread follows its pointer to the freed poller, or one to the deleted tree. *)
Definition core_dangles (s : Device) : Prop :=
  d_poller s = Freed /\ in_loop (d_core s) = true \/
  d_poller s <> Freed /\ d_core s = KProcess /\ d_tree s = false /\ exists j b, d_batch s = j :: b /\ looks_up j = true.

(** The finalizer changes the deleted tree. *)
Definition fin_dangles (s : Device) : Prop :=
  d_fin s = FServe /\ d_tree s = false /\ d_ready s = true /\ exists j b, d_finbatch s = (j, true) :: b /\ changes_tree j = true.

Lemma core_undef goes s : core_turn goes s = Some Undef <-> core_dangles s.
Proof.
  unfold core_turn, core_dangles. split.
  - intros E. destruct (d_core s); repeat case_hyp; simplify_eq; b2p; try (by left); right; split_and!; try done; b2p; destruct_and?; eauto.
  - intros [(Hp & Hl)|(Hp & Hc & Ht & j & b & Hb & Hl)].
    + rewrite Hp. by destruct (d_core s).
    + rewrite Hc, Hb, Hl, Ht. by destruct (d_poller s).
Qed.

Lemma fin_undef th s : fin_turn th s = Some Undef <-> fin_dangles s.
Proof.
  unfold fin_turn, fin_dangles. split.
  - intros E. destruct (d_fin s); repeat case_hyp; simplify_eq; b2p. destruct_and?. subst. split_and!; eauto.
  - intros (-> & -> & -> & j & b & -> & ->). done.
Qed.

Lemma io_defined a s : dev_inv s -> io_turn a s <> Some Undef.
Proof.
  intros [_ Hc _ _ _ _] E. unfold io_turn, poll_turn in E. destruct (d_io s) eqn:Ei; repeat case_hyp; simplify_eq.
  unfold core_ok in Hc. destruct (d_core s); naive_solver.
Qed.


(** ** The poller is freed too early *)

(** The SPDK thread is in its loop when the poller is gone: it is undefined what it does
    next, and what the others do does not help. *)
Lemma freed_stays us : forall s s', d_poller s = Freed -> in_loop (d_core s) = true -> d_own s = OJoin -> dev_run us s = Some s' ->
  d_poller s' = Freed /\ in_loop (d_core s') = true /\ d_own s' = OJoin.
Proof.
  induction us as [|t us IH]; intros s s' Hp Hl Ho E; simpl in E; [by injection E as <-|].
  destruct (dev_step t s) as [[s1|e| |]|] eqn:E1; try done.
  enough (d_poller s1 = Freed /\ in_loop (d_core s1) = true /\ d_own s1 = OJoin) as (? & ? & ?) by eauto.
  clear IH E. destruct t as [g|a|th| |j]; cbn [dev_step] in E1.
  - assert (Hu : core_turn g s = Some Undef) by (apply core_undef; by left). congruence.
  - unfold io_turn, poll_turn in E1. repeat case_hyp; simplify_eq; done.
  - unfold fin_turn in E1. repeat case_hyp; simplify_eq; done.
  - unfold own_turn in E1. rewrite Ho in E1. destruct (d_core s); done.
  - unfold rqst_turn in E1. by rewrite Ho in E1.
Qed.

(** The SPDK thread has left its loop: it does not come back. *)
Lemma left_stays us : forall s s', in_loop (d_core s) = false -> dev_run us s = Some s' -> in_loop (d_core s') = false.
Proof.
  induction us as [|t us IH]; intros s s' Hl E; simpl in E; [by injection E as <-|].
  destruct (dev_step t s) as [[s1|e| |]|] eqn:E1; try done. apply (IH s1 s'); [|done]. clear IH E.
  destruct t; cbn [dev_step] in E1; unfold core_turn, io_turn, poll_turn, fin_turn, own_turn, rqst_turn in E1;
    repeat case_hyp; simplify_eq; dev_simp; done || congruence.
Qed.

(** No poll failed and no I/O was refused with an error: the I/O thread waits for the SPDK
    thread, or has answered it. *)
Definition io_calm (core : core_pc) (n : Z) (io : io_pc) : Prop :=
  match core with
  | KDequeue | KProcess | KTest | KDeinit => n = 1 /\ (io = ITest \/ io = IPoll)
  | KWait => n = 4 /\ (io = ITest \/ io = IPoll \/ io = ISet) \/ n = 5
  | _ => True
  end.

Definition no_failure (t : dev_turn) : Prop := match t with TIo PFail | TIo PError => False | _ => True end.

Lemma calm_run ts : forall s s', Forall no_failure ts -> io_calm (d_core s) (isRunning s) (d_io s) -> dev_run ts s = Some s' ->
  io_calm (d_core s') (isRunning s') (d_io s').
Proof.
  induction ts as [|t ts IH]; intros s s' Hn Hc E; simpl in E; [by injection E as <-|].
  apply Forall_cons in Hn as [Hn Hns]. destruct (dev_step t s) as [[s1|e| |]|] eqn:E1; try done.
  apply (IH s1 s' Hns); [|done]. clear IH E Hns.
  destruct t; cbn [dev_step] in E1; unfold core_turn, io_turn, poll_turn, fin_turn, own_turn, rqst_turn in E1;
    repeat case_hyp; simplify_eq; b2p; unfold io_calm in *; dev_simp; repeat case_hyp; simplify_eq; try done;
    try (intuition (congruence || lia)).
  all: match goal with H : d_core _ = _ |- _ => by rewrite H end.
Qed.

(** The turns that end the SPDK thread, the I/O thread and the destructor. *)
Lemma stop_schedule s : dev_inv s -> in_loop (d_core s) = false -> io_calm (d_core s) (isRunning s) (d_io s) -> d_own s = OJoin ->
  exists us s', dev_run us s = Some s' /\ d_own s' = OEnd /\ d_core s' = KEnd /\ d_io s' = IEnd.
Proof.
  intros [_ Hc _ _ _ _] Hl Hm Ho. destruct s as [tr p rg ba ir ios fr fb rd n ch kc io fi ow]. dev_simp. subst ow.
  set (ends := fun io => match io with
    | ITest => [TIo PReturn; TIo PReturn; TIo PReturn] | IPoll => [TIo PReturn; TIo PReturn; TIo PReturn; TIo PReturn]
    | ISet => [TIo PReturn; TIo PReturn] | IUnregister => [TIo PReturn] | _ => [] end).
  exists (match kc with KDeinit => [TCore true] | _ => [] end ++ ends io ++
     match kc with KDeinit | KWait => replicate 4 (TCore true) | KClose => replicate 3 (TCore true) | KStop => replicate 2 (TCore true)
     | KClear => [TCore true] | _ => [] end ++ [TOwn]).
  destruct kc; try done; cbn in Hc, Hm; unfold io_after in Hc; destruct_and?; destruct_or?; destruct_and?; destruct_or?; subst; try lia;
    try (destruct io; try done); eexists; (split; [vm_compute; reflexivity|]); by split_and!.
Qed.

(** C30. The destructor races with the SPDK thread: it clears the flag of the offload poller and
    frees the poller at once.  Take any reachable state between the two, and free the
    poller.  If the SPDK thread is still in its loop, its next turn is undefined whatever the
    other threads do before it, and until then the destructor waits.  If it has read the
    flag, none of its turns is undefined any more, and, when no poll failed and no I/O was
    refused with an error, the destructor can return with the SPDK thread and the I/O thread
    ended. *)
Theorem dev_stop_race ready ts s s2 : dev_run ts (dev_open ready) = Some s -> d_own s = OFree -> dev_step TOwn s = Some (Ret s2) ->
  (in_loop (d_core s) = true -> forall us s', dev_run us s2 = Some s' ->
     d_own s' = OJoin /\ forall goes, dev_step (TCore goes) s' = Some Undef) /\
  (in_loop (d_core s) = false ->
     (forall us s' goes, dev_run us s2 = Some s' -> dev_step (TCore goes) s' <> Some Undef) /\
     (Forall no_failure ts -> exists us s', dev_run us s2 = Some s' /\ d_own s' = OEnd /\ d_core s' = KEnd /\ d_io s' = IEnd)).
Proof.
  intros E Eo E2. pose proof (dev_run_inv ts _ _ (dev_inv_open ready) E) as I. pose proof (dev_turn_inv _ _ _ I E2) as I2.
  assert (Hs2 : s2 = set_own (d_tree s) Freed OJoin s) by (cbn in E2; unfold own_turn in E2; rewrite Eo in E2; by injection E2 as <-).
  split; [intros Hl us s' Eu|intros Hl; split].
  - destruct (freed_stays us s2 s') as (Hp & Hl' & Ho); [by rewrite Hs2..|done|]. split; [done|].
    intros goes. apply core_undef. by left.
  - intros us s' goes Eu Hu%core_undef. assert (Hf : in_loop (d_core s') = false) by (eapply left_stays; [|exact Eu]; by rewrite Hs2).
    destruct Hu as [(_ & Ht)|(_ & Ht & _)]; [congruence|by rewrite Ht in Hf].
  - intros Hn. apply stop_schedule; [done|by rewrite Hs2| |by rewrite Hs2].
    rewrite Hs2. dev_simp. eapply calm_run; [exact Hn| |exact E]. cbn. tauto.
Qed.


(** Both outcomes, from a device without requests. *)
Lemma dev_stop_race_witness : (exists s s2, dev_run [TOwn; TOwn] (dev_open true) = Some s /\ dev_step TOwn s = Some (Ret s2) /\
    dev_step (TCore true) s2 = Some Undef) /\
  (exists s s2 us s', dev_run [TOwn; TOwn; TCore true; TCore true; TCore true] (dev_open true) = Some s /\ dev_step TOwn s = Some (Ret s2) /\
    dev_run us s2 = Some s' /\ d_own s' = OEnd).
Proof.
  split.
  - set (s := default (dev_open true) (dev_run [TOwn; TOwn] (dev_open true))).
    destruct (dev_stop_race true [TOwn; TOwn] s (set_own false Freed OJoin s)) as [H _]; [reflexivity..|].
    exists s, (set_own false Freed OJoin s). split; [reflexivity|]. split; [reflexivity|].
    destruct (H eq_refl [] (set_own false Freed OJoin s) eq_refl) as [_ Hu]. apply Hu.
  - set (ts := [TOwn; TOwn; TCore true; TCore true; TCore true]). set (s := default (dev_open true) (dev_run ts (dev_open true))).
    destruct (dev_stop_race true ts s (set_own false Freed OJoin s)) as [_ H]; [reflexivity..|].
    destruct (H eq_refl) as [_ (us & s' & Eu & Ho & _)]; [by repeat constructor|].
    exists s, (set_own false Freed OJoin s), us, s'. split; [reflexivity|]. split; [reflexivity|]. split; [exact Eu|exact Ho].
Defined.

(** ** Errors of SPDK *)

(** The I/O thread is gone or waits in its own [deinit], and the SPDK thread has yet to wait
    for it. *)
Definition hung (s : Device) : Prop :=
  d_own s <> OEnd /\ (io_gone (d_io s) = true \/ d_io s = IWait) /\ (d_io s = IWait -> isRunning s = 4) /\
  match d_core s with KDequeue | KProcess | KTest | KDeinit => True | KWait => isRunning s = 4 | _ => False end.

Lemma hung_step t s s' : hung s -> dev_step t s = Some (Ret s') -> hung s'.
Proof.
  intros (Ho & Hi & Hw & Hk) E. unfold hung.
  destruct t as [g|a|th| |j]; cbn [dev_step] in E.
  - unfold core_turn in E. destruct (d_core s) eqn:Ec; try done; repeat case_hyp; simplify_eq; b2p; dev_simp; rewrite ?Ec;
      (lia || by split_and!).
  - unfold io_turn in E. destruct (d_io s) eqn:Ei; cbn in Hi; try (by destruct Hi).
    + by rewrite Hw in E.
    + injection E as <-. dev_simp. split_and!; auto. done.
  - unfold fin_turn in E. assert (Hs : d_own s' = d_own s /\ d_io s' = d_io s /\ isRunning s' = isRunning s /\ d_core s' = d_core s)
      by (clear Hk; repeat case_hyp; simplify_eq; done).
    destruct Hs as (-> & -> & -> & ->). by split_and!.
  - unfold own_turn in E. destruct (d_own s) eqn:Eo; try done; [..|destruct (d_core s); done]; simplify_eq; dev_simp; by split_and!.
  - unfold rqst_turn in E. destruct (d_own s) eqn:Eo; try done; simplify_eq; dev_simp; rewrite Eo; by split_and!.
Qed.

(** An error of SPDK makes closing hang.  Once the I/O thread has left its loop because a
    poll failed, or called [deinit] itself because an I/O was refused, the SPDK thread's
    [deinit] waits for an answer that nobody gives, and no interleaving ends the
    destructor. *)
Theorem dev_failed_poll_hangs ready ts s : dev_run ts (dev_open ready) = Some s -> io_gone (d_io s) = true \/ d_io s = IWait ->
  in_loop (d_core s) = true \/ d_core s = KDeinit ->
  forall us s', dev_run us s = Some s' -> d_own s' <> OEnd.
Proof.
  intros E Hio Hk. pose proof (dev_run_inv ts _ _ (dev_inv_open ready) E) as I.
  assert (Hh : hung s).
  { split_and!; [|done|by apply I|by destruct (d_core s), Hk].
    intros Eo. rewrite (dv_end _ I Eo) in Hk. by destruct Hk. }
  intros us. clear ts E Hio Hk I. revert s Hh. induction us as [|t us IH]; intros s Hh s' E; simpl in E; [injection E as <-; apply Hh|].
  destruct (dev_step t s) as [[s1|e| |]|] eqn:E1; try done. exact (IH s1 (hung_step t s s1 Hh E1) s' E).
Qed.

Lemma dev_failed_poll_hangs_witness : exists s, dev_run [TIo PReturn; TIo PFail; TIo PReturn] (dev_open true) = Some s /\
  forall us s', dev_run us s = Some s' -> d_own s' <> OEnd.
Proof.
  set (ts := [TIo PReturn; TIo PFail; TIo PReturn]). set (s := default (dev_open true) (dev_run ts (dev_open true))).
  exists s. split; [reflexivity|]. apply (dev_failed_poll_hangs true ts); [reflexivity|left; reflexivity|left; reflexivity].
Defined.
