(* ===== verification/DhtCall.v ===== *)
(** * Waiting for a response ([DhtClient::enqueueAndWait], [_runToResponse], the callbacks)

    [DhtRpc] takes the response of a call as the answer of eRPC.  Here is what happens in
    between: the client clears its request context, hands the request to eRPC and runs
    eRPC's event loop until the callback of the call has set [ready]; the handler on the
    other side prepares a buffer for the response.  A round of the event loop brings the
    response or nothing. *)

From S2P Require Import Prelude Status DhtCore DhtRpc.

(** ** The client *)

(** [struct DhtReqCtx]; the union of the pointers to a value and to a key is [None] when it
    is null. *)
Record DhtReqCtx : Type := mkReqCtx { rc_status : Z; rc_data : option (list Z); rc_ready : bool }.

Definition _initReqCtx : DhtReqCtx := mkReqCtx _MAX_ERRNO None false.

(** The callbacks; [new Value] and [new Key] with the bytes of the response. *)
Definition clbGet (r : DaqdbDhtResult) (c : DhtReqCtx) : DhtReqCtx :=
  mkReqCtx (status r) (if status r =? OK then Some (take (Z.to_nat (msgSize r)) (rmsg r)) else rc_data c) true.
Definition clbGetAny (r : DaqdbDhtResult) (c : DhtReqCtx) : DhtReqCtx :=
  mkReqCtx (status r) (if status r =? OK then Some (take (Z.to_nat (msgSize r)) (rmsg r)) else rc_data c) true.
Definition clbPut (r : DaqdbDhtResult) (c : DhtReqCtx) : DhtReqCtx := mkReqCtx (status r) (rc_data c) true.
Definition clbRemove (r : DaqdbDhtResult) (c : DhtReqCtx) : DhtReqCtx := mkReqCtx (status r) (rc_data c) true.

(** The callback that the calls pass to [enqueueAndWait]. *)
Definition contFunc (ty : ErpRequestType) : DaqdbDhtResult -> DhtReqCtx -> DhtReqCtx :=
  match ty with
  | ERP_REQUEST_GET => clbGet
  | ERP_REQUEST_GETANY => clbGetAny
  | ERP_REQUEST_PUT => clbPut
  | ERP_REQUEST_REMOVE => clbRemove
  end.

(** [_runToResponse] over the rounds of the event loop; [None] while it still waits. *)
Fixpoint _runToResponse (clb : DaqdbDhtResult -> DhtReqCtx -> DhtReqCtx) (rounds : list (option DaqdbDhtResult)) (c : DhtReqCtx) :
    option (outcome exn DhtReqCtx) :=
  if rc_ready c then
    Some (if rc_status c =? 0 then Ret c else Throw (OperationFailedException (rc_status c)))
  else
    match rounds with
    | [] => None
    | Some r :: rounds => _runToResponse clb rounds (clb r c)
    | None :: rounds => _runToResponse clb rounds c
    end.

(** What a call does with its context: [*_reqCtx.value], [*_reqCtx.key], or nothing. *)
Definition call_result (ty : ErpRequestType) (c : DhtReqCtx) : outcome exn (list Z) :=
  match ty with
  | ERP_REQUEST_GET | ERP_REQUEST_GETANY => match rc_data c with Some d => Ret d | None => Undef end
  | ERP_REQUEST_PUT | ERP_REQUEST_REMOVE => Ret []
  end.

Definition wait_for (ty : ErpRequestType) (rounds : list (option DaqdbDhtResult)) : option (outcome exn (list Z)) :=
  match _runToResponse (contFunc ty) rounds _initReqCtx with
  | None => None
  | Some r => Some (let? c := r in call_result ty c)
  end.

(** ** The handler's buffer *)

Definition PRE_BUF_SIZE : Z := 32 * 1024.

(** A request handle: the size of the buffer that it has, and the dynamic buffer that was
    stored last. *)
Record ReqHandle : Type := mkReqHandle { pre_resp : Z; dyn_resp : option Z }.
Inductive resp_buf : Type := PreBuf | DynBuf.

(** [erpcPrepareMsgbuf] with the dynamic buffers that were allocated so far. *)
Definition erpcPrepareMsgbuf (reqSize : Z) (h : ReqHandle) (allocs : list Z) : resp_buf * ReqHandle * list Z :=
  if reqSize <=? PRE_BUF_SIZE then (PreBuf, mkReqHandle reqSize (dyn_resp h), allocs)
  else (DynBuf, mkReqHandle (pre_resp h) (Some reqSize), allocs ++ [reqSize]).

(** The buffers of a handler whose call succeeds or throws.  Get and GetAny prepare one for
    success first, and another one when the call throws; Put and Remove prepare one. *)
Definition handler_buffers (ty : ErpRequestType) (keySize : Z) (throws : bool) (h : ReqHandle) : resp_buf * ReqHandle * list Z :=
  match ty with
  | ERP_REQUEST_PUT | ERP_REQUEST_REMOVE => erpcPrepareMsgbuf sizeof_DaqdbDhtResult h []
  | ERP_REQUEST_GET | ERP_REQUEST_GETANY =>
      let '(b, h, l) := erpcPrepareMsgbuf (match ty with ERP_REQUEST_GET => ERPC_MAX_RESPONSE_SIZE | _ => sizeof_DaqdbDhtResult + keySize end) h [] in
      if throws then erpcPrepareMsgbuf sizeof_DaqdbDhtResult h l else (b, h, l)
  end.

(** ** Waiting *)

Lemma wait_rounds clb n rounds c : rc_ready c = false ->
  _runToResponse clb (replicate n None ++ rounds) c = _runToResponse clb rounds c.
Proof. intros Hr. induction n as [|n IH]; [done|]. simpl. by rewrite Hr. Qed.

Lemma ready_returns clb rounds c : rc_ready c = true ->
  _runToResponse clb rounds c = Some (if rc_status c =? 0 then Ret c else Throw (OperationFailedException (rc_status c))).
Proof. intros Hr. destruct rounds; simpl; by rewrite Hr. Qed.

(** A call that gets its response. *)
Lemma wait_for_response ty n r rest :
  wait_for ty (replicate n None ++ Some r :: rest) =
  Some (if status r =? OK then Ret (match ty with ERP_REQUEST_GET | ERP_REQUEST_GETANY => response_bytes r | _ => [] end)
        else Throw (OperationFailedException (status r))).
Proof.
  unfold wait_for. rewrite wait_rounds by done. cbn [_runToResponse _initReqCtx rc_ready].
  rewrite ready_returns by (by destruct ty). change OK with 0.
  destruct ty; unfold contFunc, clbGet, clbGetAny, clbPut, clbRemove; cbn [rc_status rc_data rc_ready]; change OK with 0;
    destruct (Z.eqb_spec (status r) 0) as [E|E]; simpl; by rewrite ?E.
Qed.

Section Refinement.
Context {W : Type} (remote : DhtNode -> ErpRequestType -> DaqdbDhtMsg -> W -> DaqdbDhtResult * W).

(** The request that a client sends. *)
Definition request_of (size : Z) (c : @DhtClient W) : DaqdbDhtMsg :=
  let m := _reqMsgBuf c in mkMsg (keySize m) (valSize m) (take (Z.to_nat (size - sizeof_DaqdbDhtMsg)) (msg m)).

(** C35. Waiting refines the call of [DhtRpc]: when the response of the remote node arrives
    after any number of empty rounds, the client has exactly the bytes or the exception that
    [enqueueAndWait] gives it, whatever comes later; until it arrives the client waits, for
    as many rounds as there are. *)
Theorem dht_wait_refines host ty size (c : @DhtClient W) n rest r w :
  remote host ty (request_of size c) (world c) = (r, w) ->
  wait_for ty (replicate n None ++ Some r :: rest) =
    Some (match fst (enqueueAndWait remote host ty size c) with
          | Ret r => Ret (match ty with ERP_REQUEST_GET | ERP_REQUEST_GETANY => response_bytes r | _ => [] end)
          | Throw e => Throw e
          | Crash => Crash
          | Undef => Undef
          end) /\
  wait_for ty (replicate n None) = None.
Proof.
  intros E. split.
  - rewrite wait_for_response. unfold enqueueAndWait, request_of in *. rewrite E. by destruct (status r =? OK).
  - unfold wait_for. rewrite <- (app_nil_r (replicate n None)), wait_rounds by done. done.
Qed.
End Refinement.

(** A get or a request for any key that throws leaves a buffer behind: the handler of a
    get has allocated one for the largest response, of which the handle knows, and answers
    with the buffer of the handle instead.  All other answers are sent in the buffer that
    was prepared for them. *)
Theorem dht_get_error_buffer h ks throws ty : 0 <= ks ->
  let '(b, h', allocs) := handler_buffers ty ks throws h in
  (b = PreBuf -> allocs <> [] -> throws = true /\ (ty = ERP_REQUEST_GET \/ ty = ERP_REQUEST_GETANY /\ PRE_BUF_SIZE < sizeof_DaqdbDhtResult + ks)) /\
  (ty = ERP_REQUEST_GET -> throws = true -> b = PreBuf /\ allocs = [ERPC_MAX_RESPONSE_SIZE] /\ dyn_resp h' = Some ERPC_MAX_RESPONSE_SIZE) /\
  (b = DynBuf -> exists n, allocs = [n] /\ dyn_resp h' = Some n).
Proof.
  intros Hk. unfold handler_buffers, erpcPrepareMsgbuf. change (sizeof_DaqdbDhtResult <=? PRE_BUF_SIZE) with true.
  change (ERPC_MAX_RESPONSE_SIZE <=? PRE_BUF_SIZE) with false.
  destruct ty, throws; simpl; try (destruct (Z.leb_spec (sizeof_DaqdbDhtResult + ks) PRE_BUF_SIZE)); simpl; naive_solver.
Qed.

(** ** Concrete runs *)

Lemma dht_wait_refines_witness :
  wait_for ERP_REQUEST_GET (replicate 3 None ++ Some (mkResult OK 2 [7; 8; 9]) :: []) = Some (Ret [7; 8]).
Proof.
  exact (proj1 (dht_wait_refines (fun _ _ _ (w : unit) => (mkResult OK 2 [7; 8; 9], w)) (localNode run_core) ERP_REQUEST_GET 16
    (mkDhtClient (mkMsg 0 0 []) false false run_core 0 tt) 3 [] _ tt eq_refl)).
Defined.

Lemma dht_get_error_buffer_witness : snd (handler_buffers ERP_REQUEST_GET 8 true (mkReqHandle 0 None)) = [ERPC_MAX_RESPONSE_SIZE].
Proof.
  pose proof (dht_get_error_buffer (mkReqHandle 0 None) 8 true ERP_REQUEST_GET ltac:(lia)) as H. cbv zeta in H.
  destruct (handler_buffers ERP_REQUEST_GET 8 true (mkReqHandle 0 None)) as [[b h'] allocs]. apply H; reflexivity.
Defined.
