(* ===== verification/PoolDump.v ===== *)
(** * Printing a bucket ([GeneralPoolBucket::dump])

    [dump] goes through the ring of a bucket from its tail to its head and prints the stamp
    of every object.  What is printed is a list of entries. *)

From S2P Require Import Prelude Status PoolAlloc PoolBucket.

(** A line: the index behind the slot and, unless the slot is empty, the stamp with the size
    and the number of the bucket in it. *)
Record dump_entry : Type := mkEntry { de_cnt : Z; de_stamp : option (Z * Z * Z) }.

Definition entry_of (cnt o_stamp : Z) : dump_entry := mkEntry cnt (Some (o_stamp, stamp_size o_stamp, stamp_number o_stamp)).

(** [dumpNoLock] with fuel for its loop; [None] when the fuel is not enough. *)
Fixpoint dump_loop (gmp : bool) (b : GeneralPoolBucket) (fuel : nat) (cnt : Z) : M exn heap (option (list dump_entry)) :=
  match fuel with
  | O => cret None
  | S fuel =>
      if cnt =? head b then cret (Some [])
      else
        match get_slot cnt (buffers b) with
        | None => cundef
        | Some tmp_obj =>
            if currentMax b =? 0 then cundef
            else
              let cnt := u32 (cnt + 1) mod currentMax b in
              let! e := match tmp_obj with
                        | Some obj => let! st := read_word obj (stamp_offset gmp (objSize b)) in cret (entry_of cnt st)
                        | None => cret (mkEntry cnt None)
                        end in
              let! l := dump_loop gmp b fuel cnt in
              cret (match l with Some l => Some (e :: l) | None => None end)
        end
  end.

Definition dumpNoLock (gmp : bool) (b : GeneralPoolBucket) : M exn heap (option (list dump_entry)) :=
  dump_loop gmp b (S (Z.to_nat (currentMax b))) (tail b).

(** [dump]: the [ReadLock] has no mutex, so that it is [dumpNoLock]. *)
Definition dump := dumpNoLock.

(** ** What is printed *)

(** The index of the [i]-th object of the ring. *)
Definition ring_index (b : GeneralPoolBucket) (i : nat) : Z :=
  Z.of_nat (wrap (length (flat (buffers b))) (Z.to_nat (tail b) + i)).

(** The lines for the objects from the [i]-th on, with their stamps. *)
Fixpoint dump_of (b : GeneralPoolBucket) (st : positive -> Z) (i : nat) (q : list positive) : list dump_entry :=
  match q with
  | [] => []
  | x :: q => entry_of (ring_index b (S i)) (st x) :: dump_of b st (S i) q
  end.

Section Dump.
Context (gmp : bool) (b : GeneralPoolBucket) (h : heap) (st : positive -> Z).

Lemma ring_index_next q i : Rep b q -> (0 < length (flat (buffers b)))%nat -> (i < length (flat (buffers b)))%nat ->
  u32 (ring_index b i + 1) mod currentMax b = ring_index b (S i).
Proof.
  intros R HL Hi. pose proof (Rep_bound _ _ R). destruct capacity_small as (HC & _).
  assert (Ht : (Z.to_nat (tail b) < length (flat (buffers b)))%nat) by (destruct (r_tail _ _ R) as [?|E]; [done|rewrite E; simpl; lia]).
  unfold ring_index. set (L := length (flat (buffers b))) in *. rewrite (r_cur _ _ R). fold L.
  pose proof (wrap_lt L (Z.to_nat (tail b) + i) ltac:(lia)). rewrite uwrap_id by lia.
  replace (Z.of_nat (wrap L (Z.to_nat (tail b) + i)) + 1) with (Z.of_nat (wrap L (Z.to_nat (tail b) + i) + 1)) by lia.
  rewrite wrap_mod by lia. f_equal. unfold wrap. repeat case_match; b2p; lia.
Qed.

Lemma dump_loop_run q : Rep b q -> (length q < length (flat (buffers b)))%nat ->
  (forall x, x ∈ q -> read_word x (stamp_offset gmp (objSize b)) h = (Ret (st x), h)) ->
  forall n i fuel, (i + n = length q)%nat -> (n < fuel)%nat ->
  dump_loop gmp b fuel (ring_index b i) h = (Ret (Some (dump_of b st i (drop i q))), h).
Proof.
  intros R HL Hst. induction n as [|n IH]; intros i [|fuel] Hi Hf; try lia; cbn [dump_loop].
  - replace (ring_index b i) with (head b) by (rewrite (r_head _ _ R); unfold ring_index; repeat f_equal; lia).
    rewrite Z.eqb_refl, drop_ge by lia. done.
  - assert (Ht : (Z.to_nat (tail b) < length (flat (buffers b)))%nat) by (destruct (r_tail _ _ R) as [?|E]; [done|rewrite E; simpl; lia]).
    destruct (lookup_lt_is_Some_2 q i ltac:(lia)) as [x Hx].
    destruct (Z.eqb_spec (ring_index b i) (head b)) as [E|_].
    { rewrite (r_head _ _ R) in E. unfold ring_index, wrap in E. repeat case_match; b2p; lia. }
    rewrite get_slot_flat by (exact (r_wf _ _ R) || (unfold ring_index; lia)). unfold ring_index at 1. rewrite Nat2Z.id.
    rewrite (r_in _ _ R i x Hx). destruct (Z.eqb_spec (currentMax b) 0) as [E|_]; [rewrite (r_cur _ _ R) in E; lia|].
    rewrite (ring_index_next q i R) by lia. unfold cbind at 1. unfold cbind at 1.
    rewrite (Hst x) by (by eapply list_elem_of_lookup_2). cbn [cret]. unfold cret at 1. unfold cbind at 1.
    rewrite (IH (S i) fuel) by lia. rewrite (drop_S q x i Hx). done.
Qed.

(** [dump] prints exactly the objects of a bucket, oldest first, each with its stamp, as
    long as the bucket is not full; of a full bucket, whose head is its tail again, it
    prints nothing. *)
Theorem bucket_dump_exact q : Rep b q -> (forall x, x ∈ q -> read_word x (stamp_offset gmp (objSize b)) h = (Ret (st x), h)) ->
  dump gmp b h = (Ret (Some (if full b then [] else dump_of b st 0 q)), h).
Proof.
  intros R Hst. unfold dump, dumpNoLock.
  assert (E0 : tail b = ring_index b 0 \/ flat (buffers b) = []).
  { destruct (flat (buffers b)) eqn:Ef; [by right|left]. pose proof (r_tail0 _ _ R). unfold ring_index, wrap. rewrite Nat.add_0_r.
    destruct (r_tail _ _ R) as [?|E]; [|rewrite E; rewrite Ef; simpl; done]. case_match; b2p; lia. }
  destruct (decide (length q = length (flat (buffers b)))) as [El|Hne].
  - assert (Eh : tail b = head b).
    { rewrite (r_head _ _ R). pose proof (r_tail0 _ _ R). unfold wrap. destruct (r_tail _ _ R) as [?|E]; [|rewrite E; simpl];
        repeat case_match; b2p; lia. }
    rewrite Eh. cbn [dump_loop]. rewrite Z.eqb_refl. rewrite (r_full _ _ R).
    case_bool_decide as Hd; [done|]. destruct q; [done|]. exfalso. apply Hd. split; [done|].
    intros Eb. rewrite Eb in El. done.
  - pose proof (r_len _ _ R). destruct E0 as [->|E]; [|rewrite E in *; simpl in *; lia].
    rewrite (dump_loop_run q R ltac:(lia) Hst (length q) 0) by (rewrite ?(r_cur _ _ R); lia). rewrite drop_0, (r_full _ _ R).
    by rewrite bool_decide_eq_false_2 by (intros [? _]; lia).
Qed.
End Dump.

(** ** A bucket with one object *)

Definition dump_bucket : GeneralPoolBucket := snd (put 7 run_bucket).
Definition dump_heap : heap := {[7%positive := mkBlock 24 0 {[16 := make_stamp 3 16]}]}.

Lemma dump_bucket_Rep : Rep dump_bucket [7%positive].
Proof.
  destruct (putNoLock_rep run_bucket [] 7 run_bucket_Rep) as (b' & E & R & _).
  { pose proof (proj1 capacity_small). cbn [length]. lia. }
  unfold dump_bucket, put. rewrite E. exact R.
Qed.

Lemma bucket_dump_exact_witness : dump false dump_bucket dump_heap = (Ret (Some [mkEntry 1 (Some (make_stamp 3 16, 16, 3))]), dump_heap).
Proof.
  etransitivity; [apply (bucket_dump_exact false dump_bucket dump_heap (fun _ => make_stamp 3 16) [7%positive] dump_bucket_Rep)|].
  - intros x ->%list_elem_of_singleton. vm_compute. reflexivity.
  - vm_compute. reflexivity.
Defined.
