(* ===== verification/Raid0.v ===== *)
(** * The RAID0 device ([lib/spdk/SpdkRAID0Bdev])

    A device class whose methods are stubs.  Which answers it gives, and that it is not a
    device in the sense of the interface that [OffloadPoller] is proved against. *)

From S2P Require Import Prelude Status ARTree Rqst SpdkDevice.

(** [class SpdkRAID0Bdev] with the members of [SpdkDevice] that it uses. *)
Record Raid0 : Type := mkRaid0 { r0_ctx : SpdkBdevCtx; r0_isRunning : Z; r0_blkNumForLba : Z; IoBytesMaxQueued : Z }.

#[local] Abbreviation RM A := (M exn Raid0 A).

Section Methods.
Context {C : Type}.

Definition raid0_read (pv : pmem_view) (task : DeviceTask C) : RM bool := cret true.
Definition raid0_write (pv : pmem_view) (task : DeviceTask C) : RM bool := cret true.
Definition raid0_remove (pv : pmem_view) (task : DeviceTask C) : RM bool := cret true.
Definition raid0_reschedule (task : DeviceTask C) : RM Z := cret 0.
End Methods.

Definition raid0_init : RM bool := cret true.
Definition raid0_deinit : RM unit := cret tt.
Definition raid0_initFreeList : RM unit := cret tt.
Definition raid0_getFreeLba (ioSize : Z) : RM Z := cret (-1).
Definition raid0_putFreeLba (devAddr : DeviceAddr) (ioSize : Z) : RM unit := cret tt.
Definition raid0_getOptimalSize (size : Z) : Z := 0.
Definition raid0_getAlignedSize (size : Z) : Z := 0.
Definition raid0_getSizeInBlk (size : Z) : Z := 0.
Definition raid0_isOffloadEnabled : bool := true.
Definition raid0_isBdevFound : bool := true.
Definition raid0_isIOQuiescent : bool := true.
Definition raid0_canQueue : Z := 1024.
Definition raid0_getBlockOffsetForLba (d : Raid0) (lba : Z) : Z := u64 (lba * r0_blkNumForLba d).
Definition raid0_setBlockNumForLba (n : Z) : RM unit := fun d =>
  (Ret tt, mkRaid0 (r0_ctx d) (r0_isRunning d) n (IoBytesMaxQueued d)).
Definition raid0_setMaxQueued (io_cache_size blk_size : Z) : RM unit := fun d =>
  (Ret tt, mkRaid0 (r0_ctx d) (r0_isRunning d) (r0_blkNumForLba d) (u32 (io_cache_size * 128))).
Definition raid0_setRunning (running : Z) : RM unit := fun d =>
  (Ret tt, mkRaid0 (r0_ctx d) running (r0_blkNumForLba d) (IoBytesMaxQueued d)).

(** [SpdkCore::spdkStart] on this device, up to its lists of free LBAs: [aligned / blk_size]
    divides by the block size that nothing has set, and [OffloadPoller::initFreeList], when
    its file opens, divides by the number of blocks of an LBA. *)
Definition raid0_start (allocUnitSize : Z) : RM bool :=
  let! rc := raid0_init in
  if negb rc then cret false
  else
    let! d := cget in
    raid0_setMaxQueued (io_cache_size (r0_ctx d)) (blk_size (r0_ctx d)) ;;;
    let aligned := raid0_getAlignedSize allocUnitSize in
    if blk_size (r0_ctx d) =? 0 then cundef
    else
      raid0_setBlockNumForLba (aligned / blk_size (r0_ctx d)) ;;;
      let! d := cget in
      if r0_blkNumForLba d =? 0 then cundef
      else raid0_initFreeList ;;; cret true.

(** The RAID0 device promises more than it does.  It takes every task and forgets it, so
    that no reading of its state as the tasks it has to do agrees with the interface of
    devices: a write that was taken would have to be among them.  Starting it divides by
    zero, whatever its block size is: the aligned size of every unit is zero. *)
Theorem raid0_forgets (C : Type) (dev_tasks : Raid0 -> list (DeviceTask C)) pv (task : DeviceTask C) d size :
  raid0_write pv task d = (Ret true, d) /\ raid0_read pv task d = (Ret true, d) /\ raid0_remove pv task d = (Ret true, d) /\
  (forall b d', raid0_write pv task d = (Ret b, d') -> ~ dev_tasks d' ≡ₚ (if b then task :: dev_tasks d else dev_tasks d)) /\
  raid0_getFreeLba size d = (Ret (-1), d) /\ fst (raid0_start size d) = Undef.
Proof.
  split_and!; try done.
  - intros b d' [= <- <-] HP. apply Permutation_length in HP. simpl in HP. lia.
  - unfold raid0_start, cbind, raid0_init, cget. simpl. by destruct (Z.eqb_spec (blk_size (r0_ctx d)) 0).
Qed.
