(* ===== verification/StoreProps.v ===== *)
(** * Properties of a store ([KVStore::getProperty], [DhtServer::printStatus], [printNeighbors])

    What a store tells of itself as text. *)

From stdpp Require Import strings pretty.
From S2P Require Import Prelude Status CString SpdkConf Configuration DhtCore DhtRpc DhtServing DhtConnect.

#[local] Open Scope Z_scope.

(** [std::endl], and the concatenation of texts. *)
Definition endl : string := String.String (Ascii.ascii_of_nat 10) String.EmptyString.

Definition NodeStateStr (st : DhtNodeState) : string :=
  match st with
  | NODE_READY => "Ready"
  | NODE_NOT_RESPONDING => "Not Responding"
  | NODE_INIT => "Not initialized"
  end.

(** ** [DhtServer] *)

(** [getId] of the server: the session of the local node as an [unsigned int]. *)
Definition getId (d : DhtCore) : Z := u32 (sessionId (localNode d)).

Definition printStatus (d : DhtCore) (st : DhtServerState) : string :=
  "DHT server: " +:+ ip (localNode d) +:+ ":" +:+ pretty (port (localNode d)) +:+ endl +:+
  (if decide (st = DHT_SERVER_READY) then "DHT server: active" else "DHT server: inactive") +:+ endl.

Section Neighbors.
Context {P : Type} `{ErpcRpc P}.
#[local] Abbreviation NM A := (M exn (@DhtClients P) A).

Definition set_dht (d : DhtCore) (s : @DhtClients P) : DhtClients :=
  mkDhtClients d (sessions s) (numOfDhtThreads s) (baseDhtId s) (randomSeed s) (nextRpcId s)
    (numberOfClientThreads s) (clients s) (_threadDhtClient s) (_registeredDhtClients s).

(** [neighbor->state = st] for the [j]th neighbour. *)
Definition set_neighbor (j : nat) (st : DhtNodeState) (s : @DhtClients P) : DhtClients :=
  set_dht (mkDhtCore (localNode (dht s)) (alter (setState st) j (_neighbors (dht s))) (_rangeToHost (dht s))
    (_maskLength (dht s)) (_maskOffset (dht s))) s.

(** The line of a neighbour. *)
Definition neighbor_line (n : DhtNode) (session : Z) (st : DhtNodeState) : string :=
  "[" +:+ ip n +:+ ":" +:+ pretty (port n) +:+ "] - SessionId(" +:+ pretty session +:+ ") : " +:+ NodeStateStr st +:+ endl.

(** The loop over the neighbours, for a call by thread [t]. *)
Fixpoint print_loop (t : nat) (j : nat) (rest : list DhtNode) : NM string :=
  match rest with
  | [] => cret ""
  | n :: rest =>
      let! c := getClient t in
      let! isConnected := ping c j in
      let st := if isConnected then NODE_READY else NODE_NOT_RESPONDING in
      cmod (set_neighbor j st) ;;;
      let! s := cget in
      match sessions s !! j with
      | None => cundef
      | Some session => let! r := print_loop t (S j) rest in cret (neighbor_line n session st +:+ r)
      end
  end.

Definition printNeighbors (t : nat) : NM string :=
  let! s := cget in
  match _neighbors (dht s) with
  | [] => cret "No neighbors"
  | ns => print_loop t 0 ns
  end.

(** ** [KVStore::getProperty] *)

(** [server] is the state of the DHT server; without one the calls are made on a null
    pointer. *)
Definition getProperty (server : option DhtServerState) (o : Options) (t : nat) (name : string) : NM string :=
  let! s := cget in
  let on_server (m : DhtServerState -> NM string) := match server with Some st => m st | None => cundef end in
  if decide (name = "daqdb.dht.id") then on_server (fun _ => cret (pretty (getId (dht s))))
  else if decide (name = "daqdb.dht.neighbours") then on_server (fun _ => printNeighbors t)
  else if decide (name = "daqdb.dht.status") then on_server (fun st => cret (printStatus (dht s) st +:+ endl))
  else if decide (name = "daqdb.dht.ip") then on_server (fun _ => cret (ip (localNode (dht s))))
  else if decide (name = "daqdb.dht.port") then on_server (fun _ => cret (pretty (port (localNode (dht s)))))
  else if decide (name = "daqdb.pmem.path") then cret (poolPath o)
  else if decide (name = "daqdb.pmem.size") then cret (pretty (totalSize o))
  else if decide (name = "daqdb.pmem.alloc_unit_size") then cret (pretty (pmem_allocUnitSize o))
  else cret "".

(** ** The id of a node *)

Lemma set_range_session o n n' : set_range o n = Ret n' -> sessionId n' = sessionId n.
Proof.
  unfold set_range. destruct (stoi (range_start o)) as [z|[]| |]; try done; [|by intros [= <-]].
  destruct (stoi (range_end o)) as [z'|[]| |]; try done; by intros [= <-].
Qed.

Lemma init_loop_session opts : forall loc ns loc' ns', (forall n, loc = Some n -> sessionId n = ERPC_SESSION_NOT_SET) ->
  _initNeighbors_loop opts loc ns = Ret (loc', ns') -> forall n, loc' = Some n -> sessionId n = ERPC_SESSION_NOT_SET.
Proof.
  induction opts as [|o opts IH]; intros loc ns loc' ns' Hl E; simpl in E; [by injection E as <- <-|].
  destruct (set_range o _) as [n|e| |] eqn:En; try done. apply set_range_session in En. simpl in En.
  destruct (local o); [|exact (IH _ _ _ _ Hl E)]. refine (IH _ _ _ _ _ E). intros m [= <-]. done.
Qed.

Lemma local_session o d : DhtCore_init o = Ret d -> sessionId (localNode d) = ERPC_SESSION_NOT_SET.
Proof.
  unfold DhtCore_init, _initNeighbors. destruct (8 <? maskLength o); [done|].
  destruct (_initNeighbors_loop (neighbors o) None []) as [[loc ns]|e| |] eqn:E; try done.
  destruct loc as [n|]; intros [= <-]; [|done]. simpl. by eapply init_loop_session; [|exact E|].
Qed.

(** ** Neighbours *)

(** The client of thread [t] is ready and has sessions to all neighbours. *)
Definition ready_client (t : nat) (p : P) (s : @DhtClients P) : Prop :=
  exists c k, _threadDhtClient s !! t = Some c /\ clients s !! c = Some k /\ DhtConnect.state k = DHT_CLIENT_READY /\
    _clientRpc k = Some p /\ length (sessions s) = length (_neighbors (dht s)) /\
    Forall (fun n => n <> ERPC_SESSION_NOT_SET) (sessions s).

Lemma ping_ready t p s j n : ready_client t p s -> sessions s !! j = Some n ->
  (let! c := getClient t in ping c j) s = (Ret (is_connected n p), s).
Proof.
  intros (c & k & Ht & Hc & Hst & Hp & _ & Hs) Hj. rewrite (cbind_ret _ _ _ _ _ (getClient_known _ _ _ Ht)).
  unfold ping, cbind at 1, get_conn. rewrite Hc, Hst. unfold cbind at 1, cget. rewrite Hj.
  rewrite Forall_lookup in Hs. destruct (Z.eqb_spec n ERPC_SESSION_NOT_SET) as [E|_]; [by destruct (Hs _ _ Hj)|].
  unfold cbind, get_rpc. rewrite Hc. simpl. by rewrite Hp.
Qed.

(** What is found out about a neighbour. *)
Definition found (p : P) (n : Z) : DhtNodeState := if is_connected n p then NODE_READY else NODE_NOT_RESPONDING.

Lemma set_neighbor_ready t p j st s : ready_client t p s -> ready_client t p (set_neighbor j st s).
Proof. intros (c & k & ?). exists c, k. simpl. by rewrite length_alter. Qed.

Lemma print_loop_run t p rest : forall j s, ready_client t p s -> (j + length rest = length (_neighbors (dht s)))%nat ->
  exists text s', print_loop t j rest s = (Ret text, s') /\ sessions s' = sessions s /\
    forall i n, sessions s !! i = Some n ->
      (DhtCore.state <$> _neighbors (dht s') !! i) =
      if decide (j <= i)%nat then Some (found p n) else DhtCore.state <$> _neighbors (dht s) !! i.
Proof.
  induction rest as [|m rest IH]; intros j s Hr Hl; cbn [print_loop].
  - exists "", s. split; [done|]. split; [done|]. intros i n Hi. rewrite decide_False; [done|].
    apply lookup_lt_Some in Hi. destruct Hr as (? & ? & _ & _ & _ & _ & El & _). simpl in Hl. lia.
  - pose proof Hr as (? & ? & _ & _ & _ & _ & El & _). simpl in Hl.
    destruct (lookup_lt_is_Some_2 (sessions s) j ltac:(lia)) as [n Hn].
    pose proof (ping_ready t p s j n Hr Hn) as Hp. apply cbind_inv in Hp as (c & s1 & E1 & E2).
    rewrite (cbind_ret _ _ _ _ _ E1), (cbind_ret _ _ _ _ _ E2). change (if is_connected n p then NODE_READY else NODE_NOT_RESPONDING) with (found p n).
    unfold cbind at 1, cmod. unfold cbind at 1, cget. cbn [sessions set_neighbor set_dht]. rewrite Hn.
    destruct (IH (S j) (set_neighbor j (found p n) s) (set_neighbor_ready _ _ _ _ _ Hr)) as (text & s' & E & Es & Hf).
    { simpl. rewrite length_alter. lia. }
    rewrite (cbind_ret _ _ _ _ _ E). eexists _, s'. split; [reflexivity|]. split; [done|]. intros i k Hi. rewrite (Hf i k Hi).
    simpl. destruct (decide (i = j)) as [->|Hne].
    + rewrite decide_False, decide_True by lia. rewrite list_lookup_alter_eq.
      assert (k = n) as -> by congruence. destruct (lookup_lt_is_Some_2 (_neighbors (dht s)) j ltac:(lia)) as [m' ->]. done.
    + rewrite list_lookup_alter_ne by done. destruct (decide (S j <= i)%nat), (decide (j <= i)%nat); try done; lia.
Qed.

(** What a store tells of itself.  Asking for the neighbours sets the state of every
    neighbour by whether its session is connected now, when the client of the thread is
    ready; but the id of a node, whatever its options say, is the number of a session that
    the local node never has: [4294967295]. *)
Theorem store_properties o d s t p server opts :
  DhtCore_init o = Ret d -> ready_client t p s ->
  (dht s = d -> fst (getProperty (Some server) opts t "daqdb.dht.id" s) = Ret "4294967295") /\
  (exists text s', getProperty (Some server) opts t "daqdb.dht.neighbours" s = (Ret text, s') /\ sessions s' = sessions s /\
     (forall i n, sessions s !! i = Some n -> DhtCore.state <$> _neighbors (dht s') !! i = Some (found p n))) /\
  fst (getProperty None opts t "daqdb.dht.id" s) = Undef.
Proof.
  intros Ed Hr. split_and!.
  - intros <-. unfold getProperty, cbind, cget. simpl. unfold getId. by rewrite (local_session _ _ Ed).
  - unfold getProperty, cbind at 1, cget. simpl. unfold printNeighbors, cbind at 1, cget.
    destruct (_neighbors (dht s)) as [|m ns] eqn:En.
    + eexists _, s. split; [reflexivity|]. split; [done|]. intros i n Hi. apply lookup_lt_Some in Hi.
      destruct Hr as (? & ? & _ & _ & _ & _ & El & _). rewrite En in El. simpl in El. lia.
    + rewrite <- En. destruct (print_loop_run t p (_neighbors (dht s)) 0 s Hr eq_refl) as (text & s' & E & Es & Hf).
      exists text, s'. split; [done|]. split; [done|]. intros i n Hi. by rewrite (Hf i n Hi).
  - done.
Qed.
End Neighbors.

(** ** A node with its neighbours *)

Section Runs.
#[local] Existing Instance DhtConnect.list_endpoints.

Definition props_store : @DhtClients list_rpc := snd (getClient 0 (clients_init run_core 3 4 100 3)).
Definition props_rpc : list_rpc := mkListRpc 0 ((fun n => (getUri n, 5)) <$> _neighbors run_core).

Lemma props_ready : ready_client 0 props_rpc props_store.
Proof.
  exists 0%nat, (mkConnection DHT_CLIENT_READY (Some props_rpc) 5 true). split_and!; try (vm_compute; reflexivity).
  vm_compute. repeat constructor; discriminate.
Qed.

Lemma store_properties_witness :
  fst (getProperty (Some DHT_SERVER_READY) Options_init 0 "daqdb.dht.id" props_store) = Ret "4294967295".
Proof.
  exact (proj1 (store_properties run_options run_core props_store 0 props_rpc DHT_SERVER_READY Options_init
    ltac:(vm_compute; reflexivity) props_ready) ltac:(vm_compute; reflexivity)).
Defined.
End Runs.
