(* ===== verification/TreeThreads.v ===== *)
(** * Searching the tree with several threads ([TreeImpl::findValueInNode])

    [ARTree] runs one operation at a time.  Here any number of threads search one tree at
    once, some of them to allocate.  The nodes are shared; a level below a node is made
    under the mutex of that node, one child after the other, while threads that only look
    go on without a lock; the wrapper of a leaf is made without a lock.  Every turn of a
    thread makes one access to what is shared, and turns interleave in any order. *)

From S2P Require Import Prelude Status ARTree.

(** A node has the address of its block and its index in it.  Depth 8 is that of the
    leaves; [mutex] has the number of the thread that holds it. *)
Abbreviation addr := (positive * nat)%type.

Inductive tnode : Type :=
| TNode256 (depth : nat) (mutex : option nat) (children : list (option addr))
| TLeaf (child : option positive).

Definition depth_of (n : tnode) : nat := match n with TNode256 d _ _ => d | TLeaf _ => 8 end.

(** Where a thread is in [findValueInNode]: at the top of the loop; where a child was seen
    and is read again; under the lock before the second test; before it makes child [i] of
    a level in block [b]; after the level is published; before the lock is released, with
    the next node or with an exception; at a leaf without a wrapper before one is reserved;
    before it is stored; before the last read; at the end, with a result or an exception. *)
Inductive find_pc : Type :=
| AtNode (n : addr) | Follow (n : addr) | Locked (n : addr) | Filling (n : addr) (b : positive) (i : nat)
| Filled (n : addr) | Leave (n : addr) (next : option addr)
| ReserveW (n : addr) | StoreW (n : addr) (w : positive) | LeafRead (n : addr)
| Found (r : option positive) | Thrown.

Record Searcher : Type := mkSearcher { sr_key : list Z; sr_allocate : bool; sr_pc : find_pc }.

(** The pool with its live objects, the nodes and wrappers in it, and the threads. *)
Record TreeState : Type := mkTreeState {
  ts_live : gset positive; ts_nodes : gmap addr tnode; ts_wrappers : gmap positive ValueWrapper; ts_threads : list Searcher }.

Definition set_pc (t : nat) (pc : find_pc) (s : TreeState) : TreeState :=
  mkTreeState (ts_live s) (ts_nodes s) (ts_wrappers s)
    (alter (fun sr => mkSearcher (sr_key sr) (sr_allocate sr) pc) t (ts_threads s)).
Definition put_node (a : addr) (n : tnode) (s : TreeState) : TreeState :=
  mkTreeState (ts_live s) (<[a := n]> (ts_nodes s)) (ts_wrappers s) (ts_threads s).
Definition take_block (b : positive) (s : TreeState) : TreeState :=
  mkTreeState ({[b]} ∪ ts_live s) (ts_nodes s) (ts_wrappers s) (ts_threads s).
Definition put_wrapper (w : positive) (v : ValueWrapper) (s : TreeState) : TreeState :=
  mkTreeState (ts_live s) (ts_nodes s) (<[w := v]> (ts_wrappers s)) (ts_threads s).

(** [key[treeRoot->keySize - current->depth - 1]]. *)
Definition keyCalc (keySize : Z) (key : list Z) (d : nat) : option nat :=
  Z.to_nat <$> key !! Z.to_nat (u64 (keySize - Z.of_nat d - 1)).

(** A node that [allocateFullLevels] makes on level [d]. *)
Definition new_node (d : nat) : tnode :=
  if is_TYPE256 (Z.of_nat d) then TNode256 d None (replicate NODE_SIZE None) else TLeaf None.

Section Turns.
Context (keySize : Z).

(** A turn at inner node [n]; [res] is what [pmemobj_xreserve] answers, should it be
    called. *)
Definition inner_turn (res : option positive) (t : nat) (allocate : bool) (pc : find_pc) (n : addr) (k d : nat)
    (mutex : option nat) (cs : list (option addr)) (s : TreeState) : option (outcome exn TreeState) :=
  match cs !! k with
  | None => Some Undef
  | Some child =>
      match pc with
      | AtNode _ =>
          if allocate then
            match mutex with
            | None => Some (Ret (set_pc t (Locked n) (put_node n (TNode256 d (Some t) cs) s)))
            | Some _ => None
            end
          else Some (Ret (set_pc t (match child with Some _ => Follow n | None => Found None end) s))
      | Follow _ => Some (match child with Some c => Ret (set_pc t (AtNode c) s) | None => Undef end)
      | Locked _ =>
          match child, res with
          | Some c, _ => Some (Ret (set_pc t (Leave n (Some c)) s))
          | None, None => Some (Ret (set_pc t (Leave n None) s))
          | None, Some b => if decide (b ∈ ts_live s) then None else Some (Ret (set_pc t (Filling n b 0) (take_block b s)))
          end
      | Filling _ b i =>
          Some (Ret (if decide (i < NODE_SIZE)%nat
                     then set_pc t (Filling n b (S i))
                            (put_node n (TNode256 d mutex (<[i := Some (b, i)]> cs)) (put_node (b, i) (new_node (S d)) s))
                     else set_pc t (Filled n) s))
      | Filled _ => Some (match child with Some c => Ret (set_pc t (Leave n (Some c)) s) | None => Undef end)
      | Leave _ next =>
          Some (Ret (set_pc t (match next with Some c => AtNode c | None => Thrown end) (put_node n (TNode256 d None cs) s)))
      | _ => Some Undef
      end
  end.

(** A turn at leaf [n]. *)
Definition leaf_turn (res : option positive) (t : nat) (allocate : bool) (pc : find_pc) (n : addr)
    (child : option positive) (s : TreeState) : option (outcome exn TreeState) :=
  match pc with
  | AtNode _ => Some (Ret (set_pc t (match child with None => if allocate then ReserveW n else LeafRead n | Some _ => LeafRead n end) s))
  | ReserveW _ =>
      match res with
      | None => Some (Ret (set_pc t Thrown s))
      | Some w =>
          if decide (w ∈ ts_live s) then None
          else Some (Ret (set_pc t (StoreW n w) (put_wrapper w (mkValueWrapper EMPTY None 0 EMPTY ANull) (take_block w s))))
      end
  | StoreW _ w => Some (Ret (set_pc t (LeafRead n) (put_node n (TLeaf (Some w)) s)))
  | LeafRead _ => Some (Ret (set_pc t (Found child) s))
  | _ => Some Undef
  end.

(** The node that a thread is at. *)
Definition at_node (pc : find_pc) : option addr :=
  match pc with
  | AtNode n | Follow n | Locked n | Filling n _ _ | Filled n | Leave n _ | ReserveW n | StoreW n _ | LeafRead n => Some n
  | Found _ | Thrown => None
  end.

(** A turn of thread [t]; [None] when it waits for a mutex or has ended. *)
Definition find_turn (res : option positive) (t : nat) (s : TreeState) : option (outcome exn TreeState) :=
  match ts_threads s !! t with
  | None => None
  | Some sr =>
      match at_node (sr_pc sr) with
      | None => None
      | Some n =>
          match ts_nodes s !! n with
          | None => Some Undef
          | Some (TLeaf child) => leaf_turn res t (sr_allocate sr) (sr_pc sr) n child s
          | Some (TNode256 d mutex cs) =>
              match keyCalc keySize (sr_key sr) d with
              | None => Some Undef
              | Some k => inner_turn res t (sr_allocate sr) (sr_pc sr) n k d mutex cs s
              end
          end
      end
  end.

(** A run of turns: [None] when one of them cannot be taken. *)
Fixpoint find_run (bs : list (option positive * nat)) (s : TreeState) : option (outcome exn TreeState) :=
  match bs with
  | [] => Some (Ret s)
  | (res, t) :: bs =>
      match find_turn res t s with
      | Some (Ret s') => find_run bs s'
      | r => match bs with [] => r | _ => None end
      end
  end.
End Turns.

(** ** The tree that the nodes make *)

Fixpoint walk (ns : gmap addr tnode) (p : list nat) (a : addr) : option addr :=
  match p with
  | [] => Some a
  | i :: p =>
      match ns !! a with
      | Some (TNode256 _ _ cs) => match cs !! i with Some (Some c) => walk ns p c | _ => None end
      | _ => None
      end
  end.

Definition child_of (ns : gmap addr tnode) (a : addr) (i : nat) (c : addr) : Prop :=
  exists d m cs, ns !! a = Some (TNode256 d m cs) /\ cs !! i = Some (Some c).

(** Nodes only gain children. *)
Definition grows (ns ns' : gmap addr tnode) : Prop :=
  forall a n, ns !! a = Some n -> exists n', ns' !! a = Some n' /\
    match n, n' with
    | TNode256 d _ cs, TNode256 d' _ cs' => d' = d /\ forall i c, cs !! i = Some (Some c) -> cs' !! i = Some (Some c)
    | TLeaf _, TLeaf _ => True
    | _, _ => False
    end.

#[export] Instance grows_refl : Reflexive grows.
Proof. intros ns a [d m cs|c] E; eexists; (split; [exact E|]); by split. Qed.

#[export] Instance grows_trans : Transitive grows.
Proof.
  intros ns1 ns2 ns3 H12 H23 a n E. destruct (H12 a n E) as (n2 & E2 & K2). destruct (H23 a n2 E2) as (n3 & E3 & K3).
  exists n3. split; [done|]. destruct n, n2, n3; try done. destruct K2 as [-> K2], K3 as [-> K3]. auto.
Qed.

Lemma grows_child ns ns' a i c : grows ns ns' -> child_of ns a i c -> child_of ns' a i c.
Proof.
  intros G (d & m & cs & E & Hi). destruct (G a _ E) as ([d' m' cs'|] & E' & K); [|done]. destruct K as [-> K].
  exists d, m', cs'. auto.
Qed.

Lemma walk_app ns p q : forall a, walk ns (p ++ q) a = match walk ns p a with Some b => walk ns q b | None => None end.
Proof.
  induction p as [|i p IH]; intros a; simpl; [done|]. destruct (ns !! a) as [[d m cs|c]|]; try done. by destruct (cs !! i) as [[c|]|].
Qed.

Lemma walk_child ns i a c : walk ns [i] a = Some c <-> child_of ns a i c.
Proof.
  unfold child_of. simpl. split.
  - intros E. repeat case_match; simplify_eq. eauto.
  - intros (d & m & cs & -> & ->). done.
Qed.

Lemma walk_grows ns ns' p : grows ns ns' -> forall a b, walk ns p a = Some b -> walk ns' p a = Some b.
Proof.
  intros G. induction p as [|i p IH]; intros a b E; [done|].
  change (i :: p) with ([i] ++ p) in *. rewrite walk_app in *. destruct (walk ns [i] a) as [c|] eqn:Ec; [|done].
  apply walk_child, (grows_child _ _ _ _ _ G), walk_child in Ec. rewrite Ec. by apply IH.
Qed.

(** The level below a node is there or not. *)
Definition whole (cs : list (option addr)) : Prop := cs = replicate NODE_SIZE None \/ Forall is_Some cs.

Section Inv.
Context (root : addr).

Record tree_ok (live : gset positive) (ns : gmap addr tnode) : Prop := {
  tk_root : exists m cs, ns !! root = Some (TNode256 0 m cs);
  tk_live : forall a n, ns !! a = Some n -> a.1 ∈ live;
  tk_inner : forall a d m cs, ns !! a = Some (TNode256 d m cs) -> (d < 8)%nat /\ length cs = NODE_SIZE;
  tk_child : forall a d m cs i c, ns !! a = Some (TNode256 d m cs) -> cs !! i = Some (Some c) ->
    exists n, ns !! c = Some n /\ depth_of n = S d;
  tk_inj : forall a i a' i' c, child_of ns a i c -> child_of ns a' i' c -> a = a' /\ i = i' }.

(** The node that the first [d] bytes of a key lead to. *)
Definition reached (ns : gmap addr tnode) (key : list Z) (d : nat) : option addr := walk ns (take d (path_of 8 key)) root.

(** A level of which [i] children are made. *)
Definition part_level (b : positive) (i : nat) : list (option addr) :=
  ((fun j => Some (b, j)) <$> seq 0 i) ++ replicate (NODE_SIZE - i) None.

Definition pc_ok (live : gset positive) (ns : gmap addr tnode) (t : nat) (key : list Z) (pc : find_pc) (nd : tnode) : Prop :=
  match pc with
  | Follow _ => exists d m cs k c, nd = TNode256 d m cs /\ keyCalc 8 key d = Some k /\ cs !! k = Some (Some c)
  | Locked _ => exists d cs, nd = TNode256 d (Some t) cs /\ whole cs
  | Filling _ b i => exists d, nd = TNode256 d (Some t) (part_level b i) /\ (i <= NODE_SIZE)%nat /\ b ∈ live /\
      forall j, (i <= j)%nat -> ns !! (b, j) = None
  | Filled _ => exists d cs, nd = TNode256 d (Some t) cs /\ Forall is_Some cs
  | Leave _ next => exists d cs, nd = TNode256 d (Some t) cs /\ whole cs /\
      forall c, next = Some c -> exists k, keyCalc 8 key d = Some k /\ cs !! k = Some (Some c)
  | ReserveW _ | StoreW _ _ | LeafRead _ => exists c, nd = TLeaf c
  | AtNode _ | Found _ | Thrown => True
  end.

Definition thread_ok (live : gset positive) (ns : gmap addr tnode) (t : nat) (sr : Searcher) : Prop :=
  wf_key (sr_key sr) /\
  forall n, at_node (sr_pc sr) = Some n -> exists nd, ns !! n = Some nd /\ reached ns (sr_key sr) (depth_of nd) = Some n /\
    pc_ok live ns t (sr_key sr) (sr_pc sr) nd.

(** The node whose mutex a thread holds. *)
Definition holds (pc : find_pc) : option addr :=
  match pc with Locked n | Filling n _ _ | Filled n | Leave n _ => Some n | _ => None end.

Record tree_inv (s : TreeState) : Prop := {
  ti_ok : tree_ok (ts_live s) (ts_nodes s);
  ti_threads : forall t sr, ts_threads s !! t = Some sr -> thread_ok (ts_live s) (ts_nodes s) t sr;
  ti_mutex : forall a d m cs, ts_nodes s !! a = Some (TNode256 d m cs) ->
    match m with None => whole cs | Some t => exists sr, ts_threads s !! t = Some sr /\ holds (sr_pc sr) = Some a end;
  ti_blocks : forall t t' sr sr' n n' b i i', ts_threads s !! t = Some sr -> ts_threads s !! t' = Some sr' ->
    sr_pc sr = Filling n b i -> sr_pc sr' = Filling n' b i' -> t = t' }.

(** The next byte of a key. *)
Lemma keyCalc_path key d : wf_key key -> (d < 8)%nat ->
  exists k, keyCalc 8 key d = Some k /\ (k < NODE_SIZE)%nat /\ take (S d) (path_of 8 key) = take d (path_of 8 key) ++ [k].
Proof.
  intros Hk Hd. destruct (wf_key_lookup key (7 - d) Hk ltac:(lia)) as (b & Hb & Hr). exists (Z.to_nat b).
  assert (E : keyCalc 8 key d = Some (Z.to_nat b)).
  { unfold keyCalc. rewrite uwrap_id by lia. replace (Z.to_nat (8 - Z.of_nat d - 1)) with (7 - d)%nat by lia. by rewrite Hb. }
  split; [done|]. split; [unfold NODE_SIZE; lia|]. apply take_S_r. pose proof Hk as [Hl _].
  rewrite path_of_take, take_ge, list_lookup_fmap, reverse_lookup by lia.
  replace (length key - S d)%nat with (7 - d)%nat by lia. by rewrite Hb.
Qed.

Lemma reached_child ns key d k a c : wf_key key -> (d < 8)%nat -> reached ns key d = Some a -> keyCalc 8 key d = Some k ->
  child_of ns a k c -> reached ns key (S d) = Some c.
Proof.
  intros Hk Hd Ha Ek Hc. destruct (keyCalc_path key d Hk Hd) as (k' & Ek' & _ & Et). rewrite Ek in Ek'. injection Ek' as <-.
  unfold reached in *. rewrite Et, walk_app, Ha. by apply walk_child.
Qed.

(** Other threads do not see a change of a node that they do not hold. *)
Lemma thread_ok_frame live ns live' ns' t sr : thread_ok live ns t sr -> grows ns ns' -> live ⊆ live' ->
  (forall a, holds (sr_pc sr) = Some a -> ns' !! a = ns !! a) ->
  (forall n b i, sr_pc sr = Filling n b i -> forall j, (i <= j)%nat -> ns' !! (b, j) = None) ->
  thread_ok live' ns' t sr.
Proof.
  intros [Hk Hn] G Hl Hh Hf. split; [done|]. intros n Ea. destruct (Hn n Ea) as (nd & E & Hr & Hp).
  destruct (G n nd E) as (nd' & E' & Kd). exists nd'. split; [done|].
  assert (Ed : depth_of nd' = depth_of nd) by (destruct nd, nd'; naive_solver).
  split; [rewrite Ed; by apply (walk_grows ns)|].
  destruct (sr_pc sr) eqn:Epc; simpl in *; try done; simplify_eq;
    try (rewrite (Hh n eq_refl), E in E'; injection E' as <-; naive_solver).
  - destruct Hp as (d & m & cs & k & c & -> & Ek & Hc). destruct nd' as [d' m' cs'|]; [|done]. destruct Kd as [-> Kd]. eauto 10.
  - destruct Hp as [c ->]. destruct nd'; [done|eauto].
  - destruct Hp as [c ->]. destruct nd'; [done|eauto].
  - destruct Hp as [c ->]. destruct nd'; [done|eauto].
Qed.

Lemma set_pc_lookup t pc (l : list Searcher) t' sr' :
  alter (fun sr => mkSearcher (sr_key sr) (sr_allocate sr) pc) t l !! t' = Some sr' ->
  (t' = t /\ exists sr, l !! t = Some sr /\ sr' = mkSearcher (sr_key sr) (sr_allocate sr) pc) \/ (t' <> t /\ l !! t' = Some sr').
Proof.
  destruct (decide (t' = t)) as [->|Hne].
  - rewrite list_lookup_alter_eq. intros E. apply fmap_Some in E as (sr & ? & ->). left. eauto.
  - rewrite list_lookup_alter_ne by done. auto.
Qed.

Definition step_to (s : TreeState) (t : nat) (live' : gset positive) (ns' : gmap addr tnode) (wr' : gmap positive ValueWrapper) (pc' : find_pc) : TreeState :=
  set_pc t pc' (mkTreeState live' ns' wr' (ts_threads s)).

(** What a turn has to keep. *)
Lemma inv_update s t sr live' ns' wr' pc' : tree_inv s -> ts_threads s !! t = Some sr ->
  tree_ok live' ns' -> grows (ts_nodes s) ns' -> ts_live s ⊆ live' ->
  thread_ok live' ns' t (mkSearcher (sr_key sr) (sr_allocate sr) pc') ->
  (forall a d t' cs, t' <> t -> ts_nodes s !! a = Some (TNode256 d (Some t') cs) -> ns' !! a = ts_nodes s !! a) ->
  (forall b j, ns' !! (b, j) <> None -> ts_nodes s !! (b, j) <> None \/ exists n i, sr_pc sr = Filling n b i) ->
  (forall a d m cs, ns' !! a = Some (TNode256 d m cs) ->
     match m with None => whole cs | Some t' => if decide (t' = t) then holds pc' = Some a else ts_nodes s !! a = Some (TNode256 d m cs) end) ->
  (forall n b i, pc' = Filling n b i -> (exists n' i', sr_pc sr = Filling n' b i') \/ b ∉ ts_live s) ->
  tree_inv (step_to s t live' ns' wr' pc').
Proof.
  intros I Hsr Hok G Hl Ht Hkeep Hnew Hmx Hblk. split; simpl.
  - done.
  - intros t' sr' [(-> & sr0 & E & ->)|(Hne & E)]%set_pc_lookup; [by rewrite Hsr in E; injection E as <-|].
    pose proof (ti_threads _ I _ _ E) as Ht'. apply (thread_ok_frame (ts_live s) (ts_nodes s)); try done.
    + intros a Ha. destruct Ht' as [_ Hn].
      destruct (Hn a) as (nd & Ea & _ & Hp); [by destruct (sr_pc sr')|].
      assert (exists d cs, nd = TNode256 d (Some t') cs) as (d & cs & ->) by (destruct (sr_pc sr'); simpl in *; naive_solver).
      by apply (Hkeep a d t' cs).
    + intros n b i Epc j Hj. destruct (ns' !! (b, j)) eqn:Ej; [|done]. exfalso.
      destruct (Hnew b j ltac:(by rewrite Ej)) as [Ho|(n' & i' & Epc')].
      * destruct Ht' as [_ Hn]. destruct (Hn n) as (nd & _ & _ & Hp); [by rewrite Epc|]. rewrite Epc in Hp.
        destruct Hp as (d & _ & _ & _ & Hf). by apply Ho, Hf.
      * apply Hne. exact (ti_blocks _ I _ _ _ _ _ _ _ _ _ E Hsr Epc Epc').
  - intros a d m cs E. specialize (Hmx a d m cs E). destruct m as [t'|]; [|done]. case_decide as Hd.
    + subst t'. eexists. rewrite list_lookup_alter_eq, Hsr. by split.
    + pose proof (ti_mutex _ I _ _ _ _ Hmx) as (sr' & E' & Hh). exists sr'. by rewrite list_lookup_alter_ne.
  - intros t1 t2 sr1 sr2 n1 n2 b i1 i2 E1 E2 F1 F2.
    assert (Hold : forall t' sr' n' i', t' <> t -> ts_threads s !! t' = Some sr' -> sr_pc sr' = Filling n' b i' ->
      (exists n i, pc' = Filling n b i) -> False).
    { intros t' sr' n' i' Hne E Epc (n & i & Epc'). destruct (Hblk n b i Epc') as [(n'' & i'' & Epc'')|Hnl].
      - apply Hne. exact (ti_blocks _ I _ _ _ _ _ _ _ _ _ E Hsr Epc Epc'').
      - apply Hnl. destruct (ti_threads _ I _ _ E) as [_ Hn]. destruct (Hn n') as (nd & _ & _ & Hp); [by rewrite Epc|].
        rewrite Epc in Hp. by destruct Hp as (d & _ & _ & ? & _). }
    apply set_pc_lookup in E1 as [(-> & srx & E1 & ->)|(Hn1 & E1)]; apply set_pc_lookup in E2 as [(-> & sry & E2 & ->)|(Hn2 & E2)]; simpl in *.
    + done.
    + exfalso. eauto.
    + exfalso. eauto.
    + exact (ti_blocks _ I _ _ _ _ _ _ _ _ _ E1 E2 F1 F2).
Qed.

(** A turn that changes no node. *)
Lemma inv_pc s t sr live' wr' pc' : tree_inv s -> ts_threads s !! t = Some sr -> ts_live s ⊆ live' ->
  thread_ok live' (ts_nodes s) t (mkSearcher (sr_key sr) (sr_allocate sr) pc') -> holds pc' = holds (sr_pc sr) ->
  (forall n b i, pc' = Filling n b i -> (exists n' i', sr_pc sr = Filling n' b i') \/ b ∉ ts_live s) ->
  tree_inv (step_to s t live' (ts_nodes s) wr' pc').
Proof.
  intros I Hsr Hl Ht Hh Hb. apply (inv_update s t sr); try done.
  - destruct (ti_ok _ I) as [H1 H2 H3 H4 H5']. split; try done. intros a n E. apply Hl. eauto.
  - intros b j E. by left.
  - intros a d m cs E. pose proof (ti_mutex _ I _ _ _ _ E) as Hm. destruct m as [t'|]; [|done]. case_decide; [|done].
    subst t'. destruct Hm as (sr' & E' & Hh'). rewrite Hsr in E'. injection E' as <-. by rewrite Hh.
Qed.

(** Changing the mutex of a node, and the wrapper of a leaf. *)
Lemma tree_ok_insert live ns n nd nd' : tree_ok live ns -> ns !! n = Some nd ->
  match nd, nd' with
  | TNode256 d _ cs, TNode256 d' _ cs' => d' = d /\ cs' = cs
  | TLeaf _, TLeaf _ => True
  | _, _ => False
  end -> tree_ok live (<[n := nd']> ns) /\ grows ns (<[n := nd']> ns).
Proof.
  intros [(m0 & cs0 & Hr) Hl Hi Hc Hj] E K.
  assert (Hsame : forall a x, <[n := nd']> ns !! a = Some x -> exists y, ns !! a = Some y /\
    match y, x with TNode256 d _ cs, TNode256 d' _ cs' => d' = d /\ cs' = cs | TLeaf _, TLeaf _ => True | _, _ => False end).
  { intros a x Ex. destruct (decide (a = n)) as [->|Hne].
    - rewrite lookup_insert_eq in Ex. injection Ex as <-. exists nd. by split.
    - rewrite lookup_insert_ne in Ex by done. exists x. split; [done|]. by destruct x. }
  assert (Hback : forall a x, ns !! a = Some x -> exists y, <[n := nd']> ns !! a = Some y /\
    match x, y with TNode256 d _ cs, TNode256 d' _ cs' => d' = d /\ cs' = cs | TLeaf _, TLeaf _ => True | _, _ => False end).
  { intros a x Ex. destruct (decide (a = n)) as [->|Hne].
    - exists nd'. rewrite lookup_insert_eq. split; [done|]. rewrite E in Ex. by injection Ex as <-.
    - exists x. rewrite lookup_insert_ne by done. split; [done|]. by destruct x. }
  assert (Hch : forall a i c, child_of (<[n := nd']> ns) a i c -> child_of ns a i c).
  { intros a i c (d & m & cs & Ea & Hi'). destruct (Hsame a _ Ea) as ([d' m' cs'|] & Ea' & Kk); [|done].
    destruct Kk as [-> ->]. exists d', m', cs'. done. }
  split; [split|].
  - destruct (Hback _ _ Hr) as ([d m cs|] & -> & Kk); [|done]. destruct Kk as [-> ->]. eauto.
  - intros a x Ex. destruct (Hsame _ _ Ex) as (y & Ey & _). eauto.
  - intros a d m cs Ea. destruct (Hsame a _ Ea) as ([d' m' cs'|] & Ea' & Kk); [|done]. destruct Kk as [-> ->]. eauto.
  - intros a d m cs i c Ea Hi'. destruct (Hsame a _ Ea) as ([d' m' cs'|] & Ea' & Kk); [|done]. destruct Kk as [-> ->].
    destruct (Hc _ _ _ _ _ _ Ea' Hi') as (x & Ex & Hd). destruct (Hback _ _ Ex) as (y & Ey & Kk). exists y. split; [done|].
    destruct x, y; simpl in *; naive_solver.
  - intros a i a' i' c H1 H2. eauto.
  - intros a x Ex. destruct (Hback a x Ex) as (y & Ey & Kk). exists y. split; [done|]. destruct x, y; try done.
    by destruct Kk as [-> ->].
Qed.

(** Making child [i] of a level. *)
Lemma part_level_S b i : (i < NODE_SIZE)%nat -> <[i := Some (b, i)]> (part_level b i) = part_level b (S i).
Proof.
  intros Hi. unfold part_level. rewrite seq_S, fmap_app, <- app_assoc.
  replace (NODE_SIZE - i)%nat with (S (NODE_SIZE - S i)) by lia.
  rewrite insert_app_r_alt by (rewrite length_fmap, length_seq; lia). rewrite length_fmap, length_seq, Nat.sub_diag. done.
Qed.

Lemma part_level_full b : Forall is_Some (part_level b NODE_SIZE).
Proof. unfold part_level. rewrite Nat.sub_diag, app_nil_r. apply Forall_fmap, Forall_forall. intros; simpl; eauto. Qed.

Definition filled (ns : gmap addr tnode) (n : addr) (d : nat) (m : option nat) (cs : list (option addr)) (b : positive) (i : nat) : gmap addr tnode :=
  <[n := TNode256 d m (<[i := Some (b, i)]> cs)]> (<[(b, i) := new_node (S d)]> ns).

Lemma new_node_inner d d' m cs : new_node d = TNode256 d' m cs -> d' = d /\ m = None /\ cs = replicate NODE_SIZE None /\ (d < 8)%nat.
Proof.
  unfold new_node, is_TYPE256, LEVELS. destruct (Z.ltb_spec (Z.of_nat d) (9 - 1)); [|done]. intros E. split_and!; [congruence..|lia].
Qed.

Lemma new_node_children d m cs i c d' : new_node d = TNode256 d' m cs -> cs !! i <> Some (Some c).
Proof. intros (_ & _ & -> & _)%new_node_inner E. by apply lookup_replicate in E as [? _]. Qed.

Lemma new_node_depth d : (d <= 8)%nat -> depth_of (new_node d) = d.
Proof. intros Hd. unfold new_node, is_TYPE256, LEVELS. destruct (Z.ltb_spec (Z.of_nat d) (9 - 1)); simpl; lia. Qed.

Lemma filled_lookup ns n d m cs b i a x : ns !! n <> None -> ns !! (b, i) = None -> filled ns n d m cs b i !! a = Some x ->
  (a = n /\ x = TNode256 d m (<[i := Some (b, i)]> cs)) \/ (a = (b, i) /\ x = new_node (S d)) \/ (a <> n /\ a <> (b, i) /\ ns !! a = Some x).
Proof.
  intros Hn Hb. unfold filled. destruct (decide (a = n)) as [->|Hne].
  - rewrite lookup_insert_eq. intros [= <-]. by left.
  - rewrite lookup_insert_ne by done. destruct (decide (a = (b, i))) as [->|Hne'].
    + rewrite lookup_insert_eq. intros [= <-]. right. by left.
    + rewrite lookup_insert_ne by done. auto.
Qed.

Lemma filled_child ns n d m cs b i a k c : ns !! n = Some (TNode256 d m cs) -> ns !! (b, i) = None ->
  child_of (filled ns n d m cs b i) a k c -> child_of ns a k c \/ (a = n /\ k = i /\ c = (b, i)).
Proof.
  intros Hn Hb (d' & m' & cs' & Ea & Hk).
  apply filled_lookup in Ea as [(-> & [= -> -> ->])|[(-> & E)|(_ & _ & Ea)]]; [..|by rewrite Hn|done].
  - destruct (decide (k = i)) as [->|Hne].
    + right. apply list_lookup_insert_Some in Hk as [(_ & [= <-] & _)|(Hne & _)]; done.
    + left. rewrite list_lookup_insert_ne in Hk by done. by exists d, m, cs.
  - by destruct (new_node_children _ _ _ k c _ (eq_sym E)).
  - left. by exists d', m', cs'.
Qed.

Lemma filled_ok live ns n d m cs b i : tree_ok live ns -> ns !! n = Some (TNode256 d m cs) -> cs !! i = Some None -> ns !! (b, i) = None ->
  b ∈ live -> tree_ok live (filled ns n d m cs b i) /\ grows ns (filled ns n d m cs b i).
Proof.
  intros [(m0 & cs0 & Hr) Hl Hi Hc Hj] E Ei Eb Hb. destruct (Hi _ _ _ _ E) as [Hd Hlen].
  assert (Hn : ns !! n <> None) by (by rewrite E).
  assert (Hni : n <> (b, i)) by (intros ->; congruence).
  assert (G : grows ns (filled ns n d m cs b i)).
  { intros a x Ex. unfold filled. destruct (decide (a = n)) as [->|Hne].
    - rewrite lookup_insert_eq. eexists. split; [done|]. rewrite E in Ex. injection Ex as <-. split; [done|].
      intros k c Hk. rewrite list_lookup_insert_ne; [done|]. intros ->. congruence.
    - rewrite lookup_insert_ne, lookup_insert_ne by congruence. exists x. split; [done|]. by destruct x. }
  split; [split|done].
  - destruct (G _ _ Hr) as ([d' m' cs'|] & -> & K); [|done]. destruct K as [-> _]. eauto.
  - intros a x Ex. apply filled_lookup in Ex as [(-> & _)|[(-> & _)|(_ & _ & Ex)]]; eauto.
  - intros a d' m' cs' Ea. apply filled_lookup in Ea as [(-> & [= -> -> ->])|[(-> & Ex)|(_ & _ & Ex)]]; [| |by eauto|done|done].
    + by rewrite length_insert.
    + symmetry in Ex. apply new_node_inner in Ex as (-> & _ & -> & ?). split; [lia|apply length_replicate].
  - intros a d' m' cs' k c Ea Hk.
    destruct (filled_child ns n d m cs b i a k c E Eb) as [(d2 & m2 & cs2 & Ea2 & Hk2)|(-> & -> & ->)]; [by exists d', m', cs'|..].
    + destruct (Hc _ _ _ _ _ _ Ea2 Hk2) as (x & Ex & Hdx). destruct (G _ _ Ex) as (y & Ey & Ky). exists y. split; [done|].
      destruct (G _ _ Ea2) as (z & Ez & Kz). rewrite Ea in Ez. injection Ez as <-. destruct Kz as [-> _].
      destruct x, y; simpl in *; naive_solver.
    + exists (new_node (S d)). unfold filled in *. rewrite lookup_insert_eq in Ea. injection Ea as -> -> ->.
      rewrite lookup_insert_ne, lookup_insert_eq by done. split; [done|]. apply new_node_depth. lia.
  - assert (Hno : forall a k, ~ child_of ns a k (b, i)).
    { intros a k (d' & m' & cs' & Ea & Hk). destruct (Hc _ _ _ _ _ _ Ea Hk) as (x & Ex & _). congruence. }
    intros a k a' k' c H1 H2. apply filled_child in H1 as [H1|(-> & -> & ->)]; try done; apply filled_child in H2 as [H2|(-> & -> & H2)]; try done.
    + eauto.
    + subst. by destruct (Hno a k).
    + by destruct (Hno a' k').
Qed.

(** ** What turns do *)

(** The turns of thread [t] with what they know by then, and what they change. *)
Inductive turn_case (live : gset positive) (ns : gmap addr tnode) (t : nat) (key : list Z) (allocate : bool) (res : option positive) :
    find_pc -> gset positive -> gmap addr tnode -> find_pc -> Prop :=
| TC_lock n d cs : ns !! n = Some (TNode256 d None cs) -> allocate = true ->
    turn_case live ns t key allocate res (AtNode n) live (<[n := TNode256 d (Some t) cs]> ns) (Locked n)
| TC_see n d m cs k c : ns !! n = Some (TNode256 d m cs) -> keyCalc 8 key d = Some k -> cs !! k = Some (Some c) ->
    allocate = false -> turn_case live ns t key allocate res (AtNode n) live ns (Follow n)
| TC_none n d m cs : ns !! n = Some (TNode256 d m cs) -> allocate = false ->
    turn_case live ns t key allocate res (AtNode n) live ns (Found None)
| TC_follow n d m cs k c : ns !! n = Some (TNode256 d m cs) -> keyCalc 8 key d = Some k -> cs !! k = Some (Some c) ->
    turn_case live ns t key allocate res (Follow n) live ns (AtNode c)
| TC_there n d cs k c : ns !! n = Some (TNode256 d (Some t) cs) -> whole cs -> keyCalc 8 key d = Some k -> cs !! k = Some (Some c) ->
    turn_case live ns t key allocate res (Locked n) live ns (Leave n (Some c))
| TC_fail n d cs : ns !! n = Some (TNode256 d (Some t) cs) -> whole cs -> res = None ->
    turn_case live ns t key allocate res (Locked n) live ns (Leave n None)
| TC_reserve n d b : ns !! n = Some (TNode256 d (Some t) (part_level b 0)) -> b ∉ live ->
    turn_case live ns t key allocate res (Locked n) ({[b]} ∪ live) ns (Filling n b 0)
| TC_fill n d b i : ns !! n = Some (TNode256 d (Some t) (part_level b i)) -> (i < NODE_SIZE)%nat ->
    turn_case live ns t key allocate res (Filling n b i) live (filled ns n d (Some t) (part_level b i) b i) (Filling n b (S i))
| TC_filled n d b cs : ns !! n = Some (TNode256 d (Some t) cs) -> Forall is_Some cs ->
    turn_case live ns t key allocate res (Filling n b NODE_SIZE) live ns (Filled n)
| TC_take n d cs k c : ns !! n = Some (TNode256 d (Some t) cs) -> Forall is_Some cs -> keyCalc 8 key d = Some k -> cs !! k = Some (Some c) ->
    turn_case live ns t key allocate res (Filled n) live ns (Leave n (Some c))
| TC_leave n d cs next : ns !! n = Some (TNode256 d (Some t) cs) -> whole cs ->
    (forall c, next = Some c -> exists k, keyCalc 8 key d = Some k /\ cs !! k = Some (Some c)) ->
    turn_case live ns t key allocate res (Leave n next) live (<[n := TNode256 d None cs]> ns)
      (match next with Some c => AtNode c | None => Thrown end)
| TC_leaf n c : ns !! n = Some (TLeaf c) ->
    turn_case live ns t key allocate res (AtNode n) live ns
      (match c with None => if allocate then ReserveW n else LeafRead n | Some _ => LeafRead n end)
| TC_no_wrapper n c : ns !! n = Some (TLeaf c) -> res = None -> turn_case live ns t key allocate res (ReserveW n) live ns Thrown
| TC_wrapper n c w : ns !! n = Some (TLeaf c) -> w ∉ live ->
    turn_case live ns t key allocate res (ReserveW n) ({[w]} ∪ live) ns (StoreW n w)
| TC_store n c w : ns !! n = Some (TLeaf c) ->
    turn_case live ns t key allocate res (StoreW n w) live (<[n := TLeaf (Some w)]> ns) (LeafRead n)
| TC_read n c : ns !! n = Some (TLeaf c) -> turn_case live ns t key allocate res (LeafRead n) live ns (Found c).

Lemma turn_cases s res t r : tree_inv s -> find_turn 8 res t s = Some r ->
  exists sr live' ns' wr' pc', ts_threads s !! t = Some sr /\ r = Ret (step_to s t live' ns' wr' pc') /\
    turn_case (ts_live s) (ts_nodes s) t (sr_key sr) (sr_allocate sr) res (sr_pc sr) live' ns' pc'.
Proof.
  intros I E. unfold find_turn in E. destruct (ts_threads s !! t) as [[key al pc]|] eqn:Hsr; [|done]. cbn [sr_pc sr_key sr_allocate] in *.
  destruct (ti_threads _ I _ _ Hsr) as [Hk Hn]. cbn [sr_pc sr_key] in *. destruct (at_node pc) as [n|] eqn:Ea; [|done].
  destruct (Hn n eq_refl) as (nd & En & Hr & Hp). clear Hn. rewrite En in E. exists (mkSearcher key al pc). cbn [sr_pc sr_key sr_allocate].
  assert (Hgoal : forall live' ns' wr' pc', r = Ret (step_to s t live' ns' wr' pc') ->
    turn_case (ts_live s) (ts_nodes s) t key al res pc live' ns' pc' ->
    exists live' ns' wr' pc', Some (mkSearcher key al pc) = Some (mkSearcher key al pc) /\ r = Ret (step_to s t live' ns' wr' pc') /\
      turn_case (ts_live s) (ts_nodes s) t key al res pc live' ns' pc') by eauto 10.
  destruct nd as [d m cs|c].
  - destruct (tk_inner _ _ (ti_ok _ I) _ _ _ _ En) as [Hd Hl]. destruct (keyCalc_path key d Hk Hd) as (k & Ek & Hlt & _).
    rewrite Ek in E. unfold inner_turn in E. destruct (lookup_lt_is_Some_2 cs k ltac:(lia)) as [child Ec]. rewrite Ec in E.
    destruct pc; simpl in Ea, Hp; try done; injection Ea as ->.
    + destruct al; [destruct m; [done|]|destruct child]; injection E as <-; (eapply Hgoal; [reflexivity|]); econstructor; eauto.
    + destruct Hp as (d' & m' & cs' & k' & c & [= <- <- <-] & Ek' & Hc). assert (k' = k) as -> by congruence.
      rewrite Hc in Ec. injection Ec as <-. injection E as <-. eapply Hgoal; [reflexivity|]. econstructor; eauto.
    + destruct Hp as (d' & cs' & [= <- -> <-] & Hw). destruct child as [c|].
      * injection E as <-. eapply Hgoal; [reflexivity|]. econstructor; eauto.
      * destruct res as [b|]; [|injection E as <-; eapply Hgoal; [reflexivity|]; econstructor; eauto].
        case_decide; [done|]. injection E as <-. eapply Hgoal; [reflexivity|]. econstructor; [|done].
        destruct Hw as [Hw|HF]; [by rewrite Hw in En|]. destruct (Forall_lookup_1 _ _ _ _ HF Ec); done.
    + destruct Hp as (d' & [= <- -> ->] & Hi & _). injection E as <-. case_decide.
      * eapply Hgoal; [reflexivity|]. by econstructor.
      * assert (i = NODE_SIZE) as -> by lia. eapply Hgoal; [reflexivity|]. econstructor; [done|apply part_level_full].
    + destruct Hp as (d' & cs' & [= <- -> <-] & HF). destruct (Forall_lookup_1 _ _ _ _ HF Ec) as [c ->].
      injection E as <-. eapply Hgoal; [reflexivity|]. econstructor; eauto.
    + destruct Hp as (d' & cs' & [= <- -> <-] & Hw & Hc). injection E as <-. eapply Hgoal; [reflexivity|]. by econstructor.
    + by destruct Hp.
    + by destruct Hp.
    + by destruct Hp.
  - unfold leaf_turn in E. destruct pc; simpl in Ea, Hp; try done; injection Ea as ->; try naive_solver.
    + injection E as <-. eapply Hgoal; [reflexivity|]. by apply TC_leaf.
    + destruct res as [w|]; [case_decide; [done|]|]; injection E as <-; (eapply Hgoal; [reflexivity|]); by econstructor.
    + injection E as <-. eapply Hgoal; [reflexivity|]. by econstructor.
    + injection E as <-. eapply Hgoal; [reflexivity|]. by econstructor.
Qed.

(** A thread that changes its place at a node it has reached, or goes to a child of it. *)
Lemma thread_stays live ns t key al pc n nd : wf_key key -> ns !! n = Some nd -> reached ns key (depth_of nd) = Some n ->
  at_node pc = Some n -> pc_ok live ns t key pc nd -> thread_ok live ns t (mkSearcher key al pc).
Proof. intros Hk En Hr Ea Hp. split; [done|]. simpl. intros n' E. rewrite Ea in E. injection E as <-. eauto. Qed.

Lemma thread_goes live ns t key al n d m cs k c : tree_ok live ns -> wf_key key -> ns !! n = Some (TNode256 d m cs) ->
  reached ns key d = Some n -> keyCalc 8 key d = Some k -> cs !! k = Some (Some c) -> thread_ok live ns t (mkSearcher key al (AtNode c)).
Proof.
  intros Hok Hk En Hr Ek Hc. destruct (tk_child _ _ Hok _ _ _ _ _ _ En Hc) as (nd & Ec & Ed).
  destruct (tk_inner _ _ Hok _ _ _ _ En) as [Hd _]. apply (thread_stays _ _ _ _ _ _ c nd); try done.
  rewrite Ed. apply (reached_child ns key d k n); try done. by exists d, m, cs.
Qed.

Lemma thread_ends live ns t key al pc : wf_key key -> at_node pc = None -> thread_ok live ns t (mkSearcher key al pc).
Proof. intros Hk Ea. split; [done|]. simpl. intros n E. congruence. Qed.

(** Turns that take or give back the mutex of a node. *)
Lemma inv_mutex s t sr n d m m' cs wr' pc' : tree_inv s -> ts_threads s !! t = Some sr ->
  ts_nodes s !! n = Some (TNode256 d m cs) -> (m = None \/ m = Some t) -> whole cs ->
  ((m' = Some t /\ holds pc' = Some n) \/ m' = None) -> holds (sr_pc sr) = match m with Some _ => Some n | None => None end ->
  thread_ok (ts_live s) (<[n := TNode256 d m' cs]> (ts_nodes s)) t (mkSearcher (sr_key sr) (sr_allocate sr) pc') ->
  (forall n b i, pc' <> Filling n b i) ->
  tree_inv (step_to s t (ts_live s) (<[n := TNode256 d m' cs]> (ts_nodes s)) wr' pc').
Proof.
  intros I Hsr En Hm Hw Hm' Hh Ht Hf. destruct (tree_ok_insert _ _ n _ (TNode256 d m' cs) (ti_ok _ I) En) as [Hok G]; [done|].
  apply (inv_update s t sr); try done.
  - intros a d0 t' cs0 Hne E. rewrite lookup_insert_ne; [done|]. intros <-. rewrite En in E. destruct Hm as [-> | ->]; congruence.
  - intros b j E. left. destruct (decide (n = (b, j))) as [->|Hne]; [by rewrite En|by rewrite lookup_insert_ne in E].
  - intros a d0 m0 cs0 E. destruct (decide (n = a)) as [->|Hne].
    + rewrite lookup_insert_eq in E. injection E as -> -> ->. destruct Hm' as [[-> Hh'] | ->]; [by rewrite decide_True|done].
    + rewrite lookup_insert_ne in E by done. pose proof (ti_mutex _ I _ _ _ _ E) as Hx. destruct m0 as [t'|]; [|done].
      case_decide as Hd; [|done]. subst t'. destruct Hx as (sr' & E' & Hx). rewrite Hsr in E'. injection E' as <-.
      rewrite Hh in Hx. destruct m; congruence.
  - intros n' b i ->. by destruct (Hf n' b i).
Qed.

(** A turn that makes a child, and one that stores a wrapper. *)
Lemma inv_fill s t key al n d b i wr' : tree_inv s -> ts_threads s !! t = Some (mkSearcher key al (Filling n b i)) ->
  ts_nodes s !! n = Some (TNode256 d (Some t) (part_level b i)) -> (i < NODE_SIZE)%nat ->
  let ns' := filled (ts_nodes s) n d (Some t) (part_level b i) b i in
  tree_inv (step_to s t (ts_live s) ns' wr' (Filling n b (S i))) /\ grows (ts_nodes s) ns'.
Proof.
  intros I Hsr En Hi ns'. destruct (ti_threads _ I _ _ Hsr) as [Hk Hn]. destruct (Hn n eq_refl) as (nd & En' & Hr & Hp).
  cbn [sr_key sr_pc] in *. rewrite En in En'. injection En' as <-. destruct Hp as (d' & [= <-] & _ & Hb & Hfree).
  destruct (filled_ok _ _ n d (Some t) (part_level b i) b i (ti_ok _ I) En) as [Hok' G]; try done; [|by apply Hfree|].
  { unfold part_level. rewrite lookup_app_r, length_fmap, length_seq, Nat.sub_diag by (rewrite length_fmap, length_seq; lia).
    apply lookup_replicate. split; [done|lia]. }
  assert (Hni : forall j, (i <= j)%nat -> n <> (b, j)) by (intros j Hj ->; by rewrite Hfree in En).
  split; [|done]. apply (inv_update s t (mkSearcher key al (Filling n b i))); try done.
  - apply (thread_stays _ _ _ _ _ _ n (TNode256 d (Some t) (part_level b (S i)))); try done.
    + unfold ns', filled. rewrite lookup_insert_eq. by rewrite part_level_S.
    + by eapply walk_grows.
    + simpl. exists d. split; [done|]. split; [lia|]. split; [done|]. intros j Hj. unfold ns', filled.
      rewrite lookup_insert_ne by (apply Hni; lia). rewrite lookup_insert_ne by (intros [=]; lia). apply Hfree. lia.
  - intros a d0 t' cs0 Hne E. unfold ns', filled. rewrite lookup_insert_ne, lookup_insert_ne; [done|..].
    + intros <-. by rewrite Hfree in E by lia.
    + intros <-. rewrite En in E. congruence.
  - intros b' j E. destruct (decide (b' = b)) as [->|Hne]; [by right; eexists _, _|left]. unfold ns', filled in E.
    destruct (decide (n = (b', j))) as [->|Hne']; [by rewrite En|]. rewrite lookup_insert_ne, lookup_insert_ne in E by congruence. done.
  - intros a d0 m0 cs0 E. apply filled_lookup in E as [(-> & [= -> -> ->])|[(-> & E)|(Hna & _ & E)]]; [| | |by rewrite En|by apply Hfree].
    + by rewrite decide_True.
    + symmetry in E. apply new_node_inner in E as (-> & -> & -> & _). by left.
    + pose proof (ti_mutex _ I _ _ _ _ E) as Hx. destruct m0 as [t'|]; [|done]. case_decide as Hd; [|done]. subst t'.
      destruct Hx as (sr' & E' & Hx). rewrite Hsr in E'. injection E' as <-. simpl in *. congruence.
  - intros ? ? ? [= _ <- _]. left. by eexists _, _.
Qed.

Lemma inv_store s t key al n w c wr' : tree_inv s -> ts_threads s !! t = Some (mkSearcher key al (StoreW n w)) ->
  ts_nodes s !! n = Some (TLeaf c) ->
  let ns' := <[n := TLeaf (Some w)]> (ts_nodes s) in
  tree_inv (step_to s t (ts_live s) ns' wr' (LeafRead n)) /\ grows (ts_nodes s) ns'.
Proof.
  intros I Hsr En ns'. destruct (ti_threads _ I _ _ Hsr) as [Hk Hn]. destruct (Hn n eq_refl) as (nd & En' & Hr & _).
  cbn [sr_key sr_pc] in *. rewrite En in En'. injection En' as <-.
  destruct (tree_ok_insert _ _ n _ (TLeaf (Some w)) (ti_ok _ I) En) as [Hok' G]; [done|]. split; [|done].
  apply (inv_update s t (mkSearcher key al (StoreW n w))); try done.
  - apply (thread_stays _ _ _ _ _ _ n (TLeaf (Some w))); try done; [by unfold ns'; rewrite lookup_insert_eq|by eapply walk_grows|simpl; eauto].
  - intros a d0 t' cs0 Hne E. unfold ns'. rewrite lookup_insert_ne; [done|]. intros <-. congruence.
  - intros b j E. left. destruct (decide (n = (b, j))) as [->|Hne]; [by rewrite En|by unfold ns' in E; rewrite lookup_insert_ne in E].
  - intros a d0 m0 cs0 E. unfold ns' in E. destruct (decide (n = a)) as [->|Hne]; [by rewrite lookup_insert_eq in E|].
    rewrite lookup_insert_ne in E by done. pose proof (ti_mutex _ I _ _ _ _ E) as Hx. destruct m0 as [t'|]; [|done].
    case_decide as Hd; [|done]. subst t'. destruct Hx as (sr' & E' & Hx). rewrite Hsr in E'. by injection E' as <-.
Qed.

Lemma step_inv s res t sr live' ns' wr' pc' : tree_inv s -> ts_threads s !! t = Some sr ->
  turn_case (ts_live s) (ts_nodes s) t (sr_key sr) (sr_allocate sr) res (sr_pc sr) live' ns' pc' ->
  tree_inv (step_to s t live' ns' wr' pc') /\ grows (ts_nodes s) ns'.
Proof.
  intros I Hsr HT. pose proof (ti_threads _ I _ _ Hsr) as [Hk Hn]. pose proof (ti_ok _ I) as Hok.
  destruct sr as [key al pc]. cbn [sr_key sr_allocate sr_pc] in *.
  assert (Hreach : forall n nd, at_node pc = Some n -> ts_nodes s !! n = Some nd -> reached (ts_nodes s) key (depth_of nd) = Some n).
  { intros n nd Ea En. destruct (Hn n Ea) as (nd' & En' & Hr & _). congruence. }
  assert (Hpc : forall live' pc', ts_live s ⊆ live' -> thread_ok live' (ts_nodes s) t (mkSearcher key al pc') -> holds pc' = holds pc ->
    (forall n b i, pc' = Filling n b i -> b ∉ ts_live s) -> tree_inv (step_to s t live' (ts_nodes s) wr' pc') /\ grows (ts_nodes s) (ts_nodes s)).
  { intros live1 pc1 Hl Ht Hh Hf. split; [|done]. eapply inv_pc; try done. intros n b i E. right. eauto. }
  destruct HT as [n d cs En Hal|n d m cs k c En Ek Hc Hal|n d m cs En Hal|n d m cs k c En Ek Hc|n d cs k c En Hw Ek Hc|n d cs En Hw Hres
    |n d b En Hb|n d b i En Hi|n d b cs En HF|n d cs k c En HF Ek Hc|n d cs next En Hw Hx|n c En|n c En Hres|n c w En Hw|n c w En|n c En];
    pose proof (Hreach n _ eq_refl En) as Hr; cbn [depth_of] in Hr.
  - (* lock *) destruct (tree_ok_insert _ _ n _ (TNode256 d (Some t) cs) Hok En) as [_ G]; [done|]. split; [|done].
    pose proof (ti_mutex _ I _ _ _ _ En) as Hw. apply (inv_mutex s t _ n d None (Some t) cs wr' (Locked n) I Hsr); try done; [by left|by left|].
    apply (thread_stays _ _ _ _ _ _ n (TNode256 d (Some t) cs)); try done; [by rewrite lookup_insert_eq|by eapply walk_grows|].
    simpl. eauto.
  - apply Hpc; try done. apply (thread_stays _ _ _ _ _ _ n _ Hk En); try done. simpl. eauto 10.
  - by apply Hpc.
  - apply Hpc; try done. by eapply thread_goes.
  - apply Hpc; try done. apply (thread_stays _ _ _ _ _ _ n _ Hk En); try done. simpl. exists d, cs. split_and!; try done.
    intros c' [= <-]. eauto.
  - apply Hpc; try done. apply (thread_stays _ _ _ _ _ _ n _ Hk En); try done. simpl. by exists d, cs.
  - (* reserve *) apply Hpc; try done; [set_solver| |by intros ? ? ? [= _ <- _]].
    apply (thread_stays _ _ _ _ _ _ n _ Hk En); try done. simpl. exists d. split; [done|]. split; [lia|]. split; [set_solver|].
    intros j _. destruct (ts_nodes s !! (b, j)) as [x|] eqn:Ej; [|done]. destruct Hb. exact (tk_live _ _ Hok _ _ Ej).
  - (* fill *) by apply (inv_fill s t key al n d b i wr').
  - apply Hpc; try done. apply (thread_stays _ _ _ _ _ _ n _ Hk En); try done. simpl. eauto.
  - apply Hpc; try done. apply (thread_stays _ _ _ _ _ _ n _ Hk En); try done. simpl. exists d, cs. split; [done|]. split; [by right|].
    intros c' [= <-]. eauto.
  - (* leave *) destruct (tree_ok_insert _ _ n _ (TNode256 d None cs) Hok En) as [Hok' G]; [done|]. split; [|done].
    apply (inv_mutex s t _ n d (Some t) None cs wr' _ I Hsr); try done; [by right|by right| |by destruct next].
    destruct next as [c|]; [|by apply thread_ends]. destruct (Hx c eq_refl) as (k & Ek & Hc).
    apply (thread_goes _ _ _ _ _ n d None cs k c); try done; [by rewrite lookup_insert_eq|by eapply walk_grows].
  - apply Hpc; try done; [|by destruct c, al..]. destruct c as [w|], al; (apply (thread_stays _ _ _ _ _ _ n _ Hk En); try done; simpl; eauto).
  - by apply Hpc.
  - apply Hpc; [set_solver|..|done|done]. apply (thread_stays _ _ _ _ _ _ n _ Hk En); try done. simpl; eauto.
  - (* store *) by apply (inv_store s t key al n w c wr').
  - by apply Hpc.
Qed.

(** ** Termination *)

(** How many turns a thread has left at most. *)
Definition turns_left (ns : gmap addr tnode) (sr : Searcher) : nat :=
  match at_node (sr_pc sr) with
  | None => 0
  | Some n =>
      match ns !! n with
      | None => 0
      | Some nd =>
          let below := ((8 - depth_of nd) * 300)%nat in
          match sr_pc sr with
          | AtNode _ => below + 5
          | Follow _ | Locked _ => below + 4
          | Filling _ _ i => below + 3 - i
          | Filled _ => below - 260
          | Leave _ _ => below - 270
          | ReserveW _ => 4
          | StoreW _ _ => 3
          | LeafRead _ => 2
          | Found _ | Thrown => 0
          end
      end
  end.

Definition all_left (s : TreeState) : nat := sum_list_with (turns_left (ts_nodes s)) (ts_threads s).

Lemma turns_left_grows live ns ns' t sr : thread_ok live ns t sr -> grows ns ns' -> turns_left ns' sr = turns_left ns sr.
Proof.
  intros [_ Hn] G. unfold turns_left. destruct (at_node (sr_pc sr)) as [n|]; [|done]. destruct (Hn n eq_refl) as (nd & E & _ & _).
  destruct (G _ _ E) as (nd' & E' & K). rewrite E, E'. destruct nd, nd'; try done. by destruct K as [-> _].
Qed.

Lemma turn_shorter s res t sr live' ns' pc' : tree_inv s -> ts_threads s !! t = Some sr ->
  turn_case (ts_live s) (ts_nodes s) t (sr_key sr) (sr_allocate sr) res (sr_pc sr) live' ns' pc' ->
  (turns_left ns' (mkSearcher (sr_key sr) (sr_allocate sr) pc') < turns_left (ts_nodes s) sr)%nat.
Proof.
  intros I Hsr HT. pose proof (ti_ok _ I) as Hok. pose proof (ti_threads _ I _ _ Hsr) as [_ Hn].
  destruct sr as [key al pc]. cbn [sr_key sr_allocate sr_pc] in *.
  assert (Hgo : forall n d m cs k c, ts_nodes s !! n = Some (TNode256 d m cs) -> cs !! k = Some (Some c) -> (d < 8)%nat /\
    exists nd, ts_nodes s !! c = Some nd /\ depth_of nd = S d).
  { intros n d m cs k c En Hc. destruct (tk_inner _ _ Hok _ _ _ _ En). split; [done|]. by eapply (tk_child _ _ Hok). }
  assert (Hd : forall n d m cs, ts_nodes s !! n = Some (TNode256 d m cs) -> (d < 8)%nat) by (intros; by eapply (tk_inner _ _ Hok)).
  destruct HT as [n d cs En Hal|n d m cs k c En Ek Hc Hal|n d m cs En Hal|n d m cs k c En Ek Hc|n d cs k c En Hw Ek Hc|n d cs En Hw Hres
    |n d b En Hb|n d b i En Hi|n d b cs En HF|n d cs k c En HF Ek Hc|n d cs next En Hw Hx|n c En|n c En Hres|n c w En Hw|n c w En|n c En];
    unfold turns_left; cbn [sr_pc at_node]; rewrite ?lookup_insert_eq, ?En; cbn [depth_of]; try (pose proof (Hd _ _ _ _ En)); try lia.
  - destruct (Hgo _ _ _ _ _ _ En Hc) as (_ & nd & -> & ->). lia.
  - unfold filled. rewrite lookup_insert_eq. cbn [depth_of]. unfold NODE_SIZE in Hi. lia.
  - unfold NODE_SIZE. lia.
  - destruct next as [c|]; cbn [at_node]; [|lia]. destruct (Hx c eq_refl) as (k & Ek & Hc).
    destruct (Hgo _ _ _ _ _ _ En Hc) as (_ & nd & Ec & Ed).
    assert (c <> n) by (intros ->; rewrite En in Ec; injection Ec as <-; simpl in Ed; lia).
    rewrite lookup_insert_ne, Ec, Ed by done. lia.
  - destruct c as [w|], al; cbn [at_node]; rewrite En; cbn [depth_of]; lia.
Qed.

Lemma sum_alter {A} (f f' : A -> nat) (g : A -> A) (l : list A) : forall t x, l !! t = Some x ->
  (forall t' y, t' <> t -> l !! t' = Some y -> f' y = f y) -> (f' (g x) < f x)%nat ->
  (sum_list_with f' (alter g t l) < sum_list_with f l)%nat.
Proof.
  assert (Hsame : forall l : list A, (forall i y, l !! i = Some y -> f' y = f y) -> sum_list_with f' l = sum_list_with f l).
  { clear. induction l as [|y l IH]; intros Hs; [done|]. simpl. rewrite (Hs 0%nat y), IH; [done| |done].
    intros i z Hz. exact (Hs (S i) z Hz). }
  induction l as [|y l IH]; intros [|t] x E Ho Hx; try done; simpl in *.
  - injection E as ->. rewrite (Hsame l); [lia|]. intros i z Hz. exact (Ho (S i) z ltac:(lia) Hz).
  - rewrite (Ho 0%nat y) by done. specialize (IH t x E). unfold alter in IH. simpl in IH.
    assert (forall t' z, t' <> t -> l !! t' = Some z -> f' z = f z) by (intros t' z Hne Hz; apply (Ho (S t') z); [lia|done]).
    specialize (IH ltac:(done) Hx). unfold alter. lia.
Qed.

(** What a search is about does not change. *)
Definition same_search (s s' : TreeState) : Prop :=
  (fun sr => (sr_key sr, sr_allocate sr)) <$> ts_threads s' = (fun sr => (sr_key sr, sr_allocate sr)) <$> ts_threads s.

Lemma step_same s t live' ns' wr' pc' : same_search s (step_to s t live' ns' wr' pc').
Proof. unfold same_search. simpl. apply list_eq. intros i. rewrite !list_lookup_fmap. destruct (decide (i = t)) as [->|Hne].
  - rewrite list_lookup_alter_eq. by destruct (ts_threads s !! t).
  - by rewrite list_lookup_alter_ne.
Qed.

Lemma search_turn_inv s res t r : tree_inv s -> find_turn 8 res t s = Some r ->
  exists s', r = Ret s' /\ tree_inv s' /\ grows (ts_nodes s) (ts_nodes s') /\ same_search s s' /\ (all_left s' < all_left s)%nat.
Proof.
  intros I E. destruct (turn_cases s res t r I E) as (sr & live' & ns' & wr' & pc' & Hsr & -> & HT).
  destruct (step_inv s res t sr live' ns' wr' pc' I Hsr HT) as [I' G]. eexists. split; [reflexivity|]. split_and!; try done; [apply step_same|].
  unfold all_left. apply (sum_alter _ _ _ _ t sr Hsr); [|by eapply turn_shorter].
  intros t' sr' _ E'. eapply turns_left_grows; [|done]. by apply (ti_threads _ I).
Qed.

Lemma run_inv bs : forall s r, tree_inv s -> find_run 8 bs s = Some r ->
  exists s', r = Ret s' /\ tree_inv s' /\ grows (ts_nodes s) (ts_nodes s') /\ same_search s s' /\ (length bs + all_left s' <= all_left s)%nat.
Proof.
  induction bs as [|[res t] bs IH]; intros s r I E; simpl in E; [injection E as <-; by exists s|].
  destruct (find_turn 8 res t s) as [r1|] eqn:E1; [|by destruct bs].
  destruct (search_turn_inv s res t r1 I E1) as (s1 & -> & I1 & G1 & S1 & L1). destruct (IH s1 r I1 E) as (s' & -> & I' & G' & S' & L').
  exists s'. split_and!; try done; [by etrans|unfold same_search in *; congruence|simpl; lia].
Qed.

(** What [pmemobj_xreserve] can answer. *)
Definition can_answer (res : option positive) (s : TreeState) : Prop := match res with Some b => b ∉ ts_live s | None => True end.

Lemma can_turn s res t sr n : tree_inv s -> ts_threads s !! t = Some sr -> at_node (sr_pc sr) = Some n ->
  (forall d t' cs, sr_pc sr = AtNode n -> ts_nodes s !! n <> Some (TNode256 d (Some t') cs)) -> can_answer res s ->
  find_turn 8 res t s <> None.
Proof.
  intros I Hsr Ea Hfree Hres. unfold find_turn. rewrite Hsr, Ea. destruct (ts_nodes s !! n) as [[d m cs|c]|] eqn:En; [|..|done].
  - destruct (keyCalc 8 (sr_key sr) d) as [k|]; [|done]. unfold inner_turn. destruct (cs !! k) as [child|]; [|done].
    destruct (sr_pc sr); simpl in *; try done; simplify_eq.
    + destruct (sr_allocate sr); [|done]. destruct m as [t'|]; [|done]. by destruct (Hfree d t' cs eq_refl).
    + destruct child, res; simpl in *; try done. by rewrite decide_False.
  - unfold leaf_turn. destruct (sr_pc sr); simpl in *; try done. destruct res; simpl in *; [|done]. by rewrite decide_False.
Qed.

Lemma no_deadlock s t sr : tree_inv s -> ts_threads s !! t = Some sr -> at_node (sr_pc sr) <> None ->
  exists t', forall res, can_answer res s -> find_turn 8 res t' s <> None.
Proof.
  intros I Hsr Ha. destruct (at_node (sr_pc sr)) as [n|] eqn:Ea; [|done].
  assert (Hhold : forall t' d cs, ts_nodes s !! n = Some (TNode256 d (Some t') cs) -> forall res, can_answer res s -> find_turn 8 res t' s <> None).
  { intros t' d cs En res Hres. destruct (ti_mutex _ I _ _ _ _ En) as (sr' & E' & Hh).
    apply (can_turn s res t' sr' n I E'); [by destruct (sr_pc sr')|by intros ? ? ? E; rewrite E in Hh|done]. }
  destruct (ts_nodes s !! n) as [[d [t'|] cs|c]|] eqn:En; [exists t'; by eapply Hhold|exists t..]; intros res Hres;
    (apply (can_turn s res t sr n I Hsr Ea); [|done]); intros; congruence.
Qed.

(** A tree that nobody works on, with threads that begin. *)
Definition tree_start (s : TreeState) : Prop :=
  tree_ok (ts_live s) (ts_nodes s) /\
  (forall a d m cs, ts_nodes s !! a = Some (TNode256 d m cs) -> m = None /\ whole cs) /\
  Forall (fun sr => wf_key (sr_key sr) /\ sr_pc sr = AtNode root) (ts_threads s).

Lemma start_inv s : tree_start s -> tree_inv s.
Proof.
  intros (Hok & Hm & Ht). rewrite Forall_lookup in Ht. split.
  - done.
  - intros t sr E. destruct (Ht t sr E) as [Hk Hpc]. split; [done|]. intros n Ea. rewrite Hpc in *. injection Ea as <-.
    destruct (tk_root _ _ Hok) as (m & cs & Er). eexists. split; [done|]. done.
  - intros a d m cs E. by destruct (Hm _ _ _ _ E) as [-> Hw].
  - intros t t' sr sr' n n' b i i' E _ Epc. destruct (Ht t sr E) as [_ Hpc]. congruence.
Qed.

(** A bound of the turns of a thread: 300 for a level and 5 for the leaf. *)
Definition max_turns : nat := 8 * 300 + 5.

Lemma turns_left_bound ns sr : (turns_left ns sr <= max_turns)%nat.
Proof. unfold turns_left, max_turns. repeat case_match; lia. Qed.

Lemma all_left_bound s : (all_left s <= max_turns * length (ts_threads s))%nat.
Proof.
  unfold all_left. induction (ts_threads s) as [|sr l IH]; cbn [sum_list_with length]; [lia|].
  pose proof (turns_left_bound (ts_nodes s) sr). rewrite Nat.mul_succ_r. lia.
Qed.

(** C7. Searches of one tree by any number of threads end.  In every interleaving no turn
    is undefined, no run has more than [max_turns] turns for each thread, and as long as a search
    has not ended some thread can take a turn, whatever the pool answers: the mutexes of
    the nodes never block all threads. *)
Theorem tree_searches_end s bs r : tree_start s -> find_run 8 bs s = Some r ->
  exists s', r = Ret s' /\ (length bs <= max_turns * length (ts_threads s))%nat /\
    (forall t sr, ts_threads s' !! t = Some sr -> at_node (sr_pc sr) <> None ->
       exists t', forall res, can_answer res s' -> find_turn 8 res t' s' <> None).
Proof.
  intros Hs E. destruct (run_inv bs s r (start_inv s Hs) E) as (s' & -> & I' & _ & _ & Hl). exists s'. split; [done|]. split.
  - pose proof (all_left_bound s). lia.
  - intros t sr Ht Ha. by eapply no_deadlock.
Qed.

(** ** What the searches find *)

(** The nodes as a tree of [ARTree]. *)
Fixpoint node_of (fuel : nat) (ns : gmap addr tnode) (a : addr) : Node :=
  match ns !! a with
  | Some (TNode256 d _ cs) =>
      Node256 (Z.of_nat d)
        (match fuel with
         | S fuel => (fun o => match o with Some c => Some (node_of fuel ns c) | None => None end) <$> cs
         | O => []
         end)
  | Some (TLeaf c) => NodeLeafCompressed (LEVELS - 1) c
  | None => NodeLeafCompressed (LEVELS - 1) None
  end.
Definition tree_of (s : TreeState) : Node := node_of 8 (ts_nodes s) root.

Definition leaf_at (ns : gmap addr tnode) (key : list Z) : option positive :=
  match walk ns (path_of 8 key) root with
  | Some n => match ns !! n with Some (TLeaf c) => c | _ => None end
  | None => None
  end.

Lemma node_of_path ns p : forall a,
  child_at p (node_of (length p) ns a) =
  match walk ns p a with Some n => match ns !! n with Some (TLeaf c) => c | _ => None end | None => None end.
Proof.
  induction p as [|i p IH]; intros a; simpl.
  - by destruct (ns !! a) as [[]|].
  - destruct (ns !! a) as [[d m cs|c]|]; [|done..]. simpl. rewrite list_lookup_fmap. destruct (cs !! i) as [[c|]|]; simpl; [|done..].
    apply IH.
Qed.

Lemma tree_of_leaf s key : leaf_of (tree_of s) key = leaf_at (ts_nodes s) key.
Proof. unfold leaf_of, tree_of. rewrite <- (path_of_length 8 key) at 2. apply node_of_path. Qed.

Lemma node_of_wf live ns : tree_ok live ns -> (forall a d m cs, ns !! a = Some (TNode256 d m cs) -> whole cs) ->
  forall h a nd, ns !! a = Some nd -> (depth_of nd + h = 8)%nat -> wf_node h (node_of h ns a).
Proof.
  intros Hok Hw. induction h as [|h IH]; intros a nd E Hd; simpl; rewrite E.
  - destruct nd as [d m cs|c]; [|done]. pose proof (proj1 (tk_inner _ _ Hok _ _ _ _ E)). simpl in Hd. lia.
  - destruct nd as [d m cs|c]; simpl in Hd; [|lia]. destruct (tk_inner _ _ Hok _ _ _ _ E) as [_ Hl].
    split_and!; [unfold LEVELS; lia|by rewrite length_fmap| |].
    + destruct (Hw _ _ _ _ E) as [->|HF]; [left; by rewrite fmap_replicate|right].
      apply Forall_fmap. eapply Forall_impl; [exact HF|]. intros o [c ->]. simpl. eauto.
    + apply Forall_fmap, Forall_lookup. intros i [c|] Hi; simpl; [|done].
      destruct (tk_child _ _ Hok _ _ _ _ _ _ E Hi) as (n & Ec & Ed). apply (IH c n Ec). lia.
Qed.

(** Two paths of one length do not meet. *)
Lemma walk_inj live ns : tree_ok live ns -> forall p q a n, length p = length q -> walk ns p a = Some n -> walk ns q a = Some n -> p = q.
Proof.
  intros Hok p. induction p as [|i p IH] using rev_ind; intros q a n Hl Ep Eq.
  - by destruct q.
  - destruct q as [|j q] using rev_ind; [rewrite length_app in Hl; simpl in Hl; lia|]. clear IHq. rewrite !length_app in Hl. simpl in Hl.
    rewrite walk_app in Ep, Eq. destruct (walk ns p a) as [x|] eqn:Ex; [|done]. destruct (walk ns q a) as [y|] eqn:Ey; [|done].
    apply walk_child in Ep, Eq. destruct (tk_inj _ _ Hok _ _ _ _ _ Ep Eq) as [-> ->]. f_equal. apply (IH q a y); [lia|done|done].
Qed.

(** Where a thread is about to give or has given an answer, it is right. *)
Definition found_ok (ns : gmap addr tnode) (sr : Searcher) : Prop :=
  match sr_pc sr with
  | ReserveW n | StoreW n _ => sr_allocate sr = true /\ ns !! n = Some (TLeaf None)
  | LeafRead n => sr_allocate sr = true -> exists w, ns !! n = Some (TLeaf (Some w))
  | Found (Some w) => leaf_at ns (sr_key sr) = Some w
  | Found None => sr_allocate sr = false
  | _ => True
  end.

Definition all_found (s : TreeState) : Prop := forall t sr, ts_threads s !! t = Some sr -> found_ok (ts_nodes s) sr.

(** No two threads allocate the same key. *)
Definition distinct_keys (s : TreeState) : Prop :=
  forall t t' sr sr', ts_threads s !! t = Some sr -> ts_threads s !! t' = Some sr' -> sr_allocate sr = true -> sr_allocate sr' = true ->
    sr_key sr = sr_key sr' -> t = t'.

Lemma same_search_lookup s s' t sr' : same_search s s' -> ts_threads s' !! t = Some sr' ->
  exists sr, ts_threads s !! t = Some sr /\ sr_key sr = sr_key sr' /\ sr_allocate sr = sr_allocate sr'.
Proof.
  intros Hs E. assert (El : ((fun sr => (sr_key sr, sr_allocate sr)) <$> ts_threads s) !! t = Some (sr_key sr', sr_allocate sr')).
  { rewrite <- Hs, list_lookup_fmap, E. done. }
  rewrite list_lookup_fmap in El. destruct (ts_threads s !! t) as [sr|]; [|done]. exists sr. by injection El as -> ->.
Qed.

Lemma distinct_same s s' : same_search s s' -> distinct_keys s -> distinct_keys s'.
Proof.
  intros Hs Hd t t' sr1 sr2 E1 E2 A1 A2 Ek.
  destruct (same_search_lookup s s' t sr1 Hs E1) as (x & Ex & Kx & Ax). destruct (same_search_lookup s s' t' sr2 Hs E2) as (y & Ey & Ky & Ay).
  apply (Hd t t' x y); congruence.
Qed.

Lemma reached_leaf ns key n c : reached ns key 8 = Some n -> ns !! n = Some (TLeaf c) -> leaf_at ns key = c.
Proof. unfold reached, leaf_at. rewrite take_ge by (by rewrite path_of_length). intros -> ->. done. Qed.

(** Two threads at one leaf have one key. *)
Lemma leaf_one_key s t t' sr sr' n c : tree_inv s -> ts_threads s !! t = Some sr -> ts_threads s !! t' = Some sr' ->
  at_node (sr_pc sr) = Some n -> at_node (sr_pc sr') = Some n -> ts_nodes s !! n = Some (TLeaf c) -> sr_key sr = sr_key sr'.
Proof.
  intros I E E' Ea Ea' En. destruct (ti_threads _ I _ _ E) as [Hk Hn], (ti_threads _ I _ _ E') as [Hk' Hn'].
  destruct (Hn n Ea) as (nd & En1 & Hr & _), (Hn' n Ea') as (nd' & En2 & Hr' & _). rewrite En in En1, En2. simplify_eq. simpl in *.
  apply path_of_inj; [done..|]. unfold reached in *. rewrite take_ge in Hr, Hr' by (by rewrite path_of_length).
  apply (walk_inj _ _ (ti_ok _ I) _ _ root n); [by rewrite !path_of_length|done|done].
Qed.

(** Turns change a leaf only when a wrapper is stored. *)
Lemma turn_leaf s res t sr live' ns' pc' n c : tree_inv s -> ts_threads s !! t = Some sr ->
  turn_case (ts_live s) (ts_nodes s) t (sr_key sr) (sr_allocate sr) res (sr_pc sr) live' ns' pc' ->
  ts_nodes s !! n = Some (TLeaf c) -> ns' !! n = Some (TLeaf c) \/ exists w, sr_pc sr = StoreW n w.
Proof.
  intros I Hsr HT En. destruct sr as [key al pc]. cbn [sr_key sr_allocate sr_pc] in *.
  destruct HT as [n' d cs En' _|n' d m cs k x En' _ _ _|n' d m cs En' _|n' d m cs k x En' _ _|n' d cs k x En' _ _ _|n' d cs En' _ _
    |n' d b En' _|n' d b i En' Hi|n' d b cs En' _|n' d cs k x En' _ _ _|n' d cs next En' _ _|n' x En'|n' x En' _|n' x w En' _|n' x w En'|n' x En'];
    try (by left).
  - left. rewrite lookup_insert_ne; [done|]. intros ->. congruence.
  - left. unfold filled. rewrite lookup_insert_ne by (intros ->; congruence). rewrite lookup_insert_ne; [done|]. intros <-.
    destruct (ti_threads _ I _ _ Hsr) as [_ Hn]. destruct (Hn n' eq_refl) as (nd & _ & _ & Hp). destruct Hp as (? & _ & _ & _ & Hf).
    simpl in *. rewrite Hf in En by lia. done.
  - left. rewrite lookup_insert_ne; [done|]. intros ->. congruence.
  - destruct (decide (n' = n)) as [->|Hne]; [right; by exists w|left; by rewrite lookup_insert_ne].
Qed.

Lemma turn_found s res t sr live' ns' wr' pc' : tree_inv s -> distinct_keys s -> all_found s -> ts_threads s !! t = Some sr ->
  turn_case (ts_live s) (ts_nodes s) t (sr_key sr) (sr_allocate sr) res (sr_pc sr) live' ns' pc' ->
  all_found (step_to s t live' ns' wr' pc').
Proof.
  intros I Hd Hf Hsr HT. destruct (step_inv s res t sr live' ns' wr' pc' I Hsr HT) as [I' G].
  pose proof (Hf t sr Hsr) as Hft.
  (* a wrapper in a leaf stays *)
  assert (Hkeep : forall n w, ts_nodes s !! n = Some (TLeaf (Some w)) -> ns' !! n = Some (TLeaf (Some w))).
  { intros n w En. destruct (turn_leaf s res t sr live' ns' pc' n _ I Hsr HT En) as [?|(w' & Epc)]; [done|].
    unfold found_ok in Hft. rewrite Epc in Hft. destruct Hft as [_ Hft]. congruence. }
  assert (Hleaf : forall key w, leaf_at (ts_nodes s) key = Some w -> leaf_at ns' key = Some w).
  { intros key w. unfold leaf_at. destruct (walk (ts_nodes s) _ root) as [n|] eqn:Ew; [|done].
    rewrite (walk_grows _ _ _ G _ _ Ew). destruct (ts_nodes s !! n) as [[|c]|] eqn:En; try done. intros ->. by rewrite (Hkeep n w). }
  intros t' sr' [(-> & sr0 & E & ->)|(Hne & E)]%set_pc_lookup; cbn [ts_nodes step_to set_pc ts_threads] in *.
  - rewrite Hsr in E. injection E as <-. pose proof (ti_threads _ I _ _ Hsr) as [_ Hn].
    destruct sr as [key al pc]. cbn [sr_key sr_allocate sr_pc] in *. unfold found_ok in *. cbn [sr_key sr_allocate sr_pc] in *.
    destruct HT; try done; cbn [sr_pc] in *; eauto.
    + by destruct next.
    + destruct c as [w|], al; naive_solver.
    + intros _. exists w. by rewrite lookup_insert_eq.
    + destruct (Hn n eq_refl) as (nd & En & Hr & _). rewrite H in En. injection En as <-.
      destruct c as [w|]; [exact (reached_leaf _ _ _ _ Hr H)|]. destruct al; [|done]. destruct (Hft eq_refl) as (w & Ew). congruence.
  - pose proof (Hf t' sr' E) as Hft'. unfold found_ok in *. destruct (sr_pc sr') as [| | | | | |n|n w|n|[w|]|] eqn:Epc'; try done; eauto.
    + destruct Hft' as [Ha En]. split; [done|]. destruct (turn_leaf s res t sr live' ns' pc' n _ I Hsr HT En) as [?|(w' & Epc)]; [done|].
      exfalso. rewrite Epc in Hft. apply Hne. apply (Hd t' t sr' sr E Hsr Ha (proj1 Hft)).
      apply (leaf_one_key s t' t sr' sr n None I E Hsr); [by rewrite Epc'|by rewrite Epc|done].
    + destruct Hft' as [Ha En]. split; [done|]. destruct (turn_leaf s res t sr live' ns' pc' n _ I Hsr HT En) as [?|(w' & Epc)]; [done|].
      exfalso. rewrite Epc in Hft. apply Hne. apply (Hd t' t sr' sr E Hsr Ha (proj1 Hft)).
      apply (leaf_one_key s t' t sr' sr n None I E Hsr); [by rewrite Epc'|by rewrite Epc|done].
    + intros Ha. destruct (Hft' Ha) as (w & Ew). eauto.
Qed.

(** What a turn adds to the tree is new and empty. *)
Lemma turn_new s res t sr live' ns' pc' : tree_inv s -> ts_threads s !! t = Some sr ->
  turn_case (ts_live s) (ts_nodes s) t (sr_key sr) (sr_allocate sr) res (sr_pc sr) live' ns' pc' ->
  (forall a i c, child_of ns' a i c -> ts_nodes s !! a <> None /\ (child_of (ts_nodes s) a i c \/ ts_nodes s !! c = None)) /\
  (forall a c, ts_nodes s !! a = None -> ns' !! a = Some (TLeaf c) -> c = None).
Proof.
  intros I Hsr HT. destruct sr as [key al pc]. cbn [sr_key sr_allocate sr_pc] in *.
  assert (Hid : (forall a i c, child_of (ts_nodes s) a i c -> ts_nodes s !! a <> None /\ (child_of (ts_nodes s) a i c \/ ts_nodes s !! c = None)) /\
    (forall a c, ts_nodes s !! a = None -> ts_nodes s !! a = Some (TLeaf c) -> c = None)).
  { split; [|congruence]. intros a i c Hc. split; [|by left]. destruct Hc as (d & m & cs & -> & _). done. }
  assert (Hins : forall n nd nd', ts_nodes s !! n = Some nd ->
    match nd, nd' with TNode256 _ _ cs, TNode256 _ _ cs' => cs' = cs | TLeaf _, TLeaf _ => True | _, _ => False end ->
    (forall a i c, child_of (<[n := nd']> (ts_nodes s)) a i c -> ts_nodes s !! a <> None /\ (child_of (ts_nodes s) a i c \/ ts_nodes s !! c = None)) /\
    (forall a c, ts_nodes s !! a = None -> <[n := nd']> (ts_nodes s) !! a = Some (TLeaf c) -> c = None)).
  { intros n nd nd' En K. split.
    - intros a i c (d & m & cs & Ea & Hi). destruct (decide (n = a)) as [->|Hne].
      + rewrite lookup_insert_eq in Ea. injection Ea as ->. destruct nd as [d' m' cs'|]; [|done]. subst cs. split; [by rewrite En|].
        left. by exists d', m', cs'.
      + rewrite lookup_insert_ne in Ea by done. split; [by rewrite Ea|]. left. by exists d, m, cs.
    - intros a c Ea Ea'. rewrite lookup_insert_ne in Ea'; congruence. }
  destruct HT as [n d cs En _| | | | | | |n d b i En Hi| | |n d cs next En _ _| | | |n c w En|]; try exact Hid;
    try (by apply (Hins n _ _ En)).
  destruct (ti_threads _ I _ _ Hsr) as [_ Hn]. destruct (Hn n eq_refl) as (nd & _ & _ & Hp). destruct Hp as (? & _ & _ & _ & Hf).
  cbn [sr_pc] in *. split.
  - intros a k c Hc. pose proof Hc as Hc'. apply filled_child in Hc as [Hc|(-> & -> & ->)]; [| |done|by apply Hf].
    + by apply (proj1 Hid).
    + split; [by rewrite En|]. right. by apply Hf.
  - intros a c Ea E. apply filled_lookup in E as [(-> & E)|[(-> & E)|(_ & _ & E)]]; [done| |congruence|by rewrite En|by apply Hf].
    unfold new_node in E. destruct (is_TYPE256 _); [done|congruence].
Qed.

Lemma walk_exists live ns p n : tree_ok live ns -> walk ns p root = Some n -> exists nd, ns !! n = Some nd.
Proof.
  intros Hok. destruct p as [|i p] using rev_ind; [intros [= <-]; destruct (tk_root _ _ Hok) as (m & cs & E); eauto|].
  rewrite walk_app. destruct (walk ns p root) as [a|]; [|done]. intros (d & m & cs & E & Hi)%walk_child.
  destruct (tk_child _ _ Hok _ _ _ _ _ _ E Hi) as (nd & En & _). eauto.
Qed.

(** A turn changes no leaf but that of its own key. *)
Lemma turn_other s res t sr live' ns' pc' key : tree_inv s -> ts_threads s !! t = Some sr ->
  turn_case (ts_live s) (ts_nodes s) t (sr_key sr) (sr_allocate sr) res (sr_pc sr) live' ns' pc' -> wf_key key ->
  (forall n w, sr_pc sr = StoreW n w -> sr_key sr <> key) -> leaf_at ns' key = leaf_at (ts_nodes s) key.
Proof.
  intros I Hsr HT Hk Hother. destruct (step_inv s res t sr live' ns' (ts_wrappers s) pc' I Hsr HT) as [_ G].
  destruct (turn_new s res t sr live' ns' pc' I Hsr HT) as [Hch Hnew]. unfold leaf_at.
  assert (Hback : forall p n, walk ns' p root = Some n -> walk (ts_nodes s) p root = Some n \/ ts_nodes s !! n = None).
  { intros p. induction p as [|i p IH] using rev_ind; intros n E; [by left|]. rewrite walk_app in *.
    destruct (walk ns' p root) as [a|] eqn:Ea; [|done]. apply walk_child in E. destruct (Hch _ _ _ E) as [Hex [Hc|Hn]]; [|by right].
    destruct (IH a eq_refl) as [->|?]; [|done]. left. by apply walk_child. }
  destruct (walk (ts_nodes s) (path_of 8 key) root) as [n|] eqn:Ew.
  - rewrite (walk_grows _ _ _ G _ _ Ew). destruct (walk_exists _ _ _ _ (ti_ok _ I) Ew) as (nd & En). rewrite En.
    destruct nd as [d m cs|c].
    + destruct (G _ _ En) as ([d' m' cs'|] & -> & K); done.
    + destruct (turn_leaf s res t sr live' ns' pc' n c I Hsr HT En) as [->|(w & Epc)]; [done|].
      destruct (Hother n w Epc). destruct (ti_threads _ I _ _ Hsr) as [Hk' Hn']. destruct (Hn' n) as (nd & En' & Hr & _); [by rewrite Epc|].
      rewrite En in En'. injection En' as <-. unfold reached in Hr. cbn [depth_of] in Hr. rewrite take_ge in Hr by (by rewrite path_of_length).
      apply path_of_inj; [done..|]. apply (walk_inj _ _ (ti_ok _ I) _ _ root n); [by rewrite !path_of_length|done|done].
  - destruct (walk ns' (path_of 8 key) root) as [n|] eqn:Ew'; [|done]. destruct (Hback _ _ Ew') as [?|Hn]; [congruence|].
    destruct (ns' !! n) as [[|c]|] eqn:En; [done| |done]. exact (Hnew n c Hn En).
Qed.

Lemma run_found bs : forall s s', tree_inv s -> distinct_keys s -> all_found s -> find_run 8 bs s = Some (Ret s') ->
  all_found s' /\
  forall key, wf_key key -> (forall t sr, ts_threads s !! t = Some sr -> sr_allocate sr = true -> sr_key sr <> key) ->
    leaf_at (ts_nodes s') key = leaf_at (ts_nodes s) key.
Proof.
  induction bs as [|[res t] bs IH]; intros s s' I Hd Hf E; simpl in E; [by injection E as <-|].
  destruct (find_turn 8 res t s) as [r1|] eqn:E1; [|by destruct bs].
  destruct (turn_cases s res t r1 I E1) as (sr & live' & ns' & wr' & pc' & Hsr & -> & HT).
  destruct (step_inv s res t sr live' ns' wr' pc' I Hsr HT) as [I1 _]. pose proof (step_same s t live' ns' wr' pc') as S1.
  destruct (IH _ s' I1 (distinct_same _ _ S1 Hd) (turn_found s res t sr live' ns' wr' pc' I Hd Hf Hsr HT) E) as [Hf' Ho].
  split; [done|]. intros key Hk Hno. rewrite (Ho key Hk).
  - apply (turn_other s res t sr live' ns' pc' key I Hsr HT Hk). intros n w Epc.
    pose proof (Hf t sr Hsr) as Hft. unfold found_ok in Hft. rewrite Epc in Hft. exact (Hno t sr Hsr (proj1 Hft)).
  - intros t' sr' E' Ha'. destruct (same_search_lookup _ _ _ _ S1 E') as (sr0 & E0 & <- & Ha0). apply (Hno t' sr0 E0). congruence.
Qed.

(** C6. Threads that allocate different keys do not disturb each other, whatever else is
    searched at the same time.  In every interleaving a search that has ended with a wrapper
    has the wrapper that the tree has for its key, then and later, and one that allocates
    does not end without; keys that no thread allocates keep what they have; and when all
    have ended the nodes make a well-formed tree. *)
Theorem tree_searches_agree s bs s' : tree_start s -> distinct_keys s -> find_run 8 bs s = Some (Ret s') ->
  (forall t sr r, ts_threads s' !! t = Some sr -> sr_pc sr = Found r ->
     match r with Some w => leaf_of (tree_of s') (sr_key sr) = Some w | None => sr_allocate sr = false end) /\
  (forall key, wf_key key -> (forall t sr, ts_threads s !! t = Some sr -> sr_allocate sr = true -> sr_key sr <> key) ->
     leaf_of (tree_of s') key = leaf_of (tree_of s) key) /\
  ((forall t sr, ts_threads s' !! t = Some sr -> at_node (sr_pc sr) = None) -> wf_node 8 (tree_of s')).
Proof.
  intros Hs Hd E. pose proof (start_inv s Hs) as I. destruct (run_inv bs s _ I E) as (s1 & [= <-] & I' & _).
  assert (Hf : all_found s).
  { intros t sr Hsr. destruct Hs as (_ & _ & Ht). destruct (Forall_lookup_1 _ _ _ _ Ht Hsr) as [_ Epc]. unfold found_ok. by rewrite Epc. }
  destruct (run_found bs s s' I Hd Hf E) as [Hf' Ho]. split_and!.
  - intros t sr r Hsr Epc. pose proof (Hf' t sr Hsr) as Hft. unfold found_ok in Hft. rewrite Epc in Hft.
    destruct r as [w|]; [by rewrite tree_of_leaf|done].
  - intros key Hk Hno. rewrite !tree_of_leaf. by apply Ho.
  - intros Hend. destruct (tk_root _ _ (ti_ok _ I')) as (m & cs & Er).
    refine (node_of_wf _ _ (ti_ok _ I') _ 8 root _ Er eq_refl). intros a d [t|] cs' Ea; [|exact (ti_mutex _ I' _ _ _ _ Ea)].
    destruct (ti_mutex _ I' _ _ _ _ Ea) as (sr & Hsr & Hh). specialize (Hend t sr Hsr). by destruct (sr_pc sr).
Qed.

(** ** Two threads that allocate one key *)

(** A thread on its way down. *)
Definition descending (pc : find_pc) : Prop :=
  match pc with AtNode _ | Locked _ | Filling _ _ _ | Filled _ | Leave _ (Some _) => True | _ => False end.

Lemma find_run_app bs bs' : forall s s', find_run 8 bs s = Some (Ret s') -> find_run 8 (bs ++ bs') s = find_run 8 bs' s'.
Proof.
  induction bs as [|[res t] bs IH]; intros s s' E; simpl in *; [by injection E as <-|].
  destruct (find_turn 8 res t s) as [[s1|e| |]|]; try (by destruct bs). by apply IH.
Qed.

(** When the others hold no mutex, an allocating thread gets to its leaf on its own. *)
Lemma solo_descends k : forall s t key pc, tree_inv s -> ts_threads s !! t = Some (mkSearcher key true pc) -> descending pc ->
  (forall t' sr', t' <> t -> ts_threads s !! t' = Some sr' -> holds (sr_pc sr') = None) ->
  (turns_left (ts_nodes s) (mkSearcher key true pc) <= k)%nat ->
  exists bs s' n c, find_run 8 bs s = Some (Ret s') /\ tree_inv s' /\ ts_threads s' !! t = Some (mkSearcher key true (AtNode n)) /\
    (forall t', t' <> t -> ts_threads s' !! t' = ts_threads s !! t') /\ ts_nodes s' !! n = Some (TLeaf c) /\
    forall key', wf_key key' -> leaf_at (ts_nodes s') key' = leaf_at (ts_nodes s) key'.
Proof.
  induction k as [k IH] using lt_wf_ind. intros s t key pc I Hsr Hpc Hfree Hk.
  destruct (at_node pc) as [n|] eqn:Ea; [|by destruct pc].
  assert (Hdone : (pc = AtNode n /\ exists c, ts_nodes s !! n = Some (TLeaf c)) \/
    forall c, pc = AtNode n -> ts_nodes s !! n <> Some (TLeaf c)).
  { destruct (ts_nodes s !! n) as [[]|]; [by right; intros|destruct pc; try (by right); left; naive_solver|by right]. }
  destruct Hdone as [[-> (c & En)]|Hnl]; [by exists [], s, n, c|].
  set (res := Some (fresh (ts_live s))). assert (Hres : can_answer res s) by apply is_fresh.
  destruct (find_turn 8 res t s) as [r|] eqn:E.
  2:{ exfalso. eapply (can_turn s res t _ n I Hsr Ea); [|done|done]. intros d t' cs Epc En. simpl in Epc.
      destruct (ti_mutex _ I _ _ _ _ En) as (sr' & E' & Hh). destruct (decide (t' = t)) as [->|Hne].
      - rewrite Hsr in E'. injection E' as <-. simpl in Hh. by rewrite Epc in Hh.
      - by rewrite (Hfree t' sr' Hne E') in Hh. }
  destruct (turn_cases s res t r I E) as (sr & live' & ns' & wr' & pc' & Hsr' & -> & HT). rewrite Hsr in Hsr'. injection Hsr' as <-.
  destruct (step_inv s res t _ live' ns' wr' pc' I Hsr HT) as [I' _]. pose proof (turn_shorter s res t _ live' ns' pc' I Hsr HT) as Hlt.
  cbn [sr_key sr_allocate sr_pc] in *.
  assert (Hpc' : descending pc').
  { destruct HT; try done; try (by destruct next). simpl in Ea. injection Ea as <-. by destruct (Hnl c eq_refl). }
  assert (Ht' : ts_threads (step_to s t live' ns' wr' pc') !! t = Some (mkSearcher key true pc')) by (simpl; by rewrite list_lookup_alter_eq, Hsr).
  assert (Hoth : forall t', t' <> t -> ts_threads (step_to s t live' ns' wr' pc') !! t' = ts_threads s !! t') by (intros; simpl; by rewrite list_lookup_alter_ne).
  destruct (IH (turns_left ns' (mkSearcher key true pc')) ltac:(lia) (step_to s t live' ns' wr' pc') t key pc' I' Ht' Hpc')
    as (bs & s' & n' & c & E' & I2 & Hs' & Ho & En & Hl); [|done|].
  - intros t' sr' Hne E'. rewrite Hoth in E' by done. by apply (Hfree t').
  - exists ((res, t) :: bs), s', n', c. split_and!; try done; [simpl; by rewrite E|intros; by rewrite Ho, Hoth|].
    intros key' Hk'. rewrite (Hl key' Hk'). refine (turn_other s res t _ live' ns' pc' key' I Hsr HT Hk' _).
    intros m w Epc. simpl in Epc. by rewrite Epc in Hpc.
Qed.

Lemma leaf_go s t key pc n c res bs : ts_threads s !! t = Some (mkSearcher key true pc) -> at_node pc = Some n ->
  ts_nodes s !! n = Some (TLeaf c) ->
  find_run 8 ((res, t) :: bs) s =
    match leaf_turn res t true pc n c s with Some (Ret s') => find_run 8 bs s' | r => match bs with [] => r | _ => None end end.
Proof. intros Hsr Ea En. simpl. unfold find_turn. rewrite Hsr. simpl. by rewrite Ea, En. Qed.

(** Both threads see that the leaf is empty before one of them stores. *)
Lemma leaf_race s t1 t2 key n w1 w2 : t1 <> t2 -> ts_threads s !! t1 = Some (mkSearcher key true (AtNode n)) ->
  ts_threads s !! t2 = Some (mkSearcher key true (AtNode n)) -> ts_nodes s !! n = Some (TLeaf None) ->
  w1 ∉ ts_live s -> w2 ∉ {[w1]} ∪ ts_live s ->
  exists bs s', find_run 8 bs s = Some (Ret s') /\ ts_threads s' !! t1 = Some (mkSearcher key true (Found (Some w1))) /\
    ts_threads s' !! t2 = Some (mkSearcher key true (Found (Some w2))) /\ ts_nodes s' !! n = Some (TLeaf (Some w2)).
Proof.
  intros Hne H1 H2 En F1 F2.
  exists [(None, t1); (None, t2); (Some w1, t1); (None, t1); (None, t1); (Some w2, t2); (None, t2); (None, t2)]. eexists.
  assert (Ha : forall pc pc' t (l : list Searcher), l !! t = Some (mkSearcher key true pc) ->
    alter (fun sr => mkSearcher (sr_key sr) (sr_allocate sr) pc') t l !! t = Some (mkSearcher key true pc'))
    by (intros pc pc' t l E; by rewrite list_lookup_alter_eq, E).
  assert (Hb : forall (g : Searcher -> Searcher) t t' l sr, t <> t' -> l !! t' = Some sr -> alter g t l !! t' = Some sr)
    by (intros; by rewrite list_lookup_alter_ne).
  rewrite (leaf_go _ _ key (AtNode n) n None); [|done..]. cbn [leaf_turn].
  rewrite (leaf_go _ _ key (AtNode n) n None); [|simpl; eauto 10|done..]. cbn [leaf_turn].
  rewrite (leaf_go _ _ key (ReserveW n) n None); [|simpl; eauto 10|done..]. cbn [leaf_turn]. rewrite decide_False by done.
  rewrite (leaf_go _ _ key (StoreW n w1) n None); [|simpl; eauto 10|done..]. cbn [leaf_turn].
  rewrite (leaf_go _ _ key (LeafRead n) n (Some w1)); [|simpl; eauto 10|done|apply lookup_insert_eq]. cbn [leaf_turn].
  rewrite (leaf_go _ _ key (ReserveW n) n (Some w1)); [|simpl; eauto 12|done|apply lookup_insert_eq]. cbn [leaf_turn]. rewrite decide_False by done.
  rewrite (leaf_go _ _ key (StoreW n w2) n (Some w1)); [|simpl; eauto 12|done|apply lookup_insert_eq]. cbn [leaf_turn].
  rewrite (leaf_go _ _ key (LeafRead n) n (Some w2)); [|simpl; eauto 12|done|apply lookup_insert_eq]. cbn [leaf_turn].
  split; [reflexivity|]. split_and!; simpl; [eauto 20..|apply lookup_insert_eq].
Qed.

(** C8. A wrapper that a search returns can be lost.  When two threads allocate one key that
    has no wrapper yet, there is an interleaving in which both make one and the first
    returns a wrapper that is not the one in the tree: what is put through it cannot be
    found.  The mutexes of the nodes only guard the levels above the leaves. *)
Theorem tree_wrapper_lost s t1 t2 sr1 sr2 : tree_start s -> t1 <> t2 -> ts_threads s !! t1 = Some sr1 -> ts_threads s !! t2 = Some sr2 ->
  sr_allocate sr1 = true -> sr_allocate sr2 = true -> sr_key sr1 = sr_key sr2 -> leaf_of (tree_of s) (sr_key sr1) = None ->
  exists bs s' w1 w2, find_run 8 bs s = Some (Ret s') /\ w1 <> w2 /\
    ts_threads s' !! t1 = Some (mkSearcher (sr_key sr1) true (Found (Some w1))) /\
    ts_threads s' !! t2 = Some (mkSearcher (sr_key sr1) true (Found (Some w2))) /\ leaf_of (tree_of s') (sr_key sr1) = Some w2.
Proof.
  intros Hs Hne H1 H2 A1 A2 Ek Hleaf. pose proof (start_inv s Hs) as I. pose proof Hs as (_ & _ & Ht). rewrite Forall_lookup in Ht.
  destruct sr1 as [key al pc], sr2 as [key' al' pc']. simpl in *. subst key' al al'.
  destruct (Ht _ _ H1) as [Hk Hp1], (Ht _ _ H2) as [_ Hp2]. simpl in *. subst pc pc'. rewrite tree_of_leaf in Hleaf.
  assert (Hat : forall s n c t, tree_inv s -> ts_threads s !! t = Some (mkSearcher key true (AtNode n)) -> ts_nodes s !! n = Some (TLeaf c) ->
    reached (ts_nodes s) key 8 = Some n).
  { intros u n c t Iu Hu En. destruct (ti_threads _ Iu _ _ Hu) as [_ Hn]. destruct (Hn n eq_refl) as (nd & E & Hr & _). simpl in *.
    rewrite En in E. by injection E as <-. }
  assert (Hnone : forall t' sr', ts_threads s !! t' = Some sr' -> holds (sr_pc sr') = None) by (intros t' sr' E; by rewrite (proj2 (Ht _ _ E))).
  destruct (solo_descends max_turns s t1 key (AtNode root) I H1 Logic.I (fun t' sr' _ => Hnone t' sr') (turns_left_bound _ _)) as (bs1 & s1 & n1 & c1 & E1 & I1 & Hs1 & Ho1 & En1 & Hl1).
  assert (Hnone1 : forall t' sr', t' <> t2 -> ts_threads s1 !! t' = Some sr' -> holds (sr_pc sr') = None).
  { intros t' sr' Hne' E. destruct (decide (t' = t1)) as [->|]; [rewrite Hs1 in E; by injection E as <-|]. rewrite Ho1 in E by done. eauto. }
  destruct (solo_descends max_turns s1 t2 key (AtNode root) I1 ltac:(by rewrite Ho1) Logic.I Hnone1 (turns_left_bound _ _))
    as (bs2 & s2 & n2 & c2 & E2 & I2 & Hs2 & Ho2 & En2 & Hl2).
  assert (Hs21 : ts_threads s2 !! t1 = Some (mkSearcher key true (AtNode n1))) by (by rewrite Ho2).
  destruct (run_inv bs2 s1 _ I1 E2) as (s2' & [= <-] & _ & G2 & _). destruct (G2 _ _ En1) as ([|c1'] & En1' & K); [done|].
  pose proof (Hat s2 n1 c1' t1 I2 Hs21 En1') as Hr1. pose proof (Hat s2 n2 c2 t2 I2 Hs2 En2) as Hr2. rewrite Hr1 in Hr2. injection Hr2 as <-.
  pose proof (reached_leaf _ _ _ _ Hr1 En1') as Hc. rewrite Hl2, Hl1, Hleaf in Hc by done. subst c1'.
  set (w1 := fresh (ts_live s2)). set (w2 := fresh ({[w1]} ∪ ts_live s2)).
  assert (F2 : w2 ∉ {[w1]} ∪ ts_live s2) by apply is_fresh.
  destruct (leaf_race s2 t1 t2 key n1 w1 w2 Hne Hs21 Hs2 En1' (is_fresh _) F2) as (bs3 & s3 & E3 & P1 & P2 & En3).
  destruct (run_inv bs3 s2 _ I2 E3) as (s3' & [= <-] & I3 & G3 & _).
  exists (bs1 ++ bs2 ++ bs3), s3, w1, w2. split; [by rewrite (find_run_app _ _ _ _ E1), (find_run_app _ _ _ _ E2)|].
  split; [set_solver|]. split; [done|]. split; [done|]. rewrite tree_of_leaf. apply (reached_leaf _ _ n1); [|done].
  by apply (walk_grows _ _ _ G3).
Qed.
End Inv.

(** ** Concrete runs *)

(** A tree that has only its root. *)
Definition bare_root : addr := (1%positive, 0%nat).
Definition bare_tree (threads : list Searcher) : TreeState :=
  mkTreeState {[1%positive]} {[bare_root := TNode256 0 None (replicate NODE_SIZE None)]} ∅ threads.

Lemma bare_start threads : Forall (fun sr => wf_key (sr_key sr) /\ sr_pc sr = AtNode bare_root) threads -> tree_start bare_root (bare_tree threads).
Proof.
  intros Ht. assert (Hno : forall i c, replicate NODE_SIZE (@None addr) !! i <> Some (Some c)).
  { intros i c E. by apply lookup_replicate in E as [? _]. }
  assert (Hone : forall a nd, ts_nodes (bare_tree threads) !! a = Some nd -> a = bare_root /\ nd = TNode256 0 None (replicate NODE_SIZE None)).
  { intros a nd E. unfold bare_tree in E. cbn [ts_nodes] in E. by apply lookup_singleton_Some in E as [<- <-]. }
  split_and!; [split|..].
  - eexists None, _. unfold bare_tree. cbn [ts_nodes]. apply lookup_singleton_eq.
  - intros a nd [-> ->]%Hone. unfold bare_tree. cbn [ts_live]. set_solver.
  - intros a d m cs [-> E]%Hone. assert (d = 0%nat /\ cs = replicate NODE_SIZE None) as [-> ->] by (split; congruence). split; [lia|]. apply length_replicate.
  - intros a d m cs i c [-> E]%Hone Hi. assert (cs = replicate NODE_SIZE None) as -> by congruence. by destruct (Hno i c).
  - intros a i a' i' c (d & m & cs & [-> E]%Hone & Hi) _. assert (cs = replicate NODE_SIZE None) as -> by congruence. by destruct (Hno i c).
  - intros a d m cs [-> E]%Hone. split; [congruence|]. left. congruence.
  - done.
Qed.

Lemma searched_key2 : wf_key key2.
Proof. split; [done|]. repeat constructor; lia. Qed.

(** A thread that looks for a key, and one that allocates another. *)
Definition run_searches : TreeState :=
  bare_tree [mkSearcher key1 false (AtNode bare_root); mkSearcher key2 true (AtNode bare_root)].
Definition run_turns : list (option positive * nat) := [(None, 1%nat); (None, 0%nat); (Some 2%positive, 1%nat); (None, 1%nat)].

Lemma run_searches_start : tree_start bare_root run_searches.
Proof. apply bare_start. apply Forall_cons; split; [by split; [exact wf_key1|]|]. apply Forall_singleton. by split; [exact searched_key2|]. Qed.

Lemma run_searches_distinct : distinct_keys run_searches.
Proof.
  intros t t' sr sr' E E' A A' _. destruct t as [|[|t]], t' as [|[|t']]; simpl in *; simplify_eq; done.
Qed.

Definition run_searched : TreeState :=
  match find_run 8 run_turns run_searches with Some (Ret s) => s | _ => run_searches end.

Lemma run_searched_eq : find_run 8 run_turns run_searches = Some (Ret run_searched).
Proof. vm_compute. reflexivity. Qed.

Lemma tree_searches_end_witness : exists s', find_run 8 run_turns run_searches = Some (Ret s') /\
  exists t', forall res, can_answer res s' -> find_turn 8 res t' s' <> None.
Proof.
  destruct (tree_searches_end bare_root run_searches run_turns (Ret run_searched) run_searches_start run_searched_eq) as (s' & E & _ & Hp).
  exists s'. split; [rewrite run_searched_eq, E; reflexivity|]. injection E as <-.
  refine (Hp 1%nat (mkSearcher key2 true (Filling bare_root 2 1)) _ _); [vm_compute; reflexivity|discriminate].
Defined.

Lemma tree_searches_agree_witness : leaf_of (tree_of bare_root run_searched) key1 = leaf_of (tree_of bare_root run_searches) key1.
Proof.
  refine (proj1 (proj2 (tree_searches_agree bare_root run_searches run_turns run_searched run_searches_start run_searches_distinct run_searched_eq)) key1 wf_key1 _).
  intros [|[|t]] sr E A; simpl in E; simplify_eq. vm_compute. discriminate.
Defined.

(** Two threads that allocate one key. *)
Definition run_twice : TreeState :=
  bare_tree [mkSearcher key1 true (AtNode bare_root); mkSearcher key1 true (AtNode bare_root)].

Lemma tree_wrapper_lost_witness : exists bs s' w1 w2, find_run 8 bs run_twice = Some (Ret s') /\ w1 <> w2 /\
  ts_threads s' !! 0%nat = Some (mkSearcher key1 true (Found (Some w1))) /\
  ts_threads s' !! 1%nat = Some (mkSearcher key1 true (Found (Some w2))) /\ leaf_of (tree_of bare_root s') key1 = Some w2.
Proof.
  apply (tree_wrapper_lost bare_root run_twice 0 1 (mkSearcher key1 true (AtNode bare_root)) (mkSearcher key1 true (AtNode bare_root)));
    try (vm_compute; reflexivity); [|discriminate].
  apply bare_start. apply Forall_cons; split; [by split; [exact wf_key1|]|]. apply Forall_singleton. by split; [exact wf_key1|].
Defined.
