(* ===== verification/NodeCli.v ===== *)
(** * The shell of a node ([examples/clinode/nodeCli])

    An interpreter of lines of text: a line is split into words, a word becomes a key, a
    value or an attribute, and the store is called through its interface.  What is printed
    is a list of texts without tabs and line ends.  Boost's conversion of a word to [bool], its printing of an attribute
    and the text of an exception are parameters. *)

From Stdlib Require Import Ascii.
From stdpp Require Import strings pretty.
From S2P Require Import Prelude Status CString StatusText ARTree RTreeEngine Poller Rqst PmemPoller PrimaryKey DhtCore KVStore KVMap KVAsync KVStoreBase.

#[local] Open Scope Z_scope.

(** ** Text *)

(** [is_any_of("\t ")]. *)
Definition is_sep (c : ascii) : bool := (code c =? 9) || (code c =? 32).

(** [split] with [token_compress_on]: the last separator of a run ends a word. *)
Fixpoint split (s : string) : list string :=
  match s with
  | EmptyString => [EmptyString]
  | String c s' =>
      if is_sep c then
        match s' with
        | String c' _ => if is_sep c' then split s' else EmptyString :: split s'
        | EmptyString => EmptyString :: split s'
        end
      else match split s' with w :: ws => String c w :: ws | [] => [String c EmptyString] end
  end.

Definition starts_with (s p : string) : bool := String.prefix p s.

(** The bytes of a text, and the text before the first NUL of an array. *)
Definition bytes_of (s : string) : list Z := code <$> String.list_ascii_of_string s.
Fixpoint c_string (l : list Z) : option string :=
  match l with
  | [] => None
  | b :: l => if b =? 0 then Some EmptyString else String (ascii_of_N (Z.to_N b)) <$> c_string l
  end.

(** ** Completion and hints *)

(** The map of commands in the order of its keys. *)
Definition consoleCmd : list (string * string) :=
  [("aget", " <key> [-o <long_term> <0|1>]"); ("aput", " <key> <value> [-o <lock|ready|long_term> <0|1>]");
   ("aupdate", " <key> [value] [-o <lock|ready|long_term> <0|1>]"); ("get", " <key> [-o <long_term> <0|1>]"); ("help", "");
   ("neighbors", ""); ("put", " <key> <value> [-o <lock|ready|long_term> <0|1>]"); ("quit", ""); ("remove", " <key>"); ("status", "");
   ("update", " <key> [value] [-o <lock|ready|long_term> <0|1>]")].

Definition completion (buf : string) : list string :=
  match buf with
  | String "h" _ => ["help"]
  | String "q" _ => ["quit"]
  | String "g" _ => ["get"]
  | String "u" _ => ["update"]
  | String "p" _ => ["put"]
  | String "s" _ => ["status"]
  | String "n" _ => ["neighbors"]
  | String "r" _ => ["remove"]
  | String "a" (String "g" _) => ["aget"]
  | String "a" (String "p" _) => ["aput"]
  | String "a" (String "u" _) => ["aupdate"]
  | _ => []
  end.

Definition hints (buf : string) : option string :=
  match list_find (fun e => fst e = buf) consoleCmd with Some (_, (_, h)) => Some h | None => None end.

(** ** Attributes *)

Definition LOCKED : Z := 1.
Definition READY : Z := 2.
Definition LONG_TERM : Z := 4.
Definition NUM_ELEM_KEY_ATTRS : Z := 3.

(** [struct CliNodeKey]. *)
Definition sizeof_eventId : nat := 5.
Definition sizeof_CliNodeKey : nat := 8.
Definition cli_key (key : string) : list Z := bytes_of key ++ replicate (sizeof_CliNodeKey - String.length key) 0.

Definition _isInvalidKey (key : string) : bool :=
  (Nat.eqb (String.length key) 0) || (Nat.ltb sizeof_eventId (String.length key)).

Section Attributes.
Context (lexical_cast : string -> option bool).

(** The attribute that is given by three words. *)
Definition option_attr (optName optVal : string) : outcome exn Z :=
  match lexical_cast optVal with
  | None => Throw bad_lexical_cast
  | Some false => Ret 0
  | Some true =>
      Ret (if String.eqb optName "lock" then LOCKED else if String.eqb optName "ready" then READY
           else if String.eqb optName "long_term" then LONG_TERM else 0)
  end.

Definition _getKeyAttr (start : Z) (cmdAttrs : list string) : outcome exn Z :=
  if Z.of_nat (length cmdAttrs) <? start + NUM_ELEM_KEY_ATTRS then Ret 0
  else
    match cmdAttrs !! Z.to_nat start, cmdAttrs !! Z.to_nat (start + 1), cmdAttrs !! Z.to_nat (start + 2) with
    | Some o, Some optName, Some optVal => if starts_with o "-o" then option_attr optName optVal else Ret 0
    | _, _, _ => Undef
    end.

(** The loop over an [unsigned char]; [None] when the fuel is not enough. *)
Fixpoint attrs_loop (fuel : nat) (parsingPosition : Z) (cmdAttrs : list string) (result : Z) : option (outcome exn Z) :=
  match fuel with
  | O => None
  | S fuel =>
      if parsingPosition <=? Z.of_nat (length cmdAttrs) then
        match _getKeyAttr parsingPosition cmdAttrs with
        | Ret a => attrs_loop fuel (u8 (parsingPosition + NUM_ELEM_KEY_ATTRS)) cmdAttrs (Z.lor result a)
        | r => Some r
        end
      else Some (Ret result)
  end.
End Attributes.

(** ** The shell *)

(** The calls of the store that the benchmark does not make; [attr] is the attribute in the
    options, and [Callback] what an asynchronous call is given.  Any behaviour is allowed. *)
Class CliStore (S Callback : Type) : Type := {
  cs_Update : Key -> option (list Z) -> Z -> M exn S unit;
  cs_GetAsync : Key -> Callback -> Z -> M exn S unit;
  cs_PutAsync : Key -> Value -> Callback -> Z -> M exn S unit;
  cs_UpdateAsync : Key -> option (list Z) -> Callback -> Z -> M exn S unit;
  cs_getProperty : string -> M exn S string }.

(** The lambdas of the asynchronous commands, with the local variables of the command that
    they refer to: [this] only, or [keyBuff] and [options.attr] too. *)
Inductive cli_callback : Type :=
| OnGet
| OnPut (keyBuff : Key) (attr : Z)
| OnUpdate (with_value : bool) (keyBuff : Key) (attr : Z).

Section Shell.
Context {S : Type} `{KVStoreBase S} `{CliStore S cli_callback}
  (lexical_cast : string -> option bool) (show_attr : Z -> string) (not_implemented : string) (strerror : Z -> string).

(** [class nodeCli], and what was printed. *)
Record nodeCli : Type := mkNodeCli { _spKVStore : S; _statusMsgs : list string; cout : list string }.

#[local] Abbreviation CM A := (M exn nodeCli A).

Definition on_store {A} (m : M exn S A) : CM A := czoom _spKVStore (fun s c => mkNodeCli s (_statusMsgs c) (cout c)) m.
Definition say (t : string) : CM unit := cmod (fun c => mkNodeCli (_spKVStore c) (_statusMsgs c) (cout c ++ [t])).
Definition push_status (t : string) : CM unit := cmod (fun c => mkNodeCli (_spKVStore c) (_statusMsgs c ++ [t]) (cout c)).
Definition catch_failure {A} (m : CM A) (h : Z -> CM A) : CM A :=
  ccatch m (fun e => match e with OperationFailedException st => h st | _ => cthrow e end).

Definition status_text (st : Z) : string := to_string strerror st.

(** 256 rounds of the loop: a position that has not passed the end by then repeats. *)
Definition _getKeyAttrs (start : Z) (cmdAttrs : list string) : CM Z :=
  let size := Z.of_nat (length cmdAttrs) in
  if size <? start + NUM_ELEM_KEY_ATTRS then cret 0
  else if negb ((size - start) mod NUM_ELEM_KEY_ATTRS =? 0) then say "Warning: cannot parse key attributes" ;;; cret 0
  else
    match attrs_loop lexical_cast 256 start cmdAttrs 0 with
    | Some r => fun c => (r, c)
    | None => cundef
    end.

(** The buffer of the key is cleared for the size of the structure. *)
Definition _strToKey (key : string) : CM Key :=
  if _isInvalidKey key then cthrow (OperationFailedException (errnum BAD_KEY_FORMAT))
  else
    let! keyBuff := on_store (kb_AllocKey false) in
    if Nat.ltb (length (k_data keyBuff)) sizeof_CliNodeKey then cundef
    else on_store (kb_setKey keyBuff (cli_key key ++ drop sizeof_CliNodeKey (k_data keyBuff))).

Definition _allocValue (key : Key) (valStr : string) : CM Value :=
  let! result := on_store (kb_Alloc key (Z.of_nat (String.length valStr) + 1)) in
  on_store (kb_write result (bytes_of valStr ++ [0])) ;;; cret result.

(** [new char[size + 1]] with the text; an option is no value. *)
Definition _strToValue (valStr : string) : option (list Z) :=
  if starts_with valStr "-o" then None else Some (bytes_of valStr ++ [0]).

(** The key of a command: [None] when the command has printed why it has none.  [all] says
    that every exception is caught. *)
Definition key_argument (all : bool) (key : string) : CM (option Key) :=
  if _isInvalidKey key then say "Error: wrong key size" ;;; cret None
  else
    let failed := say "Error: cannot allocate key buffer" ;;; cret None in
    let m := let! k := _strToKey key in cret (Some k) in
    if all then ccatch m (fun _ => failed) else catch_failure m (fun _ => failed).

Definition _cmdGet (strLine : string) : CM unit :=
  match split strLine with
  | (_ :: key :: _) as arguments =>
      let! k := key_argument false key in
      match k with
      | None => cret tt
      | Some keyBuff =>
          _getKeyAttrs 2 arguments ;;;
          let! value :=
            catch_failure
              (let! v := on_store (kb_Get keyBuff) in
               let! bytes := on_store (kb_read v) in
               match c_string bytes with
               | None => cundef
               | Some valuestr => say ("[" +:+ key +:+ "] = " +:+ valuestr) ;;; cret v
               end)
              (fun st =>
                 (if st =? KEY_NOT_FOUND then say ("[" +:+ key +:+ "] not found")
                  else say ("Error: cannot get element: " +:+ status_text st)) ;;;
                 cret (mkValue None 0 false)) in
          (if 0 <? v_size value then on_store (kb_Free_value keyBuff value) else cret tt) ;;;
          (if Nat.ltb 0 (length (k_data keyBuff)) then on_store (kb_Free_key keyBuff) else cret tt)
      end
  | _ => say "Error: expects at least one argument"
  end.

Definition put_text (key value : string) (attr : Z) : string :=
  "Put: [" +:+ key +:+ "] = " +:+ value +:+ " (Opts:" +:+ show_attr attr +:+ ")".

(** The value of a put command, as the key. *)
Definition value_argument (keyBuff : Key) (value : string) : CM (option Value) :=
  ccatch (let! v := _allocValue keyBuff value in cret (Some v))
    (fun _ => say "Error: cannot allocate value buffer" ;;; on_store (kb_Free_key keyBuff) ;;; cret None).

Definition _cmdPut (strLine : string) : CM unit :=
  match split strLine with
  | (_ :: key :: value :: _) as arguments =>
      let! k := key_argument true key in
      match k with
      | None => cret tt
      | Some keyBuff =>
          let! v := value_argument keyBuff value in
          match v with
          | None => cret tt
          | Some valBuff =>
              let! keyAttrs := _getKeyAttrs 3 arguments in
              catch_failure (on_store (kb_Put keyBuff valBuff) ;;; say (put_text key value keyAttrs))
                (fun st => say ("Error: cannot put element: " +:+ status_text st))
          end
      end
  | _ => say "Error: expects at least two arguments"
  end.

(** The value and the attributes of an update command. *)
Definition update_arguments (arguments : list string) : CM (option (list Z) * Z) :=
  let '(valBuff, optionStartPos) :=
    match arguments !! 2%nat with
    | Some w => if starts_with w "-o" then (None, 2) else (_strToValue w, 3)
    | None => (None, 2)
    end in
  let! keyAttrs := _getKeyAttrs optionStartPos arguments in cret (valBuff, keyAttrs).

Definition _cmdUpdate (strLine : string) : CM unit :=
  match split strLine with
  | (_ :: key :: _) as arguments =>
      let! k := key_argument true key in
      match k with
      | None => cret tt
      | Some keyBuff =>
          let! (valBuff, keyAttrs) := update_arguments arguments in
          catch_failure (on_store (cs_Update keyBuff valBuff keyAttrs))
            (fun st => say ("Error: cannot update element: " +:+ status_text st))
      end
  | _ => say "Error: expects at least one argument"
  end.

Definition _cmdRemove (strLine : string) : CM unit :=
  match split strLine with
  | [_; key] =>
      let! k := key_argument true key in
      match k with
      | None => cret tt
      | Some keyBuff =>
          catch_failure (on_store (kb_Remove keyBuff) ;;; say ("Remove: [" +:+ key +:+ "]"))
            (fun st => if st =? KEY_NOT_FOUND then say ("[" +:+ key +:+ "] not found") else say "Error: cannot remove element")
      end
  | _ => say "Error: expects one argument"
  end.

(** What is printed when an asynchronous call fails at once. *)
Definition async_failed (what : string) (disabled : bool) (st : Z) : CM unit :=
  if disabled && (st =? OFFLOAD_DISABLED_ERROR) then say "Error: Disk offload is disabled"
  else say ("Error: cannot " +:+ what +:+ " element: " +:+ status_text st).

Definition _cmdGetAsync (strLine : string) : CM unit :=
  match split strLine with
  | (_ :: key :: _) as arguments =>
      let! k := key_argument false key in
      match k with
      | None => cret tt
      | Some keyBuff =>
          let! keyAttrs := _getKeyAttrs 2 arguments in
          catch_failure (on_store (cs_GetAsync keyBuff OnGet keyAttrs)) (async_failed "get" true)
      end
  | _ => say "Error: expects at least one argument"
  end.

Definition _cmdUpdateAsync (strLine : string) : CM unit :=
  match split strLine with
  | (_ :: key :: _) as arguments =>
      let! k := key_argument true key in
      match k with
      | None => cret tt
      | Some keyBuff =>
          let! (valBuff, keyAttrs) := update_arguments arguments in
          catch_failure
            (on_store (cs_UpdateAsync keyBuff valBuff (OnUpdate (match valBuff with Some _ => true | None => false end) keyBuff keyAttrs) keyAttrs))
            (async_failed "update" true)
      end
  | _ => say "Error: expects at least one argument"
  end.

Definition _cmdPutAsync (strLine : string) : CM unit :=
  match split strLine with
  | (_ :: key :: value :: _) as arguments =>
      let! k := key_argument true key in
      match k with
      | None => cret tt
      | Some keyBuff =>
          let! v := value_argument keyBuff value in
          match v with
          | None => cret tt
          | Some valBuff =>
              let! keyAttrs := _getKeyAttrs 3 arguments in
              catch_failure (on_store (cs_PutAsync keyBuff valBuff (OnPut keyBuff keyAttrs) keyAttrs)) (async_failed "put" false)
          end
      end
  | _ => say "Error: expects at least two arguments"
  end.

Definition _cmdStatus : CM unit :=
  let! i := on_store (cs_getProperty "daqdb.dht.id") in
  let! p := on_store (cs_getProperty "daqdb.dht.port") in
  say ("DHT ID = " +:+ i +:+ " DHT ip:port = localhost:" +:+ p) ;;;
  let! st := on_store (cs_getProperty "daqdb.dht.status") in
  say st ;;;
  let! c := cget in
  match _statusMsgs c with
  | [] => cret tt
  | msgs => cmod (fun c => mkNodeCli (_spKVStore c) [] (cout c ++ "Async operations:" :: msgs))
  end.

Definition _cmdNeighbors : CM unit := let! p := on_store (cs_getProperty "daqdb.dht.neighbours") in say ("Neighbors: " +:+ p).

Definition say_help : CM unit :=
  cmod (fun c => mkNodeCli (_spKVStore c) (_statusMsgs c)
    (cout c ++ "Following commands supported:" :: ((fun e => fst e +:+ snd e) <$> consoleCmd))).

(** [operator()] on the line that was read; [None] at the end of the input.  False ends the
    shell. *)
Definition shell_line (line : option string) : CM bool :=
  match line with
  | None => cret false
  | Some strLine =>
      ccatch
        (if String.eqb strLine "" || starts_with strLine "help" then say_help ;;; cret true
         else if starts_with strLine "g" then _cmdGet strLine ;;; cret true
         else if starts_with strLine "p" then _cmdPut strLine ;;; cret true
         else if starts_with strLine "u" then _cmdUpdate strLine ;;; cret true
         else if starts_with strLine "ap" then _cmdPutAsync strLine ;;; cret true
         else if starts_with strLine "ag" then _cmdGetAsync strLine ;;; cret true
         else if starts_with strLine "au" then _cmdUpdateAsync strLine ;;; cret true
         else if starts_with strLine "r" then _cmdRemove strLine ;;; cret true
         else if starts_with strLine "s" then _cmdStatus ;;; cret true
         else if starts_with strLine "n" then _cmdNeighbors ;;; cret true
         else if starts_with strLine "q" then cret false
         else say ("Unreconized command: " +:+ strLine) ;;; cret true)
        (fun e => match e with NotImplementedException => say ("Not Implemented: " +:+ not_implemented) ;;; cret true | _ => cthrow e end)
  end.

(** A lambda that is called with a status, a key and a value; [alive] says whether the
    command that made it is still running, so that its local variables are there. *)
Definition call_callback (alive : bool) (cb : cli_callback) (st : Z) (key value : string) : CM unit :=
  let free_key (keyBuff : Key) := if Nat.ltb 0 (length (k_data keyBuff)) then on_store (kb_Free_key keyBuff) else cret tt in
  match cb with
  | OnGet =>
      push_status (if ok st then "GET[" +:+ key +:+ "]=" +:+ value +:+ " : completed"
                   else "Error: cannot get element: " +:+ status_text st)
  | OnPut keyBuff attr =>
      (if ok st then
         if alive then push_status ("PUT[" +:+ key +:+ "]=" +:+ value +:+ " (Opts:" +:+ show_attr attr +:+ ") : completed") else cundef
       else push_status ("Error: cannot put element: " +:+ status_text st)) ;;;
      if alive then free_key keyBuff else cundef
  | OnUpdate with_value keyBuff attr =>
      (if ok st then
         if alive then push_status ("UPDATE[" +:+ key +:+ "]" +:+ (if with_value then "=" +:+ value else "") +:+ " (Opts:" +:+ show_attr attr +:+ ") : completed") else cundef
       else push_status ("Error: cannot update element: " +:+ status_text st)) ;;;
      if alive then free_key keyBuff else cundef
  end.
End Shell.

(** ** Attributes *)

Section AttributeRuns.
Context (lexical_cast : string -> option bool).

(** The attributes of the words in threes. *)
Fixpoint attrs_of (l : list string) : outcome exn Z :=
  match l with
  | o :: optName :: optVal :: l =>
      let? a := if starts_with o "-o" then option_attr lexical_cast optName optVal else Ret 0 in
      let? r := attrs_of l in
      Ret (Z.lor a r)
  | _ => Ret 0
  end.

Lemma getKeyAttr_words pos (args : list string) o n v rest : drop (Z.to_nat pos) args = o :: n :: v :: rest -> 0 <= pos ->
  _getKeyAttr lexical_cast pos args = (if starts_with o "-o" then option_attr lexical_cast n v else Ret 0) /\
  drop (Z.to_nat (pos + 3)) args = rest /\ pos + 3 <= Z.of_nat (length args).
Proof.
  intros E Hp. assert (Hl : (length args = Z.to_nat pos + length (o :: n :: v :: rest))%nat).
  { rewrite <- E, length_drop. assert (Z.to_nat pos < length args)%nat; [|lia].
    destruct (decide (Z.to_nat pos < length args)%nat); [done|]. rewrite drop_ge in E by lia. done. }
  simpl in Hl. assert (Hlook : forall i, args !! (Z.to_nat pos + i)%nat = (o :: n :: v :: rest) !! i) by (intros i; rewrite <- E, lookup_drop; done).
  unfold _getKeyAttr, NUM_ELEM_KEY_ATTRS. destruct (Z.ltb_spec (Z.of_nat (length args)) (pos + 3)); [lia|].
  pose proof (Hlook 0%nat) as H0'. pose proof (Hlook 1%nat) as H1'. pose proof (Hlook 2%nat) as H2'.
  replace (Z.to_nat pos + 0)%nat with (Z.to_nat pos) in H0' by lia. replace (Z.to_nat pos + 1)%nat with (Z.to_nat (pos + 1)) in H1' by lia.
  replace (Z.to_nat pos + 2)%nat with (Z.to_nat (pos + 2)) in H2' by lia. rewrite H0', H1', H2'. simpl. split; [done|]. split; [|lia].
  replace (Z.to_nat (pos + 3)) with (Z.to_nat pos + 3)%nat by lia. rewrite <- drop_drop, E. done.
Qed.

Lemma attrs_loop_words (args : list string) : Z.of_nat (length args) < 253 -> forall n fuel pos acc, 0 <= pos ->
  Z.of_nat (length args) = pos + 3 * Z.of_nat n -> (S n < fuel)%nat ->
  attrs_loop lexical_cast fuel pos args acc = Some (let? r := attrs_of (drop (Z.to_nat pos) args) in Ret (Z.lor acc r)).
Proof.
  intros HL. induction n as [|n IH]; intros fuel pos acc Hp Hl Hf.
  - destruct fuel as [|[|fuel]]; [lia..|]. simpl. rewrite drop_ge by lia. destruct (Z.leb_spec pos (Z.of_nat (length args))); [|lia].
    unfold _getKeyAttr, NUM_ELEM_KEY_ATTRS. destruct (Z.ltb_spec (Z.of_nat (length args)) (pos + 3)); [|lia].
    rewrite uwrap_id by lia. destruct (Z.leb_spec (pos + 3) (Z.of_nat (length args))); [lia|]. simpl. by rewrite !Z.lor_0_r.
  - destruct fuel as [|fuel]; [lia|].
    assert (exists o m v rest, drop (Z.to_nat pos) args = o :: m :: v :: rest) as (o & m & v & rest & E).
    { assert (Hd : length (drop (Z.to_nat pos) args) = (3 * S n)%nat) by (rewrite length_drop; lia).
      destruct (drop (Z.to_nat pos) args) as [|? [|? [|? ?]]]; simpl in Hd; try lia. eauto. }
    destruct (getKeyAttr_words pos args o m v rest E Hp) as (Ea & Ed & Hle). simpl. rewrite E. simpl.
    destruct (Z.leb_spec pos (Z.of_nat (length args))); [|lia]. rewrite Ea.
    destruct (if starts_with o "-o" then _ else _) as [a|e| |]; simpl; try done. unfold NUM_ELEM_KEY_ATTRS. rewrite uwrap_id by lia.
    rewrite (IH fuel (pos + 3) (Z.lor acc a)) by lia. rewrite Ed. destruct (attrs_of rest); simpl; try done. by rewrite Z.lor_assoc.
Qed.

(** Positions of an unsigned character are never behind 255 words. *)
Lemma attrs_loop_long (args : list string) : 255 <= Z.of_nat (length args) -> forall fuel pos acc r, 0 <= pos < 256 ->
  attrs_loop lexical_cast fuel pos args acc = Some r -> r = Throw bad_lexical_cast.
Proof.
  intros HL. induction fuel as [|fuel IH]; intros pos acc r Hp E; [done|]. simpl in E.
  destruct (Z.leb_spec pos (Z.of_nat (length args))); [|lia].
  assert (Ha : exists a, _getKeyAttr lexical_cast pos args = Ret a \/ _getKeyAttr lexical_cast pos args = Throw bad_lexical_cast).
  { unfold _getKeyAttr, NUM_ELEM_KEY_ATTRS. destruct (Z.ltb_spec (Z.of_nat (length args)) (pos + 3)); [by exists 0; left|].
    destruct (lookup_lt_is_Some_2 args (Z.to_nat pos) ltac:(lia)) as [o ->], (lookup_lt_is_Some_2 args (Z.to_nat (pos + 1)) ltac:(lia)) as [n ->],
      (lookup_lt_is_Some_2 args (Z.to_nat (pos + 2)) ltac:(lia)) as [v ->]. destruct (starts_with o "-o"); [|by exists 0; left].
    unfold option_attr. destruct (lexical_cast v) as [[]|]; [eexists; left; done|by exists 0; left|by exists 0; right]. }
  destruct Ha as (a & [Ea|Ea]); rewrite Ea in E; [|by injection E as <-]. apply (IH _ _ _ (Z.mod_pos_bound _ 256 ltac:(lia)) E).
Qed.

(** C39. The loop over the options of a command computes the attributes of its words in
    threes, for commands of up to 253 words: it ends, and an option whose value cannot be
    converted throws.  With 255 words or more the position, an unsigned character, never
    passes the end, so that the loop does not end in any number of rounds, except by that
    exception. *)
Theorem cli_attrs_exact (args : list string) start : start = 2 \/ start = 3 -> start + 3 <= Z.of_nat (length args) ->
  (Z.of_nat (length args) - start) mod 3 = 0 ->
  (Z.of_nat (length args) < 254 -> attrs_loop lexical_cast 256 start args 0 = Some (attrs_of (drop (Z.to_nat start) args))) /\
  (255 <= Z.of_nat (length args) -> forall fuel r, attrs_loop lexical_cast fuel start args 0 = Some r -> r = Throw bad_lexical_cast).
Proof.
  intros Hs Hl Hm. split.
  - intros HL. set (q := (Z.of_nat (length args) - start) / 3).
    assert (Hq : Z.of_nat (length args) = start + 3 * q) by (subst q; Z.to_euclidean_division_equations; lia).
    rewrite (attrs_loop_words args ltac:(lia) (Z.to_nat q)) by lia.
    by destruct (attrs_of _); simpl.
  - intros HL fuel r E. apply (attrs_loop_long args HL fuel start 0 r); [lia|done].
Qed.
End AttributeRuns.

(** ** Words *)

(** A word: no separator and no NUL. *)
Fixpoint plain (w : string) : bool :=
  match w with EmptyString => true | String c w => negb (is_sep c) && negb (code c =? 0) && plain w end.
Definition is_word (w : string) : bool := negb (String.eqb w "") && plain w.

Lemma split_word w rest : plain w = true -> is_word rest = true -> split (w +:+ String " " rest) = w :: split rest.
Proof.
  intros Hw Hr. induction w as [|c w IH]; simpl in *.
  - destruct rest as [|c rest]; [done|]. unfold is_word in Hr. simpl in Hr. by destruct (is_sep c).
  - destruct (is_sep c); [done|]. apply andb_prop in Hw as [_ Hw]. by rewrite (IH Hw).
Qed.

Lemma split_last w : plain w = true -> split w = [w].
Proof. induction w as [|c w IH]; simpl; [done|]. destruct (is_sep c); [done|]. intros [_ Hw]%andb_prop. by rewrite (IH Hw). Qed.

Lemma split_more w rest ws : plain w = true -> split rest = ws -> (match rest with String c _ => is_sep c = false | EmptyString => False end) ->
  split (w +:+ String " " rest) = w :: ws.
Proof.
  intros Hw <- Hr. induction w as [|c w IH]; simpl in *.
  - destruct rest as [|c rest]; [done|]. by rewrite Hr.
  - destruct (is_sep c); [done|]. apply andb_prop in Hw as [_ Hw]. by rewrite (IH Hw).
Qed.

Lemma c_string_bytes w : plain w = true -> c_string (bytes_of w ++ [0]) = Some w.
Proof.
  induction w as [|c w IH]; [done|]. cbn [plain]. intros [[_ Hc]%andb_prop Hw]%andb_prop. apply negb_true_iff in Hc.
  change (bytes_of (String c w) ++ [0]) with (code c :: (bytes_of w ++ [0])). cbn [c_string]. rewrite Hc, (IH Hw). cbn.
  unfold code. by rewrite N2Z.id, ascii_N_embedding.
Qed.

Lemma length_bytes w : length (bytes_of w) = String.length w.
Proof. unfold bytes_of. rewrite length_fmap. induction w; simpl; congruence. Qed.

(** ** A store that is a map *)

Section RoundTrip.
Context {S : Type} `{KVStoreMap S} `{CliStore S cli_callback}
  (lexical_cast : string -> option bool) (show_attr : Z -> string) (not_implemented : string) (strerror : Z -> string).
#[local] Abbreviation cli := (@nodeCli S).
#[local] Abbreviation line := (shell_line lexical_cast show_attr not_implemented strerror).

(** The store is a map with keys of eight bytes. *)
Definition cli_ready (c : cli) (ms : map_spec) : Prop := kb_sim (_spKVStore c) ms /\ kb_keySize (_spKVStore c) = 8.

Lemma on_store_run {A} (m : M exn S A) (c : cli) r s : m (_spKVStore c) = (r, s) ->
  on_store m c = (r, mkNodeCli s (_statusMsgs c) (cout c)).
Proof. intros E. unfold on_store, czoom. by rewrite E. Qed.

Lemma key_argument_run all key (c : cli) ms : _isInvalidKey key = false -> cli_ready c ms ->
  exists a s, key_argument all key c = (Ret (Some (mkKey (cli_key key) (Some a) false)), mkNodeCli s (_statusMsgs c) (cout c)) /\
    kb_sim s ms /\ kb_keySize s = 8.
Proof.
  intros Hk [Hs Hz]. destruct (kb_AllocKey_block _ _ Hs) as (a & s1 & E1 & S1 & Z1).
  destruct (kb_setKey_keeps s1 ms (mkKey (replicate (Z.to_nat 8) 0) (Some a) false) (cli_key key) S1) as (s2 & E2 & S2 & Z2).
  exists a, s2. split; [|split; [done|lia]].
  assert (E : _strToKey key c = (Ret (mkKey (cli_key key) (Some a) false), mkNodeCli s2 (_statusMsgs c) (cout c))).
  { unfold _strToKey. rewrite Hk. unfold cbind. rewrite (on_store_run _ c _ _ E1), Hz. cbn [k_data]. simpl (Nat.ltb _ _).
    cbn iota. rewrite app_nil_r. by rewrite (on_store_run _ (mkNodeCli s1 _ _) _ _ E2). }
  unfold key_argument. rewrite Hk. unfold catch_failure, ccatch, cbind. destruct all; by rewrite E.
Qed.

Lemma no_attrs start (args : list string) (c : cli) : Z.of_nat (length args) < start + 3 -> _getKeyAttrs lexical_cast start args c = (Ret 0, c).
Proof. intros Hl. unfold _getKeyAttrs, NUM_ELEM_KEY_ATTRS. destruct (Z.ltb_spec (Z.of_nat (length args)) (start + 3)); [done|lia]. Qed.

(** The value of a put: it is allocated and written, or an error is printed. *)
Lemma value_argument_run k value (c : cli) ms : kb_key (k_data k) -> cli_ready c ms ->
  (exists r s, value_argument k value c = (r, mkNodeCli s (_statusMsgs c) (cout c ++ ["Error: cannot allocate value buffer"])) /\
     forall v, r <> Ret (Some v)) \/
  (exists e s ms', value_argument k value c = (Ret (Some (held e)), mkNodeCli s (_statusMsgs c) (cout c)) /\
     kb_sim s ms' /\ kb_keySize s = 8 /\ ms_map ms' = ms_map ms /\ ms_pending ms' !! k_data k = Some e /\ pe_bytes e = Some (bytes_of value ++ [0])).
Proof.
  intros Hk [Hs Hz]. destruct c as [s msgs out]. cbn [_spKVStore _statusMsgs cout] in *.
  unfold value_argument, _allocValue. set (size := Z.of_nat (String.length value) + 1).
  destruct (kb_Alloc_sim s ms k size Hs Hk) as (r & s2 & Ea & Z2 & Hr).
  pose proof (on_store_run (kb_Alloc k size) (mkNodeCli s msgs out) _ _ Ea) as Ea'. cbn [_statusMsgs cout] in Ea'.
  destruct r as [v|e| |]; [|left|done|done].
  - right. destruct Hr as (b & -> & _ & S2). destruct ms as [m p]. cbn [book] in S2. set (ms2 := mkMapSpec _ _) in S2.
    destruct (kb_write_sim s2 ms2 k (mkPending b size None) (bytes_of value ++ [0]) S2) as (s3 & Ew & S3 & Z3);
      [apply lookup_insert_eq|rewrite length_app, length_bytes; cbn [pe_size length]; lia|].
    pose proof (on_store_run (kb_write (held (mkPending b size None)) (bytes_of value ++ [0])) (mkNodeCli s2 msgs out) _ _ Ew) as Ew'.
    cbn [_statusMsgs cout] in Ew'. cbn [book ms2 ms_map ms_pending] in S3. rewrite lookup_insert_eq in S3.
    eexists (mkPending b size (Some (bytes_of value ++ [0]))), s3, _. split; [|split; [exact S3|]].
    + unfold ccatch, cbind. rewrite Ea', Ew'. done.
    + split; [lia|]. split; [done|]. cbn [ms_pending]. rewrite lookup_insert_eq. done.
  - unfold ccatch, cbind. rewrite Ea'. unfold say, cmod, on_store, czoom. cbn.
    destruct (kb_Free_key k s2) as [r s3]; cbn. destruct r; cbn; eexists _, s3; (split; [reflexivity|done]).
Qed.

(** A put that has printed its success. *)
Lemma cmdPut_run key value (c c' : cli) r ms : is_word key = true -> is_word value = true -> _isInvalidKey key = false ->
  kb_key (cli_key key) -> cli_ready c ms ->
  _cmdPut lexical_cast show_attr strerror ("put " +:+ key +:+ String " " value) c = (r, c') -> cout c' = cout c ++ [put_text show_attr key value 0] ->
  r = Ret tt /\ exists ms', cli_ready c' ms' /\ ms_map ms' = <[cli_key key := bytes_of value ++ [0]]> (ms_map ms).
Proof.
  intros Wk Wv Hk Hkey Hr E Hout. unfold _cmdPut in E.
  assert (Es : split ("put " +:+ key +:+ String " " value) = ["put"; key; value]).
  { change ("put " +:+ key +:+ String " " value) with ("put" +:+ String " " (key +:+ String " " value)).
    unfold is_word in Wk, Wv. apply andb_prop in Wk as [Nk Pk], Wv as [Nv Pv]. apply split_more; [done| |].
    - rewrite split_word; [by rewrite (split_last value)|done|unfold is_word; by rewrite Nv, Pv].
    - destruct key as [|x key]; [done|]. simpl in *. by destruct (is_sep x). }
  rewrite Es in E. destruct (key_argument_run true key c ms Hk Hr) as (a & s1 & E1 & S1 & Z1). rewrite (cbind_ret _ _ _ _ _ E1) in E.
  set (k := mkKey (cli_key key) (Some a) false) in E.
  destruct (value_argument_run k value (mkNodeCli s1 (_statusMsgs c) (cout c)) ms Hkey (conj S1 Z1))
    as [(rv & s2 & E2 & Hrv)|(e & s2 & ms2 & E2 & S2 & Z2 & Em & Ep & Eb)]; cbn [_statusMsgs cout] in *.
  - exfalso. unfold cbind at 1 in E. rewrite E2 in E. destruct rv as [[v|]|x| |]; [by destruct (Hrv v)|..];
      injection E as <- <-; apply app_inv_head in Hout; discriminate.
  - rewrite (cbind_ret _ _ _ _ _ E2) in E. rewrite (cbind_ret _ _ _ _ _ (no_attrs 3 ["put"; key; value] _ ltac:(simpl; lia))) in E.
    unfold catch_failure, ccatch, cbind at 1 in E. unfold on_store, czoom in E. cbn [_spKVStore] in E.
    destruct (kb_Put k (held e) s2) as [rp s3] eqn:Ek. destruct rp as [[]|x| |]; cbn in E.
    + injection E as <- <-. destruct (kb_Put_sim s2 ms2 k e s3 S2 Hkey ltac:(by exists e, (bytes_of value ++ [0])) Ep Ek) as [S3 Z3].
      split; [done|]. eexists. split; [split; [exact S3|cbn; lia]|]. destruct ms2 as [m2 p2]. cbn [book ms_map ms_pending k k_data] in *.
      rewrite Ep. cbn. rewrite Eb. cbn. by rewrite Em.
    + exfalso. destruct x; cbn in E; injection E as <- <-; cbn in Hout; try (apply app_inv_head in Hout; discriminate).
      all: by apply (f_equal length) in Hout; rewrite length_app in Hout; simpl in Hout; lia.
    + exfalso. injection E as <- <-. apply (f_equal length) in Hout. rewrite length_app in Hout. simpl in Hout. lia.
    + exfalso. injection E as <- <-. apply (f_equal length) in Hout. rewrite length_app in Hout. simpl in Hout. lia.
Qed.

(** Calls of the store print nothing. *)
Definition store_only {A} (m : M exn cli A) : Prop :=
  forall c, exists r s, m c = (r, mkNodeCli s (_statusMsgs c) (cout c)).

Lemma store_only_if (b : bool) (m : M exn S unit) : store_only (if b then on_store m else cret tt).
Proof. intros [s msgs out]. destruct b; [|by eexists _, _]. unfold on_store, czoom. by eexists _, _. Qed.

Lemma store_only_seq {A B} (m : M exn cli A) (f : A -> M exn cli B) : (forall a, store_only (f a)) -> store_only m -> store_only (cbind m f).
Proof.
  intros Hf Hm [s msgs out]. destruct (Hm (mkNodeCli s msgs out)) as (r & s1 & E). unfold cbind. rewrite E.
  destruct r as [a|e| |]; [apply (Hf a (mkNodeCli s1 msgs out))|by eexists _, _..].
Qed.

(** A get prints what the map has. *)
Lemma cmdGet_run key (c : cli) ms value : is_word key = true -> _isInvalidKey key = false -> kb_key (cli_key key) -> plain value = true ->
  cli_ready c ms -> ms_map ms !! cli_key key = Some (bytes_of value ++ [0]) ->
  exists r s, _cmdGet lexical_cast strerror ("get " +:+ key) c = (r, mkNodeCli s (_statusMsgs c) (cout c ++ ["[" +:+ key +:+ "] = " +:+ value])).
Proof.
  intros Wk Hk Hkey Pv Hr Hm. unfold _cmdGet.
  assert (Es : split ("get " +:+ key) = ["get"; key]).
  { change ("get " +:+ key) with ("get" +:+ String " " key). unfold is_word in Wk. apply andb_prop in Wk as [Nk Pk].
    rewrite split_word; [by rewrite (split_last key)|done|unfold is_word; by rewrite Nk, Pk]. }
  rewrite Es. destruct (key_argument_run false key c ms Hk Hr) as (a & s1 & E1 & S1 & Z1). rewrite (cbind_ret _ _ _ _ _ E1).
  set (k := mkKey (cli_key key) (Some a) false). rewrite (cbind_ret _ _ _ _ _ (no_attrs 2 ["get"; key] _ ltac:(simpl; lia))).
  pose proof (kb_Get_sim s1 ms k S1 Hkey) as HG. cbn [k k_data] in HG. rewrite Hm in HG. destruct HG as (v & s2 & Eg & Er & S2).
  erewrite cbind_ret; [|apply ccatch_ret].
  2:{ rewrite (cbind_ret _ _ _ _ _ (on_store_run _ (mkNodeCli s1 _ _) _ _ Eg)). cbn [_statusMsgs cout].
      rewrite (cbind_ret _ _ _ _ _ (on_store_run _ (mkNodeCli s2 _ _) _ _ Er)). cbn [_statusMsgs cout]. rewrite c_string_bytes by done. reflexivity. }
  cbn [_statusMsgs cout _spKVStore]. apply (store_only_seq _ (fun _ => _)); [intros b|]; apply store_only_if.
Qed.

(** C24. What is put in the shell is what the shell gets.  On a store that is a map, when the
    line "put key value" has printed its success, then the line "get key" prints the value,
    for words of which the key has at most five characters: the key that the text makes, the
    NUL behind the value and the words are taken apart as they were put together. *)
Theorem cli_put_get key value (c c' : cli) r ms : is_word key = true -> is_word value = true -> (String.length key <= 5)%nat ->
  kb_key (cli_key key) -> cli_ready c ms ->
  line (Some ("put " +:+ key +:+ String " " value)) c = (r, c') -> cout c' = cout c ++ [put_text show_attr key value 0] ->
  r = Ret true /\ exists rest, cout (snd (line (Some ("get " +:+ key)) c')) = cout c' ++ ("[" +:+ key +:+ "] = " +:+ value) :: rest.
Proof.
  intros Wk Wv Hl Hkey Hr E Hout.
  assert (Hk : _isInvalidKey key = false).
  { unfold _isInvalidKey, sizeof_eventId. destruct key; [done|]. destruct (Nat.ltb_spec 5 (String.length (String a key))); [lia|done]. }
  change (line (Some ("put " +:+ key +:+ String " " value)) c) with
    (ccatch (_cmdPut lexical_cast show_attr strerror ("put " +:+ key +:+ String " " value) ;;; cret true)
      (fun e => match e with NotImplementedException => say ("Not Implemented: " +:+ not_implemented) ;;; cret true | _ => cthrow e end) c) in E.
  destruct (_cmdPut lexical_cast show_attr strerror ("put " +:+ key +:+ String " " value) c) as [rp c1] eqn:Ep.
  assert (Hp : cout c1 = cout c ++ [put_text show_attr key value 0] -> rp = Ret tt /\ exists ms', cli_ready c1 ms' /\
    ms_map ms' = <[cli_key key := bytes_of value ++ [0]]> (ms_map ms)) by (intros Ho; exact (cmdPut_run key value c c1 rp ms Wk Wv Hk Hkey Hr Ep Ho)).
  assert (Hc : rp = Ret tt /\ r = Ret true /\ c1 = c').
  { unfold ccatch, cbind in E. rewrite Ep in E. destruct rp as [[]|x| |]; cbn in E.
    - by injection E as <- <-.
    - destruct x; cbn in E; injection E as <- <-; try (by destruct (Hp Hout)). cbn in Hout. apply app_inj_tail in Hout as [_ Hx]. unfold put_text in Hx. simpl in Hx. discriminate Hx.
    - injection E as <- <-. by destruct (Hp Hout).
    - injection E as <- <-. by destruct (Hp Hout). }
  destruct Hc as (-> & -> & ->). split; [done|]. destruct (Hp Hout) as (_ & ms' & Hr' & Hm).
  assert (Pv : plain value = true) by (unfold is_word in Wv; by apply andb_prop in Wv as [_ ?]).
  destruct (cmdGet_run key c' ms' value Wk Hk Hkey Pv Hr') as (rg & s & Eg); [rewrite Hm; apply lookup_insert_eq|].
  change (line (Some ("get " +:+ key)) c') with
    (ccatch (_cmdGet lexical_cast strerror ("get " +:+ key) ;;; cret true)
      (fun e => match e with NotImplementedException => say ("Not Implemented: " +:+ not_implemented) ;;; cret true | _ => cthrow e end) c').
  unfold ccatch, cbind. rewrite Eg. destruct rg as [[]|x| |]; cbn; [by exists []| |by exists []..].
  destruct x; cbn; try (by exists []). rewrite <- app_assoc. by eexists.
Qed.

Lemma word_start w rest : is_word w = true -> match w +:+ rest with String c _ => is_sep c = false | EmptyString => False end.
Proof. unfold is_word. destruct w as [|c w]; [done|]. simpl. by destruct (is_sep c). Qed.

Lemma word_plain w : is_word w = true -> plain w = true.
Proof. unfold is_word. by intros [_ ?]%andb_prop. Qed.

(** A typing error ends the shell, and a completion can use variables that are gone.  An
    option whose value cannot be converted leaves the shell as an exception that nothing
    catches; and the callbacks of asynchronous puts and updates, called when their command
    has returned, use the key and the options of that command.  The callback of a get only
    records its message. *)
Theorem cli_leaves (key name x : string) (c : cli) ms : is_word key = true -> is_word name = true -> is_word x = true ->
  (String.length key <= 5)%nat -> lexical_cast x = None -> cli_ready c ms ->
  fst (line (Some ("get " +:+ key +:+ String " " ("-o" +:+ String " " (name +:+ String " " x)))) c) = Throw bad_lexical_cast /\
  forall st k v keyBuff attr wv,
    fst (call_callback show_attr strerror false (OnPut keyBuff attr) st k v c) = Undef /\
    fst (call_callback show_attr strerror false (OnUpdate wv keyBuff attr) st k v c) = Undef /\
    exists t, call_callback show_attr strerror false OnGet st k v c = (Ret tt, mkNodeCli (_spKVStore c) (_statusMsgs c ++ [t]) (cout c)).
Proof.
  intros Wk Wn Wx Hl Hx Hr. split.
  - assert (Hk : _isInvalidKey key = false).
    { unfold _isInvalidKey, sizeof_eventId. destruct key; [done|]. destruct (Nat.ltb_spec 5 (String.length (String a key))); [lia|done]. }
    set (l := "get " +:+ _). assert (Es : split l = ["get"; key; "-o"; name; x]).
    { change l with ("get" +:+ String " " (key +:+ String " " ("-o" +:+ String " " (name +:+ String " " x)))).
      apply split_more; [done| |by apply word_start]. apply split_more; [by apply word_plain| |done].
      apply split_more; [done| |by apply word_start]. rewrite split_word by (done || by apply word_plain). by rewrite (split_last x) by (by apply word_plain). }
    change (line (Some l) c) with
      (ccatch (_cmdGet lexical_cast strerror l ;;; cret true)
        (fun e => match e with NotImplementedException => say ("Not Implemented: " +:+ not_implemented) ;;; cret true | _ => cthrow e end) c).
    destruct (key_argument_run false key c ms Hk Hr) as (a & s1 & E1 & S1 & Z1).
    assert (E : _cmdGet lexical_cast strerror l c = (Throw bad_lexical_cast, mkNodeCli s1 (_statusMsgs c) (cout c))).
    { unfold _cmdGet. rewrite Es, (cbind_ret _ _ _ _ _ E1). apply cbind_throw. unfold _getKeyAttrs, NUM_ELEM_KEY_ATTRS. cbn [length].
      change (Z.of_nat 5 <? 2 + 3) with false. change (negb ((Z.of_nat 5 - 2) mod 3 =? 0)) with false. cbn iota.
      rewrite (attrs_loop_words lexical_cast ["get"; key; "-o"; name; x] ltac:(simpl; lia) 1) by (simpl; lia).
      change (drop (Z.to_nat 2) _) with ["-o"; name; x]. cbn [attrs_of]. change (starts_with "-o" "-o") with true. unfold option_attr. by rewrite Hx. }
    unfold ccatch, cbind. by rewrite E.
  - intros st k v keyBuff attr wv. unfold call_callback. split_and!; [|by destruct (ok st)|by eexists]. by destruct (ok st).
Qed.
End RoundTrip.

(** ** The shell of a storage node *)

Section Storage.
Context {T R R1 R2 PO N : Type} `{RTreeEngine T} `{SpdkRing (list Z) R} `{SpdkRing (Rqst RqstOperation cli_callback) R1}
  `{SpdkRing (Rqst OffloadOperation cli_callback) R2} `{RqstPool cli_callback PO} `{StoreServices (@OffloadFront cli_callback R2 PO) N}.

#[local] Abbreviation astore := (@AsyncStore T cli_callback R R1 R2 PO N).

(** What [location] holds in [UpdateAsync], the address and the old contents of the next
    request, and the answers of [getProperty]. *)
Context (junk : LOCATIONS) (next_id : astore -> positive) (raw : list Z) (property : string -> M exn astore string).

Definition is_long_term (attr : Z) : bool := negb (Z.land attr LONG_TERM =? 0).

Definition key_block {A} (key : Key) (f : positive -> Z -> M exn astore A) : M exn astore A :=
  match k_block key with Some kp => f kp (Z.of_nat (length (k_data key))) | None => cundef end.

Definition node_GetAsync (key : Key) (cb : cli_callback) (attr : Z) : M exn astore unit :=
  key_block key (fun kp ks s => GetAsync (next_id s) raw kp ks cb (mkAsyncOptions (is_long_term attr) true 0) s).

Definition node_PutAsync (key : Key) (v : Value) (cb : cli_callback) (attr : Z) : M exn astore unit :=
  key_block key (fun kp ks s => PutAsync (next_id s) raw kp ks v cb (mkAsyncOptions (is_long_term attr) true 0) s).

Definition node_UpdateAsync (key : Key) (v : option (list Z)) (cb : cli_callback) (attr : Z) : M exn astore unit :=
  let! val := match v with
              | Some bytes => let! a := on_kv (new_block bytes) in cret (mkValue (Some (VHeap a)) (Z.of_nat (length bytes)) false)
              | None => cret (mkValue None 0 false)
              end in
  key_block key (fun kp ks => UpdateAsync kp ks val junk cb (mkAsyncOptions (is_long_term attr) true 0)).

#[local] Instance storage_cli : CliStore astore cli_callback :=
  {| cs_Update := fun k _ attr => on_kv (Update_kv k (is_long_term attr)); cs_GetAsync := node_GetAsync; cs_PutAsync := node_PutAsync;
     cs_UpdateAsync := node_UpdateAsync; cs_getProperty := property |}.
End Storage.

(** ** Concrete runs *)

Section Runs.
#[local] Existing Instances simple_pool KVAsync.async_tree KVAsync.async_rings.
#[local] Abbreviation Rings A := (list_ring A).
#[local] Instance cli_pool : RqstPool cli_callback (gset positive) := simple_rqst_pool cli_callback.
#[local] Abbreviation Front := (@OffloadFront cli_callback (Rings (Rqst OffloadOperation cli_callback)) (gset positive)).
#[local] Instance cli_services : StoreServices Front unit :=
  {| off_get := fun _ o => (NoReply, o); off_update := fun _ _ _ _ o => (NoReply, o); off_remove := fun _ o => (NoReply, o);
     cl_put := fun _ _ => cret tt; cl_get := fun _ => cthrow (OperationFailedException KEY_NOT_FOUND);
     cl_remove := fun _ => cret tt; cl_alloc := fun _ n => cret (mkValue (Some VMsg) n true);
     cl_allocKey := fun n => cret (mkKey (replicate (Z.to_nat n) 0) None true);
     cl_free_value := fun _ _ => cret tt; cl_free_key := fun _ => cret tt |}.
#[local] Abbreviation St := (@AsyncStore (@ARTree (gset positive)) cli_callback (Rings (list Z)) (Rings (Rqst RqstOperation cli_callback))
  (Rings (Rqst OffloadOperation cli_callback)) (gset positive) unit).
#[local] Instance cli_base : KVStoreBase St := storage_base OnGet PMEM (fun _ => 1%positive) [].
#[local] Instance cli_map : KVStoreMap St := storage_map OnGet PMEM (fun _ => 1%positive) [] run_dht.
#[local] Instance cli_calls : CliStore St cli_callback := storage_cli PMEM (fun _ => 1%positive) [] (fun _ => cret "").

Definition run_lexical (w : string) : option bool :=
  if String.eqb w "1" then Some true else if String.eqb w "0" then Some false else None.
Definition run_cli : @nodeCli St :=
  mkNodeCli (mkAsyncStore (mkKVStore run_new ∅ ∅ (EBase run_pkeys) (mkOffloadFront (mkPoller (mkListRing [] 4) [] 0) ∅ ∅) tt run_dht true 8) [] 0 0 []) [] [].
Definition run_line (l : string) : @nodeCli St -> outcome exn bool * nodeCli := shell_line run_lexical pretty "" (fun _ => "") (Some l).

(** A value is put and read again; an option that is no number. *)
Example shell_put_get : cout (snd (run_line "get ev1" (snd (run_line "put ev1 hello" run_cli)))) = ["Put: [ev1] = hello (Opts:0)"; "[ev1] = hello"].
Proof. vm_compute. reflexivity. Qed.
Example shell_typo : fst (run_line "get ev1 -o ready yes" run_cli) = Throw bad_lexical_cast.
Proof. vm_compute. reflexivity. Qed.
Example shell_missing : cout (snd (run_line "get	ev2" (snd (run_line "remove ev1" run_cli)))) = ["[ev1] not found"; "[ev2] not found"].
Proof. vm_compute. reflexivity. Qed.

Lemma run_cli_ready : cli_ready run_cli (mkMapSpec ∅ ∅).
Proof.
  split; [|reflexivity]. split; cbn [ms_map ms_pending]; try done.
  - exact (reachable_inv 1 1 1 run_new run_new_reachable).
  - intros k _. rewrite lookup_empty. apply run_new_empty.
Qed.

Lemma cli_attrs_exact_witness : attrs_loop run_lexical 256 2 ["get"; "ev1"; "-o"; "ready"; "1"; "-o"; "lock"; "1"] 0 = Some (Ret 3).
Proof.
  rewrite (proj1 (cli_attrs_exact run_lexical ["get"; "ev1"; "-o"; "ready"; "1"; "-o"; "lock"; "1"] 2 ltac:(left; reflexivity)
    ltac:(vm_compute; discriminate) ltac:(vm_compute; reflexivity)) ltac:(vm_compute; reflexivity)).
  vm_compute. reflexivity.
Defined.

Lemma cli_put_get_witness : exists rest,
  cout (snd (run_line "get ev1" (snd (run_line "put ev1 hello" run_cli)))) = ["Put: [ev1] = hello (Opts:0)"] ++ "[ev1] = hello" :: rest.
Proof.
  refine (proj2 (cli_put_get run_lexical pretty "" (fun _ => "") "ev1" "hello" run_cli (snd (run_line "put ev1 hello" run_cli)) (Ret true)
    (mkMapSpec ∅ ∅) eq_refl eq_refl ltac:(vm_compute; lia) _ run_cli_ready _ _)).
  - split; [split; [reflexivity|repeat constructor; vm_compute; congruence]|reflexivity].
  - vm_compute. reflexivity.
  - vm_compute. reflexivity.
Defined.

Lemma cli_leaves_witness : fst (run_line "get ev1 -o ready yes" run_cli) = Throw bad_lexical_cast.
Proof.
  exact (proj1 (cli_leaves run_lexical pretty "" (fun _ => "") "ev1" "ready" "yes" run_cli (mkMapSpec ∅ ∅) eq_refl eq_refl eq_refl
    ltac:(vm_compute; lia) eq_refl run_cli_ready)).
Defined.
End Runs.
