(* ===== verification/NodeMain.v ===== *)
(** * The program of a node ([examples/clinode/node.cpp], [config.cpp])

    The options of the node and the loop that runs the shell. *)

From stdpp Require Import strings.
From S2P Require Import Prelude Status SpdkConf PrimaryKey Configuration KVStore KVStoreBase MinidaqApp NodeCli.

#[local] Open Scope Z_scope.

Definition DEFAULT_PMEM_POOL_PATH : string := "/mnt/pmem/pool.pm".
Definition DEFAULT_PMEM_POOL_SIZE : Z := 8 * 1024 * 1024 * 1024.
Definition DEFAULT_PMEM_ALLOC_UNIT_SIZE : Z := 1024.
Definition DEFAULT_OFFLOAD_ALLOC_UNIT_SIZE : Z := 16384.

(** [initKvsOptions]: the defaults, and then what the file says.  The log function and the id
    of the node are not read by the store. *)
Definition node_options (file : option Config) (o : Options) : outcome exn Options :=
  let f := offload o in
  read_file file
    (mkOptions DEFAULT_PMEM_POOL_PATH DEFAULT_PMEM_POOL_SIZE DEFAULT_PMEM_ALLOC_UNIT_SIZE
       (field_set 2 2 false (field_set 1 1 false (field_set 0 (Z.of_nat NodeCli.sizeof_eventId) true (opt_key o))))
       (mode o) (baseCoreId o)
       (mkOffloadOptions (devType f) (oname f) DEFAULT_OFFLOAD_ALLOC_UNIT_SIZE (raid0StripeSize f) (_devs f))
       (dht o) (numOfDhtThreads o) (baseDhtId o)).

Section Loop.
Context {S : Type} `{KVStoreBase S} `{CliStore S cli_callback}
  (lexical_cast : string -> option bool) (show_attr : Z -> string) (not_implemented : string) (strerror : Z -> string).

(** [while (nodeCli()) if (!isRunning) break] on the lines that are read, each with the flag
    that the store's shutdown function clears. *)
Fixpoint interactive (lines : list (option string * bool)) : M exn (@nodeCli S) unit :=
  match lines with
  | [] => cret tt
  | (l, isRunning) :: lines =>
      let! go := shell_line lexical_cast show_attr not_implemented strerror l in
      if go && isRunning then interactive lines else cret tt
  end.

(** A session ends with a line that begins with a "q" and with the end of the input: what
    comes behind is not read. *)
Lemma session_ends (before after : list (option string * bool)) (w : string) (b : bool) (c : @nodeCli S) :
  interactive (before ++ (Some ("q" +:+ w), b) :: after) c = interactive before c /\
  interactive (before ++ (None, b) :: after) c = interactive before c.
Proof.
  assert (Hgo : forall end_line, (forall c, interactive ((end_line, b) :: after) c = (Ret tt, c)) ->
    interactive (before ++ (end_line, b) :: after) c = interactive before c).
  { intros end_line He. revert c. induction before as [|[l r] before IH]; intros c; [apply He|].
    cbn [app interactive]. unfold cbind. destruct (shell_line _ _ _ _ l c) as [[[]|e| |] c']; try done. destruct r; [apply IH|done]. }
  split; apply Hgo; intros c'; [by destruct w|done].
Qed.
End Loop.

(** ** The keys of a node *)

(** Without a file the keys have the fields of [CliNodeKey], and its size. *)
Lemma node_keys o : opt_key o = [] -> exists o', node_options None o = Ret o' /\
  init_keySize (opt_key o') = Z.of_nat sizeof_CliNodeKey /\ fsize <$> opt_key o' = [Z.of_nat NodeCli.sizeof_eventId; 1; 2].
Proof. intros E. eexists. split; [reflexivity|]. cbn [opt_key]. rewrite E. vm_compute. done. Qed.
