(* ===== verification/MinidaqReport.v ===== *)
(** * Reports of the minidaq benchmark ([MinidaqStats::Dump], [DumpSummary], [MinidaqNode::Save])

    The files that a run leaves: the distribution of each metric of each thread, and one row
    in a table of all runs.  The numbers that HdrHistogram computes, and [double], are
    parameters; a file is a list of rows of fields. *)

From stdpp Require Import strings pretty.
From S2P Require Import Prelude Status MinidaqStats.

#[local] Open Scope Z_scope.

Section Reports.
Context {H V : Type} `{HdrHistogram H} (zero : V) (mops : V -> V) (hdr_mean hdr_stddev hdr_min hdr_max : H -> V).

(** ** The table of runs *)

Inductive csv_field : Type := Text (t : string) | Num (v : V).
Abbreviation csv_row := (list csv_field).

Definition summary_header : csv_row :=
  Text <$> ["TestName"; "mrps-Mean"; "mrps-StdDev"; "mrps-Min"; "mrps-Max"; "mcps-Mean"; "mcps-StdDev"; "mcps-Min"; "mcps-Max";
            "mrps-e-Mean"; "mrps-e-StdDev"; "mrps-e-Min"; "mrps-e-Max"; "mcps-e-Mean"; "mcps-e-StdDev"; "mcps-e-Min"; "mcps-e-Max"].

(** [_DumpSummaryCsv]: the switch is that of [csv_histogram]. *)
Definition _DumpSummaryCsv (s : @MinidaqStats H) (t : MinidaqMetricType) : csv_row :=
  let h := csv_histogram s t in
  let value (f : H -> V) := Num (if total_count h =? 0 then zero else mops (f h)) in
  [value hdr_mean; value hdr_stddev; value hdr_min; value hdr_max].

Definition summary_row (name : string) (s : @MinidaqStats H) : csv_row :=
  Text name :: _DumpSummaryCsv s METRIC_RPS ++ _DumpSummaryCsv s METRIC_CPS ++ _DumpSummaryCsv s METRIC_RPS_ERR ++ _DumpSummaryCsv s METRIC_CPS_ERR.

(** [DumpSummary(file, name)]: a file that can be opened is appended to, another one is made
    with the header. *)
Definition DumpSummary_file (name : string) (s : @MinidaqStats H) (file : option (list csv_row)) : list csv_row :=
  match file with
  | Some rows => rows ++ [summary_row name s]
  | None => [summary_header; summary_row name s]
  end.

(** [DumpSummary()]: the line of a metric on the terminal. *)
Definition _DumpSummary (s : @MinidaqStats H) (t : MinidaqMetricType) : csv_row :=
  let h := summary_histogram s t in
  let value (f : H -> V) := Num (if total_count h =? 0 then zero else mops (f h)) in
  [Text (match t with METRIC_RPS => "mrps" | METRIC_RPS_ERR => "mrps-err" | METRIC_CPS => "mcps" | METRIC_CPS_ERR => "mcps-err" end);
   value hdr_mean; value hdr_stddev; value hdr_min; value hdr_max].

(** ** The distributions *)

Definition metric_file (t : MinidaqMetricType) : string :=
  match t with METRIC_RPS => "histo-mrps" | METRIC_RPS_ERR => "histo-mrps-err" | METRIC_CPS => "histo-mcps" | METRIC_CPS_ERR => "histo-mcps-err" end.

(** The files that were written, by name; [can_open] is what [fopen] answers.  Without a file
    the code prints so and goes on with the null pointer. *)
Definition _DumpCsv (can_open : string -> bool) (fp : string) (s : @MinidaqStats H) (t : MinidaqMetricType) : M exn (gmap string H) unit :=
  let fn := fp +:+ "-" +:+ metric_file t +:+ ".csv" in
  if can_open fn then cmod (<[fn := csv_histogram s t]>) else cundef.

Definition Dump (can_open : string -> bool) (fp : string) (s : @MinidaqStats H) : M exn (gmap string H) unit :=
  _DumpCsv can_open fp s METRIC_RPS ;;; _DumpCsv can_open fp s METRIC_RPS_ERR ;;;
  _DumpCsv can_open fp s METRIC_CPS ;;; _DumpCsv can_open fp s METRIC_CPS_ERR.

(** [MinidaqNode::Save]: a report of each thread, and one of all. *)
Fixpoint save_threads (can_open : string -> bool) (fp ty : string) (i : nat) (l : list (@MinidaqStats H)) : M exn (gmap string H) unit :=
  match l with
  | [] => cret tt
  | s :: l => Dump can_open (fp +:+ "-thread-" +:+ pretty i +:+ "-" +:+ ty) s ;;; save_threads can_open fp ty (S i) l
  end.

Definition Save (can_open : string -> bool) (fp ty : string) (statsReady : bool) (statsVec : list (@MinidaqStats H)) (statsAll : @MinidaqStats H) :
    M exn (gmap string H) unit :=
  if negb statsReady || String.eqb fp "" then cret tt
  else save_threads can_open fp ty 0 statsVec ;;; Dump can_open (fp +:+ "-thread-all-" +:+ ty) statsAll.

(** ** What the reports say *)

(** A table of runs. *)
Fixpoint run_table (runs : list (string * @MinidaqStats H)) (file : option (list csv_row)) : option (list csv_row) :=
  match runs with
  | [] => file
  | (name, s) :: runs => run_table runs (Some (DumpSummary_file name s file))
  end.

Lemma run_table_rows runs rows : run_table runs (Some rows) = Some (rows ++ ((fun r => summary_row (fst r) (snd r)) <$> runs)).
Proof.
  revert rows. induction runs as [|[name s] runs IH]; intros rows; simpl; [by rewrite app_nil_r|]. rewrite IH. by rewrite <- app_assoc.
Qed.

(** The table of runs has its header once and one row for each run, as wide as the
    header; but in every row the four columns of completions are those of requests,
    whatever was completed, while the terminal shows the completions.  The same holds for
    the files of a report. *)
Theorem report_columns runs (s : @MinidaqStats H) name : runs <> [] ->
  run_table runs None = Some (summary_header :: ((fun r => summary_row (fst r) (snd r)) <$> runs)) /\
  length (summary_row name s) = length summary_header /\
  take 4 (drop 5 (summary_row name s)) = take 4 (drop 1 (summary_row name s)) /\
  tail (_DumpSummary s METRIC_CPS) = tail (_DumpSummary (mkStats (_histogramCps s) (_histogramCps s) (_histogramRpsErr s) (_histogramCpsErr s)
    (_nIterations s) (_totalTime_ns s) (_nOverflows s)) METRIC_RPS) /\
  (forall can_open fp files files', Dump can_open fp s files = (Ret tt, files') ->
     files' !! (fp +:+ "-histo-mcps.csv") = Some (_histogramRps s)).
Proof.
  intros Hr. split_and!.
  - destruct runs as [|[n x] runs]; [done|]. simpl. by rewrite run_table_rows.
  - done.
  - done.
  - done.
  - intros can_open fp files files' E. unfold Dump in E. apply cbind_inv in E as ([] & f1 & _ & E). apply cbind_inv in E as ([] & f2 & _ & E).
    apply cbind_inv in E as ([] & f3 & E3 & E4). unfold _DumpCsv in E3, E4. cbn [metric_file csv_histogram] in E3, E4.
    destruct (can_open _) in E3; [|done]. destruct (can_open _) in E4; [|done]. injection E3 as <-. injection E4 as <-.
    change (fp +:+ "-" +:+ "histo-mcps" +:+ ".csv") with (fp +:+ "-histo-mcps.csv"). rewrite lookup_insert_ne; [apply lookup_insert_eq|].
    intros Ef. apply (inj (String.append fp)) in Ef. discriminate.
Qed.
End Reports.

(** ** A run *)

Definition report_stats : @MinidaqStats (list Z) := mkStats [10; 20] [3] [] [] 2 0 0.
Definition report_row : list (@csv_field Z) := summary_row 0 (fun x => x) (hd 0) (fun _ => 0) (hd 0) (fun h => List.last h 0) "test" report_stats.

Lemma report_columns_witness : take 4 (drop 5 report_row) = [Num 10; Num 0; Num 10; Num 20].
Proof.
  destruct (report_columns 0 (fun x => x) (hd 0) (fun _ => 0) (hd 0) (fun h => List.last h 0) [("test", report_stats)] report_stats "test"
    ltac:(discriminate)) as (_ & _ & E & _).
  exact E.
Defined.
